(* ===== verification/_CoqProject ===== *)
-Q . S2P
Prelude.v
Floats.v
Primitives.v
Keypair.v
Transactions.v
ToyModel.v
TransactionProofs.v
Account.v
HashKeys.v
Mempool.v
Staking.v
Claim.v
Reward.v
Vrf.v
Blocks.v
BlockProofs.v
Threshold.v
Storage.v
TrieBackend.v
StorageProofs.v
Dag.v
Miner.v
NodeErrors.v
StateManager.v
Quorum.v
Config.v
Events.v
Network.v
Consensus.v
Runtime.v
Rpc.v
JobTask.v
JobPool.v
JobScheduler.v
FileSystem.v
KeyFiles.v
Cli.v
Wasm.v
Platform.v
Web3.v
Agent.v
Indexer.v
Node.v
Validators.v
