(* ===== verification/Prelude.v ===== *)
(** * A verification library for the VRRB / Versatus node

    The node ([src/crates]) keeps accounts, collects transfers in a mempool,
    lets farmers and harvesters certify them with threshold signatures, and
    lets an elected miner turn the certified proposals of a round into a
    convergence block of a DAG, from which a state manager computes the next
    account state. The library follows that path, one file per component, as a
    shallow embedding: structs are records, enums are inductive types, integers
    are [Z] with the width of their type written out, methods that write are
    state-passing functions of type [method], and a fallible call returns
    [result], which separates [Err] from [Panic] (an [unwrap], an out-of-range
    slice, an overflow in a build with checks).

    ** Files

    - [Prelude]: [result] and [method] with their notations, fixed-width
      arithmetic under a build [Profile], hash sets and maps by an iteration
      order ([HashOrder]), insertion-ordered maps ([LinkedMap]), [BTreeMap]s as
      sorted association lists, stable sorting, tactics and hints.
    - [Floats]: IEEE arithmetic of [f64] and [f32] casts, on the Standard
      Library's [SpecFloat].
    - [Primitives], [Keypair]: [crates/primitives], [threshold_config.rs] and
      [vrrb_core/src/keypair.rs]: node kinds, digests, addresses, key pairs.
    - [Transactions], [TransactionProofs]: [vrrb_core/src/transactions]: the
      [Transaction] trait as a class, transfers and their builder, digests and
      signatures.
    - [ToyModel]: concrete instances of every parameter, used by witnesses.
    - [Account]: [vrrb_core/src/account.rs].
    - [HashKeys]: the implementations of [Hash] for transfers and account updates, and
      what a hash set of such keys holds.
    - [Mempool]: [mempool/src/mempool.rs].
    - [Staking], [Claim], [Reward], [Vrf]: [staking.rs] and [claim.rs] of
      [vrrb_core], [consensus/reward], [consensus/vrrb_vrf].
    - [Blocks], [BlockProofs]: [crates/block]: headers, the three kinds of
      block, certificates, validation data.
    - [Threshold]: [consensus/dkg_engine] and [consensus/signer].
    - [Storage], [StorageProofs]: [storage/vrrbdb]: the three stores, transfers
      and genesis blocks on the database, the account updates of a round.
    - [TrieBackend]: [storage/vrrbdb/src/rocksdb_adapter.rs], with the environment
      and the directories it is opened from.
    - [Dag], [StateManager]: [node/src/state_manager]: the block DAG, the
      consolidation of a round, the handlers.
    - [Miner]: [crates/miner]: conflict resolution and block building.
    - [Quorum]: [consensus/quorum] and [node/src/consensus/quorum_module.rs].
    - [NodeErrors], [Config], [Events]: the error texts of the node,
      [crates/vrrb_config], and [crates/events] with the messages between nodes;
      [Events] also says what a handler is: it changes its own state and leaves
      events on the bus and messages on the wire.
    - [Network]: [node/src/network]: the broadcasts of the network module and what
      it does with events and with messages of peers.
    - [Consensus]: [node/src/consensus/consensus_module.rs]: membership, genesis
      quorum, key generation and certificates.
    - [Runtime]: [node/src/runtime]: the node that owns the components above and
      dispatches the events between them.
    - [Rpc]: [vrrb_rpc/src/rpc] and [wallet/src/v2]: the calls a node answers and
      the wallet that makes them, which may be run against that server.
    - [JobTask], [JobPool], [JobScheduler]: [consensus/job_pool] and
      [consensus/job_scheduler]: jobs and the threads that join them, the pool with
      its workers as a step relation in which every access to a shared counter or
      queue is a step, the back pressure.
    - [FileSystem]: the files a process sees, as the Standard Library of Rust
      shows them: a failed or partial write, a denied call and a missing directory
      are states of it; the directories of [vrrb_core/src/storage_utils.rs].
    - [KeyFiles]: the key files of [vrrb_core/src/keypair.rs] and [helpers.rs].
    - [Cli]: [cli/src/commands]: options and start of a node, the wallet commands.
    - [Wasm]: [wasm_loader], [wasm_runtime] and the commands of [wasm_cli].
    - [Platform]: [platform/src/platform_stats.rs] and the look-up of
      [service_config].
    - [Web3]: [web3_pkg] and [examples/web3-pkg.rs]: packages as linked objects of a
      content-addressed store, and the command that makes, publishes and retrieves
      them.
    - [Agent]: [compute_agent], [storage_agent] and the file of [service_config]: what
      the agents' commands do and the metrics the daemon exports, with its requests
      as a step relation over the accesses to the shared counters.
    - [Indexer]: [vrrb_http] and [node/src/indexer_module.rs].
    - [Node]: [node/src/node.rs], [runtime/mod.rs], [runtime_component.rs] and the set-up
      functions they call: how a node starts and stops.
    - [Validators]: [crates/validator]: checks of transactions and claims.

    A definition carries the name of the Rust item, with a prefix where two
    components share a name ([mp_insert], [state_insert], [claims_insert]). Where a
    loop body or a block of one Rust function is a definition of its own
    ([identify_txn], [push_update], [keep_account]), it belongs to the definition
    of that function, which calls it. Constants, builder setters and one-line
    wrappers have definitions of the same names, though the manifest maps them
    only where a property is about them.

    ** Parameters

    Third-party crates are classes, and what the code relies on are the fields
    of a [...Laws] class beside it: SHA-256 and hexadecimal ([Hashing]),
    [Secp256k1], BLS keys ([ValidatorKeys], [CertificateKeys]), hbbft's
    threshold cryptography and key generation ([ThresholdCrypto], [KeyGen]), the
    elliptic-curve VRF and its generator ([Ecvrf]), left-right handles
    ([LeftRight]), the Jellyfish Merkle trie ([TrieDb]), the DAG crate
    ([BullDag]), serde's encodings ([ToJson], [Bincode]), [Debug] texts, the
    Kademlia table ([KademliaDht]), the transport ([Dyswarm]), filters and caches,
    RocksDB and the trie's nodes ([RocksDb], [Patriecia]), texts and encodings of
    keys ([KeyCodec], [KeyTextLaws], [ValidatorTextLaws], [Base58]), JSON files
    ([PrettyJson], [FromJson], [JsonText]), the parser, assembler and engine of
    WebAssembly ([WasmTools], [WasmEngine]), the word list ([WordList]), the store of
    packages ([IpfsApi]), the metrics registry ([Prometheus]), the HTTP client
    ([Reqwest]) and the RPC server ([JsonRpSee]). The client of a wallet is a record of calls on a
    remote side of any type. What the language leaves to the platform is a class
    too: the logarithm ([Log10]), the sign of a NaN ([NanSign]), the order of a
    directory ([DirOrder]), the texts of errors ([IoErrorText],
    [ParseIntErrorText]). The trie's documentation does not say whether a write is
    visible before the commit: [trie_eager] leaves it open, and a theorem that
    depends on it says so. Clocks, random draws and hash iteration orders are
    arguments, and so is how a spawned task ends ([Outcome]): the loop that feeds an
    actor belongs to the actor crate.
    Every law class has an instance in [ToyModel] or beside its class, so the
    hypotheses of the theorems can hold together.

    ** What is proved

    - Accounts: what an update returns and writes in every case, the partial writes
      of a refused one and the overflow of the nonce included; debits never exceed
      credits on any path; the nonce rule lets an update be replayed once.
    - Database: a transfer conserves the sum of the balances and touches two
      accounts; a failed one leaves the database unchanged, except that a
      refused receiver leaves the sender debited; a batch is all or nothing per
      account; a transfer to oneself depends on the visibility of writes.
    - Keys: a set of account updates holds each update once, whatever orders the tables
      are in; transfers are equal exactly when their signed fields are, but for hash
      collisions, and may then have different hashes, so a set of them may hold one twice.
    - Mempool: any sequence of operations refines a map; [fetch_txns] repeats
      one record.
    - Claims, stakes and rewards: what each kind of stake transaction does to the
      stake, a slash within two units of its percentage below [2 ^ 53]; election
      results collide only with hashes, claims and stakes verify after they are made,
      rewards stay between the baselines.
    - Blocks and DAG: heights, rounds and seeds along a chain of headers; which
      references a convergence block is linked to; certificates do not bind
      their block; no proposal block enters the DAG.
    - Threshold signatures: enough partial signatures combine to one that
      verifies; a key share exists only after a completed key generation.
    - Miner and quorums: resolution returns exactly when one block decides all
      conflicts and then keeps every transaction once; the miner election,
      the final quorum and the assignment of peers do what they say; a quorum
      election always fails.
    - State manager: consolidated nonces, amounts and digests do not depend on the
      order of the updates, storage and code do; a round is applied account by
      account, and panics when the validators of a transaction did not vote for it.
    - Trie back end: the values refine a log of the writes, with versions that
      never go back; an instance opened again keeps the nodes and loses every
      value; the rightmost leaf is the greatest.
    - Network and consensus module: while the routing table stays as it is,
      assignments reach at most the closest peers; membership refines a node that joins once; the genesis election
      starts when every expected member is online; no certificate is ever made.
    - Runtime: its parts agree on identity and configuration along every run; no
      event changes the ledger or mines a block; acknowledgements are filed under
      the wrong nodes.
    - Remote calls and wallet: a payment sent by a wallet is published once under
      the identifier returned, always with nonce 0; a stored transaction is found
      by its identifier; an account is never updated and a wallet never restored.
    - Job pool: along every interleaving no job is run twice, and none is lost but
      those whose thread could not be created or that were queued in a pool nobody
      holds any more; what the counters hold, including the jobs they never count as
      finished, and how many completion times are kept at most; a thread that joins a job gets its
      result; joining the pool waits for the workers when it has a deadline, and
      may return before them when it has none; two workers that leave at once
      strand a job.
    - Key files and command line: a key file gives its pair back exactly when the
      device took all of it, and the writer reports success in either case; a node
      keeps its identity over any number of starts, unless the device is all but
      full; an account made by the wallet is restored,
      and one the node refused locks the wallet.
    - WebAssembly and platform: the loader says what a module imports and exports
      and when it is expected to run; the statistics of a control group are those
      of its files.
    - Packages and agents: a published package is retrieved with the bytes of every
      object, and its annotations are not published; what concurrent scrapes of the
      metrics can report.
    - Indexer and node: a transaction taken into the mempool is posted to the indexer
      once when its event is handled; what a started node runs and announces; when
      stopping it succeeds, which handlers leave their loop at the stop event, and what
      a failed start leaves running.
    - Validators: which transactions and claims are accepted: no transaction,
      and only unstaked miners.

    ** Bounds and fuel

    Recursion is structural throughout except for the loops that wait for an
    entry ([get_winner] and [elect_winner], which the code writes as unbounded
    loops): these take fuel, one unit is enough when there is an entry, and the
    theorems say that no amount is enough when there is none. [Quorum.seed_loop]
    takes the number of draws as fuel. Floating-point claims hold for stakes
    below [2 ^ 53] and fewer than [2 ^ 24] claims, where the conversions are
    exact; the number of harvesters is exact for up to 4096 validators. [usize] has
    64 bits.

    ** Not modelled

    The loop of the actor crate and the tokio runtime, so that a task of a node ends
    as its parameter says; the threads with which the Kademlia crate keeps its own
    table; argument parsing and most configuration files, which clap, serde and the
    config crate read; sockets; the legacy HTTP API of [vrrb_rpc/src/http], whose
    routes answer a constant or are [todo]; the older wallet and the default wallet
    configuration; the validator thread pool, which only hands a batch to
    [Validators]; the files [consensus_handler.rs], [consensus_component.rs],
    [transaction_validator.rs] and [state_manager/handler.rs], which no build
    includes; helpers of tests; Merkle proofs; logging. Most getters have no
    definition. Remote calls that the server leaves as [todo] have no definition
    either. *)

From Stdlib Require Export ZArith Lia.
From Stdlib Require Export Sorting.Sorted.
From Stdlib Require Import Strings.Byte.
From stdpp Require Export prelude gmap strings sorting.

#[export] Set Default Goal Selector "!".

Declare Scope rust_scope.
Delimit Scope rust_scope with rust.

(** ** Bytes and fixed-width integers *)

#[export] Instance byte_eq_decision : EqDecision byte := Byte.byte_eq_dec.

#[export] Program Instance byte_countable : Countable byte :=
  inj_countable Byte.to_N Byte.of_N _.
Next Obligation. intros b. apply Byte.of_to_N. Qed.

Abbreviation bytes := (list byte).

(** The integer types the code uses. [usize] is the 64-bit one of the
    supported targets. *)
Inductive int_ty :=
| U8
| U16
| U32
| U64
| U128
| Usize
| I64
| I128.

Definition int_bits (t : int_ty) : Z :=
  match t with
  | U8 => 8
  | U16 => 16
  | U32 => 32
  | U64 | Usize | I64 => 64
  | U128 | I128 => 128
  end.

Definition int_signed (t : int_ty) : bool :=
  match t with
  | I64 | I128 => true
  | _ => false
  end.

Definition int_min (t : int_ty) : Z :=
  if int_signed t then - 2 ^ (int_bits t - 1) else 0.

Definition int_max (t : int_ty) : Z :=
  if int_signed t then 2 ^ (int_bits t - 1) - 1 else 2 ^ int_bits t - 1.

Definition in_range (t : int_ty) (z : Z) : bool :=
  (int_min t <=? z)%Z && (z <=? int_max t)%Z.

(** Two's-complement reduction of an exact result to the type's width. It is
    also the meaning of an [as] cast between integer types. *)
Definition wrap (t : int_ty) (z : Z) : Z :=
  let m := (z mod 2 ^ int_bits t)%Z in
  if int_signed t && (int_max t <? m)%Z then (m - 2 ^ int_bits t)%Z else m.

(** [n] big-endian bytes of [z], as [to_be_bytes] gives them. *)
Fixpoint be_bytes (n : nat) (z : Z) : bytes :=
  match n with
  | O => []
  | S n' =>
      be_bytes n' (z / 256) ++
      [default x00 (Byte.of_N (Z.to_N (z mod 256)))]
  end.

(** The number read from big-endian bytes ([from_big_endian]). *)
Definition of_be_bytes (bs : bytes) : Z :=
  fold_left (fun acc b => acc * 256 + Z.of_N (Byte.to_N b))%Z bs 0%Z.

Definition str_bytes (s : string) : bytes := String.list_byte_of_string s.

(** ** Outcomes of a call

    A Rust call returns a value, returns an error value, or panics. Code that
    mutates [self] threads the object through, also on the error path: the
    fields written before an early return stay written. *)
Inductive result (E A : Type) :=
| Ok (a : A)
| Err (e : E)
| Panic.
Arguments Ok {E A} a.
Arguments Err {E A} e.
Arguments Panic {E A}.

#[export] Instance result_ret {E} : MRet (result E) := fun _ a => Ok a.
#[export] Instance result_bind {E} : MBind (result E) := fun _ _ k m =>
  match m with
  | Ok a => k a
  | Err e => Err e
  | Panic => Panic
  end.

Definition map_err {E F A} (f : E -> F) (m : result E A) : result F A :=
  match m with
  | Ok a => Ok a
  | Err e => Err (f e)
  | Panic => Panic
  end.

(** [Option::ok_or]. *)
Definition ok_or {E A} (o : option A) (e : E) : result E A :=
  match o with
  | Some a => Ok a
  | None => Err e
  end.

(** [Result::ok]; a panic is not caught by it. *)
Definition unwrap {E F A} (m : result E A) : result F A :=
  match m with
  | Ok a => Ok a
  | _ => Panic
  end.

Definition is_ok {E A} (m : result E A) : bool :=
  match m with
  | Ok _ => true
  | _ => false
  end.

Definition is_err {E A} (m : result E A) : bool :=
  match m with
  | Err _ => true
  | _ => false
  end.

(** A method on [&mut self]. *)
Definition method (S E A : Type) : Type := S -> S * result E A.

#[export] Instance method_ret {S E} : MRet (method S E) := fun _ a s => (s, Ok a).
#[export] Instance method_bind {S E} : MBind (method S E) := fun _ _ k m s =>
  match m s with
  | (s', Ok a) => k a s'
  | (s', Err e) => (s', Err e)
  | (s', Panic) => (s', Panic)
  end.

Definition get {S E} : method S E S := fun s => (s, Ok s).
Definition put {S E} (s : S) : method S E unit := fun _ => (s, Ok tt).
Definition modify {S E} (f : S -> S) : method S E unit := fun s => (f s, Ok tt).
Definition lift {S E A} (m : result E A) : method S E A := fun s => (s, m).
Definition throw {S E A} (e : E) : method S E A := fun s => (s, Err e).

(** [if let Some(x) = o { k x }]. *)
Definition if_some {S E A} (o : option A) (k : A -> method S E unit)
    : method S E unit :=
  match o with
  | Some a => k a
  | None => mret tt
  end.

(** ** Arithmetic operators

    A plain [+], [-] or [*] that leaves the type's range panics when the crate
    is built with overflow checks (the dev profile) and wraps when it is built
    without (the release profile of [src/Cargo.toml], which does not turn them
    on). The profile is a parameter, so a theorem covers both builds. *)
Class Profile := overflow_checks : bool.

Definition arith `{!Profile} {E} (t : int_ty) (z : Z) : result E Z :=
  if in_range t z then Ok z
  else if overflow_checks then Panic else Ok (wrap t z).

Definition checked_add (t : int_ty) (a b : Z) : option Z :=
  if in_range t (a + b) then Some (a + b)%Z else None.

Definition checked_sub (t : int_ty) (a b : Z) : option Z :=
  if in_range t (a - b) then Some (a - b)%Z else None.

(** ** Standard containers *)

(** The iteration order of [HashMap] and [HashSet] is unspecified, so it is a
    parameter: a theorem that iterates one holds for every order. *)
Class HashOrder := {
  hash_iter : forall {K} `{Countable K} {V}, gmap K V -> list (K * V);
  hash_elements : forall {K} `{Countable K}, gset K -> list K;
}.

Class HashOrderLaws `{!HashOrder} := {
  hash_iter_perm : forall {K} `{Countable K} {V} (m : gmap K V),
    hash_iter m ≡ₚ map_to_list m;
  hash_elements_perm : forall {K} `{Countable K} (s : gset K),
    hash_elements s ≡ₚ elements s;
}.

(** Insertion-ordered maps (the [LinkedHashMap] of ritelinked and the [IndexMap]
    of indexmap) are their entries in iteration order. What a third-party map
    does to the order when a key is inserted again is left open. *)
Class LinkedMap := {
  linked_insert : forall {K} `{EqDecision K} {V}, K -> V -> list (K * V) -> list (K * V);
  linked_remove : forall {K} `{EqDecision K} {V}, K -> list (K * V) -> list (K * V);
  linked_pop : forall {K} {V}, list (K * V) -> option (K * V);
}.

Class LinkedMapLaws `{!LinkedMap} := {
  linked_insert_perm : forall {K} `{EqDecision K} {V} (k : K) (v : V) m,
    NoDup m.*1 -> linked_insert k v m ≡ₚ (k, v) :: filter (fun p => p.1 <> k) m;
  linked_remove_perm : forall {K} `{EqDecision K} {V} (k : K) (m : list (K * V)),
    NoDup m.*1 -> linked_remove k m ≡ₚ filter (fun p => p.1 <> k) m;
  linked_pop_last : forall {K V} (m : list (K * V)), linked_pop m = last m;
}.

(** The value stored under a key. *)
Definition linked_get `{EqDecision K} {V} (k : K) (m : list (K * V)) : option V :=
  snd <$> head (filter (fun p => p.1 = k) m).

Definition linked_collect `{!LinkedMap} `{EqDecision K} {V} (l : list (K * V))
    : list (K * V) :=
  fold_left (fun m p => linked_insert p.1 p.2 m) l [].

(** [BTreeMap] with integer keys: its entries in key order. *)
Section btree.
Context {V : Type}.
Implicit Types m : list (Z * V).

Fixpoint bt_insert (k : Z) (v : V) (m : list (Z * V)) : list (Z * V) :=
  match m with
  | [] => [(k, v)]
  | (k', v') :: m' =>
      if (k <? k')%Z then (k, v) :: m
      else if (k =? k')%Z then (k, v) :: m'
      else (k', v') :: bt_insert k v m'
  end.

(** [iter.collect::<BTreeMap<_, _>>()]: a later entry replaces an earlier one
    with the same key. *)
Definition bt_collect (l : list (Z * V)) : list (Z * V) :=
  fold_left (fun m p => bt_insert p.1 p.2 m) l [].

Definition bt_wf (m : list (Z * V)) : Prop := StronglySorted Z.lt m.*1.

Lemma bt_insert_elem k v m p :
  p ∈ bt_insert k v m -> p = (k, v) \/ p ∈ m.
Proof.
  induction m as [|[k' v'] m IH]; simpl.
  - rewrite list_elem_of_singleton. auto.
  - destruct (k <? k')%Z, (k =? k')%Z; rewrite !elem_of_cons; naive_solver.
Qed.

Lemma bt_insert_wf k v m : bt_wf m -> bt_wf (bt_insert k v m).
Proof.
  unfold bt_wf. induction m as [|[k' v'] m IH]; simpl; intros Hs.
  - repeat constructor.
  - apply StronglySorted_inv in Hs as [Hs Hall].
    rewrite Forall_forall in Hall.
    destruct (Z.ltb_spec k k'); simpl.
    + constructor; [by constructor; rewrite ?Forall_forall|].
      constructor; [done|]. apply Forall_forall. intros x Hx.
      specialize (Hall x Hx). lia.
    + destruct (Z.eqb_spec k k') as [->|]; simpl.
      * by constructor; rewrite ?Forall_forall.
      * constructor; [auto|]. apply Forall_forall.
        intros x [[x1 x2] [-> Hx]]%list_elem_of_fmap.
        apply bt_insert_elem in Hx as [[= -> ->]|Hx]; simpl; [lia|].
        apply Hall. apply list_elem_of_fmap. by exists (x1, x2).
Qed.

Lemma bt_insert_fresh k v m :
  k ∉ m.*1 -> bt_insert k v m ≡ₚ (k, v) :: m.
Proof.
  induction m as [|[k' v'] m IH]; simpl; intros Hk; [done|].
  destruct (k <? k')%Z; [done|].
  destruct (Z.eqb_spec k k') as [->|]; [set_solver|].
  rewrite IH; [|set_solver]. by rewrite Permutation_swap.
Qed.

Lemma bt_collect_app_wf l m :
  bt_wf m -> bt_wf (fold_left (fun m p => bt_insert p.1 p.2 m) l m).
Proof. revert m. induction l; simpl; auto using bt_insert_wf. Qed.

Lemma bt_collect_wf l : bt_wf (bt_collect l).
Proof. apply bt_collect_app_wf. constructor. Qed.

Lemma bt_collect_app_perm l m :
  NoDup (l.*1 ++ m.*1) ->
  fold_left (fun m p => bt_insert p.1 p.2 m) l m ≡ₚ l ++ m.
Proof.
  revert m. induction l as [|[k v] l IH]; simpl; intros m Hnd; [done|].
  apply NoDup_cons in Hnd as [Hk Hnd].
  assert (Hp : bt_insert k v m ≡ₚ (k, v) :: m)
    by (apply bt_insert_fresh; set_solver).
  rewrite IH, Hp; [by rewrite Permutation_middle|].
  rewrite Hp. simpl. rewrite <-Permutation_middle. by constructor.
Qed.

(** With distinct keys, collecting loses no entry. *)
Lemma bt_collect_perm l : NoDup l.*1 -> bt_collect l ≡ₚ l.
Proof.
  intros. unfold bt_collect. rewrite bt_collect_app_perm; simpl;
    by rewrite ?app_nil_r.
Qed.

Lemma bt_collect_app_elem l m p :
  p ∈ fold_left (fun m p => bt_insert p.1 p.2 m) l m -> p ∈ l \/ p ∈ m.
Proof.
  revert m. induction l as [|[k v] l IH]; simpl; intros m Hp; [auto|].
  apply IH in Hp as [?|Hp]; [set_solver|].
  apply bt_insert_elem in Hp as [->|?]; set_solver.
Qed.

Lemma bt_collect_elem l p : p ∈ bt_collect l -> p ∈ l.
Proof. intros [?|?%elem_of_nil]%bt_collect_app_elem; done. Qed.

Lemma bt_insert_keys k v m k' : k' ∈ (bt_insert k v m).*1 <-> k' = k \/ k' ∈ m.*1.
Proof.
  induction m as [|[k0 v0] m IH]; simpl.
  - rewrite list_elem_of_singleton, elem_of_nil. tauto.
  - destruct (k <? k0)%Z; simpl; [by rewrite !elem_of_cons|].
    destruct (Z.eqb_spec k k0) as [->|]; simpl; rewrite !elem_of_cons; [tauto|].
    rewrite IH. tauto.
Qed.

(** The keys of a collected map are the keys that were collected. *)
Lemma bt_collect_keys l k : k ∈ (bt_collect l).*1 <-> k ∈ l.*1.
Proof.
  unfold bt_collect.
  enough (Hm : forall m, k ∈ (fold_left (fun m p => bt_insert p.1 p.2 m) l m).*1 <->
    k ∈ l.*1 \/ k ∈ m.*1).
  { rewrite Hm. simpl. rewrite elem_of_nil. tauto. }
  induction l as [|[k0 v0] l IH]; intros m; simpl; [rewrite elem_of_nil; tauto|].
  rewrite IH, bt_insert_keys, elem_of_cons. simpl. tauto.
Qed.

Lemma bt_insert_elem_iff k v m p :
  bt_wf m -> p ∈ bt_insert k v m <-> p = (k, v) \/ (p ∈ m /\ p.1 <> k).
Proof.
  unfold bt_wf. induction m as [|[k' v'] m IH]; simpl; intros Hs.
  - rewrite list_elem_of_singleton, elem_of_nil. tauto.
  - apply StronglySorted_inv in Hs as [Hs Hall]. rewrite Forall_forall in Hall.
    assert (Hm : p ∈ m -> (k' < p.1)%Z) by (intros; apply Hall; by apply list_elem_of_fmap_2).
    destruct (Z.ltb_spec k k'); [|destruct (Z.eqb_spec k k') as [->|]]; rewrite !elem_of_cons.
    + split; [|tauto]. intros [->|[->|Hp]]; [by left|right; simpl; split; [by left|lia]|].
      right. specialize (Hm Hp). split; [by right|lia].
    + split; [|naive_solver]. intros [->|Hp]; [by left|]. right.
      specialize (Hm Hp). split; [by right|lia].
    + rewrite IH by done. split; [|tauto]. intros [->|[->|[Hp Hn]]]; [|by left|]; right; simpl; auto.
Qed.

(** Of the entries with one key the last survives. *)
Lemma bt_collect_last l p :
  p ∈ bt_collect l <-> exists l1 l2, l = l1 ++ p :: l2 /\ p.1 ∉ l2.*1.
Proof.
  induction l as [|q l IH] using rev_ind.
  { split; [by intros ?%elem_of_nil|by intros ([|? ?] & l2 & [=] & _)]. }
  unfold bt_collect in *. rewrite fold_left_app. simpl.
  rewrite bt_insert_elem_iff by apply bt_collect_wf. rewrite IH. split.
  - intros [->|((l1 & l2 & -> & Hk) & Hn)].
    + exists l, []. destruct q. split; [done|]. apply not_elem_of_nil.
    + exists l1, (l2 ++ [q]). rewrite fmap_app, elem_of_app. simpl. rewrite list_elem_of_singleton.
      split; [by rewrite <-app_assoc|tauto].
  - intros (l1 & l2 & He & Hk). induction l2 as [|q' l2 _] using rev_ind.
    + apply app_inj_tail in He as [_ ->]. left. by destruct p.
    + rewrite app_comm_cons, app_assoc in He. apply app_inj_tail in He as [-> ->].
      rewrite fmap_app, elem_of_app in Hk. simpl in Hk. rewrite list_elem_of_singleton in Hk. right.
      split; [|tauto]. exists l1, l2. split; [done|tauto].
Qed.

Lemma bt_wf_head_min (p : Z * V) m q : bt_wf (p :: m) -> q ∈ p :: m -> (p.1 <= q.1)%Z.
Proof.
  unfold bt_wf. simpl. intros [_ Hall]%StronglySorted_inv [->|Hq]%elem_of_cons; [lia|].
  rewrite Forall_forall in Hall. apply Z.lt_le_incl, Hall.
  apply list_elem_of_fmap. by exists q.
Qed.

Lemma bt_wf_NoDup m : bt_wf m -> NoDup m.*1.
Proof.
  unfold bt_wf. induction 1 as [|k ks Hs IH Hall]; constructor; [|done].
  intros Hin. rewrite Forall_forall in Hall. specialize (Hall _ Hin). lia.
Qed.
End btree.

(** [slice::sort_by]: the stable sort by an order. *)
Section stable_sort.
Context {A : Type} (le : A -> A -> bool).

Fixpoint sorted_insert (x : A) (l : list A) : list A :=
  match l with
  | [] => [x]
  | y :: l' => if le x y then x :: l else y :: sorted_insert x l'
  end.

Definition stable_sort (l : list A) : list A := foldr sorted_insert [] l.

Lemma sorted_insert_perm x l : sorted_insert x l ≡ₚ x :: l.
Proof.
  induction l as [|y l IH]; simpl; [done|]. destruct (le x y); [done|].
  rewrite IH. apply Permutation_swap.
Qed.

Lemma stable_sort_perm l : stable_sort l ≡ₚ l.
Proof. induction l as [|x l IH]; simpl; [done|]. by rewrite sorted_insert_perm, IH. Qed.

Hypothesis le_trans : forall x y z, le x y = true -> le y z = true -> le x z = true.
Hypothesis le_total : forall x y, le x y = false -> le y x = true.

Lemma stable_sort_sorted l : StronglySorted (fun x y => le x y = true) (stable_sort l).
Proof.
  induction l as [|x l IH]; simpl; [constructor|]. generalize dependent (stable_sort l).
  intros l'. induction 1 as [|y l' Hs IHs Hall]; simpl; [repeat constructor|].
  rewrite Forall_forall in Hall. destruct (le x y) eqn:Hle.
  - constructor; [by constructor; rewrite ?Forall_forall|]. constructor; [done|].
    apply Forall_forall. eauto.
  - constructor; [done|]. apply Forall_forall. intros z.
    rewrite sorted_insert_perm. intros [->|Hz]%elem_of_cons; auto.
Qed.
End stable_sort.

#[global] Arguments int_min : simpl never.
#[global] Arguments int_max : simpl never.
#[global] Arguments in_range : simpl never.
#[global] Arguments wrap : simpl never.
#[global] Arguments be_bytes : simpl never.
#[global] Arguments of_be_bytes : simpl never.

(** ** Shared lemmas *)

Lemma in_range_spec t z : in_range t z = true <-> (int_min t <= z <= int_max t)%Z.
Proof. unfold in_range. rewrite andb_true_iff, !Z.leb_le. done. Qed.

Lemma wrap_id t z : in_range t z = true -> wrap t z = z.
Proof.
  rewrite in_range_spec. unfold wrap, int_min, int_max.
  destruct (int_signed t) eqn:Hs; simpl; intros Hz.
  - assert (2 ^ int_bits t = 2 * 2 ^ (int_bits t - 1))%Z as Hp
      by (destruct t; simplify_eq/=; reflexivity).
    destruct (decide (0 <= z)%Z).
    + rewrite Z.mod_small by lia. destruct (Z.ltb_spec (2 ^ (int_bits t - 1) - 1) z); lia.
    + rewrite <-(Z.mod_add z 1), Z.mod_small by lia.
      destruct (Z.ltb_spec (2 ^ (int_bits t - 1) - 1) (z + 1 * 2 ^ int_bits t)); lia.
  - apply Z.mod_small. lia.
Qed.

Lemma wrap_in_range t z : in_range t (wrap t z) = true.
Proof.
  apply in_range_spec. unfold wrap, int_min, int_max.
  assert (0 < 2 ^ int_bits t)%Z by (destruct t; reflexivity).
  pose proof (Z.mod_pos_bound z (2 ^ int_bits t)) as Hm.
  destruct (int_signed t) eqn:Hs; simpl; [|lia].
  assert (2 ^ int_bits t = 2 * 2 ^ (int_bits t - 1))%Z as Hp
    by (destruct t; simplify_eq/=; reflexivity).
  destruct (Z.ltb_spec (2 ^ (int_bits t - 1) - 1) (z mod 2 ^ int_bits t)); lia.
Qed.

Lemma arith_ok `{!Profile} {E} t z :
  in_range t z = true -> @arith _ E t z = Ok z.
Proof. unfold arith. by intros ->. Qed.

(** Whatever the profile, a result of an operator is in its type's range. *)
Lemma arith_range `{!Profile} {E} t z z' :
  @arith _ E t z = Ok z' -> in_range t z' = true.
Proof.
  unfold arith. destruct (in_range t z) eqn:Hr; [by intros [= <-]|].
  destruct overflow_checks; [done|]. intros [= <-]. apply wrap_in_range.
Qed.

Lemma arith_not_err `{!Profile} {E} t z (e : E) : arith t z <> Err e.
Proof. unfold arith. destruct (in_range t z), overflow_checks; done. Qed.

Lemma checked_add_Some t a b c :
  checked_add t a b = Some c <-> c = (a + b)%Z /\ in_range t (a + b) = true.
Proof. unfold checked_add. destruct (in_range t (a + b)); naive_solver. Qed.

Lemma checked_add_None t a b :
  checked_add t a b = None <-> in_range t (a + b) = false.
Proof. unfold checked_add. destruct (in_range t (a + b)); naive_solver. Qed.

Lemma length_be_bytes n z : length (be_bytes n z) = n.
Proof.
  revert z. induction n as [|n IH]; intros z; [done|]. unfold be_bytes; fold be_bytes.
  rewrite length_app, IH. simpl. lia.
Qed.

Lemma of_be_bytes_app bs b :
  of_be_bytes (bs ++ [b]) = (of_be_bytes bs * 256 + Z.of_N (Byte.to_N b))%Z.
Proof. unfold of_be_bytes. by rewrite fold_left_app. Qed.

Lemma of_be_bytes_range bs : (0 <= of_be_bytes bs < 2 ^ (8 * Z.of_nat (length bs)))%Z.
Proof.
  induction bs as [|b bs IH] using rev_ind; [done|].
  rewrite of_be_bytes_app, length_app. simpl.
  replace (8 * Z.of_nat (length bs + 1))%Z with (8 * Z.of_nat (length bs) + 8)%Z by lia.
  rewrite Z.pow_add_r by lia. change (2 ^ 8)%Z with 256%Z.
  assert (Z.of_N (Byte.to_N b) < 256)%Z.
  { pose proof (Byte.to_N_bounded b). lia. }
  lia.
Qed.

Lemma result_bind_Ok {E A B} (m : result E A) (k : A -> result E B) b :
  m ≫= k = Ok b <-> exists a, m = Ok a /\ k a = Ok b.
Proof. destruct m; naive_solver. Qed.

Lemma method_bind_unfold {S E A B} (m : method S E A) (k : A -> method S E B) s :
  (m ≫= k) s =
    match m s with
    | (s', Ok a) => k a s'
    | (s', Err e) => (s', Err e)
    | (s', Panic) => (s', Panic)
    end.
Proof. done. Qed.

(** The method calls of a successful run, one after the other. *)
Lemma method_bind_Ok {S E A B} (m : method S E A) (k : A -> method S E B) s s' b :
  (m ≫= k) s = (s', Ok b) <-> exists s1 a, m s = (s1, Ok a) /\ k a s1 = (s', Ok b).
Proof.
  rewrite method_bind_unfold. destruct (m s) as [s1 [a|e|]]; naive_solver.
Qed.

Lemma elem_of_take_sub {A} n (l : list A) x : x ∈ take n l -> x ∈ l.
Proof. intros Hx. rewrite <-(take_drop n l). apply elem_of_app. by left. Qed.

Lemma elem_of_drop_sub {A} n (l : list A) x : x ∈ drop n l -> x ∈ l.
Proof. intros Hx. rewrite <-(take_drop n l). apply elem_of_app. by right. Qed.

Lemma length_omap_le {A B} (f : A -> option B) (l : list A) : length (omap f l) <= length l.
Proof.
  induction l as [|x l IH]; [done|]. change (length (omap f l) <= length l) in IH.
  simpl. destruct (f x); simpl; [by apply le_n_S|by apply le_S].
Qed.

Lemma NoDup_fmap_filter {A B} (f : A -> B) (P : A -> Prop) `{!forall x, Decision (P x)}
    (l : list A) :
  NoDup (f <$> l) -> NoDup (f <$> filter P l).
Proof.
  induction l as [|x l IH]; [done|]. intros [Hx Hnd]%NoDup_cons.
  rewrite filter_cons. case_decide; [|auto]. constructor; [|auto].
  intros (y & Heq & [_ Hy]%list_elem_of_filter)%list_elem_of_fmap.
  apply Hx, list_elem_of_fmap. eauto.
Qed.

Lemma Forall_filter_sub {A} (P Q : A -> Prop) `{!forall x, Decision (Q x)} (l : list A) :
  Forall P l -> Forall P (filter Q l).
Proof.
  rewrite !Forall_forall. intros Hall x [_ Hx]%list_elem_of_filter. auto.
Qed.

(** Folding a commutative and associative operation, in any order. *)
Section comm_fold.
Context {A : Type} (op : A -> A -> A).
Context `{!Assoc (=) op, !Comm (=) op}.

Lemma foldr_init_comm l a x : foldr op (op a x) l = op x (foldr op a l).
Proof.
  induction l as [|y l IH]; simpl; [apply (comm op)|].
  by rewrite IH, !(assoc op), (comm op y x).
Qed.

Lemma fold_left_foldr l a : fold_left op l a = foldr op a l.
Proof. revert a. induction l as [|x l IH]; intros a; simpl; [done|]. by rewrite IH, foldr_init_comm. Qed.

Lemma foldr_perm l1 l2 a : l1 ≡ₚ l2 -> foldr op a l1 = foldr op a l2.
Proof.
  induction 1 as [|x l1 l2 _ IH|x y l|l1 l2 l3 _ IH1 _ IH2]; simpl; [done|by rewrite IH| |].
  - by rewrite !(assoc op), (comm op y x).
  - by rewrite IH1.
Qed.
End comm_fold.

(** Inserting entries with distinct keys one after the other. *)
Lemma fold_insert_list_to_map `{Countable K} {V} (l : list (K * V)) (m : gmap K V) :
  NoDup l.*1 ->
  fold_left (fun m p => <[p.1 := p.2]> m) l m = list_to_map l ∪ m.
Proof.
  revert m. induction l as [|[k v] l IH]; intros m Hnd; simpl; [by rewrite map_empty_union|].
  apply NoDup_cons in Hnd as [Hk Hnd]. rewrite IH by done.
  rewrite <-insert_union_l, <-insert_union_r; [done|]. by apply not_elem_of_list_to_map.
Qed.

(** The map an insertion-ordered map stands for, and what the operations do to
    it. *)
Section linked.
Context `{Countable K} {V : Type}.
Implicit Types m : list (K * V).

Lemma linked_filter_NoDup (P : K * V -> Prop) `{!forall x, Decision (P x)} m :
  NoDup m.*1 -> NoDup (filter P m).*1.
Proof. apply NoDup_fmap_filter. Qed.

Lemma linked_filter_delete k m :
  list_to_map (filter (fun p => p.1 <> k) m) = delete k (list_to_map m : gmap K V).
Proof.
  induction m as [|[k' v'] m IH]; simpl; [by rewrite delete_empty|].
  rewrite filter_cons. simpl. case_decide as Hk; simpl.
  - by rewrite IH, delete_insert_ne by done.
  - subst. by rewrite IH, delete_insert_eq.
Qed.

Lemma linked_get_lookup k m : linked_get k m = (list_to_map m : gmap K V) !! k.
Proof.
  unfold linked_get. induction m as [|[k' v'] m IH]; simpl; [done|].
  rewrite filter_cons. simpl. case_decide as Hk; simpl.
  - subst. by rewrite lookup_insert_eq.
  - by rewrite lookup_insert_ne by done.
Qed.

Lemma list_to_map_perm m1 m2 :
  NoDup m1.*1 -> m1 ≡ₚ m2 -> (list_to_map m1 : gmap K V) = list_to_map m2.
Proof. apply list_to_map_proper. Qed.

Context `{!LinkedMap, !LinkedMapLaws}.

Lemma linked_insert_wf k v m : NoDup m.*1 -> NoDup (linked_insert k v m).*1.
Proof.
  intros Hnd. rewrite (linked_insert_perm k v m Hnd). simpl. constructor.
  - by intros (q & -> & [? _]%list_elem_of_filter)%list_elem_of_fmap.
  - by apply linked_filter_NoDup.
Qed.

Lemma linked_insert_map k v m :
  NoDup m.*1 -> list_to_map (linked_insert k v m) = <[k := v]> (list_to_map m : gmap K V).
Proof.
  intros Hnd.
  rewrite (list_to_map_perm _ _ (linked_insert_wf k v m Hnd) (linked_insert_perm k v m Hnd)).
  simpl. by rewrite linked_filter_delete, insert_delete_eq.
Qed.

Lemma linked_remove_wf k m : NoDup m.*1 -> NoDup (linked_remove k m).*1.
Proof. intros Hnd. rewrite (linked_remove_perm k m Hnd). by apply linked_filter_NoDup. Qed.

Lemma linked_remove_map k m :
  NoDup m.*1 -> list_to_map (linked_remove k m) = delete k (list_to_map m : gmap K V).
Proof.
  intros Hnd.
  rewrite (list_to_map_perm _ _ (linked_remove_wf k m Hnd) (linked_remove_perm k m Hnd)).
  apply linked_filter_delete.
Qed.
End linked.

(** [m] keeps [P] on every path: success, error and panic. *)
Definition preserves {S E A} (P : S -> Prop) (m : method S E A) : Prop :=
  forall s, P s -> P (m s).1.

Lemma preserves_bind {S E A B} (P : S -> Prop) (m : method S E A) (k : A -> method S E B) :
  preserves P m -> (forall a, preserves P (k a)) -> preserves P (m ≫= k).
Proof.
  intros Hm Hk s Hs. rewrite method_bind_unfold. specialize (Hm s Hs).
  destruct (m s) as [s' [a|e|]]; simpl in *; try done. by apply Hk.
Qed.

Lemma preserves_if_some {S E A} (P : S -> Prop) (o : option A)
    (k : A -> method S E unit) :
  (forall a, o = Some a -> preserves P (k a)) -> preserves P (if_some o k).
Proof. destruct o; intros H s Hs; simpl; [by apply (H a)|done]. Qed.

Lemma preserves_modify {S E} (P : S -> Prop) (f : S -> S) :
  (forall s, P s -> P (f s)) -> preserves P (@modify S E f).
Proof. intros H s. apply H. Qed.

(** Separated text parses back: the first separator ends the first field. *)
Definition str_free (c : Ascii.ascii) (s : string) : Prop :=
  c ∉ String.list_ascii_of_string s.

Lemma str_sep_inj c (a a' b b' : string) :
  str_free c a -> str_free c a' ->
  a +:+ String c b = a' +:+ String c b' -> a = a' /\ b = b'.
Proof.
  unfold str_free. revert a'.
  induction a as [|x a IH]; intros [|x' a'] Ha Ha'; simpl in *;
    rewrite ?elem_of_cons in *; intros Heq; simplify_eq/=;
    [done|by destruct Ha'; left|by destruct Ha; left|].
  edestruct (IH a') as [-> ->]; eauto.
Qed.

Lemma str_free_app_not c (a b : string) : ~ str_free c (a +:+ String c b).
Proof.
  unfold str_free. induction a as [|x a IH]; simpl; rewrite elem_of_cons; tauto.
Qed.

(** The last separator starts the last field. *)
Lemma str_sep_inj_last c (a a' b b' : string) :
  str_free c b -> str_free c b' ->
  a +:+ String c b = a' +:+ String c b' -> a = a' /\ b = b'.
Proof.
  intros Hb Hb'. revert a'.
  induction a as [|x a IH]; intros [|x' a'] Heq; simpl in *; simplify_eq/=.
  - done.
  - exfalso. by eapply str_free_app_not.
  - exfalso. by eapply str_free_app_not.
  - edestruct (IH a') as [-> ->]; eauto.
Qed.

(** ** Automation *)

(** Splits the first match of a hypothesis or of the goal on a term that is
    not itself a match, and cleans up the equations. *)
Ltac break :=
  match goal with
  | H : context [match ?x with _ => _ end] |- _ =>
      lazymatch x with
      | context [match _ with _ => _ end] => fail
      | _ => destruct x eqn:?
      end
  | |- context [match ?x with _ => _ end] =>
      lazymatch x with
      | context [match _ with _ => _ end] => fail
      | _ => destruct x eqn:?
      end
  end; simplify_eq/=.

(** Turns the boolean tests of the code into arithmetic facts. *)
Ltac bool_facts :=
  repeat match goal with
  | H : (_ && _) = true |- _ => apply andb_true_iff in H as [? ?]
  | H : (_ || _) = false |- _ => apply orb_false_iff in H as [? ?]
  | H : negb _ = true |- _ => apply negb_true_iff in H
  | H : negb _ = false |- _ => apply negb_false_iff in H
  | H : (_ <=? _)%Z = true |- _ => apply Z.leb_le in H
  | H : (_ <=? _)%Z = false |- _ => apply Z.leb_gt in H
  | H : (_ <? _)%Z = true |- _ => apply Z.ltb_lt in H
  | H : (_ <? _)%Z = false |- _ => apply Z.ltb_ge in H
  | H : (_ =? _)%Z = true |- _ => apply Z.eqb_eq in H
  | H : (_ =? _)%Z = false |- _ => apply Z.eqb_neq in H
  | H : in_range _ _ = true |- _ => apply in_range_spec in H
  | H : bool_decide _ = true |- _ => apply bool_decide_eq_true in H
  | H : bool_decide _ = false |- _ => apply bool_decide_eq_false in H
  | H : checked_add _ _ _ = Some _ |- _ => apply checked_add_Some in H as [? ?]
  end.

Ltac breaks := repeat break.

(** Linear arithmetic with the bounds of the integer types written out. *)
Ltac range_lia :=
  bool_facts; rewrite ?in_range_spec in *;
  cbv [int_min int_max int_signed int_bits] in *; lia.

Create HintDb vrrb.
#[export] Hint Resolve wrap_in_range arith_range bt_insert_wf bt_collect_wf
  bt_wf_NoDup preserves_bind preserves_if_some preserves_modify : vrrb.
Create Rewrite HintDb vrrb.
#[export] Hint Rewrite @method_bind_unfold : vrrb.
