(* ===== verification/Floats.v ===== *)
(** * IEEE-754 arithmetic as the code uses it

    [f64] and [f32] values are the executable [spec_float] of the Standard
    Library with their precisions; conversions to integers truncate and
    saturate, as Rust's [as] does. *)

From S2P Require Import Prelude.
From Stdlib Require Export Floats.SpecFloat.

Record float_ty := mk_float_ty {
  f_prec : Z;
  f_emax : Z;
}.

Definition F64 : float_ty := {| f_prec := 53; f_emax := 1024 |}.
Definition F32 : float_ty := {| f_prec := 24; f_emax := 128 |}.

(** [z as f64]: rounded to nearest, ties to even. *)
Definition float_of_Z (t : float_ty) (z : Z) : spec_float :=
  binary_normalize (f_prec t) (f_emax t) z 0 false.

Definition fmul (t : float_ty) : spec_float -> spec_float -> spec_float :=
  SFmul (f_prec t) (f_emax t).

Definition fdiv (t : float_ty) : spec_float -> spec_float -> spec_float :=
  SFdiv (f_prec t) (f_emax t).

Definition fadd (t : float_ty) : spec_float -> spec_float -> spec_float :=
  SFadd (f_prec t) (f_emax t).

Definition fsub (t : float_ty) : spec_float -> spec_float -> spec_float :=
  SFsub (f_prec t) (f_emax t).

(** A decimal literal [n / d] with [n] and [d] exact in the type: division is
    correctly rounded, so this is the nearest float. *)
Definition flit (t : float_ty) (n d : Z) : spec_float :=
  fdiv t (float_of_Z t n) (float_of_Z t d).

(** The integer part, towards zero; [None] for an infinity or a NaN. *)
Definition ftrunc (x : spec_float) : option Z :=
  match x with
  | S754_zero _ => Some 0%Z
  | S754_finite s m e =>
      let a := if (0 <=? e)%Z then (Zpos m * 2 ^ e)%Z else (Zpos m / 2 ^ (- e))%Z in
      Some (if s then (- a)%Z else a)
  | _ => None
  end.

(** The smallest integer not below the value; [None] as above. *)
Definition fceil (x : spec_float) : option Z :=
  match x with
  | S754_zero _ => Some 0%Z
  | S754_finite s m e =>
      Some (if (0 <=? e)%Z then (if s then - (Zpos m * 2 ^ e) else Zpos m * 2 ^ e)%Z
            else - ((if s then Zpos m else Zneg m) / 2 ^ (- e)))%Z
  | _ => None
  end.

Definition saturate (t : int_ty) (z : Z) : Z := Z.max (int_min t) (Z.min (int_max t) z).

(** [x as t]. *)
Definition float_to_int (t : int_ty) (x : spec_float) : Z :=
  match x with
  | S754_nan => 0
  | S754_infinity s => if s then int_min t else int_max t
  | _ => saturate t (default 0%Z (ftrunc x))
  end.

(** [x.ceil() as t]. *)
Definition float_ceil_to_int (t : int_ty) (x : spec_float) : Z :=
  match x with
  | S754_nan => 0
  | S754_infinity s => if s then int_min t else int_max t
  | _ => saturate t (default 0%Z (fceil x))
  end.

Lemma float_to_int_range t x : in_range t (float_to_int t x) = true.
Proof.
  assert (Hle : (int_min t <= 0 <= int_max t)%Z) by (by destruct t; compute).
  apply in_range_spec. unfold float_to_int, saturate.
  destruct x as [| [] | |]; simpl; lia.
Qed.

(** ** Rounding stays between neighbouring integers

    The comparison of [m * 2 ^ e] with an integer, without fractions. *)

Definition fle (m e B : Z) : Prop := (m * 2 ^ Z.max e 0 <= B * 2 ^ Z.max (- e) 0)%Z.
Definition fge (m e B : Z) : Prop := (B * 2 ^ Z.max (- e) 0 <= m * 2 ^ Z.max e 0)%Z.

Lemma pow2_pos k : (0 <= k)%Z -> (0 < 2 ^ k)%Z.
Proof. intros. by apply Z.pow_pos_nonneg. Qed.

(** Both comparisons may be made at any sufficiently fine scale [2 ^ - K]. *)
Lemma fle_scale m e B K :
  (0 <= K)%Z -> (- e <= K)%Z -> fle m e B <-> (m * 2 ^ (e + K) <= B * 2 ^ K)%Z.
Proof.
  intros HK He. unfold fle.
  set (d := (K - Z.max (- e) 0)%Z).
  replace (e + K)%Z with (Z.max e 0 + d)%Z by lia.
  replace (B * 2 ^ K)%Z with (B * 2 ^ (Z.max (- e) 0 + d))%Z by (do 2 f_equal; lia).
  rewrite !Z.pow_add_r, !Z.mul_assoc by lia.
  pose proof (pow2_pos d ltac:(lia)). split; intros; nia.
Qed.

Lemma fge_scale m e B K :
  (0 <= K)%Z -> (- e <= K)%Z -> fge m e B <-> (B * 2 ^ K <= m * 2 ^ (e + K))%Z.
Proof.
  intros HK He. unfold fge.
  set (d := (K - Z.max (- e) 0)%Z).
  replace (e + K)%Z with (Z.max e 0 + d)%Z by lia.
  replace (B * 2 ^ K)%Z with (B * 2 ^ (Z.max (- e) 0 + d))%Z by (do 2 f_equal; lia).
  rewrite !Z.pow_add_r, !Z.mul_assoc by lia.
  pose proof (pow2_pos d ltac:(lia)). split; intros; nia.
Qed.

Lemma digits2_pos_spec p :
  (2 ^ (Zpos (digits2_pos p) - 1) <= Zpos p < 2 ^ Zpos (digits2_pos p))%Z.
Proof.
  induction p as [p IH|p IH|]; simpl digits2_pos; [| |done].
  all: rewrite Pos2Z.inj_succ; replace (Z.succ (Zpos (digits2_pos p)) - 1)%Z
    with (Z.succ (Zpos (digits2_pos p) - 1)) by lia;
    rewrite !Z.pow_succ_r by lia; lia.
Qed.

(** Shifting right by [k] halves [k] times and remembers whether anything was
    lost. *)
Definition shr_state (m k : Z) (x : shr_record) : Prop :=
  shr_m x = (m / 2 ^ k)%Z /\
  (shr_r x || shr_s x = false <-> (m / 2 ^ k * 2 ^ k = m)%Z).

Lemma shr_1_state m k x :
  (0 <= m)%Z -> (0 <= k)%Z -> shr_state m k x -> shr_state m (k + 1) (shr_1 x).
Proof.
  intros Hm Hk [Hq He]. destruct x as [q r s]. simpl in Hq, He.
  pose proof (pow2_pos k Hk).
  assert (Hq0 : (0 <= q)%Z) by (subst; apply Z.div_pos; lia).
  assert (Hdiv : (m / 2 ^ (k + 1) = q / 2)%Z).
  { rewrite Z.pow_add_r, Hq, Z.div_div by lia. done. }
  assert (Hex : (m / 2 ^ (k + 1) * 2 ^ (k + 1) = m <-> q / 2 * 2 = q /\ r || s = false)%Z).
  { rewrite Hdiv, Z.pow_add_r, He, <-Hq by lia. change (2 ^ 1)%Z with 2%Z.
    pose proof (Z.mul_div_le q 2 ltac:(lia)). pose proof (Z.mul_div_le m (2 ^ k) ltac:(lia)).
    rewrite <-Hq in *. split; [intros; split; nia|intros []; nia]. }
  unfold shr_state. rewrite Hex. rewrite Hdiv.
  destruct q as [|[q|q|]|q]; simpl; try lia.
  - split; [done|]. rewrite Z.div_0_l by lia. tauto.
  - assert (Hh : (Zpos q = Zpos q~1 / 2)%Z) by (apply (Z.div_unique (Zpos q~1) 2 (Zpos q) 1); lia).
    rewrite <-Hh. split; [done|]. split; [done|]. intros []. lia.
  - assert (Hh : (Zpos q = Zpos q~0 / 2)%Z) by (apply (Z.div_unique (Zpos q~0) 2 (Zpos q) 0); lia).
    rewrite <-Hh. split; [done|]. split; [intros; split; [lia|done]|tauto].
  - split; [done|]. split; [done|]. intros [? ?]. lia.
Qed.

Lemma iter_pos_iter {A} (f : A -> A) p x : iter_pos f p x = Pos.iter f x p.
Proof.
  revert x. induction p as [p IH|p IH|]; intros x; simpl; [| |done].
  - rewrite !IH, <-Pos.iter_swap. by rewrite <-!Pos.iter_swap.
  - by rewrite !IH.
Qed.

Lemma iter_pos_shr m p :
  (0 <= m)%Z -> shr_state m (Zpos p) (iter_pos shr_1 p (Build_shr_record m false false)).
Proof.
  intros Hm. rewrite iter_pos_iter. induction p as [|p IH] using Pos.peano_ind.
  - apply (shr_1_state m 0); [done|done|]. split; simpl; rewrite Z.div_1_r; [done|].
    split; intros; [lia|done].
  - rewrite Pos.iter_succ, Pos2Z.inj_succ. apply shr_1_state; [done|lia|done].
Qed.

(** The rounded quotient of [m] by [2 ^ n], as [binary_round_aux] computes it. *)
Definition round_shift (m n : Z) : Z :=
  let x := (shr (Build_shr_record m false false) 0 n).1 in
  round_nearest_even (shr_m x) (loc_of_shr_record x).

Lemma round_shift_spec m n c :
  (0 <= m)%Z ->
  ((m <= c * 2 ^ Z.max n 0)%Z -> (round_shift m n <= c)%Z) /\
  ((c * 2 ^ Z.max n 0 <= m)%Z -> (c <= round_shift m n)%Z).
Proof.
  intros Hm. unfold round_shift. destruct n as [|p|p]; cbn [shr fst shr_m loc_of_shr_record
    round_nearest_even]; [rewrite Z.mul_1_r; lia| |rewrite Z.mul_1_r; lia].
  pose proof (iter_pos_shr m p Hm) as [Hq He].
  destruct (iter_pos shr_1 p _) as [q r s]. simpl in *.
  replace (Z.max (Zpos p) 0) with (Zpos p) by lia.
  pose proof (pow2_pos (Zpos p) ltac:(lia)).
  pose proof (Z.mul_div_le m (2 ^ Zpos p) ltac:(lia)) as Hle.
  pose proof (Z.mul_succ_div_gt m (2 ^ Zpos p) ltac:(lia)) as Hgt.
  rewrite <-Hq in *.
  assert (Hrnd : (q <= round_nearest_even q (loc_of_shr_record (Build_shr_record q r s)) <= q + 1)%Z /\
    (r || s = false -> round_nearest_even q (loc_of_shr_record (Build_shr_record q r s)) = q)).
  { destruct r, s; simpl; split; try done; try lia. destruct (Z.even q); lia. }
  destruct Hrnd as [Hb Hex]. simpl in Hb, Hex. split; intros Hc.
  2: { assert (c < Z.succ q)%Z by (apply (Z.mul_lt_mono_pos_l (2 ^ Zpos p)); lia). lia. }
  destruct (r || s) eqn:Hrs.
  - assert (q * 2 ^ Zpos p <> m)%Z by (intros Heq; by apply He in Heq).
    assert (q < c)%Z by (apply (Z.mul_lt_mono_pos_r (2 ^ Zpos p)); lia). lia.
  - rewrite Hex by done. apply proj1 in He. specialize (He eq_refl).
    apply (Z.mul_le_mono_pos_r _ _ (2 ^ Zpos p)); lia.
Qed.

Section round_clip.
Context (t : float_ty).
Context (Hprec : (2 <= f_prec t)%Z) (Hemax : (2 * f_prec t <= f_emax t)%Z).

Let p := f_prec t.
Let round (m : positive) (e : Z) := binary_round_aux (f_prec t) (f_emax t) false (Zpos m) e loc_Exact.
Let shift (m : positive) (e : Z) :=
  (fexp (f_prec t) (f_emax t) (Zpos (digits2_pos m) + e) - e)%Z.

Lemma emin_neg : (emin (f_prec t) (f_emax t) < 0)%Z.
Proof. unfold emin. lia. Qed.

(** What is rounded has at most [p] digits, or is [2 ^ p] after a carry. *)
Lemma round_shift_le m e : (0 <= round_shift (Zpos m) (shift m e) <= 2 ^ p)%Z.
Proof.
  pose proof (digits2_pos_spec m) as Hd. split.
  - apply (round_shift_spec (Zpos m) (shift m e) 0); lia.
  - apply (round_shift_spec (Zpos m) (shift m e) (2 ^ p)); [lia|].
    rewrite <-Z.pow_add_r by (subst p; lia).
    assert (2 ^ Zpos (digits2_pos m) <= 2 ^ (p + Z.max (shift m e) 0))%Z; [|lia].
    apply Z.pow_le_mono_r; [lia|]. subst shift p. unfold fexp. simpl. lia.
Qed.

(** The second normalisation of [binary_round_aux] keeps the value. *)
Lemma renormalise r e :
  (0 < Zpos r <= 2 ^ p)%Z -> (emin (f_prec t) (f_emax t) <= e)%Z ->
  exists m' d, (0 <= d)%Z /\ (Zpos m' * 2 ^ d = Zpos r)%Z /\
    shr_fexp (f_prec t) (f_emax t) (Zpos r) e loc_Exact =
      (Build_shr_record (Zpos m') false false, (e + d)%Z).
Proof.
  intros Hr He. pose proof (digits2_pos_spec r) as Hd. unfold shr_fexp. simpl.
  destruct (decide (Zpos r = 2 ^ p)%Z) as [Heq|Hne].
  - assert (Hdig : Zpos (digits2_pos r) = (p + 1)%Z).
    { assert (p < Zpos (digits2_pos r))%Z by (apply (Z.pow_lt_mono_r_iff 2); subst p; lia).
      assert (Zpos (digits2_pos r) - 1 <= p)%Z; [|lia].
      apply (Z.pow_le_mono_r_iff 2); subst p; lia. }
    unfold fexp. rewrite Hdig.
    replace (Z.max (p + 1 + e - f_prec t) (emin (f_prec t) (f_emax t)) - e)%Z with 1%Z
      by (subst p; lia).
    assert (Hx : exists q, r = xO q).
    { destruct r as [q|q|]; [|eauto|].
      - exfalso. assert (Z.even (Zpos q~1) = true) as [=].
        rewrite Heq. apply Z.even_pow. subst p. lia.
      - exfalso. assert (1 < 2 ^ p)%Z by (apply Z.pow_gt_1; subst p; lia). lia. }
    destruct Hx as [q ->]. exists q, 1%Z. simpl. split_and!; [lia|lia|done].
  - assert (Hdig : (Zpos (digits2_pos r) <= p)%Z).
    { apply Z.lt_succ_r, (Z.pow_lt_mono_r_iff 2); [lia|subst p; lia|].
      assert (Zpos (digits2_pos r) - 1 < p)%Z; [|].
      { apply (Z.pow_lt_mono_r_iff 2); subst p; lia. }
      apply Z.pow_lt_mono_r; subst p; lia. }
    exists r, 0%Z. rewrite Z.mul_1_r, Z.add_0_r. split_and!; [done|done|].
    destruct (fexp _ _ _ - e)%Z eqn:Hs; simpl; try done.
    unfold fexp in Hs. subst p. lia.
Qed.

(** The value a finite or zero float has, at scale [2 ^ - K]. *)
Definition float_between (x : spec_float) (L B : Z) : Prop :=
  match x with
  | S754_zero false => (L <= 0)%Z
  | S754_finite false m e => fge (Zpos m) e L /\ fle (Zpos m) e B
  | _ => False
  end.

Lemma round_eq m e :
  let n := shift m e in
  let r := round_shift (Zpos m) n in
  let e' := (e + Z.max n 0)%Z in
  (emin (f_prec t) (f_emax t) <= e')%Z /\
  round m e =
    (let '(x, e'') := shr_fexp (f_prec t) (f_emax t) r e' loc_Exact in
     match shr_m x with
     | Z0 => S754_zero false
     | Zpos m' => if (e'' <=? f_emax t - f_prec t)%Z then S754_finite false m' e''
                  else S754_infinity false
     | Zneg _ => S754_nan
     end).
Proof.
  intros n r e'. split; [subst e' n shift; unfold fexp; simpl; lia|].
  unfold round, binary_round_aux, shr_fexp at 1. simpl Zdigits2.
  change (fexp _ _ _ - e)%Z with n. unfold r, round_shift, e'. simpl shr_record_of_loc.
  destruct n as [|q|q]; simpl; rewrite ?Z.add_0_r; reflexivity.
Qed.

Lemma shr_fexp_zero e : shr_m (shr_fexp (f_prec t) (f_emax t) 0 e loc_Exact).1 = 0%Z.
Proof.
  unfold shr_fexp. simpl. destruct (fexp _ _ _ - e)%Z as [|q|q]; simpl; try done.
  pose proof (iter_pos_shr 0 q ltac:(lia)) as [-> _]. by apply Z.div_0_l, Z.pow_nonzero.
Qed.

(** Rounding to nearest does not cross an integer below [2 ^ p]. *)
Lemma round_clip m e L B :
  (0 <= L)%Z -> (B < 2 ^ p)%Z -> fge (Zpos m) e L -> fle (Zpos m) e B ->
  float_between (round m e) L B.
Proof.
  intros HL HB Hge Hle. destruct (round_eq m e) as [Hmin Heq]. rewrite Heq. clear Heq.
  set (n := shift m e) in *. set (e' := (e + Z.max n 0)%Z) in *.
  set (r := round_shift (Zpos m) n) in *.
  set (K := Z.max 0 (- e)). set (N := Z.max n 0) in *.
  pose proof (round_shift_le m e) as Hr. fold n r in Hr.
  rewrite (fge_scale _ _ _ K) in Hge by lia. rewrite (fle_scale _ _ _ K) in Hle by lia.
  assert (Hval : (L * 2 ^ K <= r * 2 ^ (e' + K) <= B * 2 ^ K)%Z).
  { replace (e' + K)%Z with (N + (e + K))%Z by lia. rewrite Z.pow_add_r by lia.
    pose proof (pow2_pos (e + K) ltac:(lia)) as Hpos.
    destruct (decide (e' <= 0)%Z) as [He'|He'].
    - assert (HK : (2 ^ K = 2 ^ (- e') * 2 ^ N * 2 ^ (e + K))%Z)
        by (rewrite <-!Z.pow_add_r by lia; f_equal; lia).
      rewrite HK in Hge, Hle |- *. pose proof (pow2_pos N ltac:(lia)).
      pose proof (proj2 (round_shift_spec (Zpos m) n (L * 2 ^ (- e')) ltac:(lia))) as Hlo.
      pose proof (proj1 (round_shift_spec (Zpos m) n (B * 2 ^ (- e')) ltac:(lia))) as Hhi.
      fold N r in Hlo, Hhi.
      assert (L * 2 ^ (- e') <= r)%Z by (apply Hlo; nia).
      assert (r <= B * 2 ^ (- e'))%Z by (apply Hhi; nia).
      nia.
    - destruct (decide (n <= 0)%Z) as [Hn|Hn].
      + assert (N = 0%Z) as HN by lia.
        assert (Hrm : r = Zpos m).
        { subst r. unfold round_shift. destruct n; [done|lia|done]. }
        rewrite HN, Hrm. lia.
      + exfalso. pose proof (digits2_pos_spec m) as Hd. pose proof emin_neg.
        assert (Zpos (digits2_pos m) + e = e' + p)%Z
          by (subst e' N n shift p; unfold fexp in *; simpl in *; lia).
        assert (Hbig : (2 ^ (p + K) <= 2 ^ (Zpos (digits2_pos m) - 1 + (e + K)))%Z)
          by (apply Z.pow_le_mono_r; lia).
        rewrite !Z.pow_add_r in Hbig by (subst p; lia).
        pose proof (pow2_pos K ltac:(lia)). nia. }
  destruct r as [|q|q] eqn:Hrq; [| |lia].
  - pose proof (shr_fexp_zero e') as Hz. destruct (shr_fexp _ _ _ _ _) as [x e'']. simpl in Hz.
    rewrite Hz. simpl. pose proof (pow2_pos K ltac:(lia)). nia.
  - destruct (renormalise q e') as (m' & d & Hd & Hm' & ->); [lia|done|]. simpl.
    assert (Hval' : (L * 2 ^ K <= Zpos m' * 2 ^ (e' + d + K) <= B * 2 ^ K)%Z).
    { replace (e' + d + K)%Z with (d + (e' + K))%Z by lia.
      rewrite Z.pow_add_r, Z.mul_assoc, Hm' by lia. done. }
    destruct (Z.leb_spec (e' + d) (f_emax t - f_prec t)).
    + split; [apply (fge_scale _ _ _ K)|apply (fle_scale _ _ _ K)]; lia.
    + exfalso. assert (Hbig : (2 ^ (p + K) <= 2 ^ (e' + d + K))%Z)
        by (apply Z.pow_le_mono_r; subst p; lia).
      rewrite Z.pow_add_r in Hbig by (subst p; lia). pose proof (pow2_pos K ltac:(lia)). nia.
Qed.

Lemma iter_xO q d : Zpos (Pos.iter xO q d) = (Zpos q * 2 ^ Zpos d)%Z.
Proof.
  induction d as [|d IH] using Pos.peano_ind; [simpl; lia|].
  rewrite Pos.iter_succ, Pos2Z.inj_succ, Z.pow_succ_r by lia.
  rewrite Pos2Z.inj_xO, IH. ring.
Qed.

(** An integer of at most [p] digits converts exactly. *)
Lemma float_of_pos_exact q :
  (Zpos q < 2 ^ p)%Z ->
  exists m e, float_of_Z t (Zpos q) = S754_finite false m e /\ (e <= 0)%Z /\
    (Zpos m = Zpos q * 2 ^ (- e))%Z.
Proof.
  intros Hq. pose proof (digits2_pos_spec q) as Hd. pose proof emin_neg as Hmin.
  set (d := Zpos (digits2_pos q)) in *.
  assert (Hdp : (d <= p)%Z).
  { assert (d - 1 < p)%Z; [|lia]. apply (Z.pow_lt_mono_r_iff 2); subst p; lia. }
  unfold float_of_Z, binary_normalize, binary_round. fold d.
  set (ez := (fexp (f_prec t) (f_emax t) (d + 0))%Z).
  assert (Hez : ez = (d - p)%Z) by (subst ez p; unfold fexp, emin; lia).
  assert (Hal : exists m, shl_align q 0 ez = (m, ez) /\ (Zpos m = Zpos q * 2 ^ (- ez))%Z).
  { unfold shl_align. rewrite Z.sub_0_r. destruct ez as [|z|z] eqn:Ez; [|lia|].
    - exists q. split; [done|]. simpl. lia.
    - eexists. split; [reflexivity|]. apply iter_xO. }
  destruct Hal as (m & -> & Hm). exists m, ez. split_and!; [|lia|done].
  assert (Hdm : Zpos (digits2_pos m) = p).
  { pose proof (digits2_pos_spec m) as Hdm.
    assert (2 ^ (p - 1) <= Zpos m < 2 ^ p)%Z as [Hlo Hhi].
    { rewrite Hm. replace (p - 1)%Z with (d - 1 + - ez)%Z by lia.
      replace (2 ^ p)%Z with (2 ^ d * 2 ^ (- ez))%Z
        by (rewrite <-Z.pow_add_r by lia; f_equal; lia).
      rewrite Z.pow_add_r by lia. pose proof (pow2_pos (- ez) ltac:(lia)). nia. }
    assert (p - 1 < Zpos (digits2_pos m))%Z by (apply (Z.pow_lt_mono_r_iff 2); subst p; lia).
    assert (Zpos (digits2_pos m) - 1 < p)%Z by (apply (Z.pow_lt_mono_r_iff 2); subst p; lia).
    lia. }
  assert (Hfe : (fexp (f_prec t) (f_emax t) (p + ez) - ez = 0)%Z)
    by (subst p; unfold fexp, emin in *; lia).
  unfold binary_round_aux, shr_fexp. simpl. rewrite Hdm, Hfe. simpl.
  rewrite Hdm, Hfe. simpl. destruct (Z.leb_spec ez (f_emax t - f_prec t)); [done|].
  subst p. lia.
Qed.

(** A product of an integer and a constant below one, rounded: it stays between
    the integers the exact product is between. *)
Lemma fmul_int_between n m2 e2 L B :
  (0 < n < 2 ^ p)%Z -> (e2 <= 0)%Z -> (0 <= L)%Z -> (B < 2 ^ p)%Z ->
  (L * 2 ^ (- e2) <= n * Zpos m2 <= B * 2 ^ (- e2))%Z ->
  float_between (fmul t (float_of_Z t n) (S754_finite false m2 e2)) L B.
Proof.
  intros Hn He2 HL HB Hv. destruct n as [|q|q]; try lia.
  destruct (float_of_pos_exact q) as (m1 & e1 & -> & He1 & Hm1); [lia|].
  unfold fmul. simpl. apply (round_clip (m1 * m2) (e1 + e2) L B); auto.
  - apply (fge_scale _ _ _ (- (e1 + e2))); [lia..|].
    rewrite Z.add_opp_diag_r, Z.mul_1_r, Pos2Z.inj_mul, Hm1, Z.opp_add_distr, Z.pow_add_r by lia.
    pose proof (pow2_pos (- e1) ltac:(lia)). nia.
  - apply (fle_scale _ _ _ (- (e1 + e2))); [lia..|].
    rewrite Z.add_opp_diag_r, Z.mul_1_r, Pos2Z.inj_mul, Hm1, Z.opp_add_distr, Z.pow_add_r by lia.
    pose proof (pow2_pos (- e1) ltac:(lia)). nia.
Qed.
End round_clip.

(** Casts of a float between two integers are between them. *)
Lemma float_between_cast ty x L B :
  float_between x L B -> (0 <= L)%Z -> (L <= B)%Z -> (B <= int_max ty)%Z ->
  (L <= float_to_int ty x <= B)%Z /\ (L <= float_ceil_to_int ty x <= B)%Z.
Proof.
  intros Hx HL HLB HB.
  assert (Hmin : (int_min ty <= 0)%Z) by (by destruct ty; compute).
  destruct x as [[]|[]| |[] m e]; simpl in Hx; try done.
  - unfold float_to_int, float_ceil_to_int, saturate. simpl. lia.
  - destruct Hx as [Hge Hle]. unfold fge, fle in *.
    unfold float_to_int, float_ceil_to_int, saturate, ftrunc, fceil.
    destruct (Z.leb_spec 0 e); simpl.
    + replace (Z.max (- e) 0) with 0%Z in * by lia. replace (Z.max e 0) with e in * by lia.
      change (2 ^ 0)%Z with 1%Z in *. lia.
    + replace (Z.max (- e) 0) with (- e)%Z in * by lia. replace (Z.max e 0) with 0%Z in * by lia.
      change (2 ^ 0)%Z with 1%Z in *. rewrite Z.mul_1_r in *.
      pose proof (pow2_pos (- e) ltac:(lia)) as Hp.
      assert (L <= Zpos m / 2 ^ (- e))%Z by (apply Z.div_le_lower_bound; lia).
      assert (Zpos m / 2 ^ (- e) <= B)%Z by (apply Z.div_le_upper_bound; lia).
      assert (- B <= Zneg m / 2 ^ (- e))%Z by (apply Z.div_le_lower_bound; lia).
      assert (Zneg m / 2 ^ (- e) <= - L)%Z by (apply Z.div_le_upper_bound; lia).
      lia.
Qed.
