(* ===== verification/Primitives.v ===== *)
(** * Primitive types and the cryptographic interfaces

    [crates/primitives] (addresses, digests, node and quorum kinds),
    [crates/vrrb_config/src/threshold_config.rs] and the key pair of
    [crates/vrrb_core/src/keypair.rs].

    secp256k1, sha-2, hex and hbbft are third-party crates: their types and
    functions are the fields of the classes [Hashing], [Secp256k1] and
    [ValidatorKeys], and what the code relies on is in the [...Laws] classes. *)

From S2P Require Import Prelude.
From stdpp Require Import pretty.
From Stdlib Require Import Strings.Ascii Strings.Byte.

Class Hashing := {
  sha256 : bytes -> bytes;
  hex_encode : bytes -> string;
  hex_decode : string -> option bytes;
  (* the text of the error of [hex::decode] *)
  hex_decode_error : string -> string;
  (* [format!] with [{:x}] of a finalised hasher *)
  lower_hex : bytes -> string;
}.

Class HashingLaws `{!Hashing} := {
  sha256_length : forall b, length (sha256 b) = 32;
  hex_decode_encode : forall b, hex_decode (hex_encode b) = Some b;
  hex_decode_length : forall s b, hex_decode s = Some b -> String.length s = 2 * length b;
  hex_encode_length : forall b, String.length (hex_encode b) = 2 * length b;
  lower_hex_length : forall b, String.length (lower_hex b) = 2 * length b;
}.

(** Serialisation with serde, used to hash structured values. *)
Class ToJson (A : Type) := to_json : A -> bytes.

Class Secp256k1 := {
  PublicKey : Type;
  SecretKey : Type;
  Signature : Type;
  PublicKey_eq_dec :: EqDecision PublicKey;
  PublicKey_countable :: Countable PublicKey;
  Signature_eq_dec :: EqDecision Signature;
  pk_of_sk : SecretKey -> PublicKey;
  pk_serialize : PublicKey -> bytes;
  pk_from_slice : bytes -> option PublicKey;
  pk_to_string : PublicKey -> string;
  pk_from_str : string -> option PublicKey;
  sk_bytes : SecretKey -> bytes;
  sk_from_slice : bytes -> option SecretKey;
  (* [sign_ecdsa] and [verify_ecdsa] on a 32-byte [Message] *)
  sign_message : bytes -> SecretKey -> Signature;
  verify_message : bytes -> Signature -> PublicKey -> bool;
  sig_to_string : Signature -> string;
  sig_from_str : string -> option Signature;
  (* the texts of the errors of [from_str] and of [verify_ecdsa] *)
  pk_from_str_error : string -> string;
  sig_from_str_error : string -> string;
  verify_error : bytes -> Signature -> PublicKey -> string;
}.

Class Secp256k1Laws `{!Secp256k1} := {
  pk_from_slice_serialize : forall p, pk_from_slice (pk_serialize p) = Some p;
  pk_from_str_to_string : forall p, pk_from_str (pk_to_string p) = Some p;
  (* a compressed key prints as 66 hexadecimal digits, the first byte 02 or 03 *)
  pk_to_string_length : forall p, String.length (pk_to_string p) = 66;
  pk_to_string_prefix : forall p, exists s,
    pk_to_string p = ("02" +:+ s) \/ pk_to_string p = ("03" +:+ s);
  pk_to_string_hex : forall p c,
    c ∈ String.list_ascii_of_string (pk_to_string p) -> c <> ","%char;
  sk_from_slice_bytes : forall k, sk_from_slice (sk_bytes k) = Some k;
  verify_sign : forall m k, verify_message m (sign_message m k) (pk_of_sk k) = true;
  sig_from_str_to_string : forall s, sig_from_str (sig_to_string s) = Some s;
  (* an ECDSA signature prints as the hexadecimal of its DER form, 72 bytes at most *)
  sig_to_string_length : forall m k, length m = 32 ->
    String.length (sig_to_string (sign_message m k)) <= 144;
}.

(** [Message::from_slice]: a message is exactly 32 bytes. *)
Definition message_from_slice (b : bytes) : option bytes :=
  if bool_decide (length b = 32) then Some b else None.

(** [Message::from_hashed_data] hashes first. *)
Definition sign_ecdsa `{!Hashing, !Secp256k1} (msg : bytes) (sk : SecretKey) : Signature :=
  sign_message (sha256 msg) sk.

Definition verify_ecdsa `{!Hashing, !Secp256k1} (msg : bytes) (sig : Signature)
    (pk : PublicKey) : bool :=
  verify_message (sha256 msg) sig pk.

Class ValidatorKeys := {
  ValidatorSecretKey : Type;
  ValidatorPublicKey : Type;
  vsk_public_key : ValidatorSecretKey -> ValidatorPublicKey;
  vsk_serialize : ValidatorSecretKey -> option bytes;
  vsk_deserialize : bytes -> option ValidatorSecretKey;
  vpk_serialize : ValidatorPublicKey -> option bytes;
  vpk_deserialize : bytes -> option ValidatorPublicKey;
}.

Class ValidatorKeysLaws `{!ValidatorKeys} := {
  vsk_deserialize_serialize : forall k b,
    vsk_serialize k = Some b -> vsk_deserialize b = Some k;
  vpk_deserialize_serialize : forall k b,
    vpk_serialize k = Some b -> vpk_deserialize b = Some k;
}.

(** ** Node kinds *)

Inductive NodeType :=
| Full
| Bootstrap
| NodeMiner
| Validator
| MasterNode.

#[export] Instance NodeType_eq_dec : EqDecision NodeType.
Proof. solve_decision. Defined.

(** The explicit discriminants. *)
Definition NodeType_as_usize (t : NodeType) : Z :=
  match t with
  | Full => 0
  | Bootstrap => 1
  | NodeMiner => 2
  | Validator => 3
  | MasterNode => 4
  end.

Definition NodeType_from_usize (n : Z) : NodeType :=
  match n with
  | 0%Z => Full
  | 1%Z => Bootstrap
  | 2%Z => NodeMiner
  | 3%Z => Validator
  | 4%Z => MasterNode
  | _ => Full
  end.

(** [Display], which prints the derived [Debug] name. *)
Definition NodeType_to_string (t : NodeType) : string :=
  match t with
  | Full => "Full"
  | Bootstrap => "Bootstrap"
  | NodeMiner => "Miner"
  | Validator => "Validator"
  | MasterNode => "MasterNode"
  end.

Inductive NodeError :=
| InvalidEnvironment (s : string)
| NodeOther (s : string).

Definition NodeType_from_str (s : string) : result NodeError NodeType :=
  if bool_decide (s = "full") then Ok Full
  else if bool_decide (s = "miner") then Ok NodeMiner
  else if bool_decide (s = "bootstrap") then Ok Bootstrap
  else if bool_decide (s = "validator") then Ok Validator
  else if bool_decide (s = "master") || bool_decide (s = "masternode") then Ok MasterNode
  else Err (NodeOther "invalid node type").

Definition ascii_lower (c : Ascii.ascii) : Ascii.ascii :=
  let n := Ascii.N_of_ascii c in
  if (65 <=? n)%N && (n <=? 90)%N then Ascii.ascii_of_N (n + 32) else c.

Fixpoint to_ascii_lowercase (s : string) : string :=
  match s with
  | EmptyString => EmptyString
  | String c s' => String (ascii_lower c) (to_ascii_lowercase s')
  end.

Definition NodeType_from_string (src : string) : NodeType :=
  let s := to_ascii_lowercase src in
  if bool_decide (s = "miner") then NodeMiner
  else if bool_decide (s = "bootstrap") then Bootstrap
  else if bool_decide (s = "validator") then Validator
  else if bool_decide (s = "master") || bool_decide (s = "masternode") then MasterNode
  else Full.

Inductive QuorumKind :=
| HarvesterQ
| FarmerQ
| MinerQ.

#[export] Instance QuorumKind_eq_dec : EqDecision QuorumKind.
Proof. solve_decision. Defined.

(** ** Threshold configuration *)

Record ThresholdConfig := mk_ThresholdConfig {
  upper_bound : Z;
  threshold : Z;
}.

Definition ThresholdConfig_default : ThresholdConfig :=
  {| upper_bound := 4; threshold := 2 |}.

Definition MINIMUM_NODES : Z := 2.

Inductive ConfigError :=
| ConfigOther (msg : string).

Definition ThresholdConfig_validate (c : ThresholdConfig) : result ConfigError unit :=
  if (upper_bound c <? MINIMUM_NODES)%Z || (upper_bound c =? int_max U16)%Z then
    Err (ConfigOther ("DKG Threshold config upper bound " +:+ pretty (upper_bound c)
                        +:+ " < " +:+ pretty MINIMUM_NODES +:+ " or == MAX"))
  else if (upper_bound c <? threshold c)%Z || (threshold c =? 0)%Z
          || (threshold c =? int_max U16)%Z then
    Err (ConfigOther ("DKG threshold " +:+ pretty (threshold c) +:+ " == 0 || > "
                        +:+ pretty (upper_bound c) +:+ " || == MAX"))
  else Ok tt.

(** ** Digests *)

Definition DIGEST_LENGTH : nat := 32.

(** [Vec<u8>::try_into::<[u8; 32]>().unwrap_or_default()]. *)
Definition Digest_from (b : bytes) : bytes :=
  if bool_decide (length b = DIGEST_LENGTH) then b else replicate DIGEST_LENGTH x00.

(** ** Addresses *)

Section address.
Context `{!Secp256k1}.

Record Address := mk_Address {
  address_pk : PublicKey;
}.

#[export] Instance Address_eq_dec : EqDecision Address.
Proof. solve_decision. Defined.

#[export] Instance Address_countable : Countable Address.
Proof.
  refine (inj_countable' address_pk mk_Address _). by intros [].
Defined.

Definition Address_new (pk : PublicKey) : Address := mk_Address pk.
Definition public_key (a : Address) : PublicKey := address_pk a.
Definition public_key_bytes (a : Address) : bytes := str_bytes (pk_to_string (address_pk a)).
Definition Address_to_string (a : Address) : string := pk_to_string (address_pk a).

Definition Address_from_str (s : string) : result NodeError Address :=
  match pk_from_str s with
  | Some pk => Ok (mk_Address pk)
  | None => Err (NodeOther (pk_from_str_error s))
  end.

(** [Address::default()]: the parse result of a fixed string is unwrapped. *)
Definition Address_default : result NodeError Address :=
  match pk_from_str "null-address" with
  | Some pk => Ok (mk_Address pk)
  | None => Panic
  end.

Definition Address_from_string (s : string) : result NodeError Address :=
  match Address_from_str s with
  | Ok a => Ok a
  | _ => Address_default
  end.
End address.
