(* ===== verification/Keypair.v ===== *)
(** * Key pairs: [crates/vrrb_core/src/keypair.rs]

    Serialisation of the two secret keys of a node, and the ECDSA signing and
    verification wrappers every other component signs and verifies with. *)

From S2P Require Import Prelude Primitives.

Inductive KeyPairError :=
| InvalidKeyPair
| SerializeKeyError (what err : string)
| FailedToReadFromFile (err : string)
| InvalidHex
| KeyIOError (err : string)
| InvalidPublicKey
| InvalidSignature (err : string)
| SignatureVerificationFailed (err : string)
| InvalidKey (what : string).

Section keypair.
Context `{!Hashing, !Secp256k1, !ValidatorKeys}.

Record KeyPair := mk_KeyPair {
  miner_kp : SecretKey * PublicKey;
  validator_kp : ValidatorSecretKey * ValidatorPublicKey;
}.

Definition KeyPair_new (validator_sk : ValidatorSecretKey) (miner_sk : SecretKey)
    : KeyPair :=
  {| miner_kp := (miner_sk, pk_of_sk miner_sk);
     validator_kp := (validator_sk, vsk_public_key validator_sk) |}.

Definition KeyPair_from_bytes (validator_key_bytes miner_key_bytes : bytes)
    : result KeyPairError KeyPair :=
  match sk_from_slice miner_key_bytes with
  | None => Err InvalidKeyPair
  | Some miner_sk =>
      match vsk_deserialize validator_key_bytes with
      | Some secret_key => Ok (KeyPair_new secret_key miner_sk)
      | None => Err InvalidKeyPair
      end
  end.

Definition from_validator_pk_bytes (key_bytes : bytes)
    : result KeyPairError ValidatorPublicKey :=
  ok_or (vpk_deserialize key_bytes) InvalidPublicKey.

Definition from_miner_pk_bytes (key_bytes : bytes) : result KeyPairError PublicKey :=
  ok_or (pk_from_slice key_bytes) InvalidPublicKey.

Definition KeyPair_to_bytes (kp : KeyPair) : result KeyPairError (bytes * bytes) :=
  match vsk_serialize (validator_kp kp).1 with
  | None => Err (SerializeKeyError "validator secret" "bincode")
  | Some serialized_sk => Ok (serialized_sk, sk_bytes (miner_kp kp).1)
  end.

Definition to_validator_pk_bytes (kp : KeyPair) : result KeyPairError bytes :=
  match vpk_serialize (validator_kp kp).2 with
  | Some serialized_pk => Ok serialized_pk
  | None => Err (SerializeKeyError "validator public" "bincode")
  end.

Definition to_miner_pk_bytes (kp : KeyPair) : result KeyPairError bytes :=
  Ok (pk_serialize (miner_kp kp).2).

Definition ecdsa_sign (msg : bytes) (secret_key : bytes) : result KeyPairError string :=
  match sk_from_slice secret_key with
  | Some sk => Ok (sig_to_string (sign_ecdsa msg sk))
  | None => Err (InvalidKey "Secret")
  end.

Definition verify_ecdsa_sign (signature : string) (msg : bytes) (pub_key : bytes)
    : result KeyPairError unit :=
  match pk_from_slice pub_key with
  | None => Err (InvalidKey "Public")
  | Some pk =>
      match sig_from_str signature with
      | None => Err (InvalidSignature (sig_from_str_error signature))
      | Some sig =>
          if verify_ecdsa msg sig pk then Ok tt
          else Err (SignatureVerificationFailed (verify_error (sha256 msg) sig pk))
      end
  end.

(** The public halves belong to the secret ones. *)
Definition KeyPair_wf (kp : KeyPair) : Prop :=
  (miner_kp kp).2 = pk_of_sk (miner_kp kp).1 /\
  (validator_kp kp).2 = vsk_public_key (validator_kp kp).1.

Lemma KeyPair_new_wf vsk sk : KeyPair_wf (KeyPair_new vsk sk).
Proof. split; reflexivity. Qed.

Context `{!Secp256k1Laws, !ValidatorKeysLaws}.

Lemma KeyPair_bytes_roundtrip kp v m :
  KeyPair_wf kp -> KeyPair_to_bytes kp = Ok (v, m) -> KeyPair_from_bytes v m = Ok kp.
Proof.
  destruct kp as [[msk mpk] [vsk vpk]]. intros [Hm Hv]. simpl in *.
  unfold KeyPair_to_bytes, KeyPair_from_bytes. simpl.
  destruct (vsk_serialize vsk) as [b|] eqn:Hs; intros [= <- <-].
  rewrite sk_from_slice_bytes, (vsk_deserialize_serialize vsk b Hs). by subst.
Qed.

Lemma ecdsa_sign_verify msg sk sig :
  ecdsa_sign msg (sk_bytes sk) = Ok sig ->
  verify_ecdsa_sign sig msg (pk_serialize (pk_of_sk sk)) = Ok tt.
Proof.
  unfold ecdsa_sign, verify_ecdsa_sign.
  rewrite sk_from_slice_bytes. intros [= <-].
  rewrite pk_from_slice_serialize, sig_from_str_to_string.
  unfold verify_ecdsa, sign_ecdsa. by rewrite verify_sign.
Qed.
End keypair.
