(* ===== verification/Transactions.v ===== *)
(** * Transactions: [crates/vrrb_core/src/transactions]

    The [Transaction] trait is a class with an instance per implementation, as
    in the source. The digest of a transfer, the builder, signing and the fee
    split are modelled; serde's JSON and the Unicode tables of [str]'s [Debug]
    are parameters. *)

From S2P Require Import Prelude Primitives Keypair.
From stdpp Require Import pretty.
From Stdlib Require Import Strings.Ascii Strings.Byte.

Definition BASE_FEE : Z := 0x2D79883D2000.

Record Token := mk_Token {
  token_name : string;
  token_symbol : string;
  token_decimals : Z;
}.

#[export] Instance Token_eq_dec : EqDecision Token.
Proof. solve_decision. Defined.

Definition Token_default : Token :=
  {| token_name := "VRRB"; token_symbol := "VRRB"; token_decimals := 18 |}.

(** [<str as Debug>::fmt], which quotes and escapes. *)
Class StrDebug := str_debug : string -> string.

Definition Token_debug `{!StrDebug} (t : Token) : string :=
  "Token { name: " +:+ str_debug (token_name t) +:+ ", symbol: "
  +:+ str_debug (token_symbol t) +:+ ", decimals: " +:+ pretty (token_decimals t) +:+ " }".

Definition Token_to_string (t : Token) : string :=
  "Token(name: " +:+ token_name t +:+ ", symbol: " +:+ token_symbol t
  +:+ ", decimals: " +:+ pretty (token_decimals t) +:+ ")".

(** ** Transaction digests *)

Record TransactionDigest := mk_TransactionDigest {
  inner : bytes;
  digest_string : string;
}.

#[export] Instance TransactionDigest_eq_dec : EqDecision TransactionDigest.
Proof. solve_decision. Defined.

#[export] Instance TransactionDigest_countable : Countable TransactionDigest.
Proof.
  refine (inj_countable' (fun d => (inner d, digest_string d))
                         (fun p => mk_TransactionDigest p.1 p.2) _).
  by intros [].
Defined.

Definition TransactionDigest_default : TransactionDigest :=
  {| inner := replicate DIGEST_LENGTH x00; digest_string := EmptyString |}.

(** The inner digest is an array of 32 bytes, of which [is_empty] is asked. *)
Definition TransactionDigest_is_empty (d : TransactionDigest) : bool :=
  bool_decide (inner d = []) && bool_decide (digest_string d = EmptyString).

Section digest.
Context `{!Hashing}.

Definition TransactionDigest_from (byte_vec : bytes) : TransactionDigest :=
  {| inner := Digest_from byte_vec; digest_string := hex_encode byte_vec |}.

Inductive CoreError :=
| CoreIo (err : string)
| CoreSerdeJson (err : string)
| CoreOther (err : string).

Definition TransactionDigest_from_str (s : string) : result CoreError TransactionDigest :=
  match hex_decode s with
  | Some decoded => Ok (TransactionDigest_from decoded)
  | None => Err (CoreOther ("failed to decode hex string: " +:+ hex_decode_error s))
  end.
End digest.

(** ** Transfers *)

Section transfer.
Context `{!Hashing, !Secp256k1, !ValidatorKeys, !StrDebug}.
Context `{!ToJson Address, !ToJson PublicKey, !ToJson Token, !ToJson Z, !ToJson string}.

Definition transfer_payload (timestamp : Z) (sender_address : string)
    (sender_public_key : PublicKey) (receiver_address : string) (token : Token)
    (amount nonce : Z) : string :=
  pretty timestamp +:+ "," +:+ sender_address +:+ "," +:+ pk_to_string sender_public_key
  +:+ "," +:+ receiver_address +:+ "," +:+ pretty amount +:+ "," +:+ Token_debug token
  +:+ "," +:+ pretty nonce.

Definition generate_transfer_digest_vec (timestamp : Z) (sender_address : string)
    (sender_public_key : PublicKey) (receiver_address : string) (token : Token)
    (amount nonce : Z) : bytes :=
  sha256 (str_bytes (transfer_payload timestamp sender_address sender_public_key
                       receiver_address token amount nonce)).

Record Transfer := mk_Transfer {
  t_id : TransactionDigest;
  t_timestamp : Z;
  t_sender_address : Address;
  t_sender_public_key : PublicKey;
  t_receiver_address : Address;
  t_token : Token;
  t_amount : Z;
  t_signature : Signature;
  t_validators : option (gmap string bool);
  t_nonce : Z;
}.

Definition set_signature (sig : Signature) (t : Transfer) : Transfer :=
  {| t_id := t_id t; t_timestamp := t_timestamp t; t_sender_address := t_sender_address t;
     t_sender_public_key := t_sender_public_key t; t_receiver_address := t_receiver_address t;
     t_token := t_token t; t_amount := t_amount t; t_signature := sig;
     t_validators := t_validators t; t_nonce := t_nonce t |}.

Record NewTransferArgs := mk_NewTransferArgs {
  arg_timestamp : Z;
  arg_sender_address : Address;
  arg_sender_public_key : PublicKey;
  arg_receiver_address : Address;
  arg_token : option Token;
  arg_amount : Z;
  arg_signature : Signature;
  arg_validators : option (gmap string bool);
  arg_nonce : Z;
}.

Definition Transfer_new (args : NewTransferArgs) : Transfer :=
  let token := default Token_default (arg_token args) in
  let digest_vec :=
    generate_transfer_digest_vec (arg_timestamp args)
      (Address_to_string (arg_sender_address args)) (arg_sender_public_key args)
      (Address_to_string (arg_receiver_address args)) token (arg_amount args)
      (arg_nonce args) in
  {| t_id := TransactionDigest_from digest_vec;
     t_timestamp := arg_timestamp args;
     t_sender_address := arg_sender_address args;
     t_sender_public_key := arg_sender_public_key args;
     t_receiver_address := arg_receiver_address args;
     t_token := token;
     t_amount := arg_amount args;
     t_signature := arg_signature args;
     t_validators := arg_validators args;
     t_nonce := arg_nonce args |}.

Record TransferBuilder := mk_TransferBuilder {
  b_timestamp : option Z;
  b_sender_address : option Address;
  b_sender_public_key : option PublicKey;
  b_receiver_address : option Address;
  b_token : option Token;
  b_amount : option Z;
  b_signature : option Signature;
  b_validators : option (gmap string bool);
  b_nonce : option Z;
}.

Definition TransferBuilder_default : TransferBuilder :=
  mk_TransferBuilder None None None None None None None None None.

(** The setters. *)
Definition with_timestamp (x : Z) (b : TransferBuilder) : TransferBuilder :=
    mk_TransferBuilder (Some x) (b_sender_address b) (b_sender_public_key b)
    (b_receiver_address b) (b_token b) (b_amount b) (b_signature b)
    (b_validators b) (b_nonce b).

Definition with_sender_address (x : Address) (b : TransferBuilder) : TransferBuilder :=
    mk_TransferBuilder (b_timestamp b) (Some x) (b_sender_public_key b)
    (b_receiver_address b) (b_token b) (b_amount b) (b_signature b)
    (b_validators b) (b_nonce b).

Definition with_sender_public_key (x : PublicKey) (b : TransferBuilder) : TransferBuilder :=
    mk_TransferBuilder (b_timestamp b) (b_sender_address b) (Some x)
    (b_receiver_address b) (b_token b) (b_amount b) (b_signature b)
    (b_validators b) (b_nonce b).

Definition with_receiver_address (x : Address) (b : TransferBuilder) : TransferBuilder :=
    mk_TransferBuilder (b_timestamp b) (b_sender_address b) (b_sender_public_key
    b) (Some x) (b_token b) (b_amount b) (b_signature b) (b_validators b)
    (b_nonce b).

Definition with_token (x : Token) (b : TransferBuilder) : TransferBuilder :=
    mk_TransferBuilder (b_timestamp b) (b_sender_address b) (b_sender_public_key
    b) (b_receiver_address b) (Some x) (b_amount b) (b_signature b)
    (b_validators b) (b_nonce b).

Definition with_amount (x : Z) (b : TransferBuilder) : TransferBuilder :=
    mk_TransferBuilder (b_timestamp b) (b_sender_address b) (b_sender_public_key
    b) (b_receiver_address b) (b_token b) (Some x) (b_signature b) (b_validators
    b) (b_nonce b).

Definition with_signature (x : Signature) (b : TransferBuilder) : TransferBuilder :=
    mk_TransferBuilder (b_timestamp b) (b_sender_address b) (b_sender_public_key
    b) (b_receiver_address b) (b_token b) (b_amount b) (Some x) (b_validators b)
    (b_nonce b).

Definition with_validators (x : gmap string bool) (b : TransferBuilder) : TransferBuilder :=
    mk_TransferBuilder (b_timestamp b) (b_sender_address b) (b_sender_public_key
    b) (b_receiver_address b) (b_token b) (b_amount b) (b_signature b) (Some x)
    (b_nonce b).

Definition with_nonce (x : Z) (b : TransferBuilder) : TransferBuilder :=
    mk_TransferBuilder (b_timestamp b) (b_sender_address b) (b_sender_public_key
    b) (b_receiver_address b) (b_token b) (b_amount b) (b_signature b)
    (b_validators b) (Some x).

(** [TransferBuilder::build]; the [?] operators run in the order of the source,
    the missing signature being noticed last. *)
Definition TransferBuilder_build (b : TransferBuilder) : result string Transfer :=
  ts ← ok_or (b_timestamp b) "timestamp is missing";
  sa ← ok_or (b_sender_address b) "sender_address is missing";
  spk ← ok_or (b_sender_public_key b) "sender_public_key is missing";
  ra ← ok_or (b_receiver_address b) "receiver_address is missing";
  am ← ok_or (b_amount b) "amount is missing";
  n ← ok_or (b_nonce b) "nonce is missing";
  let tok := default Token_default (b_token b) in
  let d := generate_transfer_digest_vec ts (Address_to_string sa) spk
             (Address_to_string ra) tok am n in
  sig ← ok_or (b_signature b) "signature is missing";
  mret {| t_id := TransactionDigest_from d; t_timestamp := ts; t_sender_address := sa;
          t_sender_public_key := spk; t_receiver_address := ra; t_token := tok;
          t_amount := am; t_signature := sig; t_validators := b_validators b;
          t_nonce := n |}.

Inductive TransactionKind :=
| TransferKind (transfer : Transfer).

(** [build_kind] unwraps the builder's result with [expect]. *)
Definition TransferBuilder_build_kind (b : TransferBuilder)
    : result string TransactionKind :=
  transfer ← unwrap (TransferBuilder_build b);
  Ok (TransferKind transfer).

(** [utils::hash_data!]: SHA-256 of the concatenated JSON of the items. *)
Definition hash_data (items : list bytes) : bytes := sha256 (concat items).

(** [Transfer::null_txn] for the clock reading and the random key pair it
    draws. *)
Definition null_txn (now : Z) (kp : KeyPair) : Transfer :=
  let public_key := (miner_kp kp).2 in
  let address := Address_new public_key in
  let digest_vec :=
    generate_transfer_digest_vec now (Address_to_string address) public_key
      (Address_to_string address) Token_default 0 0 in
  let payload :=
    hash_data [to_json (pretty now); to_json (Address_to_string address);
               to_json (pk_to_string public_key); to_json (Address_to_string address);
               to_json (Token_to_string Token_default); to_json (pretty 0%Z);
               to_json (pretty 0%Z)] in
  {| t_id := TransactionDigest_from digest_vec;
     t_timestamp := now;
     t_sender_address := address;
     t_sender_public_key := public_key;
     t_receiver_address := address;
     t_token := Token_default;
     t_amount := 0;
     t_signature := sign_ecdsa payload (miner_kp kp).1;
     t_validators := None;
     t_nonce := 0 |}.

Definition generate_txn_digest_vec (t : Transfer) : bytes :=
  generate_transfer_digest_vec (t_timestamp t) (Address_to_string (t_sender_address t))
    (t_sender_public_key t) (Address_to_string (t_receiver_address t)) (t_token t)
    (t_amount t) (t_nonce t).

Definition build_payload_digest (t : Transfer) : TransactionDigest :=
  TransactionDigest_from (generate_txn_digest_vec t).

(** [PartialEq for Transfer]: transfers are compared by their digests. *)
Definition Transfer_eq (t1 t2 : Transfer) : bool :=
  bool_decide (generate_txn_digest_vec t1 = generate_txn_digest_vec t2).

Definition Transfer_build_payload (t : Transfer) : string :=
  lower_hex (hash_data
    [to_json (t_sender_address t); to_json (t_sender_public_key t);
     to_json (t_receiver_address t); to_json (t_token t); to_json (t_amount t);
     to_json (t_nonce t)]).

Definition Transfer_sign (sk : SecretKey) (t : Transfer) : Transfer :=
  match message_from_slice (str_bytes (Transfer_build_payload t)) with
  | Some msg => set_signature (sign_message msg sk) t
  | None => t
  end.

(** ** The [Transaction] trait *)

Class Transaction (T : Type) := {
  txn_id : T -> TransactionDigest;
  txn_timestamp : T -> Z;
  txn_sender_address : T -> Address;
  txn_sender_public_key : T -> PublicKey;
  txn_receiver_address : T -> Address;
  txn_token : T -> Token;
  txn_amount : T -> Z;
  txn_signature : T -> Signature;
  txn_validators : T -> option (gmap string bool);
  txn_nonce : T -> Z;
  txn_fee : T -> Z;
  txn_validator_fee_share : T -> Z;
  txn_proposer_fee_share : T -> Z;
  txn_build_payload : T -> string;
  txn_digest : T -> TransactionDigest;
  txn_sign : SecretKey -> T -> T;
}.

#[export] Instance Transfer_Transaction : Transaction Transfer := {
  txn_id := t_id;
  txn_timestamp := t_timestamp;
  txn_sender_address := t_sender_address;
  txn_sender_public_key := t_sender_public_key;
  txn_receiver_address := t_receiver_address;
  txn_token := t_token;
  txn_amount := t_amount;
  txn_signature := t_signature;
  txn_validators := t_validators;
  txn_nonce := t_nonce;
  txn_fee := fun _ => BASE_FEE;
  txn_validator_fee_share := fun _ => (BASE_FEE / 2)%Z;
  txn_proposer_fee_share := fun _ => (BASE_FEE / 2)%Z;
  txn_build_payload := Transfer_build_payload;
  txn_digest := t_id;
  txn_sign := Transfer_sign;
}.

Definition kind_transfer (k : TransactionKind) : Transfer :=
  match k with
  | TransferKind transfer => transfer
  end.

(** Every method of [TransactionKind] forwards to the variant's payload. *)
#[export] Instance TransactionKind_Transaction : Transaction TransactionKind := {
  txn_id := fun k => txn_id (kind_transfer k);
  txn_timestamp := fun k => txn_timestamp (kind_transfer k);
  txn_sender_address := fun k => txn_sender_address (kind_transfer k);
  txn_sender_public_key := fun k => txn_sender_public_key (kind_transfer k);
  txn_receiver_address := fun k => txn_receiver_address (kind_transfer k);
  txn_token := fun k => txn_token (kind_transfer k);
  txn_amount := fun k => txn_amount (kind_transfer k);
  txn_signature := fun k => txn_signature (kind_transfer k);
  txn_validators := fun k => txn_validators (kind_transfer k);
  txn_nonce := fun k => txn_nonce (kind_transfer k);
  txn_fee := fun k => txn_fee (kind_transfer k);
  txn_validator_fee_share := fun k => txn_validator_fee_share (kind_transfer k);
  txn_proposer_fee_share := fun k => txn_proposer_fee_share (kind_transfer k);
  txn_build_payload := fun k => txn_build_payload (kind_transfer k);
  txn_digest := fun k => txn_digest (kind_transfer k);
  txn_sign := fun sk k =>
    match k with TransferKind t => TransferKind (txn_sign sk t) end;
}.

Record VoteReceipt := mk_VoteReceipt {
  farmer_id : bytes;
  farmer_node_id : Z;
  receipt_signature : bytes;
}.

Record QuorumCertifiedTxn := mk_QuorumCertifiedTxn {
  sender_farmer_id : bytes;
  votes : list VoteReceipt;
  qc_txn : TransactionKind;
  qc_signature : bytes;
  is_txn_valid : bool;
}.

Definition qc_fee (t : QuorumCertifiedTxn) : Z := txn_fee (qc_txn t).
Definition qc_validator_fee_share (t : QuorumCertifiedTxn) : Z :=
  txn_validator_fee_share (qc_txn t).
Definition qc_proposer_fee_share (t : QuorumCertifiedTxn) : Z :=
  txn_proposer_fee_share (qc_txn t).

(** A transfer whose identifier is the digest of its own fields. *)
Definition Transfer_wf (t : Transfer) : Prop := t_id t = build_payload_digest t.

Lemma Transfer_new_wf args : Transfer_wf (Transfer_new args).
Proof. reflexivity. Qed.

Lemma null_txn_wf now kp : Transfer_wf (null_txn now kp).
Proof. reflexivity. Qed.

Lemma Transfer_sign_wf sk t : Transfer_wf t -> Transfer_wf (Transfer_sign sk t).
Proof. unfold Transfer_sign. by destruct message_from_slice. Qed.

#[export] Instance Transfer_equiv : Equiv Transfer := fun t1 t2 =>
  generate_txn_digest_vec t1 = generate_txn_digest_vec t2.

#[export] Instance Transfer_equivalence : Equivalence (≡@{Transfer}).
Proof.
  split; unfold equiv, Transfer_equiv; [done| |]; intros ?; congruence.
Qed.

Lemma Transfer_eq_spec t1 t2 : Transfer_eq t1 t2 = true <-> t1 ≡ t2.
Proof. apply bool_decide_eq_true. Qed.

#[export] Instance build_payload_digest_proper :
  Proper ((≡) ==> (=)) build_payload_digest.
Proof. intros t1 t2 Ht. unfold build_payload_digest. by rewrite Ht. Qed.

End transfer.
