(* ===== verification/ToyModel.v ===== *)
(** * A small concrete model of the third-party interfaces

    Keys are single bytes, a signature is the key followed by the message, the
    hash is the message read as a number modulo a 256-bit prime. It is not a
    cryptographic model: it shows that the laws the theorems assume can hold
    together, and lets concrete inputs be evaluated. *)

From S2P Require Import Prelude Primitives Keypair Transactions.
From Stdlib Require Import Strings.Ascii Strings.Byte.
From stdpp Require Import pretty.

Module Toy.

Definition hex_digit (n : N) : ascii :=
  ascii_of_N (if (n <? 10)%N then n + 48 else n + 87).

Definition unhex_digit (c : ascii) : option N :=
  let n := N_of_ascii c in
  if (48 <=? n)%N && (n <=? 57)%N then Some (n - 48)%N
  else if (97 <=? n)%N && (n <=? 102)%N then Some (n - 87)%N
  else None.

Fixpoint hex (b : bytes) : string :=
  match b with
  | [] => EmptyString
  | x :: b' =>
      String (hex_digit (Byte.to_N x / 16))
        (String (hex_digit (Byte.to_N x mod 16)) (hex b'))
  end.

Fixpoint unhex (s : string) : option bytes :=
  match s with
  | EmptyString => Some []
  | String c (String d s') =>
      h ← unhex_digit c;
      l ← unhex_digit d;
      x ← Byte.of_N (h * 16 + l);
      b ← unhex s';
      Some (x :: b)
  | _ => None
  end.

Definition hash (b : bytes) : bytes :=
  be_bytes 32 ((of_be_bytes b * 7 + Z.of_nat (length b) + 1) mod (2 ^ 256 - 189)).

Lemma unhex_hex b : unhex (hex b) = Some b.
Proof. induction b as [|x b IH]; [done|]. destruct x; simpl; by rewrite IH. Qed.

Lemma length_hex b : String.length (hex b) = 2 * length b.
Proof. induction b as [|x b IH]; simpl; [done|]. lia. Qed.

Lemma unhex_length s b : unhex s = Some b -> String.length s = 2 * length b.
Proof.
  revert b.
  enough (Hs : forall n s, String.length s <= n -> forall b,
    unhex s = Some b -> String.length s = 2 * length b) by eauto.
  clear s. induction n as [|n IH]; intros [|c [|d s]] Hl b; simpl in *; try lia; try done.
  1,2: by intros [= <-].
  destruct (unhex_digit c) as [h|], (unhex_digit d) as [l|]; simpl; try done.
  destruct (Byte.of_N (h * 16 + l)) as [x|]; simpl; [|done].
  destruct (unhex s) as [b'|] eqn:Hs; simpl; [|done].
  intros [= <-]. simpl. rewrite (IH s ltac:(lia) b' Hs). lia.
Qed.

#[export] Instance hashing : Hashing := {|
  sha256 := hash;
  hex_encode := hex;
  hex_decode := unhex;
  hex_decode_error := fun s => s;
  lower_hex := hex;
|}.

#[export] Instance hashing_laws : HashingLaws.
Proof.
  split; [|apply unhex_hex|apply unhex_length|apply length_hex|apply length_hex].
  intros b. apply length_be_bytes.
Qed.

Definition key_prefix : bytes := x02 :: replicate 31 x00.

Definition key_bytes (k : byte) : bytes := key_prefix ++ [k].

Definition key_of_bytes (b : bytes) : option byte :=
  match drop 32 b with
  | [k] => if bool_decide (take 32 b = key_prefix) then Some k else None
  | _ => None
  end.

Definition secret_bytes (k : byte) : bytes := replicate 31 x00 ++ [k].

Definition secret_of_bytes (b : bytes) : option byte :=
  match drop 31 b with
  | [k] => if bool_decide (take 31 b = replicate 31 x00) then Some k else None
  | _ => None
  end.

#[export] Instance secp : Secp256k1 := {|
  PublicKey := byte;
  SecretKey := byte;
  Signature := bytes;
  pk_of_sk := fun k => k;
  pk_serialize := key_bytes;
  pk_from_slice := key_of_bytes;
  pk_to_string := fun k => hex (key_bytes k);
  pk_from_str := fun s => unhex s ≫= key_of_bytes;
  sk_bytes := secret_bytes;
  sk_from_slice := secret_of_bytes;
  sign_message := fun m k => k :: m;
  verify_message := fun m s k => bool_decide (s = k :: m);
  sig_to_string := hex;
  sig_from_str := unhex;
  pk_from_str_error := fun s => s;
  sig_from_str_error := fun s => s;
  verify_error := fun _ _ _ => EmptyString;
|}.

Lemma hex_no_comma b c :
  c ∈ String.list_ascii_of_string (hex b) -> c <> ","%char.
Proof.
  induction b as [|x b IH]; simpl; [by intros ?%elem_of_nil|].
  rewrite !elem_of_cons. intros [->|[->|?]]; auto; by destruct x.
Qed.

#[export] Instance secp_laws : Secp256k1Laws.
Proof.
  assert (Hk : forall k, key_of_bytes (key_bytes k) = Some k) by (by intros []).
  split.
  - exact Hk.
  - intros k. unfold pk_from_str, pk_to_string, secp. by rewrite unhex_hex.
  - intros k. apply (length_hex (key_bytes k)).
  - intros k. eexists. left. reflexivity.
  - intros p c. apply (hex_no_comma (key_bytes p)).
  - exact Hk.
  - intros m k. by apply bool_decide_eq_true.
  - apply unhex_hex.
  - intros m k Hm. unfold sig_to_string, sign_message, secp.
    rewrite length_hex. simpl. lia.
Qed.

#[export] Instance validator_keys : ValidatorKeys := {|
  ValidatorSecretKey := byte;
  ValidatorPublicKey := byte;
  vsk_public_key := fun k => k;
  vsk_serialize := fun k => Some [k];
  vsk_deserialize := fun b => match b with [k] => Some k | _ => None end;
  vpk_serialize := fun k => Some [k];
  vpk_deserialize := fun b => match b with [k] => Some k | _ => None end;
|}.

#[export] Instance validator_keys_laws : ValidatorKeysLaws.
Proof. split; simpl; by intros k b [= <-]. Qed.

#[export] Instance str_debug_quote : StrDebug := fun s =>
  String "034" (s +:+ String "034" EmptyString).

#[export] Instance json_address : ToJson Address := fun a => key_bytes (address_pk a).
#[export] Instance json_pk : ToJson PublicKey := fun a => key_bytes a.
#[export] Instance json_token : ToJson Token := fun t => str_bytes (Token_to_string t).
#[export] Instance json_Z : ToJson Z := fun z => str_bytes (pretty z).
#[export] Instance json_string : ToJson string := str_bytes.

#[export] Instance linked_map : LinkedMap := {|
  linked_insert := fun K _ V k v m => filter (fun p => p.1 <> k) m ++ [(k, v)];
  linked_remove := fun K _ V k m => filter (fun p => p.1 <> k) m;
  linked_pop := fun K V m => last m;
|}.

#[export] Instance linked_map_laws : LinkedMapLaws.
Proof. split; intros; simpl; [by rewrite Permutation_app_comm|done|done]. Qed.

#[export] Instance hash_order : HashOrder := {|
  hash_iter := fun K _ _ V m => map_to_list m;
  hash_elements := fun K _ _ s => elements s;
|}.

#[export] Instance hash_order_laws : HashOrderLaws.
Proof. split; done. Qed.

(** The release and the dev profile. *)
Definition release : Profile := false.
Definition dev : Profile := true.

End Toy.

(** Sample values shared by the concrete evaluations. *)
Module Sample.
Import Toy.

Definition alice : Address := mk_Address x01.
Definition bob : Address := mk_Address x02.
Definition carol : Address := mk_Address x03.

Definition alice_sk : SecretKey := x01.
Definition some_signature : Signature := [x07].

Definition args : NewTransferArgs := {|
  arg_timestamp := 1700000000;
  arg_sender_address := alice;
  arg_sender_public_key := x01;
  arg_receiver_address := bob;
  arg_token := None;
  arg_amount := 250;
  arg_signature := [];
  arg_validators := Some {[ "v1" := true; "v2" := false ]};
  arg_nonce := 1;
|}.

Definition transfer : Transfer := Transfer_new args.

Definition transfer_of (from to : Address) (amount nonce : Z) : Transfer :=
  Transfer_new (mk_NewTransferArgs 1700000000 from (address_pk from) to None amount
                  [] None nonce).
End Sample.
