(* ===== verification/TransactionProofs.v ===== *)
(** * Properties of transactions *)

From S2P Require Import Prelude Primitives Keypair Transactions ToyModel.
From Stdlib Require Import Strings.Ascii Strings.Byte.
From stdpp Require Import pretty.

(** ** Decimal numbers contain no separator *)

Lemma pretty_N_go_free x s : str_free ","%char s -> str_free ","%char (pretty_N_go x s).
Proof.
  unfold str_free. revert s. induction (N.lt_wf_0 x) as [x _ IH]; intros s Hs.
  destruct (decide (x = 0)%N) as [->|]; [by rewrite pretty_N_go_0|].
  rewrite pretty_N_go_step by lia. apply IH; [by apply N.div_lt; lia|].
  simpl. rewrite elem_of_cons. intros [Hc|?]; [|done].
  unfold pretty_N_char in Hc. by repeat case_match.
Qed.

Lemma pretty_Z_free (z : Z) : str_free ","%char (pretty z).
Proof.
  assert (HN : forall n : N, str_free ","%char (pretty n)).
  { intros n. unfold pretty, pretty_N. case_decide.
    - unfold str_free. simpl. set_solver.
    - apply pretty_N_go_free. unfold str_free. simpl. set_solver. }
  destruct z as [|p|p]; unfold pretty, pretty_Z; [apply (HN 0%N)|apply HN|].
  unfold str_free. simpl. rewrite elem_of_cons. intros [?|?]; [done|].
  by apply (HN (Npos p)).
Qed.

Section payload.
Context `{!Hashing, !Secp256k1, !ValidatorKeys, !StrDebug, !Secp256k1Laws}.

Lemma pk_to_string_free p : str_free ","%char (pk_to_string p).
Proof. intros Hc. by apply pk_to_string_hex in Hc. Qed.

Lemma pk_to_string_inj p q : pk_to_string p = pk_to_string q -> p = q.
Proof.
  intros Heq. apply (f_equal pk_from_str) in Heq.
  rewrite !pk_from_str_to_string in Heq. congruence.
Qed.

(** The text that is hashed determines every field (the token up to its
    [Debug] text): addresses are keys in hexadecimal, numbers are decimal, and
    only the token's text, which is the last field but one, is free. *)
Lemma transfer_payload_inj ts sa pk ra tok am n ts' sa' pk' ra' tok' am' n' :
  transfer_payload ts (Address_to_string sa) pk (Address_to_string ra) tok am n =
  transfer_payload ts' (Address_to_string sa') pk' (Address_to_string ra') tok' am' n' ->
  ts = ts' /\ sa = sa' /\ pk = pk' /\ ra = ra' /\ am = am' /\
  Token_debug tok = Token_debug tok' /\ n = n'.
Proof.
  unfold transfer_payload, Address_to_string. simpl. intros Heq.
  apply str_sep_inj in Heq as [?%(inj pretty) Heq]; auto using pretty_Z_free.
  apply str_sep_inj in Heq as [?%pk_to_string_inj Heq]; auto using pk_to_string_free.
  apply str_sep_inj in Heq as [?%pk_to_string_inj Heq]; auto using pk_to_string_free.
  apply str_sep_inj in Heq as [?%pk_to_string_inj Heq]; auto using pk_to_string_free.
  apply str_sep_inj in Heq as [?%(inj pretty) Heq]; auto using pretty_Z_free.
  apply str_sep_inj_last in Heq as [? ?%(inj pretty)]; auto using pretty_Z_free.
  destruct sa, sa', ra, ra'. simpl in *. subst. auto 10.
Qed.
End payload.

Lemma str_bytes_inj s1 s2 : str_bytes s1 = str_bytes s2 -> s1 = s2.
Proof.
  intros Heq. apply (f_equal String.string_of_list_byte) in Heq.
  unfold str_bytes in Heq.
  by rewrite !String.string_of_list_byte_of_string in Heq.
Qed.

Lemma length_str_bytes s : length (str_bytes s) = String.length s.
Proof. induction s; simpl; [done|]. f_equal. apply IHs. Qed.

Section claims.
Context `{!Hashing, !Secp256k1, !ValidatorKeys, !StrDebug, !Secp256k1Laws, !HashingLaws}.
Context `{!ToJson Address, !ToJson PublicKey, !ToJson Token, !ToJson Z, !ToJson string}.

(** The text of which the digest of a transfer is the SHA-256. *)
Definition signed_text (t : Transfer) : bytes :=
  str_bytes (transfer_payload (t_timestamp t) (Address_to_string (t_sender_address t))
    (t_sender_public_key t) (Address_to_string (t_receiver_address t)) (t_token t)
    (t_amount t) (t_nonce t)).

(** Two transfers that agree on what is signed, the token by its [Debug] text. *)
Definition same_signed (t1 t2 : Transfer) : Prop :=
  t_timestamp t1 = t_timestamp t2 /\ t_sender_address t1 = t_sender_address t2 /\
  t_sender_public_key t1 = t_sender_public_key t2 /\
  t_receiver_address t1 = t_receiver_address t2 /\ t_amount t1 = t_amount t2 /\
  Token_debug (t_token t1) = Token_debug (t_token t2) /\ t_nonce t1 = t_nonce t2.

(** The texts of these two transfers are a SHA-256 collision. *)
Definition texts_collide (t1 t2 : Transfer) : Prop :=
  signed_text t1 <> signed_text t2 /\ sha256 (signed_text t1) = sha256 (signed_text t2).

(** The digest binds a transfer: two transfers compare equal exactly when they agree
    on what is signed, unless their own texts collide. *)
Lemma transfer_digest_binding (t1 t2 : Transfer) :
  ~ texts_collide t1 t2 -> Transfer_eq t1 t2 = true <-> same_signed t1 t2.
Proof.
  intros Hn. unfold Transfer_eq. rewrite bool_decide_eq_true. split.
  - intros Heq. apply transfer_payload_inj, str_bytes_inj.
    destruct (decide (signed_text t1 = signed_text t2)) as [Hm|Hm]; [exact Hm|]. by destruct Hn.
  - intros (Ht & Hs & Hp & Hr & Ha & Hk & Hc).
    unfold generate_txn_digest_vec, generate_transfer_digest_vec, transfer_payload.
    by rewrite Ht, Hs, Hp, Hr, Ha, Hk, Hc.
Qed.

(** [Transfer::sign] never signs: its payload is the 64-character
    hexadecimal text of a hash, and a message of any length but 32 bytes is
    refused, so the transfer is returned as it was. *)
Lemma transfer_sign_noop (sk : SecretKey) (t : Transfer) : Transfer_sign sk t = t.
Proof.
  unfold Transfer_sign, message_from_slice.
  rewrite bool_decide_eq_false_2; [done|].
  unfold Transfer_build_payload, hash_data.
  rewrite length_str_bytes, lower_hex_length, sha256_length. lia.
Qed.

(** The setters applied to every argument of [Transfer::new]; token and
    validators are optional there too. *)
Definition builder_of (args : NewTransferArgs) : TransferBuilder :=
  let b := with_nonce (arg_nonce args) (with_signature (arg_signature args)
    (with_amount (arg_amount args) (with_receiver_address (arg_receiver_address args)
    (with_sender_public_key (arg_sender_public_key args)
    (with_sender_address (arg_sender_address args)
    (with_timestamp (arg_timestamp args) TransferBuilder_default)))))) in
  let b := match arg_token args with Some x => with_token x b | None => b end in
  match arg_validators args with Some x => with_validators x b | None => b end.

(** The builder succeeds exactly on the setter sequences that give the
    seven mandatory fields, and then builds the transfer [Transfer::new] builds
    from the same values, identifier included. *)
Lemma builder_build_iff_new (b : TransferBuilder) (t : Transfer) :
  TransferBuilder_build b = Ok t <->
  exists args, b = builder_of args /\ t = Transfer_new args.
Proof.
  split.
  - destruct b as [[ts|] [sa|] [pk|] [ra|] tok [am|] [sg|] vs [n|]];
      unfold TransferBuilder_build; simpl; try done.
    intros [= <-]. exists (mk_NewTransferArgs ts sa pk ra tok am sg vs n).
    by destruct tok, vs.
  - intros [[ts sa pk ra tok am sg vs n] [-> ->]]. by destruct tok, vs.
Qed.

(** Printing a digest and parsing it back gives the digest, whatever bytes
    it was made from. *)
Lemma transaction_digest_roundtrip (b : bytes) :
  TransactionDigest_from_str (digest_string (TransactionDigest_from b)) =
    Ok (TransactionDigest_from b) /\
  (length b = DIGEST_LENGTH -> inner (TransactionDigest_from b) = b).
Proof.
  split.
  - unfold TransactionDigest_from_str. simpl. by rewrite hex_decode_encode.
  - intros Hl. simpl. unfold Digest_from. by rewrite bool_decide_eq_true_2.
Qed.

(** Where the builder fails, [build_kind] panics instead of returning the error
    its type promises. *)
Lemma build_kind_never_errs b e : TransferBuilder_build_kind b <> Err e.
Proof. unfold TransferBuilder_build_kind. by destruct TransferBuilder_build. Qed.

Lemma fee_split (t : TransactionKind) :
  (txn_validator_fee_share t + txn_proposer_fee_share t = txn_fee t)%Z.
Proof. reflexivity. Qed.

End claims.

Section witnesses.
Import Toy Sample.

Lemma transfer_sign_noop_witness :
  t_signature (Transfer_sign alice_sk transfer) = [].
Proof. rewrite (transfer_sign_noop alice_sk transfer). reflexivity. Defined.

End witnesses.
