(* ===== verification/Account.v ===== *)
(** * Accounts: [crates/vrrb_core/src/account.rs]

    Balances are two running totals, credits and debits, kept in [u128]; an
    update is a record of optional deltas applied field by field, and an early
    return leaves the fields already written. *)

From S2P Require Import Prelude Primitives Keypair Transactions ToyModel.
From stdpp Require Import pretty.

(** ** Digest history *)

Record AccountDigests := mk_AccountDigests {
  sent : gset TransactionDigest;
  recv : gset TransactionDigest;
  stake : gset TransactionDigest;
}.

#[export] Instance AccountDigests_eq_dec : EqDecision AccountDigests.
Proof. solve_decision. Defined.

#[export] Instance AccountDigests_countable : Countable AccountDigests.
Proof.
  refine (inj_countable' (fun d => (sent d, recv d, stake d))
            (fun p => mk_AccountDigests p.1.1 p.1.2 p.2) _).
  by intros [].
Defined.

Definition AccountDigests_default : AccountDigests := mk_AccountDigests ∅ ∅ ∅.

Definition AccountDigests_len (d : AccountDigests) : Z :=
  Z.of_nat (size (sent d)) + Z.of_nat (size (recv d)) + Z.of_nat (size (stake d)).

Definition AccountDigests_is_empty (d : AccountDigests) : bool :=
  (AccountDigests_len d =? 0)%Z.

Definition extend_all (d other : AccountDigests) : AccountDigests :=
  {| sent := sent d ∪ sent other; recv := recv d ∪ recv other;
     stake := stake d ∪ stake other |}.

Definition insert_sent (x : TransactionDigest) (d : AccountDigests) : AccountDigests :=
  {| sent := {[ x ]} ∪ sent d; recv := recv d; stake := stake d |}.

Definition insert_recv (x : TransactionDigest) (d : AccountDigests) : AccountDigests :=
  {| sent := sent d; recv := {[ x ]} ∪ recv d; stake := stake d |}.

Definition insert_stake (x : TransactionDigest) (d : AccountDigests) : AccountDigests :=
  {| sent := sent d; recv := recv d; stake := {[ x ]} ∪ stake d |}.

Definition digests_consolidate (d : AccountDigests) (others : list AccountDigests)
    : AccountDigests :=
  fold_left extend_all others d.

(** ** Accounts and updates *)

Inductive AccountField :=
| Credits (n : Z)
| Debits (n : Z)
| Storage (s : option string)
| Code (s : option string)
| Digests (d : AccountDigests).

Section account.
Context `{!Profile, !Hashing, !Secp256k1}.

Record UpdateArgs := mk_UpdateArgs {
  u_address : Address;
  u_nonce : option Z;
  u_credits : option Z;
  u_debits : option Z;
  u_storage : option (option string);
  u_code : option (option string);
  u_digests : option AccountDigests;
}.

#[export] Instance UpdateArgs_eq_dec : EqDecision UpdateArgs.
Proof. solve_decision. Defined.

#[export] Instance UpdateArgs_countable : Countable UpdateArgs.
Proof.
  refine (inj_countable'
    (fun u => (u_address u, u_nonce u, u_credits u, u_debits u, u_storage u, u_code u,
               u_digests u))
    (fun '(a, n, c, d, s, k, g) => mk_UpdateArgs a n c d s k g) _).
  by intros [].
Defined.

Record Account := mk_Account {
  a_address : Address;
  a_hash : string;
  a_nonce : Z;
  a_credits : Z;
  a_debits : Z;
  a_storage : option string;
  a_code : option string;
  a_pubkey : bytes;
  a_digests : AccountDigests;
  a_created_at : Z;
  a_updated_at : option Z;
}.

#[export] Instance Account_eq_dec : EqDecision Account.
Proof. solve_decision. Defined.

Definition opt_bytes (o : option string) : bytes :=
  match o with
  | Some s => str_bytes s
  | None => []
  end.

Definition account_hash (nonce credits debits : Z) (storage code : option string) : string :=
  lower_hex (sha256 (be_bytes 16 nonce ++ be_bytes 16 credits ++ be_bytes 16 debits
                       ++ opt_bytes storage ++ opt_bytes code)).

Definition Account_new (now : Z) (pubkey : PublicKey) : Account :=
  {| a_address := Address_new pubkey;
     a_hash := lower_hex (sha256 (be_bytes 16 0 ++ be_bytes 16 0 ++ be_bytes 16 0));
     a_nonce := 0;
     a_credits := 0;
     a_debits := 0;
     a_storage := None;
     a_code := None;
     a_pubkey := pk_serialize pubkey;
     a_digests := AccountDigests_default;
     a_created_at := now;
     a_updated_at := None |}.

Definition rehash (a : Account) : Account :=
  {| a_address := a_address a;
     a_hash := account_hash (a_nonce a) (a_credits a) (a_debits a) (a_storage a) (a_code a);
     a_nonce := a_nonce a; a_credits := a_credits a; a_debits := a_debits a;
     a_storage := a_storage a; a_code := a_code a; a_pubkey := a_pubkey a;
     a_digests := a_digests a; a_created_at := a_created_at a;
     a_updated_at := a_updated_at a |}.

(** The balance fields, written together; the others are kept. *)
Definition with_fields (a : Account) (nonce credits debits : Z)
    (storage code : option string) (digests : AccountDigests) : Account :=
  {| a_address := a_address a; a_hash := a_hash a; a_nonce := nonce;
     a_credits := credits; a_debits := debits; a_storage := storage; a_code := code;
     a_pubkey := a_pubkey a; a_digests := digests; a_created_at := a_created_at a;
     a_updated_at := a_updated_at a |}.

Definition set_nonce (n : Z) (a : Account) : Account :=
  with_fields a n (a_credits a) (a_debits a) (a_storage a) (a_code a) (a_digests a).
Definition set_credits (n : Z) (a : Account) : Account :=
  with_fields a (a_nonce a) n (a_debits a) (a_storage a) (a_code a) (a_digests a).
Definition set_debits (n : Z) (a : Account) : Account :=
  with_fields a (a_nonce a) (a_credits a) n (a_storage a) (a_code a) (a_digests a).
Definition set_storage (s : option string) (a : Account) : Account :=
  with_fields a (a_nonce a) (a_credits a) (a_debits a) s (a_code a) (a_digests a).
Definition set_code (s : option string) (a : Account) : Account :=
  with_fields a (a_nonce a) (a_credits a) (a_debits a) (a_storage a) s (a_digests a).
Definition set_digests (d : AccountDigests) (a : Account) : Account :=
  with_fields a (a_nonce a) (a_credits a) (a_debits a) (a_storage a) (a_code a) d.
Definition set_updated_at (t : option Z) (a : Account) : Account :=
  {| a_address := a_address a; a_hash := a_hash a; a_nonce := a_nonce a;
     a_credits := a_credits a; a_debits := a_debits a; a_storage := a_storage a;
     a_code := a_code a; a_pubkey := a_pubkey a; a_digests := a_digests a;
     a_created_at := a_created_at a; a_updated_at := t |}.

(** The message shows the field with [Debug]; only amounts can fail. *)
Definition failed_to_update (field : string) (n : Z) : CoreError :=
  CoreOther ("failed to update " +:+ field +:+ "(" +:+ pretty n +:+ ")").

Definition update_single_field_no_hash (value : AccountField)
    : method Account CoreError unit := fun a =>
  match value with
  | Credits credits =>
      match checked_add U128 (a_credits a) credits with
      | Some new_amount => (set_credits new_amount a, Ok tt)
      | None => (a, Err (failed_to_update "Credits" credits))
      end
  | Debits debits =>
      match checked_add U128 (a_debits a) debits with
      | Some new_amount =>
          if (new_amount <=? a_credits a)%Z then (set_debits new_amount a, Ok tt)
          else (a, Err (failed_to_update "Debits" debits))
      | None => (a, Err (failed_to_update "Debits" debits))
      end
  | Storage storage => (set_storage storage a, Ok tt)
  | Code code => (set_code code a, Ok tt)
  | Digests digests => (set_digests (extend_all (a_digests a) digests) a, Ok tt)
  end.

(** [update_field] recalculates the hash whether or not the write succeeded. *)
Definition update_field (update : AccountField) : method Account CoreError unit := fun a =>
  let '(a', res) := update_single_field_no_hash update a in (rehash a', res).

Definition bump_nonce : method Account CoreError unit := fun a =>
  match arith U128 (a_nonce a + 1) with
  | Ok n => (set_nonce n a, Ok tt)
  | Err e => (a, Err e)
  | Panic => (a, Panic)
  end.

Definition update_nonce_step (n : Z) : method Account CoreError unit := fun a =>
  if (n <? a_nonce a)%Z then
    (a, Err (CoreOther ("nonce from args " +:+ pretty n +:+ " is smaller than current nonce "
                          +:+ pretty (a_nonce a))))
  else
    match arith U128 (a_nonce a + 1) with
    | Ok next => if (next <? n)%Z then (set_nonce n a, Ok tt) else bump_nonce a
    | Err e => (a, Err e)
    | Panic => (a, Panic)
    end.

(** [Account::update] at clock reading [now]. *)
Definition Account_update (now : Z) (args : UpdateArgs) : method Account CoreError unit :=
  if_some (u_nonce args) update_nonce_step ≫= fun _ =>
  if_some (u_credits args) (fun c => update_single_field_no_hash (Credits c)) ≫= fun _ =>
  if_some (u_debits args) (fun d => update_single_field_no_hash (Debits d)) ≫= fun _ =>
  if_some (u_code args) (fun k => update_single_field_no_hash (Code k)) ≫= fun _ =>
  if_some (u_storage args) (fun s => update_single_field_no_hash (Storage s)) ≫= fun _ =>
  if_some (u_digests args) (fun d => update_single_field_no_hash (Digests d)) ≫= fun _ =>
  modify (fun a => rehash (set_updated_at (Some now) a)).

(** ** Invariant *)

Definition account_wf (a : Account) : Prop :=
  in_range U128 (a_nonce a) = true /\
  (0 <= a_debits a <= a_credits a)%Z /\ (a_credits a <= int_max U128)%Z.

Definition opt_u128 (o : option Z) : Prop :=
  forall n, o = Some n -> in_range U128 n = true.

Definition args_wf (u : UpdateArgs) : Prop :=
  opt_u128 (u_nonce u) /\ opt_u128 (u_credits u) /\ opt_u128 (u_debits u).

Lemma account_new_wf now pk : account_wf (Account_new now pk).
Proof. by repeat split. Qed.

Lemma update_single_field_wf v :
  match v with
  | Credits n | Debits n => in_range U128 n = true
  | _ => True
  end ->
  preserves account_wf (update_single_field_no_hash v).
Proof.
  intros Hv a (Hn & Hd & Hc). unfold account_wf.
  destruct v; simpl; [| |exact (conj Hn (conj Hd Hc))..]; breaks;
    split_and!; range_lia.
Qed.

Lemma set_nonce_wf n a : in_range U128 n = true -> account_wf a -> account_wf (set_nonce n a).
Proof. intros Hn (_ & Hd & Hc). exact (conj Hn (conj Hd Hc)). Qed.

Lemma bump_nonce_wf : preserves account_wf bump_nonce.
Proof.
  intros a Ha. unfold bump_nonce. destruct (arith U128 _) eqn:Hr; simpl; [|done..].
  apply arith_range in Hr. by apply set_nonce_wf.
Qed.

Lemma update_nonce_step_wf n :
  in_range U128 n = true -> preserves account_wf (update_nonce_step n).
Proof.
  intros Hn a Ha. unfold update_nonce_step.
  breaks; auto using set_nonce_wf. by apply bump_nonce_wf.
Qed.

Lemma rehash_wf a : account_wf a -> account_wf (rehash a).
Proof. done. Qed.

#[local] Hint Resolve update_single_field_wf update_nonce_step_wf : vrrb.

(** C4. The account invariant (debits never exceed credits, all amounts and the
    nonce fit their width) is kept by [Account::update] on every path, an early
    error return with its partial writes included. *)
Theorem account_update_preserves_wf (now : Z) (args : UpdateArgs) (a : Account) :
  args_wf args -> account_wf a -> account_wf (Account_update now args a).1.
Proof.
  intros (Hn & Hc & Hd). revert a.
  change (preserves account_wf (Account_update now args)). unfold Account_update.
  repeat (apply preserves_bind; [|intros _]);
    try (apply preserves_if_some; intros; eauto with vrrb).
  by apply preserves_modify.
Qed.

Lemma update_field_wf v a :
  match v with
  | Credits n | Debits n => in_range U128 n = true
  | _ => True
  end ->
  account_wf a -> account_wf (update_field v a).1.
Proof.
  intros Hv Ha. pose proof (update_single_field_wf v Hv a Ha) as Hw.
  unfold update_field. by destruct (update_single_field_no_hash v a).
Qed.

(** ** Functional behaviour of an update *)

Definition update_accepted (args : UpdateArgs) (a : Account) : Prop :=
  (forall n, u_nonce args = Some n -> (a_nonce a <= n)%Z) /\
  (a_credits a + default 0%Z (u_credits args) <= int_max U128)%Z /\
  (a_debits a + default 0%Z (u_debits args) <= a_credits a + default 0%Z (u_credits args))%Z.

Definition updated_nonce (args : UpdateArgs) (a : Account) : Z :=
  match u_nonce args with
  | Some n => Z.min (Z.max n (a_nonce a + 1)) (int_max U128)
  | None => a_nonce a
  end.

(** The sum [self.nonce + 1] leaves [u128] in a build that checks it. *)
Definition nonce_overflows (args : UpdateArgs) (a : Account) : Prop :=
  overflow_checks = true /\ u_nonce args = Some (int_max U128) /\ a_nonce a = int_max U128.

Definition updated (now : Z) (args : UpdateArgs) (a : Account) : Account :=
  rehash (set_updated_at (Some now)
    (with_fields a (updated_nonce args a)
       (a_credits a + default 0%Z (u_credits args))
       (a_debits a + default 0%Z (u_debits args))
       (default (a_storage a) (u_storage args))
       (default (a_code a) (u_code args))
       (match u_digests args with
        | Some d => extend_all (a_digests a) d
        | None => a_digests a
        end))).

Lemma update_nonce_step_eq args a :
  args_wf args -> account_wf a -> ~ nonce_overflows args a ->
  (forall n, u_nonce args = Some n -> (a_nonce a <= n)%Z) ->
  if_some (u_nonce args) update_nonce_step a = (set_nonce (updated_nonce args a) a, Ok tt).
Proof.
  intros (Ho & _) (Hn & _) Hov Hle. unfold nonce_overflows, updated_nonce in *.
  destruct (u_nonce args) as [n|]; simpl; [|by destruct a].
  specialize (Hle n eq_refl). specialize (Ho n eq_refl).
  unfold update_nonce_step, bump_nonce. destruct (Z.ltb_spec n (a_nonce a)); [lia|].
  destruct (decide (a_nonce a = int_max U128)) as [Em|Nm].
  - assert (n = int_max U128) as -> by range_lia. rewrite Em.
    unfold arith. destruct overflow_checks; [by destruct Hov|]. done.
  - rewrite arith_ok by range_lia.
    destruct (Z.ltb_spec (a_nonce a + 1) n); repeat f_equal; range_lia.
Qed.

Lemma update_nonce_step_panics args a :
  nonce_overflows args a -> if_some (u_nonce args) update_nonce_step a = (a, Panic).
Proof.
  intros (Ho & -> & Hm). simpl. unfold update_nonce_step. rewrite Hm, Z.ltb_irrefl.
  unfold arith. by rewrite Ho.
Qed.

Lemma update_nonce_step_rejects n a :
  (n < a_nonce a)%Z -> exists e, update_nonce_step n a = (a, Err e).
Proof.
  intros Hlt. unfold update_nonce_step. rewrite (proj2 (Z.ltb_lt _ _) Hlt). eauto.
Qed.

Lemma credits_step_eq o a :
  opt_u128 o -> account_wf a ->
  (if_some o (fun c => update_single_field_no_hash (Credits c)) a =
     (a, Err (failed_to_update "Credits" (default 0%Z o))) /\
   (int_max U128 < a_credits a + default 0%Z o)%Z) \/
  (if_some o (fun c => update_single_field_no_hash (Credits c)) a =
     (set_credits (a_credits a + default 0%Z o) a, Ok tt) /\
   (a_credits a + default 0%Z o <= int_max U128)%Z /\
   account_wf (set_credits (a_credits a + default 0%Z o) a)).
Proof.
  intros Ho (Hn & Hd & Hc). destruct o as [c|]; simpl.
  - specialize (Ho c eq_refl). destruct (checked_add _ _ _) as [z|] eqn:Hz.
    + right. bool_facts. subst z. unfold account_wf. simpl.
      split_and!; try done; range_lia.
    + left. split; [done|]. apply checked_add_None in Hz.
      apply Z.lt_nge. intros Hle. revert Hz. apply not_false_iff_true.
      range_lia.
  - right. rewrite Z.add_0_r. unfold account_wf. simpl.
    split_and!; try done; [by destruct a|range_lia..].
Qed.

Lemma debits_step_eq o a :
  opt_u128 o -> account_wf a ->
  (if_some o (fun c => update_single_field_no_hash (Debits c)) a =
     (a, Err (failed_to_update "Debits" (default 0%Z o))) /\
   (a_credits a < a_debits a + default 0%Z o)%Z) \/
  (if_some o (fun c => update_single_field_no_hash (Debits c)) a =
     (set_debits (a_debits a + default 0%Z o) a, Ok tt) /\
   (a_debits a + default 0%Z o <= a_credits a)%Z).
Proof.
  intros Ho (Hn & Hd & Hc). destruct o as [c|]; simpl.
  - specialize (Ho c eq_refl). destruct (checked_add _ _ _) as [z|] eqn:Hz.
    + bool_facts. subst z. destruct (Z.leb_spec (a_debits a + c) (a_credits a)); eauto 6.
    + left. split; [done|]. apply checked_add_None in Hz.
      apply Z.lt_nge. intros Hle. revert Hz. apply not_false_iff_true.
      range_lia.
  - right. rewrite Z.add_0_r. destruct Hd. by destruct a.
Qed.

Lemma tail_steps_eq now args a :
  (if_some (u_code args) (fun k => update_single_field_no_hash (Code k)) ≫= fun _ =>
   if_some (u_storage args) (fun s => update_single_field_no_hash (Storage s)) ≫= fun _ =>
   if_some (u_digests args) (fun d => update_single_field_no_hash (Digests d)) ≫= fun _ =>
   modify (fun a => rehash (set_updated_at (Some now) a))) a =
  (rehash (set_updated_at (Some now)
     (with_fields a (a_nonce a) (a_credits a) (a_debits a)
        (default (a_storage a) (u_storage args)) (default (a_code a) (u_code args))
        (match u_digests args with
         | Some d => extend_all (a_digests a) d
         | None => a_digests a
         end))), Ok tt).
Proof.
  destruct args as [? ? ? ? [] [] []], a; reflexivity.
Qed.

Lemma nonce_cases (o : option Z) (k : Z) :
  (forall n, o = Some n -> (k <= n)%Z) \/ (exists n, o = Some n /\ (n < k)%Z).
Proof.
  destruct o as [n|]; [|by left].
  destruct (Z.lt_ge_cases n k); [right; eauto|left; congruence].
Qed.

Lemma updated_nonce_range args a :
  account_wf a -> args_wf args -> in_range U128 (updated_nonce args a) = true.
Proof.
  intros (Hr & _) (Hn & _). unfold updated_nonce. destruct (u_nonce args) as [n|]; [|done].
  specialize (Hn n eq_refl). range_lia.
Qed.

(** An update past its nonce: the amounts decide. *)
Lemma account_update_amounts (now : Z) (args : UpdateArgs) (a : Account) :
  account_wf a -> args_wf args -> ~ nonce_overflows args a ->
  (forall n, u_nonce args = Some n -> (a_nonce a <= n)%Z) ->
  let credits := (a_credits a + default 0 (u_credits args))%Z in
  let debits := (a_debits a + default 0 (u_debits args))%Z in
  let a1 := set_nonce (updated_nonce args a) a in
  Account_update now args a =
    if (int_max U128 <? credits)%Z
    then (a1, Err (failed_to_update "Credits" (default 0%Z (u_credits args))))
    else if (credits <? debits)%Z
    then (set_credits credits a1, Err (failed_to_update "Debits" (default 0%Z (u_debits args))))
    else (updated now args a, Ok tt).
Proof.
  intros Hwf Ha Hov Hle. pose proof Ha as (Hn & Hc & Hd). cbv zeta. unfold Account_update.
  rewrite method_bind_unfold, update_nonce_step_eq by done.
  set (a1 := set_nonce _ a).
  assert (Hwf1 : account_wf a1) by (by apply set_nonce_wf; [apply updated_nonce_range|]).
  rewrite method_bind_unfold.
  destruct (credits_step_eq (u_credits args) a1 Hc Hwf1) as [(-> & Hx)|(-> & Hx & Hwf2)];
    change (a_credits a1) with (a_credits a) in *.
  { by rewrite (proj2 (Z.ltb_lt _ _) Hx). }
  rewrite (proj2 (Z.ltb_ge _ _) Hx). set (a2 := set_credits _ a1).
  rewrite method_bind_unfold.
  destruct (debits_step_eq (u_debits args) a2 Hd Hwf2) as [[-> Hy]|[-> Hy]];
    change (a_debits a2) with (a_debits a) in *;
    change (a_credits a2) with (a_credits a + default 0 (u_credits args))%Z in *.
  { by rewrite (proj2 (Z.ltb_lt _ _) Hy). }
  rewrite (proj2 (Z.ltb_ge _ _) Hy). by rewrite tail_steps_eq.
Qed.

Lemma account_update_stale (now : Z) (args : UpdateArgs) (a : Account) (n : Z) :
  u_nonce args = Some n -> (n < a_nonce a)%Z ->
  exists e, Account_update now args a = (a, Err e).
Proof.
  intros En [e He]%(update_nonce_step_rejects n). exists e.
  unfold Account_update. rewrite method_bind_unfold, En. simpl. by rewrite He.
Qed.

Lemma account_update_cases (now : Z) (args : UpdateArgs) (a : Account) :
  account_wf a -> args_wf args -> (a_nonce a < int_max U128)%Z ->
  (update_accepted args a /\ Account_update now args a = (updated now args a, Ok tt)) \/
  (~ update_accepted args a /\ exists a' e, Account_update now args a = (a', Err e)).
Proof.
  intros Hwf Ha Hmax. unfold update_accepted.
  destruct (nonce_cases (u_nonce args) (a_nonce a)) as [Hle|(n & En & Hlt)].
  2: { right. destruct (account_update_stale now args a n En Hlt) as [e ->].
       split; [|eauto]. intros (Hle & _). specialize (Hle n En). lia. }
  rewrite account_update_amounts by (done || (intros (_ & _ & ?); lia)).
  destruct (Z.ltb_spec (int_max U128) (a_credits a + default 0%Z (u_credits args)));
    [right; split; [intros (_ & ? & _); lia|eauto]|].
  destruct (Z.ltb_spec (a_credits a + default 0%Z (u_credits args))
              (a_debits a + default 0%Z (u_debits args)));
    [right; split; [intros (_ & _ & ?); lia|eauto]|by left].
Qed.

(** C3. [Account::update] on every well-formed account, by cases. A nonce below the
    stored one is refused and changes nothing. When the stored nonce and the update's
    are both [u128::MAX], a build with overflow checks panics in [self.nonce + 1] and
    changes nothing. In every other case the nonce is written first: to the update's
    or one past the stored one, whichever is higher, but no higher than the maximum.
    (The doc comment asks for exactly one higher; an equal nonce and any higher one
    are accepted too.) Credits past [u128] then fail with that nonce written; debits
    past the new credits fail with nonce and credits written, and in both cases under
    the old hash; otherwise the account is the sum of the old one and the deltas,
    stamped and rehashed. *)
Theorem account_update_spec (now : Z) (args : UpdateArgs) (a : Account) :
  account_wf a -> args_wf args ->
  let credits := (a_credits a + default 0 (u_credits args))%Z in
  let debits := (a_debits a + default 0 (u_debits args))%Z in
  let a1 := set_nonce (updated_nonce args a) a in
  (forall n, u_nonce args = Some n -> (n < a_nonce a)%Z ->
     exists e, Account_update now args a = (a, Err e)) /\
  (nonce_overflows args a -> Account_update now args a = (a, Panic)) /\
  ((forall n, u_nonce args = Some n -> (a_nonce a <= n)%Z) -> ~ nonce_overflows args a ->
     Account_update now args a =
       if (int_max U128 <? credits)%Z
       then (a1, Err (failed_to_update "Credits" (default 0%Z (u_credits args))))
       else if (credits <? debits)%Z
       then (set_credits credits a1, Err (failed_to_update "Debits" (default 0%Z (u_debits args))))
       else (updated now args a, Ok tt)).
Proof.
  intros Hwf Ha credits debits a1. split_and!.
  - intros n. apply account_update_stale.
  - intros Ho. unfold Account_update.
    by rewrite method_bind_unfold, (update_nonce_step_panics _ _ Ho).
  - intros Hle Hov. by apply account_update_amounts.
Qed.

(** A credit of [c] under nonce [n]. *)
Definition credit_args (addr : Address) (n c : Z) : UpdateArgs :=
  mk_UpdateArgs addr (Some n) (Some c) None None None None.

Lemma updated_wf now args a :
  account_wf a -> args_wf args -> update_accepted args a -> account_wf (updated now args a).
Proof.
  intros Hwf Ha (_ & Hcr & Hdb). pose proof (updated_nonce_range _ _ Hwf Ha) as Hr.
  destruct Hwf as (Hn & Hd & Hc), Ha as (_ & _ & Hud).
  unfold account_wf, updated. simpl.
  assert (0 <= default 0%Z (u_debits args))%Z.
  { destruct (u_debits args) as [d|]; simpl; [|lia]. specialize (Hud d eq_refl). range_lia. }
  by split_and!; try lia.
Qed.

(** The nonce check does not stop a replay: an update that carries the next
    nonce, as it should, is accepted a second time unchanged, and only the third
    copy is refused. The doc comment asks for a nonce exactly one higher. *)
Lemma account_update_replay (now : Z) (addr : Address) (a : Account) (c : Z) :
  account_wf a -> (a_nonce a + 2 <= int_max U128)%Z -> (0 <= c)%Z ->
  (a_credits a + 2 * c <= int_max U128)%Z ->
  let args := credit_args addr (a_nonce a + 1) c in
  let '(a1, r1) := Account_update now args a in
  let '(a2, r2) := Account_update now args a1 in
  let '(a3, r3) := Account_update now args a2 in
  r1 = Ok tt /\ r2 = Ok tt /\ a_credits a2 = (a_credits a + 2 * c)%Z /\ is_err r3 = true.
Proof.
  intros Hwf Hmax Hc0 Hc args. pose proof Hwf as (Hn & Hd & Hcc).
  assert (Ha : args_wf args).
  { split_and!; intros m [= <-]; range_lia. }
  assert (Hmono : forall b, account_wf b -> (a_nonce b <= a_nonce a + 1)%Z ->
    (a_credits b + c <= int_max U128)%Z ->
    Account_update now args b = (updated now args b, Ok tt) /\
    account_wf (updated now args b)).
  { intros b Hb Hnb Hcb.
    assert (Hacc : update_accepted args b).
    { destruct Hb as (_ & ? & ?).
      split_and!; [intros m [= <-]; lia|done|simpl; lia]. }
    destruct (account_update_cases now args b) as [[_ ->]|[? _]]; [done|done|lia| |done].
    split; [done|]. by apply updated_wf. }
  destruct (Hmono a) as [-> Hwf1]; [done|lia..|].
  destruct (Hmono (updated now args a)) as [-> Hwf2]; [done|simpl..|].
  { unfold updated_nonce. simpl. lia. }
  { lia. }
  destruct (Account_update now args (updated now args (updated now args a))) as [a3 r3] eqn:E3.
  split_and!; try done; [by trans (a_credits a + c + c)%Z; [|lia]|].
  destruct (update_nonce_step_rejects (a_nonce a + 1)
    (updated now args (updated now args a))) as [e He].
  { unfold updated, updated_nonce. simpl. lia. }
  unfold Account_update in E3. rewrite method_bind_unfold in E3. simpl in E3.
  rewrite He in E3. by injection E3 as <- <-.
Qed.

(** Storage and code are hashed without a separator. *)
Lemma account_hash_ambiguous n c d s t :
  account_hash n c d (Some s) (Some t) = account_hash n c d (Some (s +:+ t)) None.
Proof.
  assert (Hs : str_bytes s ++ str_bytes t = str_bytes (s +:+ t)).
  { induction s as [|x s IH]; [done|]. exact (f_equal (cons (Ascii.byte_of_ascii x)) IH). }
  unfold account_hash, opt_bytes. by rewrite Hs, app_nil_r.
Qed.

End account.

(** ** Merging digest histories *)

Lemma extend_all_assoc a b c : extend_all (extend_all a b) c = extend_all a (extend_all b c).
Proof. unfold extend_all; simpl; f_equal; set_solver. Qed.

Lemma extend_all_comm a b : extend_all a b = extend_all b a.
Proof. unfold extend_all; f_equal; set_solver. Qed.

Lemma extend_all_idemp a : extend_all a a = a.
Proof. destruct a; unfold extend_all; simpl; f_equal; set_solver. Qed.

Lemma digests_consolidate_perm l1 l2 d :
  l1 ≡ₚ l2 -> digests_consolidate d l1 = digests_consolidate d l2.
Proof.
  intros Hp. revert d. unfold digests_consolidate.
  induction Hp as [|x l l' Hp IH|x y l|l1 l2 l3 H1 IH1 H2 IH2]; intros d; simpl; auto.
  - by rewrite !extend_all_assoc, (extend_all_comm y x).
  - by rewrite IH1.
Qed.

Section witnesses.
Import Toy Sample.
#[local] Existing Instance release.

Definition funded : Account :=
  set_credits 1000 (Account_new 1700000000 (address_pk alice)).

Definition spend : UpdateArgs :=
  mk_UpdateArgs alice (Some 1%Z) (Some 5%Z) (Some 400%Z) None None
    (Some (insert_sent (t_id transfer) AccountDigests_default)).

Lemma funded_wf : account_wf funded.
Proof. by repeat split. Defined.

Lemma spend_wf : args_wf spend.
Proof. split_and!; by intros ? [= <-]. Defined.

Lemma account_update_preserves_wf_witness :
  account_wf (Account_update 1700000001 spend funded).1 /\
  a_debits (Account_update 1700000001 spend funded).1 = 400%Z.
Proof.
  split; [|reflexivity].
  apply (account_update_preserves_wf 1700000001 spend funded); [apply spend_wf|apply funded_wf].
Defined.

Lemma account_update_spec_witness :
  Account_update 1700000001 spend funded = (updated 1700000001 spend funded, Ok tt).
Proof.
  destruct (account_update_spec 1700000001 spend funded funded_wf spend_wf) as (_ & _ & He).
  apply He; [by intros ? [= <-]|by intros (? & _)].
Defined.

End witnesses.
