(* ===== verification/HashKeys.v ===== *)
(** * Keys of hash sets

    The implementations of [Hash] that are written by hand, in
    [vrrb_core/src/transactions/transfer.rs] and [vrrb_core/src/account.rs], and what a
    [HashSet] of such keys holds. The standard library asks that equal keys have equal
    hashes and says nothing of a set whose keys break that rule. *)

From S2P Require Import Prelude Primitives Keypair Transactions TransactionProofs ToyModel Account.

(** ** Hashing *)

(** What a key feeds to a [Hasher], call by call. *)
Inductive HashWrite :=
| WriteInt (t : int_ty) (x : Z)
| WriteDiscriminant (n : Z)
| WriteLength (n : nat)
| WriteBytes (b : bytes)
| WriteStr (s : string).

Class HashKey (A : Type) := hash_writes : A -> list HashWrite.

#[export] Instance string_hash : HashKey string := fun s => [WriteStr s].

Definition option_hash {A} (f : A -> list HashWrite) (o : option A) : list HashWrite :=
  match o with
  | None => [WriteDiscriminant 0]
  | Some a => WriteDiscriminant 1 :: f a
  end.

(** ** A hash set

    [finish] is the hash of what was fed. A search comes across the entries with the
    hash it looks for, and across others as the table happens to be laid out. *)
Section hash_set.
Context {A : Type} `{!HashKey A} (eqb : A -> A -> bool).
Context (finish : list HashWrite -> Z) (probes : list Z -> Z -> Z -> bool).

Definition hash_of (x : A) : Z := finish (hash_writes x).

Definition hs_contains (x : A) (s : list A) : bool :=
  existsb (fun y => probes (hash_of <$> s) (hash_of x) (hash_of y) && eqb x y) s.

(** An element that is there is not replaced. *)
Definition hs_insert (s : list A) (x : A) : list A := if hs_contains x s then s else s ++ [x].

Definition hs_collect (l : list A) : list A := fold_left hs_insert l [].

Hypothesis probes_same : forall s h, probes s h h = true.

(** The rule of the standard library. *)
Hypothesis hash_rule : forall x y, eqb x y = true -> hash_writes x = hash_writes y.

Lemma hs_contains_spec x s : hs_contains x s = true <-> exists y, y ∈ s /\ eqb x y = true.
Proof.
  unfold hs_contains. rewrite existsb_exists. split.
  - intros (y & Hy%list_elem_of_In & [_ He]%andb_true_iff). eauto.
  - intros (y & Hy & He). exists y. split; [by apply list_elem_of_In|].
    unfold hash_of. by rewrite (hash_rule x y He), probes_same, He.
Qed.

Hypothesis eqb_refl : forall x, eqb x x = true.

(** By that rule a set holds of the collected elements the first of every class, wherever
    its entries are. *)
Lemma hs_collect_spec l :
  (forall x, x ∈ hs_collect l -> x ∈ l) /\
  (forall x, x ∈ l -> exists y, y ∈ hs_collect l /\ eqb x y = true) /\
  forall i j x y, hs_collect l !! i = Some x -> hs_collect l !! j = Some y -> i < j ->
    eqb y x = false.
Proof.
  unfold hs_collect. induction l as [|z l (I1 & I2 & I3)] using rev_ind.
  { split_and!; [done|by intros ? ?%elem_of_nil|done]. }
  rewrite fold_left_app. simpl. set (s := fold_left hs_insert l []) in *. unfold hs_insert.
  destruct (hs_contains z s) eqn:Hc.
  - apply hs_contains_spec in Hc as (y & Hy & He).
    split_and!; [set_solver| |done]. intros x [Hx| ->%list_elem_of_singleton]%elem_of_app; eauto.
  - split_and!; [set_solver| |].
    + intros x [Hx| ->%list_elem_of_singleton]%elem_of_app.
      * destruct (I2 x Hx) as (y & Hy & He). exists y. set_solver.
      * exists z. set_solver.
    + intros i j x y Hi Hj Hlt. apply lookup_snoc_Some in Hj as [[? Hj]|[-> <-]].
      { rewrite lookup_app_l in Hi by lia. eauto. }
      rewrite lookup_app_l in Hi by lia. apply not_true_iff_false. intros He.
      apply list_elem_of_lookup_2 in Hi.
      assert (hs_contains z s = true) by (apply hs_contains_spec; eauto). congruence.
Qed.
End hash_set.

(** ** [impl Hash for UpdateArgs] *)

Section updates.
Context `{!Hashing, !Secp256k1, !HashKey PublicKey}.

#[export] Instance address_hash : HashKey Address := fun a => hash_writes (address_pk a).

#[export] Instance digest_hash : HashKey TransactionDigest := fun d =>
  [WriteLength (length (inner d)); WriteBytes (inner d); WriteStr (digest_string d)].

(** [Ord for TransactionDigest] compares the texts. *)
Definition digest_le (d1 d2 : TransactionDigest) : Prop :=
  String.leb (digest_string d1) (digest_string d2) = true.

(** [order] is how the set is iterated, and [sort_unstable] may arrange digests that
    compare equal in any way. *)
Definition UpdateArgs_hash (order : gset TransactionDigest -> list TransactionDigest)
    (sort_unstable : list TransactionDigest -> list TransactionDigest) (u : UpdateArgs)
    : list HashWrite :=
  hash_writes (u_address u) ++
  option_hash (fun x => [WriteInt U128 x]) (u_nonce u) ++
  option_hash (fun x => [WriteInt U128 x]) (u_credits u) ++
  option_hash (fun x => [WriteInt U128 x]) (u_debits u) ++
  option_hash (option_hash hash_writes) (u_storage u) ++
  option_hash (option_hash hash_writes) (u_code u) ++
  match u_digests u with
  | Some digests =>
      WriteInt Usize (AccountDigests_len digests) ::
      (sort_unstable (order (sent digests ∪ recv digests ∪ stake digests)) ≫= hash_writes)
  | None => [WriteInt U8 0]
  end.

Definition iterates (order : gset TransactionDigest -> list TransactionDigest) : Prop :=
  forall s, order s ≡ₚ elements s.

Definition sorts (sort : list TransactionDigest -> list TransactionDigest) : Prop :=
  forall l, sort l ≡ₚ l /\ StronglySorted digest_le (sort l).

(** The digests the code makes: the text is that of the bytes. *)
Definition digest_made (d : TransactionDigest) : Prop := exists b, d = TransactionDigest_from b.

Lemma digest_made_inj `{!HashingLaws} d1 d2 :
  digest_made d1 -> digest_made d2 -> digest_string d1 = digest_string d2 -> d1 = d2.
Proof.
  intros [b1 ->] [b2 ->]. simpl. intros He. apply (f_equal hex_decode) in He.
  rewrite !hex_decode_encode in He. by injection He as ->.
Qed.

Definition digests_made (u : UpdateArgs) : Prop :=
  forall ds d, u_digests u = Some ds -> d ∈ sent ds ∪ recv ds ∪ stake ds -> digest_made d.

(** Equal updates have equal hashes, though each set is iterated in an order of its own,
    if their digests were made by the code. *)
Lemma update_hash_consistent `{!HashingLaws} order1 order2 sort1 sort2 u :
  iterates order1 -> iterates order2 -> sorts sort1 -> sorts sort2 -> digests_made u ->
  UpdateArgs_hash order1 sort1 u = UpdateArgs_hash order2 sort2 u.
Proof.
  unfold iterates. intros O1 O2 S1 S2 Hu. unfold UpdateArgs_hash. do 6 f_equal. unfold digests_made in Hu.
  destruct (u_digests u) as [ds|]; [|done]. specialize (Hu ds).
  set (s := sent ds ∪ recv ds ∪ stake ds) in *. f_equal. f_equal.
  destruct (S1 (order1 s)) as [P1 R1], (S2 (order2 s)) as [P2 R2].
  apply (StronglySorted_unique_strong digest_le); [|done|done|by rewrite P1, P2, O1, O2].
  intros d1 d2 Hd1 Hd2 L1 L2. rewrite P1, O1 in Hd1. rewrite P2, O2 in Hd2.
  apply digest_made_inj; [apply Hu; set_solver..|]. by apply String.leb_antisym.
Qed.

(** An update in memory, with the order its digests happen to be in. *)
Record UpdateKey := mk_UpdateKey {
  uk_args : UpdateArgs;
  uk_order : gset TransactionDigest -> list TransactionDigest;
  uk_sort : list TransactionDigest -> list TransactionDigest;
  uk_ok : iterates uk_order /\ sorts uk_sort /\ digests_made uk_args;
}.

#[export] Instance update_key_hash : HashKey UpdateKey := fun k =>
  UpdateArgs_hash (uk_order k) (uk_sort k) (uk_args k).

Definition UpdateKey_eqb (k1 k2 : UpdateKey) : bool := bool_decide (uk_args k1 = uk_args k2).

(** A [HashSet<UpdateArgs>] holds every update once. *)
Lemma update_set_exact `{!HashingLaws} finish probes l :
  (forall s h, probes s h h = true) ->
  let s := hs_collect UpdateKey_eqb finish probes l in
  NoDup (uk_args <$> s) /\ forall u, u ∈ uk_args <$> s <-> u ∈ uk_args <$> l.
Proof.
  intros Hp s.
  destruct (hs_collect_spec UpdateKey_eqb finish probes Hp) with (l := l) as (I1 & I2 & I3).
  { intros [u1 o1 s1 (?&?&?)] [u2 o2 s2 (?&?&?)] He%bool_decide_eq_true. simpl in *. subst u2.
    by apply update_hash_consistent. }
  { intros k. by apply bool_decide_eq_true. }
  fold s in I1, I2, I3. split.
  - apply NoDup_alt. intros i j u. rewrite !list_lookup_fmap.
    intros (x & Hi & ->)%fmap_Some (y & Hj & He)%fmap_Some.
    destruct (Nat.lt_trichotomy i j) as [Hlt|[Heq|Hlt]]; [|done|].
    + apply (I3 i j x y Hi Hj) in Hlt. by apply bool_decide_eq_false in Hlt; destruct Hlt.
    + apply (I3 j i y x Hj Hi) in Hlt. by apply bool_decide_eq_false in Hlt; destruct Hlt.
  - intros u. rewrite !list_elem_of_fmap. split.
    + intros (k & -> & Hk). eauto.
    + intros (k & -> & (y & Hy & He%bool_decide_eq_true)%I2). eauto.
Qed.
End updates.

(** ** [impl Hash for Transfer] *)

Section transfers.
Context `{!Hashing, !Secp256k1, !ValidatorKeys, !StrDebug, !HashKey PublicKey, !HashKey Signature}.
Context `{!ToJson Address, !ToJson PublicKey, !ToJson Token, !ToJson Z, !ToJson string}.

#[export] Instance token_hash : HashKey Token := fun t =>
  [WriteStr (token_name t); WriteStr (token_symbol t); WriteInt U8 (token_decimals t)].

(** The digest and the validators are left out. *)
#[export] Instance Transfer_hash : HashKey Transfer := fun t =>
  WriteInt I64 (t_timestamp t) :: hash_writes (t_sender_address t) ++
  hash_writes (t_sender_public_key t) ++ hash_writes (t_receiver_address t) ++
  hash_writes (t_token t) ++ [WriteInt U128 (t_amount t)] ++ hash_writes (t_signature t) ++
  [WriteInt U128 (t_nonce t)].

Definition Transfer_hash_slice (data : list Transfer) : list HashWrite := data ≫= hash_writes.

Lemma resigned_equal s1 s2 t :
  Transfer_eq (set_signature s1 t) (set_signature s2 t) = true.
Proof. by apply bool_decide_eq_true. Qed.

Lemma resigned_hash s1 s2 t :
  hash_writes (set_signature s1 t) = hash_writes (set_signature s2 t) <->
  hash_writes s1 = hash_writes s2.
Proof.
  change (Transfer_hash (set_signature s1 t) = Transfer_hash (set_signature s2 t) <->
    hash_writes s1 = hash_writes s2).
  unfold Transfer_hash. cbn [set_signature t_timestamp t_sender_address t_sender_public_key
    t_receiver_address t_token t_amount t_signature t_nonce]. split; [|by intros ->].
  intros [= He]. repeat apply app_inv_head in He. injection He as He. by apply app_inv_tail in He.
Qed.

(** C37. Equality of transfers and their hash disagree. Two transfers compare equal
    exactly when they agree on every signed field (the token by its text), unless the
    texts of these two are themselves a SHA-256 collision; the signature is not among
    the fields, but it is hashed. So a transfer signed twice compares
    equal to itself and has another hash as soon as the signatures have, and a hash set
    of both may hold both or only the first, as the layout of its table has it, even
    where no two hashes coincide. *)
Theorem transfer_keys_disagree `{!Secp256k1Laws, !HashingLaws} (t : Transfer) (s1 s2 : Signature) :
  hash_writes s1 <> hash_writes s2 ->
  (forall t1 t2, ~ texts_collide t1 t2 -> Transfer_eq t1 t2 = true <-> same_signed t1 t2) /\
  let t1 := set_signature s1 t in
  let t2 := set_signature s2 t in
  Transfer_eq t1 t2 = true /\ hash_writes t1 <> hash_writes t2 /\
  forall finish, finish (hash_writes t1) <> finish (hash_writes t2) ->
    (exists probes, (forall s h, probes s h h = true) /\
       hs_collect Transfer_eq finish probes [t1; t2] = [t1; t2]) /\
    (exists probes, (forall s h, probes s h h = true) /\
       hs_collect Transfer_eq finish probes [t1; t2] = [t1]).
Proof.
  intros Hs. split.
  { intros t1 t2. by apply transfer_digest_binding. }
  intros t1 t2. split; [apply resigned_equal|]. split.
  { intros He. by apply Hs, (resigned_hash s1 s2 t). }
  intros finish Hf. split.
  - exists (fun _ h h' => bool_decide (h = h')). split; [intros; by apply bool_decide_eq_true|].
    unfold hs_collect, hs_insert, hs_contains, hash_of. simpl.
    rewrite bool_decide_eq_false_2 by auto. done.
  - exists (fun _ _ _ => true). split; [done|].
    unfold hs_collect, hs_insert, hs_contains. simpl.
    unfold t1, t2. by rewrite (resigned_equal s2 s1).
Qed.
End transfers.

Section witnesses.
Import Toy Sample.

#[local] Instance toy_key_hash : HashKey PublicKey := fun pk => [WriteBytes (pk_serialize pk)].
#[local] Instance toy_sig_hash : HashKey Signature := fun sig => [WriteBytes sig].

(** The sum of the byte strings that were fed. *)
Definition toy_finish (l : list HashWrite) : Z :=
  foldr Z.add 0%Z ((fun w => match w with WriteBytes b => of_be_bytes b | _ => 0%Z end) <$> l).

Lemma transfer_keys_disagree_witness :
  Transfer_eq (transfer_of alice bob 10 1) (transfer_of alice bob 10 2) = false /\
  exists probes, (forall s h, probes s h h = true) /\
    hs_collect Transfer_eq toy_finish probes
      [set_signature some_signature transfer; set_signature [] transfer] =
      [set_signature some_signature transfer; set_signature [] transfer].
Proof.
  destruct (transfer_keys_disagree transfer some_signature []) as (Heq & _ & _ & H).
  { discriminate. }
  split.
  - apply not_true_iff_false. intros E. apply Heq in E as (_ & _ & _ & _ & _ & _ & E).
    + vm_compute in E. discriminate E.
    + intros [_ E']. vm_compute in E'. discriminate E'.
  - apply (H toy_finish). intros E. vm_compute in E. discriminate E.
Defined.
End witnesses.
