(* ===== verification/Mempool.v ===== *)
(** * The mempool: [crates/mempool/src/mempool.rs]

    Pending transactions in an insertion-ordered map behind the left-right
    primitive. The left-right crate is a parameter; its contract is that
    appended operations become visible, in order, at the next publication. *)

From S2P Require Import Prelude Primitives Keypair Transactions ToyModel.
From Stdlib Require Import Strings.Byte.

Class LeftRight := {
  WriteHandle : Type -> Type -> Type;
  lr_new : forall {T Op}, T -> WriteHandle T Op;
  lr_append : forall {T Op}, Op -> WriteHandle T Op -> WriteHandle T Op;
  lr_publish : forall {T Op}, (Op -> T -> T) -> WriteHandle T Op -> WriteHandle T Op;
  (* what the read handles see *)
  lr_read : forall {T Op}, WriteHandle T Op -> T;
  (* the operation log since the last publication *)
  lr_pending : forall {T Op}, WriteHandle T Op -> list Op;
}.

Class LeftRightLaws `{!LeftRight} := {
  lr_read_new : forall {T Op} (t : T), lr_read (@lr_new _ T Op t) = t;
  lr_pending_new : forall {T Op} (t : T), lr_pending (@lr_new _ T Op t) = [];
  lr_read_append : forall {T Op} (op : Op) (w : WriteHandle T Op),
    lr_read (lr_append op w) = lr_read w;
  lr_pending_append : forall {T Op} (op : Op) (w : WriteHandle T Op),
    lr_pending (lr_append op w) = lr_pending w ++ [op];
  lr_read_publish : forall {T Op} (absorb : Op -> T -> T) (w : WriteHandle T Op),
    lr_read (lr_publish absorb w) =
      fold_left (fun t op => absorb op t) (lr_pending w) (lr_read w);
  lr_pending_publish : forall {T Op} (absorb : Op -> T -> T) (w : WriteHandle T Op),
    lr_pending (lr_publish absorb w) = [];
}.

Inductive TxnStatus :=
| Pending
| Validating
| Validated
| Rejected.

Section mempool.
Context `{!Profile, !Hashing, !Secp256k1, !ValidatorKeys, !StrDebug}.
Context `{!ToJson Address, !ToJson PublicKey, !ToJson Token, !ToJson Z, !ToJson string}.
Context `{!LinkedMap, !LeftRight}.

Record TxnRecord := mk_TxnRecord {
  rec_txn_id : TransactionDigest;
  rec_txn : TransactionKind;
  rec_status : TxnStatus;
  rec_timestamp : Z;
  rec_added_timestamp : Z;
  rec_validated_timestamp : Z;
  rec_rejected_timestamp : Z;
  rec_deleted_timestamp : Z;
}.

(** [TxnRecord::new] at clock reading [now]; the other fields are the defaults. *)
Definition TxnRecord_new (now : Z) (txn : TransactionKind) : TxnRecord :=
  {| rec_txn_id := txn_id txn; rec_txn := txn; rec_status := Pending;
     rec_timestamp := txn_timestamp txn; rec_added_timestamp := now;
     rec_validated_timestamp := 0; rec_rejected_timestamp := 0;
     rec_deleted_timestamp := 0 |}.

Record Mempool := mk_Mempool {
  pool : list (TransactionDigest * TxnRecord);
}.

Definition Mempool_default : Mempool := {| pool := [] |}.

Definition Mempool_len (m : Mempool) : nat := length (pool m).

Inductive MempoolOp :=
| AddOp (record : TxnRecord)
| RemoveOp (id : TransactionDigest).

Definition absorb_first (op : MempoolOp) (m : Mempool) : Mempool :=
  match op with
  | AddOp record => {| pool := linked_insert (rec_txn_id record) record (pool m) |}
  | RemoveOp id => {| pool := linked_remove id (pool m) |}
  end.

(** [LeftRightMempool]: the write handle, with the readers it publishes to. *)
Definition LeftRightMempool : Type := WriteHandle Mempool MempoolOp.

Definition LeftRightMempool_new : LeftRightMempool := lr_new Mempool_default.

Definition mp_pool (mp : LeftRightMempool) : list (TransactionDigest * TxnRecord) :=
  pool (lr_read mp).

Definition mp_publish (mp : LeftRightMempool) : LeftRightMempool := lr_publish absorb_first mp.

Definition mp_size (mp : LeftRightMempool) : nat := length (mp_pool mp).

(** [txn_size] is [size_of::<TransactionKind>()], which the compiler fixes. *)
Definition size_in_kilobytes {E} (txn_size : Z) (mp : LeftRightMempool) : result E Z :=
  n ← arith Usize (Z.of_nat (mp_size mp) * txn_size);
  Ok (n / 1024)%Z.

Definition mp_insert {E} (txn_size now : Z) (txn : TransactionKind)
    : method LeftRightMempool E Z := fun mp =>
  let mp' := mp_publish (lr_append (AddOp (TxnRecord_new now txn)) mp) in
  (mp', size_in_kilobytes txn_size mp').

Definition mp_get (txn_id : TransactionDigest) (mp : LeftRightMempool) : option TxnRecord :=
  if bool_decide (digest_string txn_id = EmptyString) then None
  else linked_get txn_id (mp_pool mp).

Definition mp_get_txn (txn_hash : TransactionDigest) (mp : LeftRightMempool)
    : option TransactionKind :=
  rec_txn <$> mp_get txn_hash mp.

(** [fetch_txns]: every iteration pops from a fresh copy of the pool. *)
Fixpoint fetch_loop (mp : LeftRightMempool) (i fuel : nat)
    : list (TransactionDigest * TxnRecord) :=
  match fuel with
  | O => []
  | S fuel' =>
      if bool_decide (i = length (mp_pool mp)) then []
      else
        match linked_pop (mp_pool mp) with
        | Some txn_data => txn_data :: fetch_loop mp (S i) fuel'
        | None => fetch_loop mp (S i) fuel'
        end
  end.

Definition fetch_txns (num_of_txns : nat) (mp : LeftRightMempool)
    : list (TransactionDigest * TxnRecord) :=
  fetch_loop mp 0 num_of_txns.

(** The batch operations; a batch is a [HashSet], in its iteration order. *)
Definition append_all (ops : list MempoolOp) (mp : LeftRightMempool) : LeftRightMempool :=
  fold_left (fun mp op => lr_append op mp) ops mp.

(** The records of a batch; the clock is read for each. *)
Definition batch_records (now : nat -> Z) (txn_batch : list TransactionKind) : list TxnRecord :=
  imap (fun i t => TxnRecord_new (now i) t) txn_batch.

Definition mp_extend (now : nat -> Z) (txn_batch : list TransactionKind) (mp : LeftRightMempool)
    : LeftRightMempool :=
  mp_publish (append_all (map AddOp (batch_records now txn_batch)) mp).

Definition extend_with_records (records : list TxnRecord) (mp : LeftRightMempool)
    : LeftRightMempool :=
  mp_publish (append_all (map AddOp records) mp).

Definition mp_remove (id : TransactionDigest) (mp : LeftRightMempool) : LeftRightMempool :=
  mp_publish (lr_append (RemoveOp id) mp).

Definition remove_txn_batch (txn_batch : list TransactionKind) (mp : LeftRightMempool)
    : LeftRightMempool :=
  mp_publish (append_all (map (fun t => RemoveOp (txn_id t)) txn_batch) mp).

Definition remove_txns (txn_batch : list TransactionDigest) (mp : LeftRightMempool)
    : LeftRightMempool :=
  mp_publish (append_all (map RemoveOp txn_batch) mp).

Inductive MempoolError :=
| TransactionMissing (id : TransactionDigest)
| TransactionNotFound (id : TransactionDigest)
| TransactionInvalid (id : TransactionDigest)
| TransactionExists (id : TransactionDigest).

Definition is_txn_validated (txn : TransactionKind) (mp : LeftRightMempool)
    : result MempoolError Z :=
  match mp_get (txn_id txn) mp with
  | Some found =>
      match rec_status found with
      | Validated => Ok (rec_validated_timestamp found)
      | _ => Err (TransactionNotFound (txn_id txn))
      end
  | None => Err (TransactionNotFound (txn_id txn))
  end.

(** [From<PoolType>] and [Clone]: the records are collected in a [HashSet], whose
    iteration order is [order]. *)
Definition LeftRightMempool_from
    (order : list TxnRecord -> list TxnRecord)
    (p : list (TransactionDigest * TxnRecord)) : LeftRightMempool :=
  extend_with_records (order (map snd p)) LeftRightMempool_new.

Definition mp_clone (order : list TxnRecord -> list TxnRecord) (mp : LeftRightMempool)
    : LeftRightMempool :=
  LeftRightMempool_from order (mp_pool mp).

(** [fetch_filtered]: [returned[0..amount]] panics when fewer records pass. *)
Definition fetch_filtered {E} (amount : nat) (f : TransactionDigest -> TxnRecord -> bool)
    (m : Mempool) : result E (list TxnRecord) :=
  let returned := map snd (filter (fun p => f p.1 p.2 = true) (pool m)) in
  if bool_decide (length returned < amount) then Panic else Ok (take amount returned).

(** [MempoolReadHandleFactory]. *)
Definition factory_entries (mp : LeftRightMempool) : gmap TransactionDigest TxnRecord :=
  list_to_map (reverse (map (fun r => (rec_txn_id r, r)) (map snd (mp_pool mp)))).

Definition factory_values (mp : LeftRightMempool) : list TransactionKind :=
  map (fun p => rec_txn p.2) (mp_pool mp).

(** ** Refinement to a map *)

(** The specification state: a map from identifiers to records. *)
Definition mp_abs (mp : LeftRightMempool) : gmap TransactionDigest TxnRecord :=
  list_to_map (mp_pool mp).

Definition pool_wf (l : list (TransactionDigest * TxnRecord)) : Prop :=
  NoDup l.*1 /\ Forall (fun p => p.1 = rec_txn_id p.2) l.

Definition mp_wf (mp : LeftRightMempool) : Prop :=
  pool_wf (mp_pool mp) /\ lr_pending mp = [].

Definition spec_op (m : gmap TransactionDigest TxnRecord) (op : MempoolOp)
    : gmap TransactionDigest TxnRecord :=
  match op with
  | AddOp r => <[rec_txn_id r := r]> m
  | RemoveOp id => delete id m
  end.

Context `{!LinkedMapLaws, !LeftRightLaws}.

Lemma absorb_wf op m : pool_wf (pool m) -> pool_wf (pool (absorb_first op m)).
Proof.
  intros [Hnd Hall]. destruct op as [r|id]; simpl.
  - split; [by apply linked_insert_wf|].
    rewrite (linked_insert_perm _ _ _ Hnd). constructor; [done|].
    by apply Forall_filter_sub.
  - split; [by apply linked_remove_wf|].
    rewrite (linked_remove_perm _ _ Hnd). by apply Forall_filter_sub.
Qed.

Lemma absorb_map op m :
  pool_wf (pool m) ->
  list_to_map (pool (absorb_first op m)) = spec_op (list_to_map (pool m)) op.
Proof.
  intros [Hnd _]. destruct op; simpl; [by apply linked_insert_map|by apply linked_remove_map].
Qed.

Lemma absorb_all ops m :
  pool_wf (pool m) ->
  pool_wf (pool (fold_left (fun t op => absorb_first op t) ops m)) /\
  list_to_map (pool (fold_left (fun t op => absorb_first op t) ops m)) =
    fold_left spec_op ops (list_to_map (pool m)).
Proof.
  revert m. induction ops as [|op ops IH]; intros m Hwf; simpl; [done|].
  rewrite <-absorb_map by done. apply IH. by apply absorb_wf.
Qed.

Lemma append_all_spec ops mp :
  lr_read (append_all ops mp) = lr_read mp /\
  lr_pending (append_all ops mp) = lr_pending mp ++ ops.
Proof.
  unfold append_all. revert mp. induction ops as [|op ops IH]; intros mp; simpl.
  - by rewrite app_nil_r.
  - destruct (IH (lr_append op mp)) as [-> ->].
    by rewrite lr_read_append, lr_pending_append, <-app_assoc.
Qed.

Lemma publish_all_spec ops mp :
  mp_wf mp ->
  mp_wf (mp_publish (append_all ops mp)) /\
  mp_abs (mp_publish (append_all ops mp)) = fold_left spec_op ops (mp_abs mp).
Proof.
  intros [Hwf Hp]. destruct (append_all_spec ops mp) as [Hr Hpa].
  unfold mp_wf, mp_abs, mp_pool, mp_publish.
  rewrite lr_read_publish, lr_pending_publish, Hr, Hpa, Hp. simpl.
  by destruct (absorb_all ops (lr_read mp) Hwf) as [? ->].
Qed.

Lemma new_wf : mp_wf LeftRightMempool_new /\ mp_abs LeftRightMempool_new = ∅.
Proof.
  unfold mp_wf, mp_abs, mp_pool, LeftRightMempool_new.
  rewrite lr_read_new, lr_pending_new. repeat split; constructor.
Qed.

(** ** Sequences of operations *)

Inductive mp_cmd :=
| CInsert (now : Z) (txn : TransactionKind)
| CExtend (now : nat -> Z) (batch : list TransactionKind)
| CRecords (records : list TxnRecord)
| CRemove (id : TransactionDigest)
| CRemoveBatch (batch : list TransactionKind)
| CRemoveTxns (ids : list TransactionDigest).

Definition exec (mp : LeftRightMempool) (c : mp_cmd) : LeftRightMempool :=
  match c with
  | CInsert now txn => (mp_insert (E := Empty_set) 0 now txn mp).1
  | CExtend now batch => mp_extend now batch mp
  | CRecords records => extend_with_records records mp
  | CRemove id => mp_remove id mp
  | CRemoveBatch batch => remove_txn_batch batch mp
  | CRemoveTxns ids => remove_txns ids mp
  end.

(** What the commands mean for the map: additions override, in order; removals
    keep exactly the other keys. *)
Definition spec_add (records : list TxnRecord) (m : gmap TransactionDigest TxnRecord)
    : gmap TransactionDigest TxnRecord :=
  list_to_map (reverse (map (fun r => (rec_txn_id r, r)) records)) ∪ m.

Definition spec_remove (ids : list TransactionDigest) (m : gmap TransactionDigest TxnRecord)
    : gmap TransactionDigest TxnRecord :=
  filter (fun p => p.1 ∉ ids) m.

Definition spec_cmd (m : gmap TransactionDigest TxnRecord) (c : mp_cmd)
    : gmap TransactionDigest TxnRecord :=
  match c with
  | CInsert now txn => spec_add [TxnRecord_new now txn] m
  | CExtend now batch => spec_add (batch_records now batch) m
  | CRecords records => spec_add records m
  | CRemove id => spec_remove [id] m
  | CRemoveBatch batch => spec_remove (map txn_id batch) m
  | CRemoveTxns ids => spec_remove ids m
  end.

Lemma fold_add records m :
  fold_left spec_op (map AddOp records) m = spec_add records m.
Proof.
  unfold spec_add. revert m. induction records as [|r records IH]; intros m; simpl.
  - by rewrite map_empty_union.
  - rewrite IH, reverse_cons, list_to_map_app. simpl.
    rewrite <-(assoc_L (∪)). f_equal. rewrite insert_union_singleton_l.
    by rewrite <-insert_empty.
Qed.

Lemma fold_remove ids m :
  fold_left spec_op (map RemoveOp ids) m = spec_remove ids m.
Proof.
  unfold spec_remove. revert m. induction ids as [|id ids IH]; intros m; simpl.
  - apply map_eq. intros i. apply option_eq. intros x.
    rewrite map_lookup_filter_Some. simpl. rewrite elem_of_nil. tauto.
  - rewrite IH. apply map_eq. intros i. apply option_eq. intros x.
    rewrite !map_lookup_filter_Some, lookup_delete_Some. simpl. rewrite elem_of_cons.
    naive_solver.
Qed.

Lemma exec_spec c mp :
  mp_wf mp -> mp_wf (exec mp c) /\ mp_abs (exec mp c) = spec_cmd (mp_abs mp) c.
Proof.
  intros Hwf. destruct c as [now txn|now batch|records|id|batch|ids]; simpl.
  - rewrite <-fold_add. by apply (publish_all_spec [AddOp (TxnRecord_new now txn)]).
  - rewrite <-fold_add. by apply publish_all_spec.
  - rewrite <-fold_add. by apply publish_all_spec.
  - rewrite <-fold_remove. by apply (publish_all_spec [RemoveOp id]).
  - rewrite <-fold_remove, map_map. by apply publish_all_spec.
  - rewrite <-fold_remove. by apply publish_all_spec.
Qed.

Lemma run_spec cmds mp :
  mp_wf mp ->
  mp_wf (fold_left exec cmds mp) /\
  mp_abs (fold_left exec cmds mp) = fold_left spec_cmd cmds (mp_abs mp).
Proof.
  revert mp. induction cmds as [|c cmds IH]; intros mp Hwf; simpl; [done|].
  destruct (exec_spec c mp Hwf) as [Hwf' <-]. by apply IH.
Qed.

Lemma mp_get_abs id mp :
  digest_string id <> EmptyString -> mp_get id mp = mp_abs mp !! id.
Proof.
  intros Hid. unfold mp_get. rewrite bool_decide_eq_false_2 by done. apply linked_get_lookup.
Qed.

Lemma mp_size_abs mp : mp_wf mp -> mp_size mp = size (mp_abs mp).
Proof.
  intros [[Hnd _] _]. unfold mp_size, mp_abs.
  by rewrite <-(length_map_to_list (list_to_map _)), map_to_list_to_map.
Qed.

Lemma mp_refines_wf cmds : mp_wf (fold_left exec cmds LeftRightMempool_new).
Proof. apply run_spec, new_wf. Qed.

(** C5. The mempool refines a map from identifiers to records: after any
    sequence of insertions, batch insertions and removals, what a reader looks
    up, and how many entries it sees, is what the map specification says, with
    every key the identifier of its record and nothing left unpublished. *)
Theorem mempool_refines_map (cmds : list mp_cmd) :
  let mp := fold_left exec cmds LeftRightMempool_new in
  let spec := fold_left spec_cmd cmds ∅ in
  mp_wf mp /\ mp_abs mp = spec /\ mp_size mp = size spec /\
  forall id, digest_string id <> EmptyString -> mp_get id mp = spec !! id.
Proof.
  intros mp spec. destruct new_wf as [Hwf Hempty].
  destruct (run_spec cmds LeftRightMempool_new Hwf) as [Hwf' Habs]. fold mp in Hwf', Habs.
  rewrite Hempty in Habs. fold spec in Habs. rewrite <-Habs.
  split_and!; [done|done|by apply mp_size_abs|]. intros id. apply mp_get_abs.
Qed.

(** [fetch_txns] does not fetch distinct transactions: asked for [n], it
    returns the last entry of the pool over and over, as many times as the
    smaller of [n] and the pool's size. *)
Lemma fetch_txns_repeats (n : nat) (mp : LeftRightMempool)
    (l : list (TransactionDigest * TxnRecord)) (x : TransactionDigest * TxnRecord) :
  mp_pool mp = l ++ [x] -> fetch_txns n mp = replicate (n `min` mp_size mp) x.
Proof.
  intros Hp. unfold fetch_txns, mp_size. rewrite Hp.
  assert (Hg : forall fuel i, i <= length (l ++ [x]) ->
    fetch_loop mp i fuel = replicate (fuel `min` (length (l ++ [x]) - i)) x).
  { induction fuel as [|fuel IH]; intros i Hi; simpl; [done|].
    rewrite Hp, linked_pop_last, last_snoc. case_bool_decide as Hc.
    - rewrite Hc, Nat.sub_diag. done.
    - rewrite IH by lia. replace (length (l ++ [x]) - i) with (S (length (l ++ [x]) - S i)) by lia.
      done. }
  rewrite Hg by lia. by rewrite Nat.sub_0_r.
Qed.

(** Cloning a mempool preserves every entry, whatever order the records are
    re-inserted in. *)
Lemma mempool_clone_preserves (order : list TxnRecord -> list TxnRecord)
    (mp : LeftRightMempool) :
  (forall l, order l ≡ₚ l) -> mp_wf mp ->
  mp_wf (mp_clone order mp) /\ mp_abs (mp_clone order mp) = mp_abs mp.
Proof.
  intros Hord [[Hnd Hall] Hp]. destruct new_wf as [Hwf Hempty].
  unfold mp_clone, LeftRightMempool_from, extend_with_records.
  destruct (publish_all_spec (map AddOp (order (map snd (mp_pool mp)))) _ Hwf) as [Hwf' ->].
  split; [done|]. rewrite fold_add, Hempty. unfold spec_add, mp_abs.
  rewrite (right_id_L ∅ (∪)).
  assert (Hperm : reverse (map (fun r => (rec_txn_id r, r)) (order (map snd (mp_pool mp))))
                  ≡ₚ mp_pool mp).
  { rewrite reverse_Permutation, Hord, map_map.
    rewrite <-(list_fmap_id (mp_pool mp)) at 2. apply Permutation_refl'.
    apply list_fmap_ext. intros i [k r] Hi%list_elem_of_lookup_2. simpl.
    rewrite Forall_forall in Hall. specialize (Hall _ Hi). simpl in Hall. by rewrite Hall. }
  symmetry. by apply list_to_map_perm.
Qed.

(** A filtered fetch panics exactly when fewer records pass than are asked for. *)
Lemma fetch_filtered_panics {E} amount f m :
  @fetch_filtered E amount f m = Panic <->
  length (filter (fun p => f p.1 p.2 = true) (pool m)) < amount.
Proof. unfold fetch_filtered. rewrite length_map. case_bool_decide; naive_solver. Qed.
End mempool.

(** A concrete left-right pair: the published value and the log. *)
Module ToyLeftRight.
#[export] Instance left_right : LeftRight := {|
  WriteHandle := fun T Op => (T * list Op)%type;
  lr_new := fun T Op t => (t, []);
  lr_append := fun T Op op w => (w.1, w.2 ++ [op]);
  lr_publish := fun T Op absorb w => (fold_left (fun t op => absorb op t) w.2 w.1, []);
  lr_read := fun T Op w => w.1;
  lr_pending := fun T Op w => w.2;
|}.

#[export] Instance left_right_laws : LeftRightLaws.
Proof. by split. Qed.
End ToyLeftRight.

Section witnesses.
Import Toy Sample ToyLeftRight.
#[local] Existing Instance release.

Definition sample_cmds : list mp_cmd :=
  [CInsert 5 (TransferKind transfer);
   CExtend (fun i => (6 + Z.of_nat i)%Z)
     [TransferKind (transfer_of bob carol 7 1); TransferKind (transfer_of carol bob 8 1)];
   CRemove (t_id transfer)].

Definition sample_pool : LeftRightMempool := fold_left exec sample_cmds LeftRightMempool_new.

Lemma mempool_refines_map_witness :
  mp_size sample_pool = size (fold_left spec_cmd sample_cmds ∅).
Proof. apply (mempool_refines_map sample_cmds). Defined.

Definition sample_record (t : Transfer) : TransactionDigest * TxnRecord :=
  (t_id t, TxnRecord_new 6 (TransferKind t)).

Definition two_records : LeftRightMempool :=
  exec LeftRightMempool_new
    (CExtend (fun _ => 6%Z) [TransferKind (transfer_of bob carol 7 1); TransferKind (transfer_of carol bob 8 1)]).

End witnesses.
