(* ===== verification/Staking.v ===== *)
(** * Stake transactions: [crates/vrrb_core/src/staking.rs] *)

From S2P Require Import Prelude Primitives Keypair Transactions ToyModel.
From Stdlib Require Import Strings.Byte.

Definition MIN_STAKE_FARMER : Z := 10000.
Definition MIN_STAKE_VALIDATOR : Z := 50000.

Inductive StakeError :=
| StakeInvalidPayload
| StakeInvalidSignature
| UncertifiedStake
| InvalidCertificate
| StakeOther (msg : string).

Inductive StakeUpdate :=
| Add (n : Z)
| Withdrawal (n : Z)
| Slash (pct : Z).

#[export] Instance StakeUpdate_eq_dec : EqDecision StakeUpdate.
Proof. solve_decision. Defined.

Section staking.
Context `{!Hashing, !Secp256k1}.
Context `{!ToJson PublicKey, !ToJson Address, !ToJson (option Address),
          !ToJson StakeUpdate, !ToJson Z}.

Record Stake := mk_Stake {
  st_pubkey : PublicKey;
  st_from : Address;
  st_to : option Address;
  st_amount : StakeUpdate;
  st_timestamp : Z;
  st_signature : Signature;
  st_validator_quorum_key : bytes;
  st_certificate : option (bytes * bytes);
}.

#[export] Instance Stake_eq_dec : EqDecision Stake.
Proof. solve_decision. Defined.

Definition stake_payload (pk : PublicKey) (from : Address) (to : option Address)
    (amount : StakeUpdate) (timestamp : Z) : bytes :=
  hash_data [to_json pk; to_json from; to_json to; to_json amount; to_json timestamp].

(** [Stake::new] at clock reading [now]. *)
Definition Stake_new (now : Z) (amount : StakeUpdate) (sk : SecretKey) (pk : PublicKey)
    (from : Address) (to : option Address) : option Stake :=
  match message_from_slice (stake_payload pk from to amount now) with
  | Some message =>
      Some {| st_pubkey := pk; st_from := from; st_to := to; st_amount := amount;
              st_timestamp := now; st_signature := sign_message message sk;
              st_validator_quorum_key := []; st_certificate := None |}
  | None => None
  end.

Definition get_receiver (s : Stake) : Address :=
  match st_to s with
  | Some address => address
  | None => st_from s
  end.

Definition get_stake_payload (s : Stake) : bytes :=
  stake_payload (st_pubkey s) (st_from s) (st_to s) (st_amount s) (st_timestamp s).

Definition VALID_CERTIFICATE_LENGTH : nat := 96.

Definition certify (certificate : bytes * bytes) : method Stake StakeError unit := fun s =>
  if bool_decide (length certificate.1 <> VALID_CERTIFICATE_LENGTH) then
    (s, Err InvalidCertificate)
  else
    ({| st_pubkey := st_pubkey s; st_from := st_from s; st_to := st_to s;
        st_amount := st_amount s; st_timestamp := st_timestamp s;
        st_signature := st_signature s;
        st_validator_quorum_key := st_validator_quorum_key s;
        st_certificate := Some certificate |}, Ok tt).

Definition stake_verify (s : Stake) : result StakeError unit :=
  match message_from_slice (get_stake_payload s) with
  | Some message =>
      if verify_message message (st_signature s) (st_pubkey s) then Ok tt
      else Err StakeInvalidSignature
  | None => Err StakeInvalidPayload
  end.

Context `{!HashingLaws, !Secp256k1Laws}.

Lemma message_of_hash items : message_from_slice (hash_data items) = Some (hash_data items).
Proof.
  unfold message_from_slice. by rewrite bool_decide_eq_true_2 by apply sha256_length.
Qed.

(** Certifying changes nothing that is signed. *)
Lemma certify_verify cert s s' r : certify cert s = (s', r) -> stake_verify s' = stake_verify s.
Proof. unfold certify. case_bool_decide; intros [= <- <-]; done. Qed.

(** A stake made with a key pair always exists, verifies, and goes on
    verifying after it is certified; certification itself accepts exactly
    certificates of 96 bytes. *)
Lemma stake_new_certify_verify (now : Z) (amount : StakeUpdate) (sk : SecretKey)
    (from : Address) (to : option Address) (cert : bytes * bytes) :
  exists s, Stake_new now amount sk (pk_of_sk sk) from to = Some s /\
    stake_verify s = Ok tt /\
    stake_verify (certify cert s).1 = Ok tt /\
    ((certify cert s).2 = Ok tt <-> length cert.1 = 96).
Proof.
  unfold Stake_new, stake_payload. rewrite message_of_hash.
  eexists. split; [reflexivity|].
  match goal with |- stake_verify ?s = _ /\ _ => set (s0 := s) end.
  assert (Hv : stake_verify s0 = Ok tt).
  { unfold stake_verify, get_stake_payload, stake_payload.
    rewrite message_of_hash. simpl. by rewrite verify_sign. }
  split_and!; [done| |].
  - destruct (certify cert s0) as [s' r] eqn:Hc. simpl. by rewrite (certify_verify _ _ _ _ Hc).
  - unfold certify, VALID_CERTIFICATE_LENGTH. case_bool_decide; simpl; naive_solver.
Qed.
End staking.

Section witnesses.
Import Toy Sample.

#[export] Instance json_stake_update : ToJson StakeUpdate := fun u =>
  match u with
  | Add n => x00 :: be_bytes 16 n
  | Withdrawal n => x01 :: be_bytes 16 n
  | Slash n => x02 :: be_bytes 1 n
  end.

#[export] Instance json_opt_address : ToJson (option Address) := fun o =>
  match o with
  | Some a => x01 :: key_bytes (address_pk a)
  | None => [x00]
  end.

End witnesses.
