(* ===== verification/Claim.v ===== *)
(** * Claims: [crates/vrrb_core/src/claim.rs]

    A claim is a node's ticket in the elections: its hash, XORed limb by limb
    with a seed, is the node's election result. The claim also carries the
    node's stake, recomputed from its stake transactions. *)

From S2P Require Import Prelude Floats Primitives Keypair Transactions ToyModel Staking.
From Stdlib Require Import Strings.Byte.

(** [std::net::SocketAddr], of which the code uses equality and [Display]. *)
Class SocketAddrs := {
  SocketAddr : Type;
  SocketAddr_eq_dec :: EqDecision SocketAddr;
  sockaddr_to_string : SocketAddr -> string;
}.

Inductive ClaimError :=
| ClaimInvalidSignature
| ClaimInvalidPublicKey
| ClaimOther (msg : string).

Definition ClaimError_from (e : KeyPairError) : ClaimError :=
  match e with
  | InvalidSignature _ => ClaimInvalidSignature
  | InvalidPublicKey => ClaimInvalidPublicKey
  | InvalidKey _ => ClaimOther "Invalid Secret Key"
  | _ => ClaimOther "Failed to validate claim"
  end.

Inductive Eligibility :=
| EligHarvester
| EligMiner
| EligFarmer
| EligNone.

#[export] Instance Eligibility_eq_dec : EqDecision Eligibility.
Proof. solve_decision. Defined.

(** ** U256

    A value of [ethereum_types::U256] is its number below [2 ^ 256]; its public
    field is the array of its four 64-bit limbs, the least significant first. *)

Definition u256_limb (h : Z) (i : Z) : Z :=
  Z.land (Z.shiftr h (64 * i)) (Z.ones 64).

Definition u256_of_limbs (a b c d : Z) : Z :=
  Z.lor a (Z.lor (Z.shiftl b 64) (Z.lor (Z.shiftl c 128) (Z.shiftl d 192))).

(** [n] little-endian bytes of [z]. *)
Fixpoint le_bytes (n : nat) (z : Z) : bytes :=
  match n with
  | O => []
  | S n' => default x00 (Byte.of_N (Z.to_N (z mod 256))) :: le_bytes n' (z / 256)
  end.

Definition election_result (hash : Z) (block_seed : Z) : Z :=
  u256_of_limbs (Z.lxor (u256_limb hash 0) block_seed)
                (Z.lxor (u256_limb hash 1) block_seed)
                (Z.lxor (u256_limb hash 2) block_seed)
                (Z.lxor (u256_limb hash 3) block_seed).

Section claim.
Context `{!Profile, !Hashing, !Secp256k1, !ValidatorKeys, !SocketAddrs}.

Record Claim := mk_Claim {
  c_public_key : PublicKey;
  c_address : Address;
  c_hash : Z;
  c_eligibility : Eligibility;
  c_ip_address : SocketAddr;
  c_signature : string;
  c_node_id : string;
  c_stake : Z;
  c_stake_txns : list Stake;
}.

#[export] Instance Claim_eq_dec : EqDecision Claim.
Proof. solve_decision. Defined.

Definition claim_hash (public_key : PublicKey) (ip_address : SocketAddr) : Z :=
  of_be_bytes (sha256 (str_bytes (pk_to_string public_key)
                         ++ str_bytes (sockaddr_to_string ip_address))).

(** The bytes that are signed: the limbs of the hash, each little-endian. *)
Definition claim_message (hash : Z) : bytes :=
  le_bytes 8 (u256_limb hash 0) ++ le_bytes 8 (u256_limb hash 1)
  ++ le_bytes 8 (u256_limb hash 2) ++ le_bytes 8 (u256_limb hash 3).

Definition is_valid_claim (msg_hash : bytes) (signature : string) (pub_key : bytes)
    : result ClaimError unit :=
  map_err ClaimError_from (verify_ecdsa_sign signature msg_hash pub_key).

Definition Claim_new (public_key : PublicKey) (address : Address)
    (ip_address : SocketAddr) (signature : string) (node_id : string)
    : result ClaimError Claim :=
  let hash := claim_hash public_key ip_address in
  match is_valid_claim (claim_message hash) signature (pk_serialize public_key) with
  | Ok _ =>
      Ok {| c_public_key := public_key; c_address := address; c_hash := hash;
            c_eligibility := EligNone; c_ip_address := ip_address;
            c_signature := signature; c_node_id := node_id; c_stake := 0;
            c_stake_txns := [] |}
  | Err e => Err e
  | Panic => Panic
  end.

Definition signature_for_valid_claim (public_key : PublicKey) (ip_address : SocketAddr)
    (secret_key : bytes) : result ClaimError string :=
  map_err ClaimError_from
    (ecdsa_sign (claim_message (claim_hash public_key ip_address)) secret_key).

Definition update_claim_socketaddr (signature : string) (public_key : PublicKey)
    (ip_address : SocketAddr) : method Claim ClaimError unit := fun c =>
  let hash := claim_hash public_key ip_address in
  match is_valid_claim (claim_message hash) signature (pk_serialize public_key) with
  | Ok _ =>
      ({| c_public_key := c_public_key c; c_address := c_address c; c_hash := c_hash c;
          c_eligibility := c_eligibility c; c_ip_address := ip_address;
          c_signature := c_signature c; c_node_id := c_node_id c;
          c_stake := c_stake c; c_stake_txns := c_stake_txns c |}, Ok tt)
  | Err e => (c, Err e)
  | Panic => (c, Panic)
  end.

Definition get_election_result (c : Claim) (block_seed : Z) : Z :=
  election_result (c_hash c) block_seed.

(** ** Stake accounting *)

Definition slash_calculator {E} (pct value : Z) : result E Z :=
  let slash := fmul F64 (float_of_Z F64 value)
                 (fdiv F64 (float_of_Z F64 pct) (float_of_Z F64 100)) in
  arith U128 (value - float_to_int U128 slash).

Definition stake_step {E} (acc : Z) (u : StakeUpdate) : result E Z :=
  match u with
  | Add value => Ok (default acc (checked_add U128 acc value))
  | Withdrawal value => Ok (default acc (checked_sub U128 acc value))
  | Slash pct => slash_calculator pct acc
  end.

(** The fold of [check_stake_utxo]. *)
Fixpoint stake_utxo {E} (acc : Z) (us : list StakeUpdate) : result E Z :=
  match us with
  | [] => Ok acc
  | u :: us' => acc' ← stake_step acc u; stake_utxo acc' us'
  end.

Definition check_stake_utxo {E} (c : Claim) : result E Z :=
  stake_utxo 0 (st_amount <$> c_stake_txns c).

(** [get_pointer], the older election function: the position of each digit of
    the seed in the hash, raised to the digit's index, summed. *)
Definition hex_char (n : Z) : Ascii.ascii :=
  Ascii.ascii_of_N (Z.to_N (if (n <? 10)%Z then n + 48 else n + 87)).

Fixpoint hex_go (fuel : nat) (z : Z) (acc : string) : string :=
  match fuel with
  | O => acc
  | S fuel' =>
      if (z =? 0)%Z then acc else hex_go fuel' (z / 16) (String (hex_char (z mod 16)) acc)
  end.

(** [format!] with [{:x}] of a [u128]: at most 32 digits, no leading zero. *)
Definition u128_hex (z : Z) : string := if (z =? 0)%Z then "0" else hex_go 32 z EmptyString.

Fixpoint str_find (c : Ascii.ascii) (s : string) : option Z :=
  match s with
  | EmptyString => None
  | String d s' => if bool_decide (c = d) then Some 0%Z else Z.succ <$> str_find c s'
  end.

Definition checked_pow (t : int_ty) (a : Z) (n : nat) : option Z :=
  if in_range t (a ^ Z.of_nat n) then Some (a ^ Z.of_nat n)%Z else None.

Definition pointer_terms (hash_string seed_hex : string) : list Z :=
  omap (fun p => n ← str_find p.2 hash_string; checked_pow U128 n p.1)
       (imap pair (String.list_ascii_of_string seed_hex)).

Fixpoint checked_sum {E} (t : int_ty) (acc : Z) (l : list Z) : result E Z :=
  match l with
  | [] => Ok acc
  | x :: l' => acc' ← arith t (acc + x); checked_sum t acc' l'
  end.

Definition get_pointer {E} (c : Claim) (block_seed : Z) : result E (option Z) :=
  let block_seed_hex := u128_hex block_seed in
  let hash_string := hex_encode (be_bytes 32 (c_hash c)) in
  let pointers := pointer_terms hash_string block_seed_hex in
  if bool_decide (length pointers = String.length block_seed_hex) then
    pointer ← checked_sum U128 0 pointers; Ok (Some pointer)
  else Ok None.

Definition depositing_claim (c : Claim) (s : Stake) : bool :=
  bool_decide (st_from s = c_address c).

Definition with_stake (stake : Z) (txns : list Stake) (c : Claim) : Claim :=
  {| c_public_key := c_public_key c; c_address := c_address c; c_hash := c_hash c;
     c_eligibility := c_eligibility c; c_ip_address := c_ip_address c;
     c_signature := c_signature c; c_node_id := c_node_id c;
     c_stake := stake; c_stake_txns := txns |}.

Definition update_stake (stake_txn : Stake) : method Claim StakeError unit := fun c =>
  if negb (depositing_claim c stake_txn) then
    (c, Err (StakeOther "This claim is not the intended receiver of the stake transaction"))
  else
    match st_certificate stake_txn with
    | Some _ =>
        let prev_stake := c_stake c in
        let c1 := with_stake prev_stake (c_stake_txns c ++ [stake_txn]) c in
        match check_stake_utxo c1 with
        | Ok stake =>
            if (stake =? prev_stake)%Z then
              (with_stake stake (c_stake_txns c) c, Ok tt)
            else (with_stake stake (c_stake_txns c1) c, Ok tt)
        | Err e => (c1, Err e)
        | Panic => (c1, Panic)
        end
    | None => (c, Err UncertifiedStake)
    end.
End claim.

(** ** Election results *)

Definition is_u64 (z : Z) : Prop := (0 <= z < 2 ^ 64)%Z.
Definition is_u256 (z : Z) : Prop := (0 <= z < 2 ^ 256)%Z.

Lemma testbit_high z k n : (0 <= z < 2 ^ k)%Z -> (0 <= k <= n)%Z -> Z.testbit z n = false.
Proof.
  intros Hz Hk. destruct (decide (z = 0)%Z) as [->|]; [apply Z.bits_0|].
  apply Z.bits_above_log2; [lia|]. apply Z.log2_lt_pow2; [lia|].
  assert (2 ^ k <= 2 ^ n)%Z by (apply Z.pow_le_mono_r; lia). lia.
Qed.

Lemma limb_xor_testbit h seed j m :
  (0 <= j)%Z -> is_u64 seed ->
  Z.testbit (Z.lxor (u256_limb h j) seed) m =
    if (0 <=? m)%Z && (m <? 64)%Z
    then xorb (Z.testbit h (64 * j + m)) (Z.testbit seed m) else false.
Proof.
  intros Hj Hs. unfold u256_limb.
  destruct (Z.leb_spec 0 m); simpl; [|by apply Z.testbit_neg_r].
  rewrite Z.lxor_spec, Z.land_spec, Z.shiftr_spec by done.
  destruct (Z.ltb_spec m 64).
  - rewrite Z.ones_spec_low, andb_true_r by lia. do 2 f_equal. lia.
  - rewrite Z.ones_spec_high, andb_false_r, (testbit_high seed 64) by (done || lia). done.
Qed.

(** Bit [n] of an election result is bit [n] of the hash XOR bit [n mod 64] of
    the seed. *)
Lemma election_result_testbit h seed n :
  is_u64 seed -> (0 <= n)%Z ->
  Z.testbit (election_result h seed) n =
    if (n <? 256)%Z then xorb (Z.testbit h n) (Z.testbit seed (n mod 64)) else false.
Proof.
  intros Hs Hn. unfold election_result, u256_of_limbs.
  rewrite !Z.lor_spec, !Z.shiftl_spec, !limb_xor_testbit by (done || lia).
  assert (Hd : exists i m, n = (64 * i + m)%Z /\ (0 <= m < 64)%Z /\ (0 <= i)%Z).
  { exists (n / 64)%Z, (n mod 64)%Z.
    pose proof (Z.div_mod n 64). pose proof (Z.mod_pos_bound n 64).
    pose proof (Z.div_pos n 64). lia. }
  destruct Hd as (i & m & -> & Hm & Hi).
  replace ((64 * i + m) mod 64)%Z with m
    by (symmetry; rewrite Z.add_comm, Z.mul_comm, Z.mod_add by lia; apply Z.mod_small; lia).
  assert (Hcase : (i = 0 \/ i = 1 \/ i = 2 \/ i = 3 \/ 4 <= i)%Z) by lia.
  destruct Hcase as [->|[->|[->|[->|Hi4]]]];
    repeat match goal with
    | |- context [(0 <=? ?x)%Z] => destruct (Z.leb_spec 0 x); try lia
    | |- context [(?x <? ?k)%Z] => destruct (Z.ltb_spec x k); try lia
    end; cbn [andb orb]; rewrite ?orb_false_r; try reflexivity;
    f_equal; f_equal; lia.
Qed.

Lemma election_result_range h seed : is_u64 seed -> is_u256 (election_result h seed).
Proof.
  intros Hs. unfold is_u256.
  assert (Hnn : (0 <= election_result h seed)%Z).
  { unfold election_result, u256_of_limbs. unfold is_u64 in Hs.
    assert (Hl : forall j, (0 <= Z.lxor (u256_limb h j) seed)%Z).
    { intros j. apply Z.lxor_nonneg. unfold u256_limb.
      split; [lia|]. intros _. apply Z.land_nonneg. right. by compute. }
    rewrite !Z.lor_nonneg, !Z.shiftl_nonneg. auto. }
  split; [done|]. destruct (decide (election_result h seed = 0)%Z) as [->|Hz]; [done|].
  apply Z.log2_lt_pow2; [lia|]. apply Z.nle_gt. intros Hle.
  pose proof (Z.bit_log2 (election_result h seed)) as Hb.
  rewrite election_result_testbit in Hb by (done || lia).
  destruct (Z.ltb_spec (Z.log2 (election_result h seed)) 256); [lia|].
  specialize (Hb ltac:(lia)). done.
Qed.

(** XORing twice with the same seed gives the hash back. *)
Lemma election_result_involutive h seed :
  is_u256 h -> is_u64 seed -> election_result (election_result h seed) seed = h.
Proof.
  intros Hh Hs. apply Z.bits_inj'. intros n Hn.
  rewrite !election_result_testbit by done.
  destruct (Z.ltb_spec n 256).
  - by rewrite xorb_assoc, xorb_nilpotent, xorb_false_r.
  - symmetry. apply (testbit_high h 256); [done|lia].
Qed.

Lemma election_result_inj h1 h2 seed :
  is_u256 h1 -> is_u256 h2 -> is_u64 seed ->
  election_result h1 seed = election_result h2 seed -> h1 = h2.
Proof.
  intros H1 H2 Hs Heq.
  by rewrite <-(election_result_involutive h1 seed), Heq, election_result_involutive.
Qed.

Section props.
Context `{!Profile, !Hashing, !Secp256k1, !ValidatorKeys, !SocketAddrs}.
Context `{!HashingLaws, !Secp256k1Laws}.

Lemma claim_hash_range pk ip : is_u256 (claim_hash pk ip).
Proof.
  unfold claim_hash, is_u256.
  pose proof (of_be_bytes_range (sha256 (str_bytes (pk_to_string pk)
                                   ++ str_bytes (sockaddr_to_string ip)))) as Hr.
  by rewrite sha256_length in Hr.
Qed.

(** Election results collide only with hashes: for any seed, two claims
    have the same election result exactly when they have the same hash, and the
    seed can be taken out again. *)
Lemma election_result_collision_free (c1 c2 : Claim) (seed : Z) :
  is_u256 (c_hash c1) -> is_u256 (c_hash c2) -> is_u64 seed ->
  (get_election_result c1 seed = get_election_result c2 seed <-> c_hash c1 = c_hash c2) /\
  election_result (get_election_result c1 seed) seed = c_hash c1 /\
  is_u256 (get_election_result c1 seed).
Proof.
  intros Hc1 Hc2 Hs. unfold get_election_result. split_and!.
  - split; [by apply election_result_inj|by intros ->].
  - by apply election_result_involutive.
  - by apply election_result_range.
Qed.

Lemma claim_signature_valid sk ip sig :
  signature_for_valid_claim (pk_of_sk sk) ip (sk_bytes sk) = Ok sig ->
  is_valid_claim (claim_message (claim_hash (pk_of_sk sk) ip)) sig
    (pk_serialize (pk_of_sk sk)) = Ok tt.
Proof.
  unfold signature_for_valid_claim, is_valid_claim.
  destruct (ecdsa_sign _ _) eqn:Hs; simpl; intros [= <-].
  by rewrite (ecdsa_sign_verify _ _ _ Hs).
Qed.

Lemma signature_for_valid_claim_ok sk ip :
  exists sig, signature_for_valid_claim (pk_of_sk sk) ip (sk_bytes sk) = Ok sig.
Proof.
  unfold signature_for_valid_claim, ecdsa_sign. rewrite sk_from_slice_bytes. eauto.
Qed.

(** Signing and claiming fit together: a holder of a secret key can always
    sign for its key and address, and the claim made with that signature is
    accepted with a zero stake, no eligibility and a hash below [2 ^ 256]. *)
Lemma claim_new_roundtrip (sk : SecretKey) (addr : Address) (ip : SocketAddr)
    (node : string) :
  exists sig c,
    signature_for_valid_claim (pk_of_sk sk) ip (sk_bytes sk) = Ok sig /\
    Claim_new (pk_of_sk sk) addr ip sig node = Ok c /\
    c_hash c = claim_hash (pk_of_sk sk) ip /\ is_u256 (c_hash c) /\
    c_stake c = 0%Z /\ c_eligibility c = EligNone.
Proof.
  destruct (signature_for_valid_claim_ok sk ip) as [sig Hsig].
  pose proof (claim_signature_valid sk ip sig Hsig) as Hv.
  exists sig. unfold Claim_new. rewrite Hv. eexists.
  split_and!; try reflexivity; [done|apply claim_hash_range..].
Qed.

(** The socket address of any claim can be changed by the holder of any key:
    the new address is checked against the key that is passed in, not against
    the claim's own, and the claim keeps its old hash and signature. *)
Lemma claim_socketaddr_any_key (c : Claim) (sk : SecretKey) (ip : SocketAddr) :
  exists sig c', update_claim_socketaddr sig (pk_of_sk sk) ip c = (c', Ok tt) /\
    c_ip_address c' = ip /\ c_public_key c' = c_public_key c /\
    c_hash c' = c_hash c /\ c_signature c' = c_signature c.
Proof.
  destruct (signature_for_valid_claim_ok sk ip) as [sig Hsig].
  pose proof (claim_signature_valid sk ip sig Hsig) as Hv.
  exists sig. unfold update_claim_socketaddr. rewrite Hv. eexists.
  split_and!; reflexivity.
Qed.
End props.

(** ** Stake accounting *)

Section stake_props.
Context `{!Profile, !Hashing, !Secp256k1, !ValidatorKeys, !SocketAddrs}.

Definition stake_update_wf (u : StakeUpdate) : Prop :=
  match u with
  | Add n | Withdrawal n => in_range U128 n = true
  | Slash pct => in_range U8 pct = true
  end.

Lemma stake_step_range {E} acc u acc' :
  in_range U128 acc = true -> @stake_step _ E acc u = Ok acc' -> in_range U128 acc' = true.
Proof.
  intros Ha. destruct u as [n|n|pct]; simpl.
  - intros [= <-]. unfold checked_add. by destruct (in_range _ (acc + n)) eqn:?.
  - intros [= <-]. unfold checked_sub. by destruct (in_range _ (acc - n)) eqn:?.
  - apply arith_range.
Qed.

Lemma stake_utxo_range {E} us acc acc' :
  in_range U128 acc = true -> @stake_utxo _ E acc us = Ok acc' -> in_range U128 acc' = true.
Proof.
  revert acc. induction us as [|u us IH]; intros acc Ha; simpl; [by intros [= <-]|].
  rewrite result_bind_Ok. intros (a & Hs & Hu). eauto using stake_step_range.
Qed.

Lemma stake_step_not_err {E} acc u (e : E) : stake_step acc u <> Err e.
Proof. destruct u; simpl; [done..|]. apply arith_not_err. Qed.

Lemma stake_utxo_not_err {E} us acc (e : E) : stake_utxo acc us <> Err e.
Proof.
  revert acc. induction us as [|u us IH]; intros acc; simpl; [done|].
  destruct (stake_step acc u) eqn:Hs; simpl; [apply IH|by apply stake_step_not_err in Hs|done].
Qed.

(** A delegated stake goes to the wrong claim: the claim of the account the
    stake is delegated to refuses it, the claim of the sender takes it. *)
Lemma stake_delegation_misdirected (s : Stake) (sender receiver : Claim) :
  st_from s = c_address sender -> st_to s = Some (c_address receiver) ->
  c_address sender <> c_address receiver -> st_certificate s <> None ->
  get_receiver s = c_address receiver /\
  is_err (update_stake s receiver).2 = true /\
  is_err (update_stake s sender).2 = false.
Proof.
  intros Hf Ht Hne Hc. unfold get_receiver, update_stake, depositing_claim.
  rewrite Hf, Ht. rewrite bool_decide_eq_false_2, bool_decide_eq_true_2 by done. simpl.
  split_and!; [done..|].
  destruct (st_certificate s); [|done].
  destruct (check_stake_utxo _) as [z|e|] eqn:Hu; simpl; [|by apply stake_utxo_not_err in Hu|done].
  by destruct (z =? _)%Z.
Qed.
End stake_props.

(** The factor [pct / 100] of a slash, as a float. *)
Definition slash_factor (pct : Z) : spec_float :=
  fdiv F64 (float_of_Z F64 pct) (float_of_Z F64 100).

(** At most one, exact at the ends, and within [2 ^ -47] of the percentage. *)
Definition factor_accurate (pct : Z) (x : spec_float) : bool :=
  match x with
  | S754_zero false => (pct =? 0)%Z
  | S754_finite false m e =>
      (e <=? 0)%Z && (Zpos m <=? 2 ^ (- e))%Z && negb (pct =? 0)%Z
      && (negb (pct =? 100)%Z || (Zpos m =? 2 ^ (- e))%Z)
      && (Z.abs (100 * Zpos m - pct * 2 ^ (- e)) * 2 ^ 47 <=? 2 ^ (- e))%Z
  | _ => false
  end.

Lemma slash_factor_table :
  forallb (fun n => factor_accurate (Z.of_nat n) (slash_factor (Z.of_nat n))) (seq 0 101) = true.
Proof. vm_compute. reflexivity. Qed.

Lemma slash_factor_spec pct :
  (0 <= pct <= 100)%Z -> factor_accurate pct (slash_factor pct) = true.
Proof.
  intros Hp. pose proof slash_factor_table as Ht. rewrite forallb_forall in Ht.
  specialize (Ht (Z.to_nat pct)). rewrite Z2Nat.id in Ht by lia.
  apply Ht. apply in_seq. lia.
Qed.

(** An integer next to [v * m / d], for a factor [m / d] close to [pct / 100]. *)
Lemma percentage_close v m d pct s :
  (0 < d)%Z -> (0 < v < 2 ^ 53)%Z -> (Z.abs (100 * m - pct * d) * 2 ^ 47 <= d)%Z ->
  (v * m / d <= s <= (v * m + d - 1) / d)%Z -> (Z.abs (100 * s - pct * v) < 200)%Z.
Proof.
  intros Hd Hv Hf [Hl Hu].
  pose proof (Z.mul_succ_div_gt (v * m) d Hd) as H1.
  pose proof (Z.mul_div_le (v * m + d - 1) d Hd) as H2.
  assert (d * s < v * m + d)%Z as S1 by nia.
  assert (v * m - d < d * s)%Z as S2 by nia.
  assert (Z.abs (v * (100 * m - pct * d)) <= 64 * d)%Z as Hx.
  { rewrite Z.abs_mul, (Z.abs_eq v) by lia.
    assert (v * Z.abs (100 * m - pct * d) <= 2 ^ 53 * Z.abs (100 * m - pct * d))%Z by nia. lia. }
  assert (Z.abs (d * (100 * s - pct * v)) < 164 * d)%Z as Hy by lia.
  rewrite Z.abs_mul, (Z.abs_eq d) in Hy by lia. nia.
Qed.

Lemma ceil_floor_range v m d :
  (0 < d)%Z -> (0 <= v)%Z -> (0 <= m <= d)%Z ->
  (0 <= v * m / d)%Z /\ (v * m / d <= (v * m + d - 1) / d <= v)%Z /\
  (v * m / d * d <= v * m <= (v * m + d - 1) / d * d)%Z.
Proof.
  intros Hd Hv Hm.
  pose proof (Z.mul_div_le (v * m) d Hd). pose proof (Z.mul_succ_div_gt (v * m + d - 1) d Hd).
  split_and!; [by apply Z.div_pos; nia|by apply Z.div_le_mono; lia| |lia|lia].
  apply Z.lt_succ_r, Z.div_lt_upper_bound; nia.
Qed.

(** A stake below [2 ^ 53] is slashed correctly by a percentage of at most
    100, in spite of the floating-point arithmetic: the result never exceeds the
    stake or drops below zero, what is taken is within two units of the percentage,
    nothing at 0 per cent and everything at 100 per cent, and the subtraction cannot
    overflow in either build. *)
Lemma slash_bounded `{!Profile} {E} (pct value : Z) :
  (0 <= pct <= 100)%Z -> (0 <= value < 2 ^ 53)%Z ->
  exists v, @slash_calculator _ E pct value = Ok v /\ (0 <= v <= value)%Z /\
    (Z.abs (100 * (value - v) - pct * value) < 200)%Z /\
    (pct = 0%Z -> v = value) /\ (pct = 100%Z -> v = 0%Z).
Proof.
  intros Hp Hv. unfold slash_calculator. fold (slash_factor pct).
  assert (Hs : exists s, float_to_int U128 (fmul F64 (float_of_Z F64 value) (slash_factor pct)) = s
    /\ (0 <= s <= value)%Z /\ (Z.abs (100 * s - pct * value) < 200)%Z /\
    (pct = 0%Z -> s = 0%Z) /\ (pct = 100%Z -> s = value)).
  { pose proof (slash_factor_spec pct Hp) as Hf. eexists. split; [reflexivity|].
    destruct (decide (value = 0%Z)) as [->|Hnz].
    { change (float_of_Z F64 0) with (S754_zero false).
      destruct (slash_factor pct) as [[]|[]| |[] m e]; try done;
        match goal with
        |- context [float_to_int U128 ?x] => change (float_to_int U128 x) with 0%Z
        end; split_and!; lia. }
    destruct (slash_factor pct) as [[]|[]| |[] m e]; cbn [factor_accurate] in Hf; try done;
      bool_facts.
    - subst. destruct value as [|q|q]; try lia.
      destruct (float_of_pos_exact F64 ltac:(done) ltac:(done) q) as (m & e & -> & _); [simpl; lia|].
      split_and!; (done || lia).
    - pose proof (pow2_pos (- e) ltac:(lia)) as Hd. set (d := (2 ^ (- e))%Z) in *.
      destruct (ceil_floor_range value (Zpos m) d) as (R1 & R2 & R3); [lia..|].
      assert (Hb : float_between (fmul F64 (float_of_Z F64 value) (S754_finite false m e))
                (value * Zpos m / d) ((value * Zpos m + d - 1) / d)).
      { apply fmul_int_between; [done|done|simpl; lia|lia|lia|simpl; lia|]. exact R3. }
      apply (float_between_cast U128) in Hb as [Hb _]; [|lia|lia|range_lia].
      split_and!; [lia|lia| |lia|].
      + by apply (percentage_close value (Zpos m) d); [|lia|..].
      + intros ->. destruct (Zpos m =? d)%Z eqn:Em; [|done]. apply Z.eqb_eq in Em.
        rewrite Em in R2, Hb. rewrite Z.div_mul in R2, Hb by lia. lia. }
  destruct Hs as (s & -> & Hs & Ha & H0 & H100).
  rewrite arith_ok by range_lia. eexists. split; [reflexivity|].
  replace (value - (value - s))%Z with s by lia. split_and!; intros; lia.
Qed.

(** ** Stake updates *)

Section stake_updates.
Context `{!Profile, !Hashing, !Secp256k1, !ValidatorKeys, !SocketAddrs}.

(** The claims that come about by [Claim::new] and by stake transactions offered to
    them, as long as no update panics. *)
Inductive staked : Claim -> Prop :=
| staked_new pk addr ip sig node c : Claim_new pk addr ip sig node = Ok c -> staked c
| staked_update s c c' r :
    staked c -> update_stake s c = (c', r) -> r <> Panic -> staked c'.

(** The stored stake is what the stored transactions add up to. *)
Definition stake_inv (c : Claim) : Prop :=
  (check_stake_utxo c : result StakeError Z) = Ok (c_stake c).

Lemma stake_utxo_app {E} us us' acc :
  @stake_utxo _ E acc (us ++ us') = (acc' ← stake_utxo acc us; stake_utxo acc' us').
Proof.
  revert acc. induction us as [|u us IH]; intros acc; simpl; [done|].
  destruct (stake_step acc u); simpl; [apply IH|done..].
Qed.

(** A claim with another stake, for a transaction that is kept when it changes it. *)
Definition restaked (s : Stake) (stake : Z) (c : Claim) : Claim :=
  with_stake stake
    (if (stake =? c_stake c)%Z then c_stake_txns c else c_stake_txns c ++ [s]) c.

(** Folding all transactions anew comes to one step from the stored stake. *)
Lemma update_stake_step (s : Stake) (c : Claim) :
  stake_inv c -> st_from s = c_address c -> st_certificate s <> None ->
  update_stake s c =
    match stake_step (c_stake c) (st_amount s) with
    | Ok stake => (restaked s stake c, Ok tt)
    | Err e => (with_stake (c_stake c) (c_stake_txns c ++ [s]) c, Err e)
    | Panic => (with_stake (c_stake c) (c_stake_txns c ++ [s]) c, Panic)
    end.
Proof.
  intros Hinv Hf Hc. unfold update_stake, depositing_claim.
  rewrite bool_decide_eq_true_2 by done. simpl. destruct (st_certificate s); [|done].
  unfold check_stake_utxo. simpl. rewrite fmap_app, stake_utxo_app.
  unfold stake_inv, check_stake_utxo in Hinv. rewrite Hinv. simpl.
  destruct (stake_step _ _) as [stake|e|]; simpl; [|done..].
  unfold restaked. by destruct (stake =? _)%Z.
Qed.

Lemma staked_inv c : staked c -> stake_inv c.
Proof.
  induction 1 as [pk addr ip sig node c Hn|s c c' r _ Hinv Hu Hr].
  - unfold Claim_new in Hn. destruct (is_valid_claim _ _ _); [|done..]. by injection Hn as <-.
  - destruct (decide (st_from s = c_address c)) as [Hf|Hf].
    2: { unfold update_stake, depositing_claim in Hu. rewrite bool_decide_eq_false_2 in Hu by done.
         by injection Hu as <- <-. }
    destruct (decide (st_certificate s = None)) as [Hc|Hc].
    { unfold update_stake in Hu. rewrite Hc in Hu. destruct (negb _); by injection Hu as <- <-. }
    rewrite update_stake_step in Hu by done.
    destruct (stake_step _ _) as [stake|e|] eqn:Hs; [|by apply stake_step_not_err in Hs|congruence].
    injection Hu as <- <-. unfold stake_inv, check_stake_utxo, restaked in *. simpl.
    destruct (Z.eqb_spec stake (c_stake c)) as [->|]; [done|].
    rewrite fmap_app, stake_utxo_app, Hinv. simpl. by rewrite Hs.
Qed.

Lemma staked_range c : staked c -> in_range U128 (c_stake c) = true.
Proof. intros Hi%staked_inv. by eapply stake_utxo_range, Hi. Qed.

End stake_updates.

(** Slashing can raise the stake: the percentage is computed in [f64], which
    rounds a stake of [2 ^ 54 - 1] up, so a full slash takes more than there is.
    A build without overflow checks ends with the largest [u128], one with
    checks panics; the same happens for any percentage above 100. *)
Lemma slash_underflow :
  @slash_calculator Toy.release StakeError 100 (2 ^ 54 - 1) = Ok (2 ^ 128 - 1)%Z /\
  @slash_calculator Toy.dev StakeError 100 (2 ^ 54 - 1) = Panic /\
  @slash_calculator Toy.release StakeError 200 10000 = Ok (2 ^ 128 - 10000)%Z /\
  @slash_calculator Toy.release StakeError 10 10000 = Ok 9000%Z.
Proof. vm_compute. split_and!; reflexivity. Qed.

Section witnesses.
Import Toy Sample.
#[local] Existing Instance release.

#[export] Instance toy_addrs : SocketAddrs := {|
  SocketAddr := string;
  sockaddr_to_string := fun s => s;
|}.

Definition claim_of (key : SecretKey) (addr : Address) (ip : SocketAddr) (node : string)
    : Claim :=
  {| c_public_key := pk_of_sk key; c_address := addr; c_hash := claim_hash (pk_of_sk key) ip;
     c_eligibility := EligNone; c_ip_address := ip;
     c_signature := sig_to_string
       (sign_ecdsa (claim_message (claim_hash (pk_of_sk key) ip)) key);
     c_node_id := node; c_stake := 0; c_stake_txns := [] |}.

Definition ip_alice : SocketAddr := "10.0.0.1:8080".
Definition ip_bob : SocketAddr := "10.0.0.2:8080".
Definition bob_sk : SecretKey := x02.
Definition alice_claim : Claim := claim_of alice_sk alice ip_alice "node-1".
Definition bob_claim : Claim := claim_of bob_sk bob ip_bob "node-2".

Definition certified_stake (from : Address) (to : option Address) (u : StakeUpdate) : Stake :=
  mk_Stake x01 from to u 1700000000 [] [] (Some (replicate 96 x00, [])).

Lemma alice_staked : staked alice_claim.
Proof.
  apply (staked_new (pk_of_sk alice_sk) alice ip_alice (c_signature alice_claim) "node-1").
  vm_compute. reflexivity.
Qed.


End witnesses.
