(* ===== verification/Reward.v ===== *)
(** * Block rewards: [crates/consensus/reward/src/reward.rs] *)

From S2P Require Import Prelude ToyModel.

Definition BASELINE_REWARD : Z := 20.
Definition MIN_BASELINE_REWARD : Z := 15.
Definition MAX_BASELINE_REWARD : Z := 25.
Definition NUMBER_OF_BLOCKS_PER_EPOCH : Z := 30000000.
Definition GENESIS_REWARD : Z := 400000000.

Record Reward := mk_Reward {
  r_epoch : Z;
  r_next_epoch_block : Z;
  r_current_block : Z;
  r_miner : option string;
  r_amount : Z;
}.

#[export] Instance Reward_eq_dec : EqDecision Reward.
Proof. solve_decision. Defined.

Definition Reward_genesis (miner : option string) : Reward :=
  {| r_current_block := 0; r_epoch := 1;
     r_next_epoch_block := NUMBER_OF_BLOCKS_PER_EPOCH; r_miner := miner;
     r_amount := BASELINE_REWARD |}.

Definition Reward_default : Reward :=
  {| r_current_block := 0; r_epoch := 0;
     r_next_epoch_block := NUMBER_OF_BLOCKS_PER_EPOCH; r_miner := None;
     r_amount := BASELINE_REWARD |}.

Section reward.
Context `{!Profile} {E : Type}.

(** [self.amount as i128 + adjustment / BLOCKS as i128]; division truncates. *)
Definition adjusted_amount (amount adjustment : Z) : result E Z :=
  arith I128 (wrap I128 amount + Z.quot adjustment NUMBER_OF_BLOCKS_PER_EPOCH).

Definition generate_next_reward (r : Reward) (adjustment : Z) : result E Reward :=
  next ← arith U128 (r_current_block r + 1);
  if (next mod NUMBER_OF_BLOCKS_PER_EPOCH =? 0)%Z then
    nr_epoch ← arith U128 (r_epoch r + 1);
    nr_next_epoch_block ← arith U128 (r_next_epoch_block r + NUMBER_OF_BLOCKS_PER_EPOCH);
    amount ← adjusted_amount (r_amount r) adjustment;
    let nr_amount := wrap U128 amount in
    let nr_amount :=
      if (nr_amount <? MIN_BASELINE_REWARD)%Z then MIN_BASELINE_REWARD
      else if (MAX_BASELINE_REWARD <? nr_amount)%Z then MAX_BASELINE_REWARD
      else nr_amount in
    Ok {| r_current_block := r_current_block r; r_epoch := nr_epoch;
          r_next_epoch_block := nr_next_epoch_block; r_miner := None;
          r_amount := nr_amount |}
  else Ok r.

Definition reset (r : Reward) : Reward :=
  {| r_current_block := r_current_block r; r_epoch := r_epoch r;
     r_next_epoch_block := r_next_epoch_block r; r_miner := r_miner r;
     r_amount := BASELINE_REWARD |}.

Definition new_epoch (r : Reward) (adjustment : Z) : result E Reward :=
  epoch ← arith U128 (r_epoch r + 1);
  next_epoch_block ← arith U128 (r_next_epoch_block r + NUMBER_OF_BLOCKS_PER_EPOCH);
  amount ← adjusted_amount (r_amount r) adjustment;
  Ok {| r_current_block := r_current_block r; r_epoch := epoch;
        r_next_epoch_block := next_epoch_block; r_miner := r_miner r;
        r_amount :=
          if (amount <=? 0)%Z then MIN_BASELINE_REWARD
          else if (MAX_BASELINE_REWARD <=? amount)%Z then MAX_BASELINE_REWARD
          else wrap U128 amount |}.

Definition valid_reward (r : Reward) : bool :=
  (MIN_BASELINE_REWARD <=? r_amount r)%Z || (r_amount r <=? MAX_BASELINE_REWARD)%Z.

Definition reward_bounded (r : Reward) : Prop :=
  (MIN_BASELINE_REWARD <= r_amount r <= MAX_BASELINE_REWARD)%Z.

(** The amount of a block reward stays between the two baselines however
    the reward is adjusted, and outside an epoch boundary the reward does not
    change at all. *)
Lemma next_reward_bounded (r r' : Reward) (adjustment : Z) :
  reward_bounded r -> generate_next_reward r adjustment = Ok r' ->
  reward_bounded r' /\
  (in_range U128 (r_current_block r + 1) = true ->
   ((r_current_block r + 1) mod NUMBER_OF_BLOCKS_PER_EPOCH <> 0)%Z -> r' = r).
Proof.
  intros Hb. unfold generate_next_reward.
  rewrite result_bind_Ok. intros (next & Hn & Hr).
  destruct (Z.eqb_spec (next mod NUMBER_OF_BLOCKS_PER_EPOCH) 0) as [Hm|Hm].
  - repeat (rewrite result_bind_Ok in Hr; destruct Hr as (? & ? & Hr)).
    injection Hr as <-. split.
    + unfold reward_bounded, MIN_BASELINE_REWARD, MAX_BASELINE_REWARD. simpl.
      repeat case_match; bool_facts; lia.
    + intros Hin. rewrite (arith_ok _ _ Hin) in Hn. injection Hn as <-. done.
  - injection Hr as <-. split; [done|]. done.
Qed.

(** A downward adjustment that would take the amount below zero gives the
    maximal reward instead of the minimal one: the negative sum is cast to
    [u128] before it is clamped. *)
Lemma next_reward_negative_is_max (r : Reward) (adjustment : Z) :
  in_range U128 (r_current_block r + 1) = true ->
  ((r_current_block r + 1) mod NUMBER_OF_BLOCKS_PER_EPOCH = 0)%Z ->
  in_range U128 (r_epoch r + 1) = true ->
  in_range U128 (r_next_epoch_block r + NUMBER_OF_BLOCKS_PER_EPOCH) = true ->
  reward_bounded r -> in_range I128 adjustment = true ->
  (r_amount r + Z.quot adjustment NUMBER_OF_BLOCKS_PER_EPOCH < 0)%Z ->
  exists r', generate_next_reward r adjustment = Ok r' /\
    r_amount r' = MAX_BASELINE_REWARD.
Proof.
  intros Hn Hm He Hnb Hb Ha Hneg. unfold generate_next_reward, adjusted_amount.
  rewrite !(arith_ok U128) by done. simpl. rewrite Hm. simpl.
  set (q := Z.quot adjustment NUMBER_OF_BLOCKS_PER_EPOCH) in *.
  assert (Hq : (int_min I128 <= q < 0)%Z).
  { unfold reward_bounded, MIN_BASELINE_REWARD in Hb. subst q.
    unfold NUMBER_OF_BLOCKS_PER_EPOCH in *. split; [|lia].
    pose proof (Z.quot_rem adjustment 30000000 ltac:(lia)).
    pose proof (Z.rem_bound_abs adjustment 30000000 ltac:(lia)).
    range_lia. }
  unfold reward_bounded, MIN_BASELINE_REWARD, MAX_BASELINE_REWARD in Hb.
  rewrite (wrap_id I128) by range_lia.
  rewrite (arith_ok I128) by range_lia. simpl. eexists. split; [reflexivity|]. simpl.
  assert (Hw : wrap U128 (r_amount r + q) = (r_amount r + q + 2 ^ 128)%Z).
  { unfold wrap. simpl. rewrite <-(Z.mod_add _ 1) by done. apply Z.mod_small. range_lia. }
  rewrite Hw. unfold MIN_BASELINE_REWARD, MAX_BASELINE_REWARD.
  repeat case_match; bool_facts; range_lia.
Qed.

(** The range check joins its two bounds with "or" and so accepts every amount. *)
Lemma valid_reward_always r : valid_reward r = true.
Proof.
  unfold valid_reward, MIN_BASELINE_REWARD, MAX_BASELINE_REWARD.
  destruct (Z.leb_spec 15 (r_amount r)); [done|]. simpl. apply Z.leb_le. lia.
Qed.
End reward.

