(* ===== verification/Vrf.v ===== *)
(** * The verifiable random function: [crates/consensus/vrrb_vrf]

    The elliptic-curve VRF of the vrf crate and the ChaCha20 generator of
    rand_chacha are parameters; [VVRF] keeps a proof with the generator it seeds. *)

From S2P Require Import Prelude Primitives ToyModel.
From Stdlib Require Import Strings.Byte.

Class Ecvrf := {
  derive_public_key : bytes -> option bytes;
  vrf_prove : bytes -> bytes -> option bytes;
  proof_to_hash : bytes -> option bytes;
  vrf_verify : bytes -> bytes -> bytes -> option bytes;
  ChaCha20Rng : Type;
  rng_from_seed : bytes -> ChaCha20Rng;
  fill_bytes : nat -> ChaCha20Rng -> ChaCha20Rng * bytes;
}.

Class EcvrfLaws `{!Ecvrf} := {
  (* completeness of the VRF: an honest proof verifies to its own hash *)
  vrf_complete : forall sk m pi pk,
    vrf_prove sk m = Some pi -> derive_public_key sk = Some pk ->
    vrf_verify pk pi m = proof_to_hash pi;
  (* sizes of the SECP256K1_SHA256_TAI suite *)
  vrf_prove_length : forall sk m pi, vrf_prove sk m = Some pi -> length pi = 81;
  proof_to_hash_length : forall pi h, proof_to_hash pi = Some h -> length h = 32;
  fill_bytes_length : forall n r, length (fill_bytes n r).2 = n;
}.

Inductive InvalidVVRF :=
| InvalidProofError
| InvalidPubKeyError
| InvalidMessageError.

Section vvrf.
Context `{!Profile, !Ecvrf}.

Record VVRF := mk_VVRF {
  v_pubkey : bytes;
  v_message : bytes;
  v_proof : bytes;
  v_hash : bytes;
  v_rng : ChaCha20Rng;
}.

(** Copies [src] into a zeroed array of [n] bytes; an index past the end
    panics. *)
Definition copy_into {E} (n : nat) (src : bytes) : result E bytes :=
  if bool_decide (length src <= n) then Ok (src ++ replicate (n - length src) x00) else Panic.

Definition vvrf_generate_seed {E} (message sk : bytes) : result E (option (bytes * bytes)) :=
  match vrf_prove sk message with
  | Some pi =>
      match proof_to_hash pi with
      | Some hash =>
          proof_buff ← copy_into 81 pi;
          hash_buff ← copy_into 32 hash;
          Ok (Some (proof_buff, hash_buff))
      | None => Ok None
      end
  | None => Ok None
  end.

Definition VVRF_new {E} (message sk : bytes) : result E VVRF :=
  match derive_public_key sk with
  | None => Panic
  | Some pubkey =>
      seed ← vvrf_generate_seed message sk;
      match seed with
      | None => Panic
      | Some (proof, hash) =>
          Ok {| v_pubkey := pubkey; v_message := message; v_proof := proof;
                v_hash := hash; v_rng := rng_from_seed hash |}
      end
  end.

Definition verify_seed (v : VVRF) : result InvalidVVRF unit :=
  match vrf_verify (v_pubkey v) (v_proof v) (v_message v) with
  | Some beta =>
      if bool_decide (v_hash v <> beta) then Err InvalidProofError else Ok tt
  | None => Err InvalidProofError
  end.

Definition with_rng (r : ChaCha20Rng) (v : VVRF) : VVRF :=
  {| v_pubkey := v_pubkey v; v_message := v_message v; v_proof := v_proof v;
     v_hash := v_hash v; v_rng := r |}.

Definition draw (n : nat) (v : VVRF) : VVRF * Z :=
  let '(r, data) := fill_bytes n (v_rng v) in (with_rng r v, of_be_bytes data).

Definition generate_u8 : VVRF -> VVRF * Z := draw 1.
Definition generate_u16 : VVRF -> VVRF * Z := draw 2.
Definition generate_u32 : VVRF -> VVRF * Z := draw 4.
Definition generate_u64 : VVRF -> VVRF * Z := draw 8.
Definition generate_u128 : VVRF -> VVRF * Z := draw 16.

(** The generator is not asked: the bytes are the zeroed buffer. *)
Definition generate_usize (v : VVRF) : VVRF * Z := (v, of_be_bytes (replicate 8 x00)).

(** [a % b], which panics on a zero divisor in every build. *)
Definition rem {E} (a b : Z) : result E Z := if (b =? 0)%Z then Panic else Ok (a mod b)%Z.

(** [x % (max - min + 1) + min]. *)
Definition into_range {E} (t : int_ty) (min max x : Z) : result E Z :=
  d ← arith t (max - min);
  w ← arith t (d + 1);
  m ← rem x w;
  arith t (m + min).

(** [generate_u8_in_range] to [generate_u128_in_range], one body at five
    widths. *)
Definition generate_in_range {E} (t : int_ty) (n : nat) (min max : Z) (v : VVRF)
    : VVRF * result E Z :=
  let '(v', x) := draw n v in
  (v', num ← into_range t min max x; into_range t min max num).

Definition generate_usize_in_range {E} (min max : Z) (v : VVRF) : VVRF * result E Z :=
  (v, into_range Usize min max (of_be_bytes (replicate 8 x00))).

Lemma into_range_ok {E} t min max x :
  int_signed t = false -> in_range t min = true -> in_range t max = true ->
  (min <= max)%Z -> (max - min < int_max t)%Z -> (0 <= x)%Z ->
  @into_range E t min max x = Ok (x mod (max - min + 1) + min)%Z.
Proof.
  intros Hs Hmin Hmax Hle Hw Hx. unfold into_range, rem.
  assert (Hz : int_min t = 0%Z) by (unfold int_min; by rewrite Hs).
  bool_facts. rewrite Hz in *.
  rewrite (arith_ok t (max - min)) by (apply in_range_spec; lia). simpl.
  rewrite (arith_ok t (max - min + 1)) by (apply in_range_spec; lia). simpl.
  destruct (Z.eqb_spec (max - min + 1) 0); [lia|]. simpl.
  pose proof (Z.mod_pos_bound x (max - min + 1)).
  rewrite arith_ok by (apply in_range_spec; lia). done.
Qed.

Definition widths : list (int_ty * nat) :=
  [(U8, 1); (U16, 2); (U32, 4); (U64, 8); (U128, 16)].

Lemma widths_unsigned t n : (t, n) ∈ widths -> int_signed t = false.
Proof.
  unfold widths. rewrite !elem_of_cons, elem_of_nil. intros. by destruct_or!; simplify_eq.
Qed.

Lemma into_range_full {E} t n x :
  (t, n) ∈ widths -> @into_range E t 0 (int_max t) x = Panic.
Proof.
  unfold widths. rewrite !elem_of_cons, elem_of_nil. intros.
  unfold into_range, arith.
  by destruct_or!; simplify_eq; destruct overflow_checks.
Qed.

(** The range generators of every width return a number within the asked
    bounds, except that the full range of the type panics, in either build: its
    size does not fit the type and becomes zero or overflows. *)
Lemma generate_in_range_spec {E} (t : int_ty) (n : nat) (min max : Z) (v : VVRF) :
  (t, n) ∈ widths -> in_range t min = true -> in_range t max = true -> (min <= max)%Z ->
  (exists k, (@generate_in_range E t n min max v).2 = Ok k /\ (min <= k <= max)%Z) \/
  (min = 0%Z /\ max = int_max t /\ (@generate_in_range E t n min max v).2 = Panic).
Proof.
  intros Hin Hmin Hmax Hle. pose proof (widths_unsigned t n Hin) as Hs.
  assert (Hz : int_min t = 0%Z) by (unfold int_min; by rewrite Hs).
  unfold generate_in_range, draw. destruct (fill_bytes n (v_rng v)) as [r data].
  simpl. pose proof (of_be_bytes_range data) as Hx.
  destruct (decide (max - min < int_max t)%Z) as [Hw|Hw].
  - left. rewrite into_range_ok by (done || lia). simpl.
    set (x := of_be_bytes data) in *.
    pose proof (Z.mod_pos_bound x (max - min + 1)). bool_facts.
    rewrite into_range_ok by (done || (apply in_range_spec; lia) || lia).
    eexists. split; [reflexivity|].
    pose proof (Z.mod_pos_bound (x mod (max - min + 1) + min) (max - min + 1)). lia.
  - right. bool_facts. assert (min = 0%Z) as -> by lia.
    assert (max = int_max t) as -> by lia.
    split_and!; [done..|]. by rewrite (into_range_full t n).
Qed.

Lemma copy_into_exact {E} n b : length b = n -> @copy_into E n b = Ok b.
Proof.
  intros Hl. unfold copy_into. rewrite bool_decide_eq_true_2 by lia.
  by rewrite Hl, Nat.sub_diag, app_nil_r.
Qed.

Context `{!EcvrfLaws}.

(** A function built from a secret key verifies: whenever the curve library
    can prove and hash the message, [VVRF::new] returns (it does not panic) and
    [verify_seed] accepts what it returned. *)
Lemma vvrf_new_verifies {E} (message sk pk pi h : bytes) :
  derive_public_key sk = Some pk -> vrf_prove sk message = Some pi ->
  proof_to_hash pi = Some h ->
  exists v, @VVRF_new E message sk = Ok v /\ verify_seed v = Ok tt /\ v_hash v = h.
Proof.
  intros Hpk Hpi Hh. unfold VVRF_new, vvrf_generate_seed. rewrite Hpk, Hpi, Hh.
  rewrite !copy_into_exact by eauto using vrf_prove_length, proof_to_hash_length.
  eexists. split; [reflexivity|]. split; [|done].
  unfold verify_seed. simpl. rewrite (vrf_complete sk message pi pk), Hh by done.
  by rewrite bool_decide_eq_false_2 by auto.
Qed.
End vvrf.

(** ** Words

    A draw from the word list of parity_wordlist; there is none from an empty list. *)
Class WordList `{!Ecvrf} := choose_word : ChaCha20Rng -> ChaCha20Rng * option string.

(** The words are not blank and begin with a letter. *)
Class WordListLaws `{!Ecvrf, !WordList} := {
  choose_word_some : forall r, exists w, (choose_word r).2 = Some w;
  choose_word_letter : forall r w, (choose_word r).2 = Some w ->
    exists c w', w = String c w' /\ (97 <= Ascii.N_of_ascii c <= 122)%N;
}.

(** The characters of Unicode's [White_Space], in UTF-8. *)
Definition white_space : list (list N) :=
  [[9]; [10]; [11]; [12]; [13]; [32]; [194; 133]; [194; 160]; [225; 154; 128];
   [226; 128; 128]; [226; 128; 129]; [226; 128; 130]; [226; 128; 131]; [226; 128; 132];
   [226; 128; 133]; [226; 128; 134]; [226; 128; 135]; [226; 128; 136]; [226; 128; 137];
   [226; 128; 138]; [226; 128; 168]; [226; 128; 169]; [226; 128; 175]; [226; 129; 159];
   [227; 128; 128]]%N.

(** The text after the character [w], if it begins with it. *)
Fixpoint strip_char (w : list N) (s : string) : option string :=
  match w, s with
  | [], _ => Some s
  | b :: w', String c s' => if (b =? Ascii.N_of_ascii c)%N then strip_char w' s' else None
  | _ :: _, EmptyString => None
  end.

(** [str::trim_start]; no more characters are removed than there are bytes. *)
Fixpoint trim_with (fuel : nat) (s : string) : string :=
  match fuel with
  | O => s
  | S fuel =>
      match omap (fun w => strip_char w s) white_space with
      | s' :: _ => trim_with fuel s'
      | [] => s
      end
  end.

Definition trim_start (s : string) : string := trim_with (String.length s) s.

Section words.
Context `{!Ecvrf, !WordList}.

Definition generate_word {E} (v : VVRF) : result E string :=
  match (choose_word (v_rng v)).2 with
  | Some w => Ok (trim_start w)
  | None => Panic
  end.

(** [n] draws from a copy of the generator. *)
Fixpoint draw_words {E} (n : nat) (r : ChaCha20Rng) : result E (list string) :=
  match n with
  | O => Ok []
  | S n =>
      let '(r', w) := choose_word r in
      match w with
      | Some w => ws ← draw_words n r'; Ok (w :: ws)
      | None => Panic
      end
  end.

Definition generate_words {E} (n : nat) (v : VVRF) : result E (list string) := draw_words n (v_rng v).

Definition generate_phrase {E} (n : nat) (v : VVRF) : result E string :=
  ws ← draw_words n (v_rng v);
  Ok (trim_start (fold_left (fun acc word => acc +:+ " " +:+ word) ws EmptyString)).

Context `{!WordListLaws}.

Definition lower (s : string) : Prop :=
  exists c s', s = String c s' /\ (97 <= Ascii.N_of_ascii c <= 122)%N.

Lemma draw_words_ok {E} n r : exists ws, @draw_words E n r = Ok ws /\ length ws = n /\ Forall lower ws.
Proof.
  revert r. induction n as [|n IH]; intros r; simpl; [by exists []|].
  destruct (choose_word_some r) as [w Hw]. pose proof (choose_word_letter r w Hw).
  destruct (choose_word r) as [r' o]. simpl in *. subst o.
  destruct (IH r') as (ws & -> & Hl & Hf). exists (w :: ws).
  split_and!; [done|by rewrite <-Hl|by constructor].
Qed.

(** Asking for more words gives the same ones first: the generator never moves. *)
Lemma draw_words_prefix {E} n m r ws :
  n <= m -> @draw_words E m r = Ok ws -> @draw_words E n r = Ok (take n ws).
Proof.
  revert n r ws. induction m as [|m IH]; intros n r ws Hn; simpl.
  - intros [= <-]. by replace n with 0 by lia.
  - destruct (choose_word r) as [r' [w|]] eqn:Hc; [|done]. rewrite result_bind_Ok.
    intros (ws' & Hws & [= <-]). destruct n as [|n]; simpl; [done|].
    rewrite Hc, (IH n r' ws') by (done || lia). done.
Qed.

Lemma trim_letter s : lower s -> trim_start s = s.
Proof.
  intros (c & s' & -> & Hc). unfold trim_start. cbn [String.length trim_with].
  replace (omap _ white_space) with (@nil string); [done|]. symmetry.
  assert (forallb (fun w => match w with b :: _ => (b <? 97)%N || (122 <? b)%N | [] => false end)
    white_space = true) as Hw by reflexivity.
  revert Hw. induction white_space as [|[|b w] l IH]; [done..|]. cbn [forallb].
  rewrite andb_true_iff, orb_true_iff, !N.ltb_lt. intros [Hb Hl]. cbn [omap list_omap strip_char].
  destruct (N.eqb_spec b (Ascii.N_of_ascii c)); [lia|exact (IH Hl)].
Qed.

Lemma trim_space s : lower s -> trim_start (" " +:+ s) = s.
Proof.
  intros Hs.
  assert (omap (fun w => strip_char w (" " +:+ s)) white_space = [s]) as Hw by (vm_compute; reflexivity).
  unfold trim_start at 1. change (String.length (" " +:+ s)) with (S (String.length s)).
  cbn [trim_with]. rewrite Hw. exact (trim_letter s Hs).
Qed.

Definition spaced (ws : list string) : string :=
  fold_right (fun word rest => " " +:+ word +:+ rest) EmptyString ws.

Lemma str_app_assoc (a b c : string) : (a +:+ b) +:+ c = a +:+ b +:+ c.
Proof. induction a as [|x a IH]; [done|]. exact (f_equal (String x) IH). Qed.

Lemma spaced_words ws acc :
  fold_left (fun acc word => acc +:+ " " +:+ word) ws acc = acc +:+ spaced ws.
Proof.
  revert acc. induction ws as [|w ws IH]; intros acc; simpl.
  - induction acc as [|x acc IH]; [done|]. exact (f_equal (String x) IH).
  - rewrite IH, str_app_assoc. done.
Qed.

Lemma spaced_concat w ws : spaced (w :: ws) = " " +:+ String.concat " " (w :: ws).
Proof.
  revert w. induction ws as [|w' ws IH]; intros w.
  - exact (f_equal (String.append " ") (eq_sym (spaced_words [] w))).
  - change (spaced (w :: w' :: ws)) with (" " +:+ w +:+ spaced (w' :: ws)). rewrite IH. done.
Qed.

(** The words are the first ones of the generator, whatever was asked before, and a
    phrase has them separated by single spaces. *)
Lemma generate_phrase_spec {E} n m v : n <= m ->
  exists ws, @generate_words E m v = Ok ws /\ length ws = m /\
    @generate_words E n v = Ok (take n ws) /\
    @generate_phrase E n v = Ok (String.concat " " (take n ws)).
Proof.
  intros Hn. destruct (@draw_words_ok E m (v_rng v)) as (ws & Hws & Hl & Hf).
  exists ws. unfold generate_words, generate_phrase. rewrite (draw_words_prefix n m _ ws Hn Hws).
  split_and!; [done..|]. cbn. f_equal. rewrite spaced_words.
  destruct (take n ws) as [|w l] eqn:Ht; [done|]. rewrite spaced_concat. apply trim_space.
  apply (Forall_take _ n) in Hf. rewrite Ht in Hf. apply Forall_cons in Hf as [(c & w' & -> & Hc) _].
  destruct l as [|w2 l]; simpl; by eexists _, _.
Qed.
End words.

Section witnesses.
#[local] Existing Instance Toy.release.

(** A toy suite: the proof is the padded message, the generator a counter. *)
#[export] Instance toy_ecvrf : Ecvrf := {|
  derive_public_key := fun sk => Some sk;
  vrf_prove := fun sk m => Some (be_bytes 81 (of_be_bytes m));
  proof_to_hash := fun pi => Some (be_bytes 32 (of_be_bytes pi));
  vrf_verify := fun pk pi m => Some (be_bytes 32 (of_be_bytes pi));
  ChaCha20Rng := Z;
  rng_from_seed := of_be_bytes;
  fill_bytes := fun n r => ((r * 6364136223846793005 + 1442695040888963407)%Z, be_bytes n r);
|}.

#[export] Instance toy_ecvrf_laws : EcvrfLaws.
Proof.
  split; simpl.
  - done.
  - intros ? ? ? [= <-]. apply length_be_bytes.
  - intros ? ? [= <-]. apply length_be_bytes.
  - intros. apply length_be_bytes.
Qed.

#[export] Instance toy_words : WordList := fun r => ((r + 1)%Z, Some "abacus").

#[export] Instance toy_words_laws : WordListLaws.
Proof. split; [by eexists|]. intros r w [= <-]. by eexists _, _. Qed.

End witnesses.
