(* ===== verification/Blocks.v ===== *)
(** * Blocks: [crates/block]

    Headers, proposal, convergence and genesis blocks, and the validation data
    the DAG reads from them. *)

From S2P Require Import Prelude Floats Primitives Keypair Transactions ToyModel Staking Claim.
From S2P Require Import Reward Vrf.
From Stdlib Require Import Strings.Byte.

(** [format!] with [{:?}], used by [create_payload!]. *)
Class ToDebug (A : Type) := to_debug : A -> string.

Inductive SignatureType :=
| PartialSignature
| ThresholdSignature
| ChainLockSignature.

Inductive FromHexError :=
| InvalidHexCharacter
| InvalidStringLength.

Definition SIG_SIZE : nat := 96.

Section blocks.
Context `{!Profile, !Hashing, !Secp256k1, !ValidatorKeys, !SocketAddrs, !Ecvrf}.
Context `{!ToJson string, !ToJson (list string), !ToJson Z}.
Context `{!ToDebug string, !ToDebug (list string), !ToDebug Z, !ToDebug Claim, !ToDebug Reward}.

Record BlockHeader := mk_BlockHeader {
  h_ref_hashes : list string;
  h_epoch : Z;
  h_round : Z;
  h_block_seed : Z;
  h_next_block_seed : Z;
  h_block_height : Z;
  h_timestamp : Z;
  h_txn_hash : string;
  h_miner_claim : Claim;
  h_claim_list_hash : string;
  h_block_reward : Reward;
  h_next_block_reward : Reward;
  h_miner_signature : string;
}.

Record Certificate := mk_Certificate {
  cert_signature : string;
  cert_inauguration : option (list (string * string));
  cert_root_hash : string;
  cert_next_root_hash : string;
  cert_block_hash : string;
}.

Record ConvergenceBlock := mk_ConvergenceBlock {
  cb_header : BlockHeader;
  cb_txns : list (string * list TransactionDigest);
  cb_claims : list (string * list Z);
  cb_hash : string;
  cb_certificate : option Certificate;
}.

Record ProposalBlock := mk_ProposalBlock {
  pb_ref_block : string;
  pb_round : Z;
  pb_epoch : Z;
  pb_txns : list (TransactionDigest * QuorumCertifiedTxn);
  pb_claims : list (Z * Claim);
  pb_from : Claim;
  pb_hash : string;
  pb_signature : string;
}.

Record GenesisBlock := mk_GenesisBlock {
  gb_header : BlockHeader;
  gb_txns : list (TransactionDigest * TransactionKind);
  gb_claims : list (Z * Claim);
  gb_hash : string;
  gb_certificate : option Certificate;
}.

Inductive Block :=
| Convergence (block : ConvergenceBlock)
| Proposal (block : ProposalBlock)
| Genesis (block : GenesisBlock).

Definition is_convergence (b : Block) : bool :=
  match b with Convergence _ => true | _ => false end.
Definition is_proposal (b : Block) : bool :=
  match b with Proposal _ => true | _ => false end.
Definition is_genesis (b : Block) : bool :=
  match b with Genesis _ => true | _ => false end.

(** The hash a block is stored under in the DAG. *)
Definition block_hash (b : Block) : string :=
  match b with
  | Convergence block => cb_hash block
  | Proposal block => pb_hash block
  | Genesis block => gb_hash block
  end.

(** ** Headers *)

(** [utils::create_payload!]: SHA-256 of the concatenated [Debug] texts. *)
Definition create_payload (items : list string) : bytes :=
  sha256 (str_bytes (foldr String.append EmptyString items)).

Definition header_payload (ref_hashes : list string)
    (round epoch block_seed next_block_seed block_height timestamp : Z)
    (txn_hash : string) (miner_claim : Claim) (claim_list_hash : string)
    (block_reward next_block_reward : Reward) : bytes :=
  create_payload
    [to_debug ref_hashes; to_debug round; to_debug epoch; to_debug block_seed;
     to_debug next_block_seed; to_debug block_height; to_debug timestamp;
     to_debug txn_hash; to_debug miner_claim; to_debug claim_list_hash;
     to_debug block_reward; to_debug next_block_reward].

Definition BlockHeader_genesis {E} (now seed round epoch : Z) (miner_claim : Claim)
    (secret_key : SecretKey) (claim_list_hash : string) : result E BlockHeader :=
  let ref_hashes := [hex_encode (hash_data [to_json "Genesis_Ref_hash"])] in
  let ref_hashes_hash := hex_encode (hash_data [to_json ref_hashes]) in
  let genesis_last_hash := hex_encode (hash_data [to_json "Genesis_Last_Hash"]) in
  let message :=
    str_bytes (hex_encode (hash_data [to_json ref_hashes_hash; to_json genesis_last_hash])) in
  vrf ← VVRF_new message (sk_bytes secret_key);
  next_block_seed ← (generate_in_range U64 8 (int_max U32) (int_max U64) vrf).2;
  let txn_hash := hex_encode (hash_data [to_json "Genesis_Txn_Hash"]) in
  let block_reward :=
    Reward_genesis (Some (Address_to_string (c_address miner_claim))) in
  let next_block_reward := Reward_default in
  let payload :=
    header_payload ref_hashes round epoch seed next_block_seed 0 now txn_hash miner_claim
      claim_list_hash block_reward next_block_reward in
  Ok {| h_ref_hashes := ref_hashes; h_round := round; h_epoch := epoch;
        h_block_seed := 0; h_next_block_seed := next_block_seed; h_block_height := 0;
        h_timestamp := now; h_txn_hash := txn_hash; h_miner_claim := miner_claim;
        h_claim_list_hash := claim_list_hash; h_block_reward := block_reward;
        h_next_block_reward := next_block_reward;
        h_miner_signature := sig_to_string (sign_message payload secret_key) |}.

(** [InnerBlock]: the header and hash of a convergence or genesis block. *)
Definition inner_block (b : Block) : option (BlockHeader * string) :=
  match b with
  | Convergence block => Some (cb_header block, cb_hash block)
  | Genesis block => Some (gb_header block, gb_hash block)
  | Proposal _ => None
  end.

Definition with_current_block (n : Z) (r : Reward) : Reward :=
  mk_Reward (r_epoch r) (r_next_epoch_block r) n (r_miner r) (r_amount r).

Definition with_miner (m : option string) (r : Reward) : Reward :=
  mk_Reward (r_epoch r) (r_next_epoch_block r) (r_current_block r) m (r_amount r).

Definition BlockHeader_new {E} (now : Z) (last_block : Block) (ref_hashes : list string)
    (miner_claim : Claim) (secret_key : SecretKey) (txn_hash claim_list_hash : string)
    (adjustment_next_epoch : Z) : result E (option BlockHeader) :=
  match inner_block last_block with
  | None => Ok None
  | Some (last_header, last_hash) =>
      let block_seed := h_next_block_seed last_header in
      block_height ← arith U128 (h_block_height last_header + 1);
      let message :=
        str_bytes (hex_encode (hash_data [to_json last_hash; to_json ref_hashes])) in
      vrf ← VVRF_new message (sk_bytes secret_key);
      next_block_seed ← (generate_in_range U64 8 (int_max U32) (int_max U64) vrf).2;
      let block_reward := with_current_block block_height (h_next_block_reward last_header) in
      next_block_reward ← generate_next_reward block_reward adjustment_next_epoch;
      let block_reward :=
        with_miner (Some (Address_to_string (c_address miner_claim))) block_reward in
      let epoch := h_epoch last_header in
      round ← arith U128 (h_round last_header + 1);
      let payload :=
        header_payload ref_hashes round epoch block_seed next_block_seed block_height now
          txn_hash miner_claim claim_list_hash block_reward next_block_reward in
      Ok (Some {| h_ref_hashes := ref_hashes; h_round := round; h_epoch := epoch;
                  h_block_seed := block_seed; h_next_block_seed := next_block_seed;
                  h_block_height := block_height; h_timestamp := now;
                  h_txn_hash := txn_hash; h_miner_claim := miner_claim;
                  h_claim_list_hash := claim_list_hash; h_block_reward := block_reward;
                  h_next_block_reward := next_block_reward;
                  h_miner_signature := sig_to_string (sign_message payload secret_key) |})
  end.

(** [BlockHeader::get_payload]. *)
Definition get_payload (h : BlockHeader) : bytes :=
  create_payload
    [to_debug (h_ref_hashes h); to_debug (h_block_seed h); to_debug (h_next_block_seed h);
     to_debug (h_block_height h); to_debug (h_timestamp h); to_debug (h_txn_hash h);
     to_debug (h_miner_claim h); to_debug (h_claim_list_hash h);
     to_debug (h_block_reward h); to_debug (h_next_block_reward h);
     to_debug (h_miner_signature h)].

(** ** Proposal blocks *)

Context `{!ToJson (list (string * QuorumCertifiedTxn)), !ToJson (list (Z * Claim)), !ToJson Claim}.

Definition hashable_txns (txns : list (TransactionDigest * QuorumCertifiedTxn))
    : list (string * QuorumCertifiedTxn) :=
  map (fun p => (digest_string p.1, p.2)) txns.

Definition ProposalBlock_build (ref_block : string) (round epoch : Z)
    (txns : list (TransactionDigest * QuorumCertifiedTxn)) (claims : list (Z * Claim))
    (from : Claim) (secret_key : SecretKey) : ProposalBlock :=
  let items := [to_json round; to_json epoch; to_json (hashable_txns txns);
                to_json claims; to_json from] in
  let payload := hash_data items in
  let signature :=
    match ecdsa_sign payload (sk_bytes secret_key) with
    | Ok signature => signature
    | _ => "Invalid"
    end in
  let hash := hex_encode (hash_data (items ++ [to_json signature])) in
  {| pb_ref_block := ref_block; pb_round := round; pb_epoch := epoch; pb_txns := txns;
     pb_claims := claims; pb_hash := hash; pb_from := from; pb_signature := signature |}.

Definition is_current_round (b : ProposalBlock) (round : Z) : bool :=
  (pb_round b =? round)%Z.

Definition decode_signature_share (b : ProposalBlock) : result FromHexError bytes :=
  match hex_decode (pb_signature b) with
  | None => Err InvalidHexCharacter
  | Some byte_vec =>
      if bool_decide (length byte_vec <> SIG_SIZE) then Err InvalidStringLength
      else Ok byte_vec
  end.

Definition cb_txn_id_set (b : ConvergenceBlock) : gset TransactionDigest :=
  list_to_set (concat (map snd (cb_txns b))).

Definition pb_txn_id_set (b : ProposalBlock) : gset TransactionDigest :=
  list_to_set (map fst (pb_txns b)).

Definition set_pb_txns (txns : list (TransactionDigest * QuorumCertifiedTxn))
    (b : ProposalBlock) : ProposalBlock :=
  {| pb_ref_block := pb_ref_block b; pb_round := pb_round b; pb_epoch := pb_epoch b;
     pb_txns := txns; pb_claims := pb_claims b; pb_from := pb_from b;
     pb_hash := pb_hash b; pb_signature := pb_signature b |}.

Definition remove_confirmed_txs (prev_blocks : list ConvergenceBlock) (b : ProposalBlock)
    : ProposalBlock :=
  let prev_block_set := ⋃ (map cb_txn_id_set prev_blocks) in
  let curr_set := pb_txn_id_set b in
  let prev_confirmed := curr_set ∩ prev_block_set in
  set_pb_txns (filter (fun p => p.1 ∈ prev_confirmed) (pb_txns b)) b.

Definition append_certificate (cert : Certificate) (b : ConvergenceBlock) : ConvergenceBlock :=
  {| cb_header := cb_header b; cb_txns := cb_txns b; cb_claims := cb_claims b;
     cb_hash := cb_hash b; cb_certificate := Some cert |}.

(** ** Validation data *)

Record BlockValidationData := mk_BlockValidationData {
  bv_node_idx : option Z;
  bv_payload_hash : bytes;
  bv_signature : bytes;
  bv_signature_type : SignatureType;
}.

Definition certificate_signature (cert : option Certificate) : result FromHexError bytes :=
  match cert with
  | Some cert => ok_or (hex_decode (cert_signature cert)) InvalidHexCharacter
  | None => Err InvalidStringLength
  end.

(** The trait of blocks that can be validated; the defaults of [get_payload_hash]
    and [get_node_idx] are an empty vector and no index. *)
Class Valid (B : Type) := {
  get_signature_type : B -> SignatureType;
  get_payload_hash : B -> bytes;
  get_raw_signature : B -> result FromHexError bytes;
  get_node_idx : B -> option Z;
}.

Definition get_validation_data `{!Valid B} (b : B) : result FromHexError BlockValidationData :=
  signature ← get_raw_signature b;
  Ok {| bv_node_idx := get_node_idx b; bv_payload_hash := get_payload_hash b;
        bv_signature := signature; bv_signature_type := get_signature_type b |}.

#[export] Instance GenesisBlock_Valid : Valid GenesisBlock := {|
  get_signature_type := fun _ => ThresholdSignature;
  get_payload_hash := fun _ => [];
  get_raw_signature := fun b => certificate_signature (gb_certificate b);
  get_node_idx := fun _ => None;
|}.

#[export] Instance ProposalBlock_Valid : Valid ProposalBlock := {|
  get_signature_type := fun _ => PartialSignature;
  get_payload_hash := fun b =>
    hash_data [to_json (pb_round b); to_json (pb_epoch b);
               to_json (hashable_txns (pb_txns b)); to_json (pb_claims b);
               to_json (pb_from b)];
  get_raw_signature := decode_signature_share;
  get_node_idx := fun _ => None;
|}.

#[export] Instance ConvergenceBlock_Valid : Valid ConvergenceBlock := {|
  get_signature_type := fun _ => ThresholdSignature;
  get_payload_hash := fun _ => [];
  get_raw_signature := fun b => certificate_signature (cb_certificate b);
  get_node_idx := fun _ => None;
|}.
End blocks.
