(* ===== verification/BlockProofs.v ===== *)
(** * Properties of blocks and of the header chain *)

From S2P Require Import Prelude Floats Primitives Keypair Transactions ToyModel Staking Claim.
From S2P Require Import Reward Vrf Blocks TransactionProofs.
From Stdlib Require Import Strings.Byte.

Section header_chain.
Context `{!Profile, !Hashing, !Secp256k1, !ValidatorKeys, !SocketAddrs, !Ecvrf}.
Context `{!ToJson string, !ToJson (list string), !ToJson Z}.
Context `{!ToDebug string, !ToDebug (list string), !ToDebug Z, !ToDebug Claim, !ToDebug Reward}.
Context {E : Type}.

(** What every header of the chain satisfies: its next seed is a [u64] no
    smaller than [u32::MAX], and the next reward is between the baselines. *)
Definition header_wf (h : BlockHeader) : Prop :=
  (int_max U32 <= h_next_block_seed h <= int_max U64)%Z /\
  reward_bounded (h_next_block_reward h).

Lemma next_seed_range (vrf : VVRF) s :
  (@generate_in_range _ _ E U64 8 (int_max U32) (int_max U64) vrf).2 = Ok s ->
  (int_max U32 <= s <= int_max U64)%Z.
Proof.
  unfold generate_in_range, draw. destruct (fill_bytes 8 (v_rng vrf)) as [r data]. simpl.
  pose proof (of_be_bytes_range data) as Hx.
  rewrite into_range_ok by (done || range_lia). simpl.
  set (x := of_be_bytes data) in *. set (w := (int_max U64 - int_max U32 + 1)%Z).
  pose proof (Z.mod_pos_bound x w ltac:(by compute)).
  rewrite into_range_ok by (done || (subst w; range_lia)). fold w.
  pose proof (Z.mod_pos_bound (x mod w + int_max U32) w ltac:(by compute)).
  intros [= <-]. subst w. range_lia.
Qed.

Lemma next_reward_bounded' (r r' : Reward) adj :
  reward_bounded r -> @generate_next_reward _ E r adj = Ok r' -> reward_bounded r'.
Proof.
  intros Hb. unfold generate_next_reward. rewrite result_bind_Ok. intros (n & _ & Hr).
  destruct (_ =? 0)%Z; [|by injection Hr as <-].
  repeat (rewrite result_bind_Ok in Hr; destruct Hr as (? & ? & Hr)).
  injection Hr as <-. unfold reward_bounded, MIN_BASELINE_REWARD, MAX_BASELINE_REWARD. simpl.
  repeat case_match; bool_facts; lia.
Qed.

Lemma header_new_spec now last refs claim sk th ch adj h :
  @BlockHeader_new _ _ _ _ _ _ _ _ _ _ _ _ E now last refs claim sk th ch adj = Ok (Some h) ->
  exists lh hash, inner_block last = Some (lh, hash) /\
    @arith _ E U128 (h_block_height lh + 1) = Ok (h_block_height h) /\
    @arith _ E U128 (h_round lh + 1) = Ok (h_round h) /\
    h_block_seed h = h_next_block_seed lh /\ h_epoch h = h_epoch lh /\
    (int_max U32 <= h_next_block_seed h <= int_max U64)%Z /\
    r_amount (h_block_reward h) = r_amount (h_next_block_reward lh) /\
    (reward_bounded (h_next_block_reward lh) -> reward_bounded (h_next_block_reward h)).
Proof.
  unfold BlockHeader_new. destruct (inner_block last) as [[lh hash]|]; [|done].
  rewrite result_bind_Ok. intros (height & Hh & Hr).
  rewrite result_bind_Ok in Hr. destruct Hr as (vrf & _ & Hr).
  rewrite result_bind_Ok in Hr. destruct Hr as (seed & Hs & Hr).
  rewrite result_bind_Ok in Hr. destruct Hr as (nr & Hnr & Hr).
  rewrite result_bind_Ok in Hr. destruct Hr as (round & Hround & Hr).
  injection Hr as <-. exists lh, hash. simpl. apply next_seed_range in Hs.
  split_and!; auto; try lia. intros Hb. by eapply next_reward_bounded', Hnr.
Qed.

(** [h] was made on top of a block with header [last], with any arguments. *)
Inductive mined_on : BlockHeader -> BlockHeader -> Prop :=
| mined_on_intro now last hash lh refs claim sk th ch adj h :
    inner_block last = Some (lh, hash) ->
    @BlockHeader_new _ _ _ _ _ _ _ _ _ _ _ _ E now last refs claim sk th ch adj = Ok (Some h) ->
    mined_on lh h.

Lemma mined_on_wf lh h :
  mined_on lh h -> header_wf lh ->
  header_wf h /\ h_epoch h = h_epoch lh /\ h_block_seed h = h_next_block_seed lh /\
  ((0 <= h_block_height lh < int_max U128)%Z -> h_block_height h = (h_block_height lh + 1)%Z) /\
  ((0 <= h_round lh < int_max U128)%Z -> h_round h = (h_round lh + 1)%Z).
Proof.
  intros Hm [Hs Hr]. destruct Hm as [now last hash lh' refs claim sk th ch adj h Hi Hn].
  apply header_new_spec in Hn as (lh2 & hash2 & Hi2 & Hh & Hrd & Hbs & He & Hseed & _ & Hrw).
  rewrite Hi in Hi2. injection Hi2 as -> ->.
  split; [split; auto|]. split_and!; [done|done|..].
  - intros Hlt. rewrite arith_ok in Hh by range_lia. by injection Hh.
  - intros Hlt. rewrite arith_ok in Hrd by range_lia. by injection Hrd.
Qed.

(** C11. Along any chain of headers mined one on top of the other, starting from
    a well-formed header, every header is well formed (seed range, reward
    bounds), height and round advance by exactly one per block, and the epoch
    of the first header is never left, although the rewards count epochs on. *)
Theorem header_chain_invariant (h0 h : BlockHeader) (n : nat) :
  header_wf h0 -> nsteps mined_on n h0 h ->
  (0 <= h_block_height h0)%Z -> (0 <= h_round h0)%Z ->
  (h_block_height h0 + Z.of_nat n <= int_max U128)%Z ->
  (h_round h0 + Z.of_nat n <= int_max U128)%Z ->
  header_wf h /\ h_block_height h = (h_block_height h0 + Z.of_nat n)%Z /\
  h_round h = (h_round h0 + Z.of_nat n)%Z /\ h_epoch h = h_epoch h0.
Proof.
  intros Hwf Hsteps. revert Hwf.
  induction Hsteps as [h0|n h0 h1 h2 Hm Hs IH]; intros Hwf Hh Hr Hbh Hbr.
  - split_and!; (done || lia).
  - destruct (mined_on_wf h0 h1 Hm Hwf) as (Hwf1 & He & _ & Hh1 & Hr1).
    rewrite <-He, (Nat2Z.inj_succ n). specialize (Hh1 ltac:(lia)). specialize (Hr1 ltac:(lia)).
    destruct IH as (? & ? & ? & ?); [done|lia..|].
    split_and!; (done || lia).
Qed.
End header_chain.

Section proposals.
Context `{!Profile, !Hashing, !Secp256k1, !ValidatorKeys, !SocketAddrs, !Ecvrf}.
Context `{!ToJson string, !ToJson (list string), !ToJson Z}.
Context `{!ToJson (list (string * QuorumCertifiedTxn)), !ToJson (list (Z * Claim)), !ToJson Claim}.

(** [remove_confirmed_txs] keeps what it should remove: after the call the
    proposal holds exactly those of its transactions that an earlier
    convergence block has confirmed already. *)
Lemma remove_confirmed_inverted (prev : list ConvergenceBlock) (b : ProposalBlock)
    (d : TransactionDigest) (t : QuorumCertifiedTxn) :
  (d, t) ∈ pb_txns (remove_confirmed_txs prev b) <->
  (d, t) ∈ pb_txns b /\ exists c, c ∈ prev /\ d ∈ cb_txn_id_set c.
Proof.
  unfold remove_confirmed_txs. simpl. rewrite list_elem_of_filter. simpl.
  rewrite elem_of_intersection, elem_of_union_list. unfold pb_txn_id_set.
  rewrite elem_of_list_to_set. split.
  - intros [[_ (X & [c [-> Hc]]%list_elem_of_fmap & HX)] Hin]. eauto.
  - intros [Hin (c & Hc & Hd)]. split; [|done]. split.
    + apply list_elem_of_fmap. by exists (d, t).
    + exists (cb_txn_id_set c). split; [|done]. apply list_elem_of_fmap. eauto.
Qed.

Context `{!HashingLaws, !Secp256k1Laws}.

(** No proposal block the node builds itself passes validation: the builder
    signs with ECDSA (72 bytes at most), the reader wants a 96-byte threshold
    signature share. *)
Lemma built_proposal_never_validates (ref_block : string) (round epoch : Z)
    (txns : list (TransactionDigest * QuorumCertifiedTxn)) (claims : list (Z * Claim))
    (from : Claim) (sk : SecretKey) :
  is_err (get_validation_data (ProposalBlock_build ref_block round epoch txns claims from sk))
    = true.
Proof.
  unfold get_validation_data. simpl. unfold decode_signature_share. simpl.
  unfold ecdsa_sign. rewrite sk_from_slice_bytes.
  match goal with |- context [sign_ecdsa ?m sk] => set (msg := m) end.
  destruct (hex_decode _) as [b|] eqn:Hd; [|done].
  apply hex_decode_length in Hd.
  pose proof (sig_to_string_length (sha256 msg) sk (sha256_length msg)) as Hl.
  unfold sign_ecdsa in Hd. rewrite bool_decide_eq_true_2; [done|].
  unfold SIG_SIZE. lia.
Qed.
End proposals.

(** ** Concrete blocks *)

Module ToyBlocks.
Import Toy Sample.
#[export] Existing Instance release.
#[export] Existing Instance toy_addrs.
#[export] Existing Instance toy_ecvrf.

#[export] Instance json_strings : ToJson (list string) := fun l => concat (map str_bytes l).
#[export] Instance json_claim : ToJson Claim := fun c => be_bytes 32 (c_hash c).
#[export] Instance json_claims : ToJson (list (Z * Claim)) := fun l =>
  concat (map (fun p => be_bytes 32 p.1) l).
#[export] Instance json_txns : ToJson (list (string * QuorumCertifiedTxn)) := fun l =>
  concat (map (fun p => str_bytes p.1) l).
#[export] Instance debug_string : ToDebug string := fun s => s.
#[export] Instance debug_strings : ToDebug (list string) := foldr String.append EmptyString.
#[export] Instance debug_Z : ToDebug Z := fun z => hex (be_bytes 16 z).
#[export] Instance debug_claim : ToDebug Claim := fun c => c_node_id c.
#[export] Instance debug_reward : ToDebug Reward := fun r => hex (be_bytes 16 (r_amount r)).

Definition qc_txn_of (t : Transfer) : QuorumCertifiedTxn :=
  mk_QuorumCertifiedTxn [] [] (TransferKind t) [] true.

Definition header_or (r : result Empty_set (option BlockHeader)) (d : BlockHeader) : BlockHeader :=
  match r with Ok (Some h) => h | _ => d end.

Definition empty_header : BlockHeader :=
  mk_BlockHeader [] 0 0 0 4294967296 0 0 "t" alice_claim "c" Reward_default Reward_default "s".

Definition genesis_header : BlockHeader :=
  header_or (BlockHeader_genesis 1700000000 7 0 0 alice_claim alice_sk "claims"
               ≫= fun h => Ok (Some h)) empty_header.

Definition genesis_block : GenesisBlock :=
  mk_GenesisBlock genesis_header [(t_id transfer, TransferKind transfer)]
    [(c_hash alice_claim, alice_claim)] "genesis" None.

Definition first_header : BlockHeader :=
  header_or (BlockHeader_new 1700000010 (Genesis genesis_block) ["genesis"] bob_claim bob_sk
               "txns" "claims" 0) empty_header.

Definition convergence_block : ConvergenceBlock :=
  mk_ConvergenceBlock first_header [("p1", [t_id transfer])] [] "conv-1" None.

Definition other_transfer : Transfer := transfer_of bob alice 5 3.

Definition proposal : ProposalBlock :=
  ProposalBlock_build "genesis" 1 0
    [(t_id transfer, qc_txn_of transfer); (t_id other_transfer, qc_txn_of other_transfer)]
    [] alice_claim alice_sk.
End ToyBlocks.

Section witnesses.
Import Toy Sample ToyBlocks.

Lemma header_chain_invariant_witness :
  header_wf first_header /\
  h_block_height first_header = (h_block_height genesis_header + Z.of_nat 1)%Z /\
  h_round first_header = (h_round genesis_header + Z.of_nat 1)%Z /\
  h_epoch first_header = h_epoch genesis_header.
Proof.
  apply (header_chain_invariant (E := Empty_set) genesis_header first_header 1).
  - split; vm_compute; split; discriminate.
  - apply nsteps_once.
    apply (mined_on_intro 1700000010 (Genesis genesis_block) "genesis" genesis_header ["genesis"]
             bob_claim bob_sk "txns" "claims" 0 first_header); [reflexivity|].
    vm_cast_no_check (@eq_refl (result Empty_set (option BlockHeader)) (Ok (Some first_header))).
  - vm_compute. discriminate.
  - vm_compute. discriminate.
  - vm_compute. discriminate.
  - vm_compute. discriminate.
Defined.

End witnesses.
