(* ===== verification/Threshold.v ===== *)
(** * Threshold signatures: [crates/consensus/dkg_engine] and [crates/consensus/signer]

    The distributed key generation of a quorum and the partial and threshold
    signatures made with its keys. The hbbft crate, which holds the key
    generation and the cryptography, is a parameter. *)

From S2P Require Import Prelude Primitives Transactions ToyModel Blocks.
From Stdlib Require Import Strings.Byte.

(** ** The cryptography of hbbft *)

Class ThresholdCrypto := {
  PublicKeySet : Type;
  SecretKeyShare : Type;
  SignatureShare : Type;
  GroupSignature : Type;
  (* the index-th share of the group's public key, and the secret share under it *)
  share_verify : PublicKeySet -> Z -> SignatureShare -> bytes -> bool;
  group_verify : PublicKeySet -> GroupSignature -> bytes -> bool;
  share_sign : SecretKeyShare -> bytes -> SignatureShare;
  share_to_bytes : SignatureShare -> bytes;
  share_from_bytes : bytes -> option SignatureShare;
  group_to_bytes : GroupSignature -> bytes;
  group_from_bytes : bytes -> option GroupSignature;
  combine_signatures : PublicKeySet -> list (Z * SignatureShare) -> result string GroupSignature;
  (* the group's threshold: one more share than it makes a signature *)
  set_threshold : PublicKeySet -> Z;
  (* [sks] is the secret share of member [i] of the group *)
  is_share_of : PublicKeySet -> Z -> SecretKeyShare -> Prop;
}.

Class ThresholdCryptoLaws `{!ThresholdCrypto} := {
  share_sign_verify : forall pks i sks m,
    is_share_of pks i sks -> share_verify pks i (share_sign sks m) m = true;
  share_bytes : forall s, share_from_bytes (share_to_bytes s) = Some s;
  share_bytes_length : forall s, length (share_to_bytes s) = SIG_SIZE;
  group_bytes : forall s, group_from_bytes (group_to_bytes s) = Some s;
  group_bytes_length : forall s, length (group_to_bytes s) = SIG_SIZE;
  (* enough valid shares of one message, from distinct members, make its signature *)
  combine_valid : forall pks shares m,
    NoDup shares.*1 -> (set_threshold pks < Z.of_nat (length shares))%Z ->
    Forall (fun p => share_verify pks p.1 p.2 m = true) shares ->
    exists sig, combine_signatures pks shares = Ok sig /\ group_verify pks sig m = true;
  combine_too_few : forall pks shares,
    (Z.of_nat (length shares) <= set_threshold pks)%Z ->
    exists e, combine_signatures pks shares = Err e;
}.

(** ** The key generation of hbbft *)

(** The node's keys are the validator halves of its key pair. *)
Class KeyGen `{!ThresholdCrypto, !ValidatorKeys} := {
  SyncKeyGen : Type;
  Part : Type;
  Ack : Type;
  OsRng : Type;
  keygen_new : string -> ValidatorSecretKey -> gmap string ValidatorPublicKey -> Z -> OsRng ->
    result string (SyncKeyGen * option Part);
  (* an acknowledgement, no acknowledgement (an observer), or a fault *)
  PartOutcome : Type := option Ack + string;
  handle_part : string -> Part -> OsRng -> SyncKeyGen -> SyncKeyGen * result string PartOutcome;
  (* [None] is a valid acknowledgement, [Some] a fault *)
  handle_ack : string -> Ack -> SyncKeyGen -> SyncKeyGen * result string (option string);
  keygen_is_ready : SyncKeyGen -> bool;
  keygen_generate : SyncKeyGen -> result string (PublicKeySet * option SecretKeyShare);
}.

Inductive DkgError :=
| NotEnoughPeerPublicKeys
| SyncKeyGenInstanceNotCreated
| NotEnoughPartMsgsReceived
| NotEnoughPartsCompleted
| NotEnoughAckMsgsReceived
| PartCommitmentNotGenerated
| PartMsgMissingForNode (node : string)
| PartMsgAlreadyAcknowledged (node : string)
| InvalidPartMessage (msg : string)
| InvalidAckMessage (msg : string)
| SyncKeyGenError (msg : string)
| ConfigInvalidValue (key value : string)
| InvalidNode
| ObserverNotAllowed
| DkgUnknown (msg : string).

Inductive SignerError :=
| DkgStateCannotBeRead
| GroupPublicKeyMissing
| SecretKeyShareMissing
| ThresholdSignatureError (msg : string)
| PartialSignatureError (msg : string)
| SignatureVerificationError (msg : string)
| CorruptSignatureShare (msg : string).

Section dkg.
Context `{!StrDebug, !HashOrder, !ThresholdCrypto, !ValidatorKeys, !KeyGen}.

Record DkgState := mk_DkgState {
  part_message_store : gmap string Part;
  ack_message_store : gmap (string * string) Ack;
  peer_public_keys : gmap string ValidatorPublicKey;
  dkg_public_key_set : option PublicKeySet;
  dkg_secret_key_share : option SecretKeyShare;
  sync_key_gen : option SyncKeyGen;
  random_number_gen : option OsRng;
}.

Definition DkgState_default : DkgState := mk_DkgState ∅ ∅ ∅ None None None None.

(** [DkgState::clear]. *)
Definition DkgState_clear (s : DkgState) : DkgState := mk_DkgState ∅ ∅ ∅ None None None None.

(** The setters. *)
Definition set_part_message_store (m : gmap string Part) (s : DkgState) : DkgState :=
  mk_DkgState m (ack_message_store s) (peer_public_keys s) (dkg_public_key_set s)
    (dkg_secret_key_share s) (sync_key_gen s) (random_number_gen s).
Definition set_ack_message_store (m : gmap (string * string) Ack) (s : DkgState) : DkgState :=
  mk_DkgState (part_message_store s) m (peer_public_keys s) (dkg_public_key_set s)
    (dkg_secret_key_share s) (sync_key_gen s) (random_number_gen s).
Definition set_peer_public_keys (m : gmap string ValidatorPublicKey) (s : DkgState) : DkgState :=
  mk_DkgState (part_message_store s) (ack_message_store s) m (dkg_public_key_set s)
    (dkg_secret_key_share s) (sync_key_gen s) (random_number_gen s).
Definition set_public_key_set (o : option PublicKeySet) (s : DkgState) : DkgState :=
  mk_DkgState (part_message_store s) (ack_message_store s) (peer_public_keys s) o
    (dkg_secret_key_share s) (sync_key_gen s) (random_number_gen s).
Definition set_secret_key_share (o : option SecretKeyShare) (s : DkgState) : DkgState :=
  mk_DkgState (part_message_store s) (ack_message_store s) (peer_public_keys s)
    (dkg_public_key_set s) o (sync_key_gen s) (random_number_gen s).
Definition set_sync_key_gen (o : option SyncKeyGen) (s : DkgState) : DkgState :=
  mk_DkgState (part_message_store s) (ack_message_store s) (peer_public_keys s)
    (dkg_public_key_set s) (dkg_secret_key_share s) o (random_number_gen s).
Definition set_random_number_gen (o : option OsRng) (s : DkgState) : DkgState :=
  mk_DkgState (part_message_store s) (ack_message_store s) (peer_public_keys s)
    (dkg_public_key_set s) (dkg_secret_key_share s) (sync_key_gen s) o.
Definition state_add_peer_public_key (node_id : string) (pk : ValidatorPublicKey) (s : DkgState)
    : DkgState :=
  set_peer_public_keys (<[node_id := pk]> (peer_public_keys s)) s.

Record DkgEngine := mk_DkgEngine {
  dkg_node_id : string;
  dkg_node_type : NodeType;
  dkg_threshold_config : ThresholdConfig;
  dkg_secret_key : ValidatorSecretKey;
  dkg_state : DkgState;
  harvester_public_key : option ValidatorPublicKey;
}.

Definition with_dkg_state (s : DkgState) (e : DkgEngine) : DkgEngine :=
  mk_DkgEngine (dkg_node_id e) (dkg_node_type e) (dkg_threshold_config e) (dkg_secret_key e) s
    (harvester_public_key e).

Definition DkgEngine_new (node_id : string) (node_type : NodeType) (secret_key : ValidatorSecretKey)
    (threshold_config : ThresholdConfig) : DkgEngine :=
  mk_DkgEngine node_id node_type threshold_config secret_key DkgState_default None.

Definition add_peer_public_key (node_id : string) (pk : ValidatorPublicKey) (e : DkgEngine)
    : DkgEngine :=
  with_dkg_state (state_add_peer_public_key node_id pk (dkg_state e)) e.

Definition set_harvester_public_key (pk : ValidatorPublicKey) (e : DkgEngine) : DkgEngine :=
  mk_DkgEngine (dkg_node_id e) (dkg_node_type e) (dkg_threshold_config e) (dkg_secret_key e)
    (dkg_state e) (Some pk).

Definition get_public_key (e : DkgEngine) : ValidatorPublicKey := vsk_public_key (dkg_secret_key e).

Definition clear_state (e : DkgEngine) : DkgEngine :=
  with_dkg_state (DkgState_clear (dkg_state e)) e.

(** [generate_partial_commitment] with what [OsRng::new] gives. *)
Definition generate_partial_commitment (os_rng : result string OsRng) (threshold : Z)
    : method DkgEngine DkgError (Part * string) := fun e =>
  let node_id := dkg_node_id e in
  match os_rng with
  | Ok rng =>
      match keygen_new node_id (dkg_secret_key e) (peer_public_keys (dkg_state e)) threshold
              rng with
      | Ok (keygen, Some part) =>
          let s := set_random_number_gen (Some rng) (dkg_state e) in
          let s := set_part_message_store (<[node_id := part]> (part_message_store s)) s in
          let s := set_sync_key_gen (Some keygen) s in
          (with_dkg_state s e, Ok (part, node_id))
      | Ok (_, None) => (e, Err PartCommitmentNotGenerated)
      | Err err =>
          (e, Err (SyncKeyGenError ("Failed to create instance for node " +:+ str_debug node_id
                                      +:+ ": " +:+ err)))
      | Panic => (e, Panic)
      end
  | Err err => (e, Err (DkgUnknown err))
  | Panic => (e, Panic)
  end.

(** The generator is a copy, so only the key generation instance changes. *)
Definition ack_partial_commitment (sender : string)
    : method DkgEngine DkgError (string * string * Ack) := fun e =>
  let node_id := dkg_node_id e in
  match random_number_gen (dkg_state e) with
  | None => (e, Err (DkgUnknown "failed to get random number generator"))
  | Some rng =>
      match sync_key_gen (dkg_state e) with
      | None => (e, Err SyncKeyGenInstanceNotCreated)
      | Some node =>
          if bool_decide (is_Some (ack_message_store (dkg_state e) !! (node_id, sender))) then
            (e, Err (PartMsgAlreadyAcknowledged sender))
          else
            match part_message_store (dkg_state e) !! sender with
            | None => (e, Err (PartMsgMissingForNode sender))
            | Some part =>
                let '(node', r) := handle_part sender part rng node in
                let s := set_sync_key_gen (Some node') (dkg_state e) in
                match r with
                | Ok (inl (Some ack)) =>
                    let s := set_ack_message_store
                               (<[(node_id, sender) := ack]> (ack_message_store s)) s in
                    (with_dkg_state s e, Ok (node_id, sender, ack))
                | Ok (inr fault) => (with_dkg_state s e, Err (InvalidPartMessage fault))
                | Ok (inl None) => (with_dkg_state s e, Err ObserverNotAllowed)
                | Err err =>
                    (with_dkg_state s e,
                     Err (DkgUnknown ("failed to generate handle part commitment: " +:+ err)))
                | Panic => (with_dkg_state s e, Panic)
                end
            end
      end
  end.

(** The acknowledgements in the order they are handled. *)
Definition sorted_acks (s : DkgState) : list (string * string * Ack) :=
  stable_sort (fun a b => String.leb a.1.1 b.1.1) (hash_iter (ack_message_store s)).

Fixpoint handle_acks (debug : string -> string) (node_id : string)
    (acks : list (string * string * Ack)) : method SyncKeyGen DkgError unit :=
  match acks with
  | [] => mret tt
  | (receiver_id, sender_id, ack) :: acks' => fun keygen =>
      match handle_ack receiver_id ack keygen with
      | (keygen', Ok None) => handle_acks debug node_id acks' keygen'
      | (keygen', Ok (Some fault)) =>
          (keygen', Err (InvalidAckMessage
             ("Invalid Ack Outcome for Node " +:+ str_debug sender_id +:+ ",Fault: "
                +:+ debug fault +:+ " ,Idx:" +:+ str_debug node_id)))
      | (keygen', Err err) =>
          (keygen', Err (InvalidAckMessage
             ("from " +:+ sender_id +:+ " to " +:+ receiver_id +:+ ": " +:+ err)))
      | (keygen', Panic) => (keygen', Panic)
      end
  end.

Definition handle_ack_messages (debug : string -> string) : method DkgEngine DkgError unit :=
  fun e =>
    match sync_key_gen (dkg_state e) with
    | None => (e, Err SyncKeyGenInstanceNotCreated)
    | Some keygen =>
        let '(keygen', r) :=
          handle_acks debug (dkg_node_id e) (sorted_acks (dkg_state e)) keygen in
        (with_dkg_state (set_sync_key_gen (Some keygen') (dkg_state e)) e, r)
    end.

Definition generate_key_sets : method DkgEngine DkgError unit := fun e =>
  match sync_key_gen (dkg_state e) with
  | None => (e, Err SyncKeyGenInstanceNotCreated)
  | Some keygen =>
      if negb (keygen_is_ready keygen) then (e, Err NotEnoughPartsCompleted)
      else
        match keygen_generate keygen with
        | Ok (pks, sks) =>
            (with_dkg_state
               (set_secret_key_share sks (set_public_key_set (Some pks) (dkg_state e))) e, Ok tt)
        | Err err =>
            (e, Err (DkgUnknown
               ("Failed to create `PublicKeySet` and `SecretKeyShare`, Node ID "
                  +:+ dkg_node_id e +:+ ", Error: " +:+ err)))
        | Panic => (e, Panic)
        end
  end.

(** [Clone for DkgEngine]: the key generation instance is made anew, and a
    failure to make it panics. *)
Definition DkgEngine_clone {E} (os_rng : result string OsRng) (e : DkgEngine)
    : result E DkgEngine :=
  rng ← unwrap os_rng;
  '(keygen, _) ← unwrap (keygen_new (dkg_node_id e) (dkg_secret_key e)
                           (peer_public_keys (dkg_state e))
                           (threshold (dkg_threshold_config e)) rng);
  Ok (with_dkg_state (set_sync_key_gen (Some keygen) (dkg_state e)) e).

(** ** Signing: [SignatureProvider] *)

(** The state is behind a lock, poisoned when a holder panicked. *)
Record SignatureProvider := mk_SignatureProvider {
  provider_dkg_state : option DkgState;
  quorum_config : ThresholdConfig;
}.

Definition read_dkg_state (p : SignatureProvider) : result SignerError DkgState :=
  ok_or (provider_dkg_state p) DkgStateCannotBeRead.

Definition generate_partial_signature (payload_hash : bytes) (p : SignatureProvider)
    : result SignerError bytes :=
  s ← read_dkg_state p;
  match dkg_secret_key_share s with
  | None => Err SecretKeyShareMissing
  | Some key => Ok (share_to_bytes (share_sign key payload_hash))
  end.

Definition decode_shares (signature_shares : list (Z * bytes)) : list (Z * SignatureShare) :=
  omap (fun '(x, sig_bytes) =>
    if bool_decide (length sig_bytes = SIG_SIZE) then
      (fun share => (x, share)) <$> share_from_bytes sig_bytes
    else None) signature_shares.

(** [generate_quorum_signature]; the shares are a [BTreeMap] in key order, and
    [debug] is the [Debug] text of the combination's error. *)
Definition generate_quorum_signature (debug : string -> string) (quorum_threshold : Z)
    (signature_shares : list (Z * bytes)) (p : SignatureProvider) : result SignerError bytes :=
  if (wrap U16 (Z.of_nat (length signature_shares)) <? quorum_threshold)%Z then
    Err (ThresholdSignatureError "Received less than t+1 signature shares")
  else
    s ← read_dkg_state p;
    if negb (forallb (fun q => bool_decide (length q.2 = SIG_SIZE)) signature_shares) then
      Err (CorruptSignatureShare "Invalid Signature")
    else
      match dkg_public_key_set s with
      | None => Err GroupPublicKeyMissing
      | Some pub_key_set =>
          match combine_signatures pub_key_set (decode_shares signature_shares) with
          | Ok sig => Ok (group_to_bytes sig)
          | Err e =>
              Err (ThresholdSignatureError
                     ("Error while constructing threshold signature details: " +:+ debug e))
          | Panic => Panic
          end
      end.

Definition provider_verify_signature (node_idx : Z) (payload_hash signature : bytes)
    (signature_type : SignatureType) (p : SignatureProvider) : result SignerError bool :=
  if bool_decide (length signature <> SIG_SIZE) then
    Err (CorruptSignatureShare "Invalid Signature ,Size must be 96 bytes")
  else
    s ← read_dkg_state p;
    match dkg_public_key_set s with
    | None => Err GroupPublicKeyMissing
    | Some pks =>
        match signature_type with
        | PartialSignature =>
            match share_from_bytes signature with
            | Some share => Ok (share_verify pks node_idx share payload_hash)
            | None => Err (CorruptSignatureShare "Corrupt signature share")
            end
        | ThresholdSignature | ChainLockSignature =>
            match group_from_bytes signature with
            | Some sig => Ok (group_verify pks sig payload_hash)
            | None => Err (ThresholdSignatureError "Corrupt signature")
            end
        end
    end.

(** ** Correctness *)

Definition group_key (p : SignatureProvider) : option PublicKeySet :=
  provider_dkg_state p ≫= dkg_public_key_set.

(** A member of the group: its provider holds the group's key and its own share. *)
Definition member_of (pks : PublicKeySet) (q : Z * SignatureProvider) : Prop :=
  exists s sks, provider_dkg_state q.2 = Some s /\ dkg_public_key_set s = Some pks /\
    dkg_secret_key_share s = Some sks /\ is_share_of pks q.1 sks.

(** Every member's partial signature, keyed by its index. *)
Definition collect_shares (payload_hash : bytes) (members : list (Z * SignatureProvider))
    : result SignerError (list (Z * bytes)) :=
  mapM (fun q => b ← generate_partial_signature payload_hash q.2; Ok (q.1, b)) members.

Context `{!ThresholdCryptoLaws}.

Lemma member_signs pks m q :
  member_of pks q ->
  exists share, generate_partial_signature m q.2 = Ok (share_to_bytes share) /\
    share_verify pks q.1 share m = true.
Proof.
  intros (s & sks & Hs & _ & Hk & Hof). exists (share_sign sks m).
  split; [|by apply share_sign_verify].
  unfold generate_partial_signature, read_dkg_state. rewrite Hs. simpl. by rewrite Hk.
Qed.

Lemma collect_shares_ok pks m members :
  Forall (member_of pks) members ->
  exists shares, collect_shares m members = Ok (prod_map id share_to_bytes <$> shares) /\
    shares.*1 = members.*1 /\ Forall (fun p => share_verify pks p.1 p.2 m = true) shares.
Proof.
  unfold collect_shares.
  induction 1 as [|q members Hq _ (shares & Hm & Hfst & Hall)]; [by exists []|].
  destruct (member_signs pks m q Hq) as (share & Hg & Hv).
  exists ((q.1, share) :: shares). simpl. rewrite Hg. simpl. rewrite Hm. simpl.
  split; [done|]. split; [by f_equal|]. by constructor.
Qed.

Lemma decode_shares_bytes shares :
  decode_shares (prod_map id share_to_bytes <$> shares) = shares.
Proof.
  unfold decode_shares. induction shares as [|[i share] shares IH]; simpl; [done|].
  rewrite bool_decide_true by apply share_bytes_length. rewrite share_bytes. simpl.
  f_equal. exact IH.
Qed.

Lemma provider_verify_share pks p i share m :
  group_key p = Some pks ->
  provider_verify_signature i m (share_to_bytes share) PartialSignature p =
    Ok (share_verify pks i share m).
Proof.
  unfold group_key, provider_verify_signature, read_dkg_state.
  destruct (provider_dkg_state p) as [s|]; simpl; [|done]. intros ->.
  rewrite bool_decide_false by (rewrite share_bytes_length; tauto). by rewrite share_bytes.
Qed.

(** C7. More members of a quorum than its threshold, each signing the same
    payload, give a quorum signature: every partial signature is made and
    verifies under its member's index, they combine at any member, and the
    combined signature verifies under the group's key. *)
Theorem quorum_signature_roundtrip (debug : string -> string) (pks : PublicKeySet)
    (members : list (Z * SignatureProvider)) (p : SignatureProvider) (m : bytes)
    (quorum_threshold idx : Z) :
  StronglySorted Z.lt members.*1 -> Forall (member_of pks) members -> group_key p = Some pks ->
  (set_threshold pks < Z.of_nat (length members) <= int_max U16)%Z ->
  (quorum_threshold <= Z.of_nat (length members))%Z ->
  exists shares sig,
    collect_shares m members = Ok shares /\
    Forall (fun q => provider_verify_signature q.1 m q.2 PartialSignature p = Ok true) shares /\
    generate_quorum_signature debug quorum_threshold shares p = Ok sig /\
    provider_verify_signature idx m sig ThresholdSignature p = Ok true.
Proof.
  intros Hsort Hmem Hkey [Hmin Hmax] Hq.
  destruct (collect_shares_ok pks m members Hmem) as (shares & Hc & Hfst & Hall).
  assert (Hlen : length shares = length members) by (by rewrite <-(length_fmap fst), Hfst, length_fmap).
  assert (Hnd : NoDup shares.*1).
  { rewrite Hfst. apply (bt_wf_NoDup members). exact Hsort. }
  destruct (combine_valid pks shares m Hnd ltac:(lia) Hall) as (sig & Hcomb & Hver).
  exists (prod_map id share_to_bytes <$> shares), (group_to_bytes sig).
  split; [done|]. split.
  { apply Forall_fmap. eapply Forall_impl; [exact Hall|]. intros [i share] Hv. simpl in *.
    by rewrite (provider_verify_share pks), Hv. }
  unfold group_key in Hkey.
  unfold generate_quorum_signature, provider_verify_signature, read_dkg_state.
  destruct (provider_dkg_state p) as [s|]; simpl in *; [|done]. rewrite Hkey.
  rewrite length_fmap, Hlen, wrap_id by range_lia.
  rewrite (proj2 (Z.ltb_ge _ _) Hq), decode_shares_bytes, Hcomb.
  rewrite bool_decide_false by (rewrite group_bytes_length; tauto).
  rewrite group_bytes, Hver. split; [|done].
  rewrite (proj2 (forallb_forall _ _)); [done|]. intros q Hin.
  apply list_elem_of_In, list_elem_of_fmap in Hin as ([i share] & -> & _).
  apply bool_decide_eq_true, share_bytes_length.
Qed.

(** Too few shares are refused, whatever the configured threshold says. *)
Lemma quorum_signature_too_few debug pks p shares qt sig :
  group_key p = Some pks -> (Z.of_nat (length shares) <= set_threshold pks)%Z ->
  generate_quorum_signature debug qt shares p <> Ok sig.
Proof.
  unfold group_key, generate_quorum_signature, read_dkg_state.
  destruct (provider_dkg_state p) as [s|]; simpl; [|done]. intros Hkey Hle.
  destruct (_ <? qt)%Z; [done|]. destruct (negb _); [done|]. rewrite Hkey.
  destruct (combine_too_few pks (decode_shares shares)) as [e ->]; [|done].
  unfold decode_shares. pose proof (length_omap_le (fun '(x, b) =>
    if bool_decide (length b = SIG_SIZE) then (fun share => (x, share)) <$> share_from_bytes b
    else None) shares). lia.
Qed.

(** ** The order of the key generation steps *)

(** The key material is there only together with the instance it came from. *)
Definition dkg_wf (e : DkgEngine) : Prop :=
  let s := dkg_state e in
  (is_Some (dkg_public_key_set s) -> is_Some (sync_key_gen s)) /\
  (is_Some (dkg_secret_key_share s) -> is_Some (dkg_public_key_set s)) /\
  (is_Some (sync_key_gen s) -> is_Some (random_number_gen s)).

(** One call of the protocol on the engine. *)
Inductive dkg_step : DkgEngine -> DkgEngine -> Prop :=
| step_commit rng t e : dkg_step e (generate_partial_commitment rng t e).1
| step_part id part e :
    dkg_step e (with_dkg_state (set_part_message_store
      (<[id := part]> (part_message_store (dkg_state e))) (dkg_state e)) e)
| step_ack_store key ack e :
    dkg_step e (with_dkg_state (set_ack_message_store
      (<[key := ack]> (ack_message_store (dkg_state e))) (dkg_state e)) e)
| step_peer id pk e : dkg_step e (add_peer_public_key id pk e)
| step_ack sender e : dkg_step e (ack_partial_commitment sender e).1
| step_handle debug e : dkg_step e (handle_ack_messages debug e).1
| step_keys e : dkg_step e (generate_key_sets e).1
| step_clear e : dkg_step e (clear_state e).

Lemma dkg_step_wf e e' : dkg_step e e' -> dkg_wf e -> dkg_wf e'.
Proof.
  unfold dkg_wf. intros Hstep (Hw1 & Hw2 & Hw3).
  destruct Hstep; simpl; [..|split_and!; by intros [? [=]]];
    unfold generate_partial_commitment, ack_partial_commitment, handle_ack_messages,
      generate_key_sets; breaks; simpl in *; split_and!; intros; eauto; try done.
  all: repeat match goal with Hx : ?f (dkg_state _) = _ |- _ => rewrite Hx end; eauto.
  all: apply Hw3; congruence.
Qed.

(** Who the engine acts for; no operation changes it. *)
Definition engine_id (e : DkgEngine) : string * NodeType * ThresholdConfig * ValidatorSecretKey :=
  (dkg_node_id e, dkg_node_type e, dkg_threshold_config e, dkg_secret_key e).

Lemma dkg_step_id e e' : dkg_step e e' -> engine_id e' = engine_id e.
Proof.
  destruct 1; unfold generate_partial_commitment, ack_partial_commitment, handle_ack_messages,
    generate_key_sets; breaks; done.
Qed.

Lemma ack_partial_commitment_stores sender e e' receiver s ack :
  ack_partial_commitment sender e = (e', Ok (receiver, s, ack)) ->
  ack_message_store (dkg_state e') !! (dkg_node_id e, sender) = Some ack.
Proof.
  unfold ack_partial_commitment. breaks; simpl; intros; simplify_eq/=; try done.
  apply lookup_insert_eq.
Qed.

Inductive dkg_reachable (e0 : DkgEngine) : DkgEngine -> Prop :=
| reach_start : dkg_reachable e0 e0
| reach_step e e' : dkg_reachable e0 e -> dkg_step e e' -> dkg_reachable e0 e'.

(** In every state a fresh engine reaches, a secret key share exists only
    beside the group key set it belongs to and the key generation instance that
    made them; so a partial signature can be made only after the node's own
    commitment and a completed key generation, and clearing the state at an
    epoch change takes the ability away. *)
Lemma dkg_share_needs_keygen (node_id : string) (node_type : NodeType) (sk : ValidatorSecretKey)
    (config : ThresholdConfig) (e : DkgEngine) (m sig : bytes) :
  dkg_reachable (DkgEngine_new node_id node_type sk config) e ->
  generate_partial_signature m (mk_SignatureProvider (Some (dkg_state e)) config) = Ok sig ->
  is_Some (dkg_public_key_set (dkg_state e)) /\ is_Some (sync_key_gen (dkg_state e)) /\
  generate_partial_signature m (mk_SignatureProvider (Some (dkg_state (clear_state e))) config)
    = Err SecretKeyShareMissing.
Proof.
  intros Hreach Hsig.
  assert (Hwf : dkg_wf e).
  { clear Hsig. induction Hreach as [|e e' _ IH Hs]; [|by eapply dkg_step_wf].
    unfold dkg_wf. simpl. split_and!; by intros []. }
  destruct Hwf as (Hw1 & Hw2 & _).
  unfold generate_partial_signature, read_dkg_state in *. simpl in *.
  destruct (dkg_secret_key_share (dkg_state e)); [|done]. split_and!; eauto.
Qed.
End dkg.

(** ** A concrete group

    Signatures are checksums; three members with threshold one. It shows that the
    laws can hold together. *)
Module ToyGroup.
#[export] Existing Instance Toy.validator_keys.

Definition checksum (m : bytes) : byte := default x00 (last m).

Definition pad (b : byte) : bytes := b :: replicate 95 x00.

Definition unpad (b : bytes) : option byte := head b.

#[export] Instance crypto : ThresholdCrypto := {|
  PublicKeySet := nat;
  SecretKeyShare := Z;
  SignatureShare := byte;
  GroupSignature := byte;
  share_verify := fun _ _ s m => bool_decide (s = checksum m);
  group_verify := fun _ s m => bool_decide (s = checksum m);
  share_sign := fun _ m => checksum m;
  share_to_bytes := pad;
  share_from_bytes := unpad;
  group_to_bytes := pad;
  group_from_bytes := unpad;
  combine_signatures := fun t shares =>
    match shares with
    | (_, s) :: _ => if bool_decide (t < length shares) then Ok s else Err "too few"
    | [] => Err "too few"
    end;
  set_threshold := Z.of_nat;
  is_share_of := fun _ i k => i = k;
|}.

#[export] Instance crypto_laws : ThresholdCryptoLaws.
Proof.
  split; try done.
  - intros. by apply bool_decide_eq_true.
  - intros t [|[i s] shares] m _ Ht Hall; simpl in *.
    + lia.
    + apply Forall_cons in Hall as [Hs _]. exists s.
      by rewrite bool_decide_true by lia.
  - intros t [|[i s] shares] Ht; simpl in *; [eauto|].
    rewrite bool_decide_false by lia. eauto.
Qed.

#[export] Instance keygen : KeyGen := {|
  SyncKeyGen := bool;
  Part := unit;
  Ack := unit;
  OsRng := unit;
  keygen_new := fun _ _ _ _ _ => Ok (true, Some tt);
  handle_part := fun _ _ _ k => (k, Ok (inl (Some tt)));
  handle_ack := fun _ _ k => (k, Ok None);
  keygen_is_ready := fun k => k;
  keygen_generate := fun _ => Ok (1, Some 0%Z);
|}.

Definition group : @PublicKeySet crypto := 1.
Definition node_key : ValidatorSecretKey := x00.
Definition entropy : @OsRng crypto Toy.validator_keys keygen := tt.

Definition config : ThresholdConfig := ThresholdConfig_default.

Definition provider (i : Z) : SignatureProvider :=
  mk_SignatureProvider
    (Some (set_secret_key_share (Some i) (set_public_key_set (Some group) DkgState_default))) config.

Definition members : list (Z * SignatureProvider) := [(0%Z, provider 0); (2%Z, provider 2)].
End ToyGroup.

Section witnesses.
Import ToyGroup.
#[local] Existing Instance Toy.str_debug_quote.
#[local] Existing Instance Toy.hash_order.

Lemma quorum_signature_roundtrip_witness :
  exists shares sig,
    collect_shares [x05] members = Ok shares /\
    Forall (fun q => provider_verify_signature q.1 [x05] q.2 PartialSignature (provider 1)
                     = Ok true) shares /\
    generate_quorum_signature id 2 shares (provider 1) = Ok sig /\
    provider_verify_signature 1 [x05] sig ThresholdSignature (provider 1) = Ok true.
Proof.
  apply (quorum_signature_roundtrip id group members (provider 1) [x05] 2 1).
  - repeat constructor.
  - repeat constructor; eexists _, _; by split_and!.
  - reflexivity.
  - split; [reflexivity|vm_compute; congruence].
  - simpl. lia.
Defined.

End witnesses.
