(* ===== verification/Storage.v ===== *)
(** * Storage: [crates/storage/vrrbdb]

    The state, transaction and claim stores over the Merkle trie of the
    integral-db crate, the conversion of transactions and proposal blocks into
    account updates ([types.rs]), and the application of transfers and blocks
    ([vrrbdb.rs]). *)

From S2P Require Import Prelude Floats Primitives Keypair Transactions ToyModel Account.
From S2P Require Import Staking Claim Reward Vrf Blocks.
From Stdlib Require Import Strings.Byte.

(** ** The trie

    [LeftRightTrie] is a map behind a read and a write side. [trie_view] is what
    the read handles see and [trie_next] what they see after the next
    [publish]. Whether a write is seen before the publication is left open
    ([trie_eager]): the stores call such writes uncommitted, while their tests
    read them back at once. *)
Class TrieDb := {
  LeftRightTrie : Type -> Type -> Type;
  RootHash : Type;
  root_bytes : RootHash -> bytes;
  trie_eager : bool;
  trie_new : forall {K V}, string -> LeftRightTrie K V;
  trie_insert : forall {K V}, K -> V -> LeftRightTrie K V -> LeftRightTrie K V;
  trie_update : forall {K V}, K -> V -> LeftRightTrie K V -> LeftRightTrie K V;
  trie_extend : forall {K V}, list (K * option V) -> LeftRightTrie K V -> LeftRightTrie K V;
  trie_publish : forall {K V}, LeftRightTrie K V -> LeftRightTrie K V;
  trie_get : forall {K} `{Countable K} {V}, K -> LeftRightTrie K V -> result string V;
  (* the deserialised values the iterator of the read side gives *)
  trie_values : forall {K} `{Countable K} {V}, LeftRightTrie K V -> list V;
  trie_len : forall {K V}, LeftRightTrie K V -> result string Z;
  trie_is_empty : forall {K V}, LeftRightTrie K V -> result string bool;
  trie_root : forall {K V}, LeftRightTrie K V -> result string RootHash;
  trie_view : forall {K} `{Countable K} {V}, LeftRightTrie K V -> gmap K V;
  trie_next : forall {K} `{Countable K} {V}, LeftRightTrie K V -> gmap K V;
}.

Class TrieDbLaws `{!TrieDb} := {
  trie_get_Some : forall {K} `{Countable K} {V} (k : K) (v : V) t,
    trie_view t !! k = Some v -> trie_get k t = Ok v;
  trie_get_None : forall {K} `{Countable K} {V} (k : K) (t : LeftRightTrie K V),
    trie_view t !! k = None -> exists e, trie_get k t = Err e;
  trie_next_insert : forall {K} `{Countable K} {V} (k : K) (v : V) t,
    trie_next (trie_insert k v t) = <[k := v]> (trie_next t);
  trie_view_insert : forall {K} `{Countable K} {V} (k : K) (v : V) t,
    trie_view (trie_insert k v t) =
      if trie_eager then <[k := v]> (trie_next t) else trie_view t;
  trie_next_update : forall {K} `{Countable K} {V} (k : K) (v : V) t,
    is_Some (trie_view t !! k) -> trie_next (trie_update k v t) = <[k := v]> (trie_next t);
  trie_view_update : forall {K} `{Countable K} {V} (k : K) (v : V) t,
    is_Some (trie_view t !! k) ->
    trie_view (trie_update k v t) =
      if trie_eager then <[k := v]> (trie_next t) else trie_view t;
  trie_view_publish : forall {K} `{Countable K} {V} (t : LeftRightTrie K V),
    trie_view (trie_publish t) = trie_next t;
  trie_next_publish : forall {K} `{Countable K} {V} (t : LeftRightTrie K V),
    trie_next (trie_publish t) = trie_next t;
  trie_values_view : forall {K} `{Countable K} {V} (t : LeftRightTrie K V),
    trie_values t ≡ₚ (map_to_list (trie_view t)).*2;
}.

Inductive StorageError :=
| StorageIo (msg : string)
| StorageOther (msg : string)
| RecordExists
| StorageNotFound (entry : string)
| StorageUnknown.

(** The [Display] text of the two error types. *)
Definition storage_error_to_string (e : StorageError) : string :=
  match e with
  | StorageIo s => s
  | StorageOther s => s
  | RecordExists => "record already exists"
  | StorageNotFound entry => "entry " +:+ entry +:+ " not found"
  | StorageUnknown => "unknown error occurred"
  end.

Definition core_error_to_string (e : CoreError) : string :=
  match e with
  | CoreIo s => "io error: " +:+ s
  | CoreSerdeJson s => "serde_json error: " +:+ s
  | CoreOther s => s
  end.

#[export] Instance Token_countable : Countable Token.
Proof.
  refine (inj_countable' (fun t => (token_name t, token_symbol t, token_decimals t))
            (fun p => mk_Token p.1.1 p.1.2 p.2) _).
  by intros [].
Defined.

Inductive UpdateAccount :=
| Sender
| Receiver
| ClaimUpdate
| Fee
| RewardUpdate.

#[export] Instance UpdateAccount_eq_dec : EqDecision UpdateAccount.
Proof. solve_decision. Defined.

#[export] Instance UpdateAccount_countable : Countable UpdateAccount.
Proof.
  refine (inj_countable
    (fun u => match u with Sender => 0 | Receiver => 1 | ClaimUpdate => 2 | Fee => 3
              | RewardUpdate => 4 end)
    (fun n => match n with 0 => Some Sender | 1 => Some Receiver | 2 => Some ClaimUpdate
              | 3 => Some Fee | 4 => Some RewardUpdate | _ => None end) _).
  by intros [].
Defined.

Section storage.
Context `{!Profile, !Hashing, !Secp256k1, !ValidatorKeys, !SocketAddrs, !StrDebug}.
Context `{!ToJson Address, !ToJson PublicKey, !ToJson Token, !ToJson Z, !ToJson string}.
Context `{!HashOrder, !TrieDb}.

(** ** Account updates from transactions: [types.rs] *)

Record RoundBlocks := mk_RoundBlocks {
  rb_convergence : ConvergenceBlock;
  rb_proposals : list ProposalBlock;
}.

Record StateUpdate := mk_StateUpdate {
  su_address : Address;
  su_token : option Token;
  su_amount : Z;
  su_nonce : option Z;
  su_storage : option string;
  su_code : option string;
  su_digest : TransactionDigest;
  su_update_account : UpdateAccount;
}.

#[export] Instance StateUpdate_eq_dec : EqDecision StateUpdate.
Proof. solve_decision. Defined.

#[export] Instance StateUpdate_countable : Countable StateUpdate.
Proof.
  refine (inj_countable'
    (fun u => (su_address u, su_token u, su_amount u, su_nonce u, su_storage u, su_code u,
               su_digest u, su_update_account u))
    (fun '(a, t, m, n, s, c, d, k) => mk_StateUpdate a t m n s c d k) _).
  by intros [].
Defined.

Record IntoUpdates := mk_IntoUpdates {
  sender_update : StateUpdate;
  receiver_update : StateUpdate;
}.

(** [From<StateUpdate> for UpdateArgs]. *)
Definition UpdateArgs_from (item : StateUpdate) : UpdateArgs :=
  match su_update_account item with
  | Sender =>
      mk_UpdateArgs (su_address item) (su_nonce item) None (Some (su_amount item))
        (Some (su_storage item)) (Some (su_code item))
        (Some (insert_sent (su_digest item) AccountDigests_default))
  | Receiver =>
      mk_UpdateArgs (su_address item) (su_nonce item) (Some (su_amount item)) None
        (Some (su_storage item)) (Some (su_code item))
        (Some (insert_recv (su_digest item) AccountDigests_default))
  | ClaimUpdate =>
      mk_UpdateArgs (su_address item) (su_nonce item) None None None None
        (Some (insert_stake (su_digest item) AccountDigests_default))
  | Fee | RewardUpdate =>
      mk_UpdateArgs (su_address item) (su_nonce item) (Some (su_amount item)) None None None
        None
  end.

(** [FromTxn for IntoUpdates]. *)
Definition IntoUpdates_from_txn (txn : TransactionKind) : IntoUpdates :=
  {| sender_update :=
       mk_StateUpdate (txn_sender_address txn) (Some (txn_token txn)) (txn_amount txn)
         (Some (txn_nonce txn)) None None (txn_id txn) Sender;
     receiver_update :=
       mk_StateUpdate (txn_receiver_address txn) (Some (txn_token txn)) (txn_amount txn)
         None None None (txn_id txn) Receiver |}.

Definition fee_update (addr : Address) (token : option Token) (amount : Z) : StateUpdate :=
  mk_StateUpdate addr token amount None None None TransactionDigest_default Fee.

(** [FromTxn for HashSet<StateUpdate>]: the fee shares of the validators that
    voted for the transaction; the division panics when there are none. *)
Definition fees_from_txn {E} (txn : TransactionKind) : result E (gset StateUpdate) :=
  let fees := txn_validator_fee_share txn in
  match txn_validators txn with
  | None => Ok ∅
  | Some validators =>
      let validator_set := filter (fun '(_, vote) => vote = true) validators in
      if bool_decide (size validator_set = 0) then Panic
      else
        let validator_share := (fees / Z.of_nat (size validator_set))%Z in
        Ok (list_to_set
              (omap (fun '(k, _) =>
                 match Address_from_str k with
                 | Ok addr => Some (fee_update addr None validator_share)
                 | _ => None
                 end) (hash_iter validator_set)))
  end.

Definition block_txn_step {E} (acc : result E (Z * gset StateUpdate))
    (p : TransactionDigest * QuorumCertifiedTxn) : result E (Z * gset StateUpdate) :=
  '(proposer_fees, set) ← acc;
  let txn := p.2 in
  proposer_fees ← arith U128 (proposer_fees + qc_proposer_fee_share txn);
  let updates := IntoUpdates_from_txn (qc_txn txn) in
  validator_fees ← fees_from_txn (qc_txn txn);
  Ok (proposer_fees,
      set ∪ {[ sender_update updates; receiver_update updates ]} ∪ validator_fees).

(** [FromBlock for HashSet<StateUpdate>]. *)
Definition updates_from_block {E} (block : ProposalBlock) : result E (gset StateUpdate) :=
  '(proposer_fees, set) ← fold_left block_txn_step (pb_txns block) (Ok (0%Z, ∅));
  Ok ({[ fee_update (c_address (pb_from block)) (Some Token_default) proposer_fees ]} ∪ set).

(** ** The state store: [state_store/mod.rs] *)

Record StateStore := mk_StateStore {
  state_trie : LeftRightTrie Address Account;
}.

Definition StateStore_new (path : string) : StateStore :=
  {| state_trie := trie_new (path +:+ "/state") |}.

Definition on_trie (f : LeftRightTrie Address Account -> LeftRightTrie Address Account)
    (s : StateStore) : StateStore :=
  {| state_trie := f (state_trie s) |}.

Definition state_commit : StateStore -> StateStore := on_trie trie_publish.

(** [StateStoreReadHandle::get] at the latest version. *)
Definition state_get (key : Address) (s : StateStore) : result StorageError Account :=
  map_err StorageOther (trie_get key (state_trie s)).

Definition get_account := state_get.

Definition state_batch_get (keys : list Address) (s : StateStore)
    : result StorageError (gmap Address (option Account)) :=
  fold_left (fun acc key =>
    accounts ← acc;
    match state_get key s with
    | Ok account => Ok (<[key := Some account]> accounts)
    | Err _ => Ok (<[key := None]> accounts)
    | Panic => Panic
    end) keys (Ok ∅).

Definition state_entries (s : StateStore) : gmap Address Account :=
  fold_left (fun m account => <[a_address account := account]> m)
    (trie_values (state_trie s)) ∅.

Definition state_len (s : StateStore) : result StorageError Z :=
  map_err StorageOther (trie_len (state_trie s)).

Definition state_is_empty (s : StateStore) : result StorageError bool :=
  map_err StorageOther (trie_is_empty (state_trie s)).

Definition state_root_hash (s : StateStore) : result StorageError RootHash :=
  map_err StorageOther (trie_root (state_trie s)).

Definition insert_uncommited (key : Address) (account : Account)
    : method StateStore StorageError unit := fun s =>
  if bool_decide (a_debits account <> 0%Z) then
    (s, Err (StorageOther "cannot insert account with debit"))
  else if bool_decide (a_nonce account <> 0%Z) then
    (s, Err (StorageOther "cannot insert account with nonce bigger than 0"))
  else (on_trie (trie_insert key account) s, Ok tt).

Definition state_insert (key : Address) (account : Account)
    : method StateStore StorageError unit :=
  insert_uncommited key account ≫= fun _ => modify state_commit.

Fixpoint batch_insert_uncommited (inserts : list (Address * Account)) (s : StateStore)
    : StateStore * list (Address * Account * StorageError) :=
  match inserts with
  | [] => (s, [])
  | (k, v) :: inserts' =>
      let '(s', res) := insert_uncommited k v s in
      let '(s'', failed) := batch_insert_uncommited inserts' s' in
      (s'', match res with Err e => (k, v, e) :: failed | _ => failed end)
  end.

(** The [Option] around the failures is [None] when there are none. *)
Definition some_nonempty {A} (l : list A) : option (list A) :=
  match l with
  | [] => None
  | _ => Some l
  end.

Definition batch_insert (inserts : list (Address * Account)) (s : StateStore)
    : StateStore * option (list (Address * Account * StorageError)) :=
  let '(s', failed) := batch_insert_uncommited inserts s in
  (state_commit s', some_nonempty failed).

Definition state_extend (accounts : list (Address * option Account)) : StateStore -> StateStore :=
  on_trie (trie_extend accounts).

(** [update_uncommited] at clock reading [now]: the account is read through the
    read side, changed as a copy, and written back only on success. *)
Definition update_uncommited (now : Z) (key : Address) (update : UpdateArgs)
    : method StateStore StorageError unit := fun s =>
  match state_get key s with
  | Ok account =>
      match Account_update now update account with
      | (account', Ok _) => (on_trie (trie_update key account') s, Ok tt)
      | (_, Err err) => (s, Err (StorageOther (core_error_to_string err)))
      | (_, Panic) => (s, Panic)
      end
  | Err err => (s, Err (StorageOther (storage_error_to_string err)))
  | Panic => (s, Panic)
  end.

Definition state_update (now : Z) (update : UpdateArgs) : method StateStore StorageError unit :=
  update_uncommited now (u_address update) update ≫= fun _ => modify state_commit.

(** [Ord for UpdateArgs]: by nonce, an absent nonce first. *)
Definition nonce_le (a b : UpdateArgs) : bool :=
  match u_nonce a, u_nonce b with
  | None, _ => true
  | Some _, None => false
  | Some x, Some y => (x <=? y)%Z
  end.

(** The stable [sort_by] of the batch. *)
Definition sort_updates (l : list (Address * UpdateArgs)) : list (Address * UpdateArgs) :=
  stable_sort (fun a b => nonce_le a.2 b.2) l.

Definition push_update (m : gmap Address (list UpdateArgs)) (u : Address * UpdateArgs)
    : gmap Address (list UpdateArgs) :=
  <[u.1 := default [] (m !! u.1) ++ [u.2]]> m.

Definition update_batches (updates : list (Address * UpdateArgs))
    : gmap Address (list UpdateArgs) :=
  fold_left push_update updates ∅.

(** The updates of one account in turn, the [i]-th at reading [clock i]; the
    first failure stops them. *)
Fixpoint apply_updates (clock : nat -> Z) (i : nat) (us : list UpdateArgs) (a : Account)
    : result CoreError Account :=
  match us with
  | [] => Ok a
  | u :: us' =>
      match Account_update (clock i) u a with
      | (a', Ok _) => apply_updates clock (S i) us' a'
      | (_, Err e) => Err e
      | (_, Panic) => Panic
      end
  end.

Definition FailedUpdate : Type := Address * list UpdateArgs * StorageError.

Definition apply_batch (clock : Address -> nat -> Z) (batch : Address * list UpdateArgs)
    : method (StateStore * list FailedUpdate) StorageError unit := fun '(s, failed) =>
  let '(k, v) := batch in
  match state_get k s with
  | Ok account =>
      match apply_updates (clock k) 0 v account with
      | Ok final_account => ((on_trie (trie_insert k final_account) s, failed), Ok tt)
      | Err err => ((s, failed ++ [(k, v, StorageOther (core_error_to_string err))]), Ok tt)
      | Panic => ((s, failed), Panic)
      end
  | Err err => ((s, failed ++ [(k, v, err)]), Ok tt)
  | Panic => ((s, failed), Panic)
  end.

Fixpoint apply_batches (clock : Address -> nat -> Z) (batches : list (Address * list UpdateArgs))
    : method (StateStore * list FailedUpdate) StorageError unit :=
  match batches with
  | [] => mret tt
  | b :: batches' => apply_batch clock b ≫= fun _ => apply_batches clock batches'
  end.

Definition batch_update (clock : Address -> nat -> Z) (updates : list (Address * UpdateArgs))
    : method StateStore StorageError (option (list FailedUpdate)) := fun s =>
  let updates := sort_updates updates in
  match apply_batches clock (hash_iter (update_batches updates)) (s, []) with
  | ((s', failed), Ok _) =>
      let s'' := if bool_decide (length failed <> length updates) then state_commit s' else s' in
      (s'', Ok (some_nonempty failed))
  | ((s', _), Err e) => (s', Err e)
  | ((s', _), Panic) => (s', Panic)
  end.

(** ** The transaction and claim stores *)

Record TransactionStore := mk_TransactionStore {
  txn_trie : LeftRightTrie TransactionDigest TransactionKind;
}.

Definition TransactionStore_new (path : string) : TransactionStore :=
  {| txn_trie := trie_new (path +:+ "/transactions") |}.

Definition txns_commit (s : TransactionStore) : TransactionStore :=
  {| txn_trie := trie_publish (txn_trie s) |}.

Definition txns_insert (txn : TransactionKind) (s : TransactionStore) : TransactionStore :=
  {| txn_trie := trie_insert (txn_digest txn) txn (txn_trie s) |}.

Definition txns_extend (transactions : list TransactionKind) (s : TransactionStore)
    : TransactionStore :=
  {| txn_trie := trie_extend (map (fun txn => (txn_digest txn, Some txn)) transactions)
                   (txn_trie s) |}.

Definition txns_root_hash (s : TransactionStore) : result StorageError RootHash :=
  map_err StorageOther (trie_root (txn_trie s)).

Record ClaimStore := mk_ClaimStore {
  claim_trie : LeftRightTrie Z Claim;
}.

Definition ClaimStore_new (path : string) : ClaimStore :=
  {| claim_trie := trie_new (path +:+ "/claims") |}.

Definition claims_commit (s : ClaimStore) : ClaimStore :=
  {| claim_trie := trie_publish (claim_trie s) |}.

Definition claims_insert_uncommited (claim : Claim) (s : ClaimStore) : ClaimStore :=
  {| claim_trie := trie_insert (c_hash claim) claim (claim_trie s) |}.

Definition claims_insert (claim : Claim) (s : ClaimStore) : ClaimStore :=
  claims_commit (claims_insert_uncommited claim s).

(** No insertion of a claim fails, so the batch reports none. *)
Definition claims_batch_insert (inserts : list (Z * Claim)) (s : ClaimStore)
    : ClaimStore * option (list (Z * Claim * StorageError)) :=
  (claims_commit (fold_left (fun s p => claims_insert_uncommited p.2 s) inserts s), None).

Definition claims_extend (claims : list (Z * option Claim)) (s : ClaimStore) : ClaimStore :=
  {| claim_trie := trie_extend claims (claim_trie s) |}.

Definition claims_entries (s : ClaimStore) : gmap string Claim :=
  fold_left (fun m claim => <[c_node_id claim := claim]> m) (trie_values (claim_trie s)) ∅.

Definition claims_root_hash (s : ClaimStore) : result StorageError RootHash :=
  map_err StorageOther (trie_root (claim_trie s)).

(** ** The database: [vrrbdb.rs] *)

Record VrrbDb := mk_VrrbDb {
  state_store : StateStore;
  transaction_store : TransactionStore;
  claim_store : ClaimStore;
}.

Definition VrrbDb_new (path : string) : VrrbDb :=
  {| state_store := StateStore_new path; transaction_store := TransactionStore_new path;
     claim_store := ClaimStore_new path |}.

Record ApplyBlockResult := mk_ApplyBlockResult {
  result_state_root_hash : RootHash;
  result_transactions_root_hash : RootHash;
}.

Definition state_root_hash_str (r : ApplyBlockResult) : string :=
  hex_encode (root_bytes (result_state_root_hash r)).

Definition transactions_root_hash_str (r : ApplyBlockResult) : string :=
  hex_encode (root_bytes (result_transactions_root_hash r)).

(** A method of one of the stores, run on the database. *)
Definition on_state {A} (m : method StateStore StorageError A) : method VrrbDb StorageError A :=
  fun db => let '(s, r) := m (state_store db) in
            (mk_VrrbDb s (transaction_store db) (claim_store db), r).

Definition on_txns (f : TransactionStore -> TransactionStore) (db : VrrbDb) : VrrbDb :=
  mk_VrrbDb (state_store db) (f (transaction_store db)) (claim_store db).

Definition on_claims (f : ClaimStore -> ClaimStore) (db : VrrbDb) : VrrbDb :=
  mk_VrrbDb (state_store db) (transaction_store db) (f (claim_store db)).

Definition commit_transactions : VrrbDb -> VrrbDb := on_txns txns_commit.
Definition commit_state : method VrrbDb StorageError unit := on_state (modify state_commit).
Definition commit_claims : VrrbDb -> VrrbDb := on_claims claims_commit.

Definition insert_account (key : Address) (account : Account) : method VrrbDb StorageError unit :=
  on_state (state_insert key account).

Definition extend_accounts (accounts : list (Address * option Account))
    : method VrrbDb StorageError unit :=
  on_state (modify (state_extend accounts)).

Definition update_account (now : Z) (args : UpdateArgs) : method VrrbDb StorageError unit :=
  fun db =>
    let '(db', r) := on_state (state_update now args) db in
    (db', map_err (fun err => StorageOther (storage_error_to_string err)) r).

Definition insert_transaction (txn : TransactionKind) : method VrrbDb StorageError unit :=
  modify (on_txns (txns_insert txn)).

Definition extend_transactions (txns : list TransactionKind) : VrrbDb -> VrrbDb :=
  on_txns (txns_extend txns).

Definition insert_claim (claim : Claim) : method VrrbDb StorageError unit :=
  modify (on_claims (claims_insert claim)).

Definition extend_claims (claims : list (Z * option Claim)) : VrrbDb -> VrrbDb :=
  on_claims (claims_extend claims).

(** [VrrbDbReadHandle::get_account_by_address]; [debug] is the error's [Debug]
    text. *)
Definition get_account_by_address (debug : StorageError -> string) (address : Address)
    (db : VrrbDb) : result StorageError Account :=
  map_err (fun err => StorageOther ("Failed to get account by address: " +:+ debug err))
    (state_get address (state_store db)).

Section apply.
Variable debug : StorageError -> string.

(** [apply_transfer] with the clock readings of the two updates. *)
Definition apply_transfer (now1 now2 : Z) (transfer : Transfer)
    : method VrrbDb StorageError unit :=
  let txn := TransferKind transfer in
  let sender_address := txn_sender_address txn in
  let receiver_address := txn_receiver_address txn in
  get ≫= fun db =>
  lift (get_account_by_address debug sender_address db) ≫= fun _ =>
  lift (get_account_by_address debug receiver_address db) ≫= fun _ =>
  let updates := IntoUpdates_from_txn txn in
  on_state (update_uncommited now1 sender_address
              (UpdateArgs_from (sender_update updates))) ≫= fun _ =>
  on_state (update_uncommited now2 receiver_address
              (UpdateArgs_from (receiver_update updates))) ≫= fun _ =>
  commit_state ≫= fun _ =>
  insert_transaction txn.

Definition apply_txn (now1 now2 : Z) (txn_kind : TransactionKind)
    : method VrrbDb StorageError unit :=
  match txn_kind with
  | TransferKind txn => apply_transfer now1 now2 txn
  end.

(** The transactions of a genesis block, the [i]-th at readings [clock i]. *)
Fixpoint apply_txns (clock : nat -> Z * Z) (i : nat) (txns : list TransactionKind)
    : method VrrbDb StorageError unit :=
  match txns with
  | [] => mret tt
  | t :: txns' =>
      apply_txn (clock i).1 (clock i).2 t ≫= fun _ => apply_txns clock (S i) txns'
  end.

(** [apply_block]: the [todo!()] of the convergence arm panics. *)
Definition apply_block (clock : nat -> Z * Z) (block : Block)
    : method VrrbDb StorageError ApplyBlockResult :=
  match block with
  | Genesis b =>
      apply_txns clock 0 (gb_txns b).*2 ≫= fun _ =>
      modify commit_transactions ≫= fun _ =>
      commit_state ≫= fun _ =>
      get ≫= fun db =>
      lift (state_root_hash (state_store db)) ≫= fun state_root =>
      lift (txns_root_hash (transaction_store db)) ≫= fun txns_root =>
      mret (mk_ApplyBlockResult state_root txns_root)
  | Convergence _ => lift Panic
  | Proposal _ => throw (StorageOther "unsupported block type")
  end.
End apply.

End storage.
