(* ===== verification/TrieBackend.v ===== *)
(** * The back end of the tries: [crates/storage/vrrbdb/src/rocksdb_adapter.rs]

    The adapter that keeps the nodes of a Merkle trie in a RocksDB instance and
    the history of its values in memory. RocksDB, the node types of the patriecia
    crate and bincode are parameters. *)

From S2P Require Import Prelude Primitives Storage.

(** ** Third-party code *)

Class RocksDb := {
  DbOptions : Type;
  options_default : DbOptions;
  set_keep_log_file_num : Z -> DbOptions -> DbOptions;
  set_db_log_dir : string -> DbOptions -> DbOptions;
  set_error_if_exists : bool -> DbOptions -> DbOptions;
  create_if_missing : bool -> DbOptions -> DbOptions;
  create_missing_column_families : bool -> DbOptions -> DbOptions;
  DEFAULT_COLUMN_FAMILY_NAME : string;
  DB : Type;
  list_cf : DbOptions -> string -> result string (list string);
  open_cf : DbOptions -> string -> list string -> result string DB;
  create_cf : string -> DbOptions -> DB -> DB * result string unit;
  db_dir : DB -> string;
  db_get : bytes -> DB -> result string (option bytes);
  db_put : bytes -> bytes -> DB -> DB * result string unit;
  db_iterator : DB -> list (result string (bytes * bytes));
  db_contents : DB -> gmap bytes bytes;
}.

Class RocksDbLaws `{!RocksDb} := {
  db_get_contents : forall k d o, db_get k d = Ok o -> o = db_contents d !! k;
  db_put_contents : forall k v d d', db_put k v d = (d', Ok tt) ->
    db_contents d' = <[k := v]> (db_contents d);
}.

(** Nodes and their keys, with their encodings; [None] is a failure. *)
Class Patriecia := {
  KeyHash : Type;
  KeyHash_eq_dec :: EqDecision KeyHash;
  KeyHash_countable :: Countable KeyHash;
  key_hash_lt : KeyHash -> KeyHash -> bool;
  NodeKey : Type;
  NodeKey_eq_dec :: EqDecision NodeKey;
  NodeKey_countable :: Countable NodeKey;
  LeafNode : Type;
  Node : Type;
  node_leaf : Node -> option LeafNode;
  leaf_key_hash : LeafNode -> KeyHash;
  StaleNodeIndex : Type;
  StaleNodeIndex_eq_dec :: EqDecision StaleNodeIndex;
  StaleNodeIndex_countable :: Countable StaleNodeIndex;
  encode_key : NodeKey -> result string bytes;
  decode_key : bytes -> result string NodeKey;
  encode_node : Node -> result string bytes;
  decode_node : bytes -> result string Node;
}.

Class PatrieciaLaws `{!Patriecia} := {
  decode_encode_key : forall k b, encode_key k = Ok b -> decode_key b = Ok k;
  decode_encode_node : forall n b, encode_node n = Ok b -> decode_node b = Ok n;
  key_hash_lt_irrefl : forall k, key_hash_lt k k = false;
  key_hash_lt_trans : forall j k l,
    key_hash_lt j k = true -> key_hash_lt k l = true -> key_hash_lt j l = true;
}.

(** ** The directories of a node *)

Definition DEFAULT_VRRB_DATA_DIR_PATH : string := ".vrrb".
Definition DEFAULT_VRRB_DB_PATH : string := ".vrrb/node/db".

(** [PathBuf::push] of a relative component: a separator is added unless the path
    is empty or ends in one. *)
Definition path_push (path component : string) : string :=
  match last (String.list_ascii_of_string path) with
  | None => component
  | Some c => if bool_decide (c = Ascii.ascii_of_N 47) then path +:+ component
              else path +:+ "/" +:+ component
  end.

(** For the value of [VRRB_DATA_DIR_PATH], when the variable is set. *)
Definition get_vrrb_data_dir (var : option string) : result StorageError string :=
  Ok (default DEFAULT_VRRB_DATA_DIR_PATH var).

Definition get_node_data_dir (var : option string) : result StorageError string :=
  vrrb_data_dir ← get_vrrb_data_dir var; Ok (path_push vrrb_data_dir "node").

Inductive Environment :=
| Local
| Testnet
| Mainnet.

Definition Environment_to_string (e : Environment) : string :=
  match e with
  | Local => "local"
  | Testnet => "testnet"
  | Mainnet => "mainnet"
  end.

Definition Environment_from_str (s : string) : result NodeError Environment :=
  if bool_decide (s ∈ ["local"; "dev"]) then Ok Local
  else if bool_decide (s ∈ ["testnet"; "test"; "stg"]) then Ok Testnet
  else if bool_decide (s ∈ ["mainnet"; "main"; "prod"]) then Ok Mainnet
  else Err (InvalidEnvironment s).

(** For the value of [VRRB_ENVIRONMENT]. *)
Definition get_vrrb_environment (var : option string) : Environment :=
  match Environment_from_str (default (Environment_to_string Local) var) with
  | Ok e => e
  | _ => Local
  end.

(** The two variables the adapter reads. *)
Record EnvVars := mk_EnvVars {
  VRRB_ENVIRONMENT : option string;
  VRRB_DATA_DIR_PATH : option string;
}.

(** The values of a key, oldest first; [None] is a deletion. *)
Abbreviation History := (gmap KeyHash (list (Z * option bytes))).

Section backend.
Context `{!RocksDb, !Patriecia}.

Record RocksDbInner := mk_RocksDbInner {
  inner_db : DB;
  stale_nodes : gset StaleNodeIndex;
  value_history : History;
  preimages : gmap KeyHash bytes;
}.

Definition RocksDbInner_new (instance : DB) : RocksDbInner := mk_RocksDbInner instance ∅ ∅ ∅.

(** The adapter shares its data behind a lock. *)
Record RocksDbAdapter := mk_RocksDbAdapter {
  adapter_data : RocksDbInner;
  adapter_column : string;
}.

(** ** Opening *)

Definition base_db_options (env : EnvVars) : DbOptions :=
  let options :=
    match get_vrrb_environment (VRRB_ENVIRONMENT env) with
    | Local => set_keep_log_file_num 3 options_default
    | _ => options_default
    end in
  match get_node_data_dir (VRRB_DATA_DIR_PATH env) with
  | Ok node_data_dir => set_db_log_dir (path_push (path_push node_data_dir "db") "log") options
  | _ => set_db_log_dir (path_push (path_push EmptyString "db") "log") options
  end.

Definition new_db_instance (options : DbOptions) (path column_family : string)
    : result StorageError DB :=
  let cfs := match list_cf options path with Ok cfs => cfs | _ => [] end in
  instance ← map_err StorageOther (open_cf options path cfs);
  if negb (bool_decide (column_family ∈ cfs))
     && negb (bool_decide (column_family = DEFAULT_COLUMN_FAMILY_NAME)) then
    let '(instance, r) := create_cf column_family options instance in
    _ ← map_err StorageOther r; Ok instance
  else Ok instance.

Definition RocksDbAdapter_new (env : EnvVars) (path column_family : string)
    : result StorageError RocksDbAdapter :=
  let options := create_missing_column_families true
    (create_if_missing true (set_error_if_exists false (base_db_options env))) in
  instance ← map_err (fun err => StorageOther (storage_error_to_string err))
               (new_db_instance options path column_family);
  Ok (mk_RocksDbAdapter (RocksDbInner_new instance) column_family).

Definition RocksDbAdapter_default {E} (env : EnvVars) : result E RocksDbAdapter :=
  let options := create_missing_column_families true
    (create_if_missing true (set_error_if_exists false (base_db_options env))) in
  db ← unwrap (new_db_instance options DEFAULT_VRRB_DB_PATH DEFAULT_COLUMN_FAMILY_NAME);
  Ok (mk_RocksDbAdapter (RocksDbInner_new db) DEFAULT_COLUMN_FAMILY_NAME).

(** A clone opens the directory again. *)
Definition RocksDbAdapter_clone {E} (env : EnvVars) (a : RocksDbAdapter)
    : result E RocksDbAdapter :=
  let d := adapter_data a in
  db ← unwrap (new_db_instance (set_error_if_exists false (base_db_options env))
                 (db_dir (inner_db d)) (adapter_column a));
  Ok (mk_RocksDbAdapter (mk_RocksDbInner db (stale_nodes d) (value_history d) (preimages d))
        (adapter_column a)).

(** ** Writing *)

Definition put_value (h : History) (version : Z) (key : KeyHash) (value : option bytes)
    : result string History :=
  match h !! key with
  | Some entries =>
      match last entries with
      | Some (last_version, _) =>
          match (version ?= last_version)%Z with
          | Lt => Err "values must be pushed in order"
          | Eq => Ok (<[key := removelast entries ++ [(last_version, value)]]> h)
          | Gt => Ok (<[key := entries ++ [(version, value)]]> h)
          end
      | None => Ok (<[key := entries ++ [(version, value)]]> h)
      end
  | None => Ok (<[key := [(version, value)]]> h)
  end.

(** What a batch of the trie carries, in the order it is iterated. *)
Record NodeBatch := mk_NodeBatch {
  batch_nodes : list (NodeKey * Node);
  batch_values : list (Z * KeyHash * option bytes);
}.

Record TreeUpdateBatch := mk_TreeUpdateBatch {
  node_batch : NodeBatch;
  stale_node_index_batch : list StaleNodeIndex;
}.

Definition with_db (db : DB) (a : RocksDbAdapter) : RocksDbAdapter :=
  let d := adapter_data a in
  mk_RocksDbAdapter (mk_RocksDbInner db (stale_nodes d) (value_history d) (preimages d))
    (adapter_column a).

Definition with_history (h : History) (a : RocksDbAdapter) : RocksDbAdapter :=
  let d := adapter_data a in
  mk_RocksDbAdapter (mk_RocksDbInner (inner_db d) (stale_nodes d) h (preimages d))
    (adapter_column a).

Definition with_stale (s : gset StaleNodeIndex) (a : RocksDbAdapter) : RocksDbAdapter :=
  let d := adapter_data a in
  mk_RocksDbAdapter (mk_RocksDbInner (inner_db d) s (value_history d) (preimages d))
    (adapter_column a).

Fixpoint put_nodes (l : list (NodeKey * Node)) : method RocksDbAdapter string unit :=
  match l with
  | [] => mret tt
  | (node_key, node) :: l' => fun a =>
      match (kb ← encode_key node_key; nb ← encode_node node; Ok (kb, nb)) with
      | Ok (kb, nb) =>
          match db_put kb nb (inner_db (adapter_data a)) with
          | (db, Ok _) => put_nodes l' (with_db db a)
          | (db, Err e) => (with_db db a, Err e)
          | (db, Panic) => (with_db db a, Panic)
          end
      | Err e => (a, Err e)
      | Panic => (a, Panic)
      end
  end.

Fixpoint put_values (l : list (Z * KeyHash * option bytes)) : method RocksDbAdapter string unit :=
  match l with
  | [] => mret tt
  | (version, key_hash, value) :: l' => fun a =>
      match put_value (value_history (adapter_data a)) version key_hash value with
      | Ok h => put_values l' (with_history h a)
      | Err e => (a, Err e)
      | Panic => (a, Panic)
      end
  end.

Definition write_node_batch (b : NodeBatch) : method RocksDbAdapter string unit :=
  _ ← put_nodes (batch_nodes b); put_values (batch_values b).

(** The index is inserted before it is checked. *)
Definition put_stale_node_index (index : StaleNodeIndex) : method RocksDbAdapter string unit :=
  fun a =>
  let s := stale_nodes (adapter_data a) in
  (with_stale ({[ index ]} ∪ s) a,
   if bool_decide (index ∈ s) then Err "Duplicated retire log" else Ok tt).

(** Collecting into a [Result] stops at the first error. *)
Fixpoint put_stale_node_indices (l : list StaleNodeIndex) : method RocksDbAdapter string unit :=
  match l with
  | [] => mret tt
  | i :: l' => _ ← put_stale_node_index i; put_stale_node_indices l'
  end.

Definition write_tree_update_batch (b : TreeUpdateBatch) : method RocksDbAdapter string unit :=
  _ ← write_node_batch (node_batch b); put_stale_node_indices (stale_node_index_batch b).

(** ** Reading *)

Definition get_node_option (node_key : NodeKey) (a : RocksDbAdapter)
    : result string (option Node) :=
  key_bytes ← encode_key node_key;
  match db_get key_bytes (inner_db (adapter_data a)) with
  | Ok (Some b) => match decode_node b with Ok node => Ok (Some node) | _ => Ok None end
  | _ => Ok None
  end.

(** The scan from the newest value back. *)
Definition scan (max_version : Z) (entries : list (Z * option bytes)) : option bytes :=
  match head (filter (fun e => e.1 <= max_version)%Z (reverse entries)) with
  | Some (_, value) => value
  | None => None
  end.

Definition get_value_option (max_version : Z) (key_hash : KeyHash) (a : RocksDbAdapter)
    : result string (option bytes) :=
  match value_history (adapter_data a) !! key_hash with
  | Some version_history => Ok (scan max_version version_history)
  | None => Ok None
  end.

Definition rightmost_step (acc : result string (option (NodeKey * LeafNode)))
    (res : result string (bytes * bytes)) : result string (option (NodeKey * LeafNode)) :=
  best ← acc;
  match res with
  | Ok (kb, vb) =>
      node_key ← decode_key kb;
      node_value ← decode_node vb;
      match node_leaf node_value with
      | Some leaf =>
          match best with
          | Some (_, b) =>
              if key_hash_lt (leaf_key_hash b) (leaf_key_hash leaf)
              then Ok (Some (node_key, leaf)) else Ok best
          | None => Ok (Some (node_key, leaf))
          end
      | None => Ok best
      end
  | _ => Ok best
  end.

Definition get_rightmost_leaf (a : RocksDbAdapter) : result string (option (NodeKey * LeafNode)) :=
  fold_left rightmost_step (db_iterator (inner_db (adapter_data a))) (Ok None).

(** Entries that do not decode are skipped. *)
Definition nodes (a : RocksDbAdapter) : gmap NodeKey Node :=
  fold_left (fun m res =>
    match res with
    | Ok (kb, vb) =>
        match decode_key kb, decode_node vb with
        | Ok node_key, Ok node => <[node_key := node]> m
        | _, _ => m
        end
    | _ => m
    end) (db_iterator (inner_db (adapter_data a))) ∅.
End backend.

(** ** The values against a log of the writes

    The contract of a versioned store: a read at a version gives the last write of
    the key at that version or below, and the versions of a key never go back. *)

Section values.
Context `{!RocksDb, !Patriecia}.

Abbreviation Write := (Z * KeyHash * option bytes)%type.

Definition log_get (log : list Write) (max_version : Z) (key : KeyHash) : option bytes :=
  match last (filter (fun e => e.1.2 = key /\ e.1.1 <= max_version)%Z log) with
  | Some e => e.2
  | None => None
  end.

(** No earlier write of the same key has a higher version. *)
Definition follows (log : list Write) (e : Write) : Prop :=
  Forall (fun f => f.1.2 = e.1.2 -> f.1.1 <= e.1.1)%Z log.

Definition in_push_order (log : list Write) : Prop :=
  forall l1 e l2, log = l1 ++ e :: l2 -> follows l1 e.

Definition newest_of (log : list Write) (key : KeyHash) (entries : list (Z * option bytes)) : Prop :=
  match last entries with
  | Some (v, _) =>
      (exists x, (v, key, x) ∈ log) /\ forall e, e ∈ log -> e.1.2 = key -> (e.1.1 <= v)%Z
  | None => forall e, e ∈ log -> e.1.2 <> key
  end.

Definition recorded (log : list Write) (h : History) : Prop :=
  forall key, let entries := default [] (h !! key) in
    (forall m, scan m entries = log_get log m key) /\ newest_of log key entries.

Lemma scan_snoc m es v x :
  scan m (es ++ [(v, x)]) = if decide (v <= m)%Z then x else scan m es.
Proof.
  unfold scan. rewrite reverse_snoc, filter_cons. simpl. by case_decide.
Qed.

Lemma log_get_snoc log e m key :
  log_get (log ++ [e]) m key =
  if decide (e.1.2 = key /\ e.1.1 <= m)%Z then e.2 else log_get log m key.
Proof.
  unfold log_get. rewrite filter_app, filter_cons, filter_nil. case_decide.
  - by rewrite last_snoc.
  - by rewrite app_nil_r.
Qed.

Lemma newest_of_push log key v x es :
  follows log (v, key, x) -> newest_of (log ++ [(v, key, x)]) key (es ++ [(v, x)]).
Proof.
  unfold follows, newest_of. rewrite Forall_forall, last_snoc. intros F. split.
  - exists x. apply elem_of_app. right. by apply list_elem_of_singleton.
  - intros e [He | ->%list_elem_of_singleton]%elem_of_app; simpl; [by apply F | lia].
Qed.

Lemma newest_of_other log key e es :
  e.1.2 <> key -> newest_of log key es -> newest_of (log ++ [e]) key es.
Proof.
  unfold newest_of. intros N. destruct (last es) as [[v y]|].
  - intros [[x Hx] B]. split; [exists x; apply elem_of_app; by left|].
    intros f [? | ->%list_elem_of_singleton]%elem_of_app; [by apply B | done].
  - intros B f [? | ->%list_elem_of_singleton]%elem_of_app; [by apply B | done].
Qed.

(** The version a history accepts next is what the log accepts next. *)
Lemma newest_follows log key es v x :
  newest_of log key es ->
  follows log (v, key, x) <->
  match last es with Some (lv, _) => (lv <= v)%Z | None => True end.
Proof.
  unfold newest_of, follows. rewrite Forall_forall.
  destruct (last es) as [[lv y]|]; simpl.
  - intros [[z Hz] B]. split; [intros F; by apply (F _ Hz)|].
    intros L f Hf K. specialize (B f Hf K). lia.
  - intros B. split; [done|]. intros _ f Hf K. by destruct (B f Hf).
Qed.

(** What an accepted write leaves: the entries of its key end with it. *)
Lemma put_value_cases h v key x :
  let entries := default [] (h !! key) in
  match last entries with Some (lv, _) => (lv <= v)%Z | None => True end ->
  exists es, put_value h v key x = Ok (<[key := es ++ [(v, x)]]> h) /\
    forall m, (m < v)%Z -> scan m es = scan m entries.
Proof.
  unfold put_value. destruct (h !! key) as [es|]; simpl; [|by exists []].
  destruct es as [|[lv y] es _] using rev_ind; [by exists []|].
  rewrite last_snoc. intros L. destruct (Z.compare_spec v lv) as [->| |]; [|lia|].
  - exists es. rewrite removelast_last. split; [done|]. intros m Hm.
    rewrite scan_snoc. by rewrite decide_False by lia.
  - by exists (es ++ [(lv, y)]).
Qed.

Lemma put_value_recorded log h v key x :
  recorded log h -> follows log (v, key, x) ->
  exists h', put_value h v key x = Ok h' /\ recorded (log ++ [(v, key, x)]) h'.
Proof.
  intros R F. destruct (R key) as [Sk Nk].
  destruct (put_value_cases h v key x) as (es & -> & E); [by eapply newest_follows|].
  eexists. split; [done|]. intros k'. cbv zeta. destruct (decide (key = k')) as [<-|N].
  - rewrite lookup_insert_eq. simpl. split; [|by apply newest_of_push].
    intros m. rewrite scan_snoc, log_get_snoc. simpl. repeat case_decide; try (done || tauto).
    rewrite E by lia. apply Sk.
  - rewrite lookup_insert_ne by done. destruct (R k') as [S' N']. split.
    + intros m. rewrite log_get_snoc, decide_False by (simpl; tauto). apply S'.
    + by apply newest_of_other.
Qed.

Lemma put_value_refused log h v key x :
  recorded log h -> ~ follows log (v, key, x) ->
  put_value h v key x = Err "values must be pushed in order".
Proof.
  intros R F. destruct (R key) as [_ Nk]. rewrite (newest_follows _ _ _ v x Nk) in F.
  unfold put_value. destruct (h !! key) as [es|]; simpl in F; [|done].
  destruct (last es) as [[lv y]|]; [|done].
  destruct (Z.compare_spec v lv); [lia | done | lia].
Qed.

Lemma get_value_recorded log a m key :
  recorded log (value_history (adapter_data a)) ->
  get_value_option m key a = Ok (log_get log m key).
Proof.
  intros R. destruct (R key) as [S _]. unfold get_value_option. rewrite <- S.
  by destruct (_ !! key).
Qed.

Lemma recorded_empty : recorded [] ∅.
Proof. intros key. rewrite lookup_empty. split; [done|]. intros e []%not_elem_of_nil. Qed.

#[export] Instance follows_dec log e : Decision (follows log e).
Proof. unfold follows. apply _. Defined.

(** A run of writes stops at the first one out of order and keeps those before it. *)
Lemma put_values_recorded l : forall log a a' r,
  recorded log (value_history (adapter_data a)) ->
  put_values l a = (a', r) ->
  exists l1 l2, l = l1 ++ l2 /\
    recorded (log ++ l1) (value_history (adapter_data a')) /\
    (forall p e q, l1 = p ++ e :: q -> follows (log ++ p) e) /\
    match l2 with
    | [] => r = Ok tt
    | e :: _ => r = Err "values must be pushed in order" /\ ~ follows (log ++ l1) e
    end.
Proof.
  induction l as [|[[v key] x] l IH]; simpl; intros log a a' r R E.
  - injection E as <- <-. exists [], []. rewrite (app_nil_r log). split_and!; try done.
    by intros [] ? ?.
  - destruct (decide (follows log (v, key, x))) as [F|F].
    + destruct (put_value_recorded _ _ _ _ _ R F) as (h' & P & R'). rewrite P in E.
      destruct (IH (log ++ [(v, key, x)]) (with_history h' a) a' r R' E) as (l1 & l2 & -> & R1 & O & T).
      exists ((v, key, x) :: l1), l2. rewrite <- app_assoc in R1.
      split_and!; try done; [|destruct l2; [done|]; by rewrite <- app_assoc in T].
      intros [|y p] e q Q; simpl in Q; injection Q as <- Q; [by rewrite app_nil_r|].
      specialize (O p e q Q). by rewrite <- app_assoc in O.
    + rewrite (put_value_refused _ _ _ _ _ R F) in E. injection E as <- <-.
      exists [], ((v, key, x) :: l). rewrite (app_nil_r log).
      split_and!; try done. by intros [] ? ?.
Qed.
End values.

(** ** The nodes *)

Section nodes.
Context `{!RocksDb, !RocksDbLaws, !Patriecia, !PatrieciaLaws}.

Abbreviation contents a := (db_contents (inner_db (adapter_data a))).

Lemma encode_key_inj k k' b : encode_key k = Ok b -> encode_key k' = Ok b -> k = k'.
Proof. intros ?%decode_encode_key ?%decode_encode_key. congruence. Qed.

Lemma put_nodes_contents l : forall a a' k kb,
  put_nodes l a = (a', Ok tt) -> encode_key k = Ok kb ->
  match last (filter (fun e => e.1 = k) l) with
  | Some e => exists nb, encode_node e.2 = Ok nb /\ contents a' !! kb = Some nb
  | None => contents a' !! kb = contents a !! kb
  end.
Proof.
  induction l as [|[k1 n1] l IH]; intros a a' k kb E Hk; simpl in E; [by injection E as <-|].
  destruct (encode_key k1) as [kb1| |] eqn:K1; simpl in E; [|done..].
  destruct (encode_node n1) as [nb1| |] eqn:N1; simpl in E; [|done..].
  destruct (db_put kb1 nb1 _) as [db [[]| |]] eqn:P; [|done..].
  apply db_put_contents in P. specialize (IH _ _ _ _ E Hk). simpl in IH. rewrite P in IH.
  rewrite filter_cons. case_decide as D; simpl in D.
  - subst k1. rewrite K1 in Hk. injection Hk as ->.
    destruct (filter _ l) as [|f l'] eqn:Fl; simpl in *.
    + exists nb1. by rewrite IH, lookup_insert_eq.
    + destruct (last (f :: l')) eqn:La; [exact IH|]. by apply last_None in La.
  - destruct (last (filter _ l)); [done|]. rewrite IH. apply lookup_insert_ne.
    intros ->. apply D. by eapply encode_key_inj.
Qed.

Lemma last_filter_unique (k : NodeKey) (n : Node) l :
  NoDup l.*1 -> (k, n) ∈ l -> last (filter (fun e => e.1 = k) l) = Some (k, n).
Proof.
  induction l as [|[k1 n1] l IH]; [by intros _ ?%not_elem_of_nil|].
  simpl. rewrite NoDup_cons. intros [F ND] I. rewrite filter_cons.
  assert (k1 = k -> filter (fun e : NodeKey * Node => e.1 = k) l = []) as Z.
  { intros ->. destruct (filter _ l) as [|[k2 n2] l'] eqn:Q; [done|]. destruct F.
    assert ((k2, n2) ∈ filter (fun e : NodeKey * Node => e.1 = k) l) as I2
      by (rewrite Q; apply elem_of_cons; by left).
    apply list_elem_of_filter in I2 as [E2 I2]. simpl in E2. subst k2.
    by apply (list_elem_of_fmap_2 fst) in I2. }
  apply elem_of_cons in I as [[= -> ->]|I].
  - rewrite decide_True by done. by rewrite Z.
  - case_decide as D; simpl in D; [|by apply IH].
    subst k1. destruct F. by apply (list_elem_of_fmap_2 fst) in I.
Qed.

Lemma put_values_contents l : forall a a' r, put_values l a = (a', r) -> contents a' = contents a.
Proof.
  induction l as [|[[v key] x] l IH]; simpl; intros a a' r E; [by injection E as <-|].
  destruct (put_value _ _ _ _); [|by injection E as <-..]. by apply IH in E.
Qed.

Lemma put_nodes_history l : forall a a' r,
  put_nodes l a = (a', r) -> value_history (adapter_data a') = value_history (adapter_data a).
Proof.
  induction l as [|[k n] l IH]; simpl; intros a a' r E; [by injection E as <-|].
  destruct (encode_key k); simpl in E; [|by injection E as <-..].
  destruct (encode_node n); simpl in E; [|by injection E as <-..].
  destruct (db_put _ _ _) as [db [| |]]; [|by injection E as <-..]. by apply IH in E.
Qed.

Lemma write_node_batch_split b a a' :
  write_node_batch b a = (a', Ok tt) ->
  exists a1, put_nodes (batch_nodes b) a = (a1, Ok tt) /\ put_values (batch_values b) a1 = (a', Ok tt).
Proof.
  unfold write_node_batch. rewrite method_bind_unfold.
  destruct (put_nodes _ a) as [a1 [[]| |]]; [|done..]. by exists a1.
Qed.

Lemma get_node_option_contents k kb n nb a :
  encode_key k = Ok kb -> encode_node n = Ok nb -> contents a !! kb = Some nb ->
  is_ok (db_get kb (inner_db (adapter_data a))) = true ->
  get_node_option k a = Ok (Some n).
Proof.
  intros Hk Hn C G. unfold get_node_option. rewrite Hk. simpl.
  destruct (db_get _ _) as [o| |] eqn:Hg; [|done..].
  apply db_get_contents in Hg as ->. rewrite C. by rewrite (decode_encode_node n).
Qed.

(** ** The rightmost leaf *)

(** What a readable entry of the instance decodes to. *)
Definition decoded (res : result string (bytes * bytes)) (k : NodeKey) (n : Node) : Prop :=
  exists kb vb, res = Ok (kb, vb) /\ decode_key kb = Ok k /\ decode_node vb = Ok n.

Definition decodes (res : result string (bytes * bytes)) : Prop :=
  match res with Ok _ => exists k n, decoded res k n | _ => True end.

Definition greatest (l : list (result string (bytes * bytes))) (o : option (NodeKey * LeafNode))
    : Prop :=
  let leaf_of k leaf := exists res n, res ∈ l /\ decoded res k n /\ node_leaf n = Some leaf in
  match o with
  | None => forall k leaf, ~ leaf_of k leaf
  | Some (k, leaf) => leaf_of k leaf /\
      forall k' leaf', leaf_of k' leaf' -> key_hash_lt (leaf_key_hash leaf) (leaf_key_hash leaf') = false
  end.

Lemma rightmost_step_bad res : forall acc, ~ decodes res -> is_ok (rightmost_step acc res) = false.
Proof.
  intros [best| |] D; [|done..]. destruct res as [[kb vb]| |]; simpl in *; [|by destruct D..].
  destruct (decode_key kb) eqn:K; simpl; [|done..].
  destruct (decode_node vb) eqn:N; simpl; [|done..].
  destruct D. by repeat eexists.
Qed.

Lemma decoded_inj res k n k' n' : decoded res k n -> decoded res k' n' -> k = k' /\ n = n'.
Proof. intros (?&?&->&?&?) (?&?&[= <- <-]&?&?). split; congruence. Qed.

(** An entry without a leaf changes nothing. *)
Lemma greatest_skip l res o :
  (forall k n, decoded res k n -> node_leaf n = None) -> greatest l o -> greatest (l ++ [res]) o.
Proof.
  intros S G. assert (forall r k n leaf, r ∈ l ++ [res] -> decoded r k n ->
    node_leaf n = Some leaf -> r ∈ l) as In.
  { intros r k n leaf [? | ->%list_elem_of_singleton]%elem_of_app D L; [done|].
    apply S in D. congruence. }
  destruct o as [[k leaf]|]; simpl in *.
  - destruct G as [(r & n & I & D & L) B]. split.
    + exists r, n. split_and!; [apply elem_of_app; by left | done | done].
    + intros k' leaf' (r' & n' & I' & D' & L'). apply (B k'). exists r', n'. eauto.
  - intros k leaf (r & n & I & D & L). apply (G k leaf). exists r, n. eauto.
Qed.

Lemma greatest_leaf l res k n leaf o :
  decoded res k n -> node_leaf n = Some leaf -> greatest l o ->
  greatest (l ++ [res])
    match o with
    | Some (_, b) =>
        if key_hash_lt (leaf_key_hash b) (leaf_key_hash leaf) then Some (k, leaf) else o
    | None => Some (k, leaf)
    end.
Proof.
  intros D L G. assert (res ∈ l ++ [res]) as Last.
  { apply elem_of_app. right. by apply list_elem_of_singleton. }
  destruct o as [[kb b]|]; [destruct (key_hash_lt _ _) eqn:C|]; simpl in *.
  - destruct G as [_ B]. split; [by exists res, n|].
    intros k' leaf' (r & n' & [I | ->%list_elem_of_singleton]%elem_of_app & D' & L').
    + destruct (key_hash_lt (leaf_key_hash leaf) _) eqn:C'; [|done].
      rewrite <- (B k' leaf'); [|by exists r, n']. symmetry. by eapply key_hash_lt_trans.
    + destruct (decoded_inj _ _ _ _ _ D D') as [<- <-].
      replace leaf' with leaf by congruence. apply key_hash_lt_irrefl.
  - destruct G as [(r & n0 & I & D0 & L0) B]. split.
    + exists r, n0. split_and!; [apply elem_of_app; by left | done | done].
    + intros k' leaf' (r' & n' & [I' | ->%list_elem_of_singleton]%elem_of_app & D' & L').
      * apply (B k'). by exists r', n'.
      * destruct (decoded_inj _ _ _ _ _ D D') as [<- <-]. by replace leaf' with leaf by congruence.
  - split; [by exists res, n|].
    intros k' leaf' (r & n' & [I | ->%list_elem_of_singleton]%elem_of_app & D' & L').
    + destruct (G k' leaf'). by exists r, n'.
    + destruct (decoded_inj _ _ _ _ _ D D') as [<- <-].
      replace leaf' with leaf by congruence. apply key_hash_lt_irrefl.
Qed.

Lemma rightmost_step_greatest l res o :
  decodes res -> greatest l o ->
  exists o', rightmost_step (Ok o) res = Ok o' /\ greatest (l ++ [res]) o'.
Proof.
  intros D G. destruct res as [[kb vb]| |]; simpl in *.
  2, 3: exists o; split; [done|]; apply greatest_skip; [by intros ? ? (?&?&?&_) | done].
  destruct D as (k & n & kb' & vb' & [= <- <-] & K & N). rewrite K. simpl. rewrite N. simpl.
  assert (decoded (Ok (kb, vb)) k n) as Dn by by exists kb, vb.
  destruct (node_leaf n) as [leaf|] eqn:L.
  - pose proof (greatest_leaf l _ k n leaf o Dn L G) as G'.
    destruct o as [[k0 b]|]; [destruct (key_hash_lt _ _)|]; by eexists.
  - exists o. split; [done|]. apply greatest_skip; [|done].
    intros k' n' D'. by destruct (decoded_inj _ _ _ _ _ Dn D') as [_ <-].
Qed.
End nodes.

(** ** Correctness *)

Section correctness.
Context `{!RocksDb, !RocksDbLaws, !Patriecia, !PatrieciaLaws}.

(** C27. On an adapter just opened, a run of value writes is accepted up to the first
    write whose version is below an earlier one of its key, which is refused with the
    adapter's error; a read at a version then gives the last accepted write of the key
    at that version or below. *)
Theorem value_history_refines_log env path cf a l a' r :
  RocksDbAdapter_new env path cf = Ok a -> put_values l a = (a', r) ->
  exists l1 l2, l = l1 ++ l2 /\ in_push_order l1 /\
    (forall m key, get_value_option m key a' = Ok (log_get l1 m key)) /\
    match l2 with
    | [] => r = Ok tt
    | e :: _ => r = Err "values must be pushed in order" /\ ~ follows l1 e
    end.
Proof.
  unfold RocksDbAdapter_new. destruct (new_db_instance _ _ _); simpl; intros [= <-] E.
  destruct (put_values_recorded l [] (mk_RocksDbAdapter (RocksDbInner_new _) cf) a' r
    recorded_empty E) as (l1 & l2 & -> & R & O & T).
  exists l1, l2. split_and!; [done | by intros p e q ->; apply (O p e q) | | done].
  intros m key. by apply get_value_recorded.
Qed.

(** Reopening a trie loses its values and keeps its nodes. After a batch written to
    an adapter without values, every value reads back as written; an adapter opened on
    the same contents reads every node of the batch and no value at all. *)
Lemma reopen_loses_values env path cf b a a' a2 :
  value_history (adapter_data a) = ∅ -> NoDup (batch_nodes b).*1 ->
  write_node_batch b a = (a', Ok tt) ->
  RocksDbAdapter_new env path cf = Ok a2 ->
  db_contents (inner_db (adapter_data a2)) = db_contents (inner_db (adapter_data a')) ->
  (forall kb, is_ok (db_get kb (inner_db (adapter_data a2))) = true) ->
  (forall m key, get_value_option m key a' = Ok (log_get (batch_values b) m key)) /\
  (forall k n, (k, n) ∈ batch_nodes b -> is_ok (encode_key k) = true ->
     get_node_option k a2 = Ok (Some n)) /\
  (forall m key, get_value_option m key a2 = Ok None).
Proof.
  intros V ND W O C G. destruct (write_node_batch_split _ _ _ W) as (a1 & P & Q).
  pose proof (put_nodes_history _ _ _ _ P) as H1'. pose proof (put_values_contents _ _ _ _ Q) as C1.
  split_and!.
  - assert (recorded [] (value_history (adapter_data a1))) as R1
      by (rewrite H1', V; apply recorded_empty).
    destruct (put_values_recorded _ [] _ _ _ R1 Q) as (l1 & [|e l2] & E & R & _ & T);
      [|by destruct T].
    rewrite app_nil_r in E. intros m key. rewrite E. by apply get_value_recorded.
  - intros k n I K. destruct (encode_key k) as [kb| |] eqn:Hk; [|done..].
    pose proof (put_nodes_contents _ _ _ _ _ P Hk) as PC.
    rewrite (last_filter_unique k n) in PC by done. destruct PC as (nb & N & L).
    eapply get_node_option_contents; [done..| |done]. by rewrite C, C1.
  - intros m key. unfold RocksDbAdapter_new in O.
    destruct (new_db_instance _ _ _); simpl in O; [|done..]. by injection O as <-.
Qed.

(** The rightmost leaf is the greatest one: when every readable entry of the instance
    decodes, the scan returns a stored leaf that no stored leaf exceeds, or nothing when
    there is no leaf; one entry that does not decode makes it fail. *)
Lemma rightmost_leaf_greatest a :
  let l := db_iterator (inner_db (adapter_data a)) in
  (Forall decodes l -> exists o, get_rightmost_leaf a = Ok o /\ greatest l o) /\
  (Exists (fun res => ~ decodes res) l -> is_ok (get_rightmost_leaf a) = false).
Proof.
  intros l. unfold get_rightmost_leaf. fold l. clearbody l. split.
  - induction l as [|res l IH] using rev_ind.
    + intros _. exists None. split; [done|].
      intros k leaf (r & n & I & _). by apply not_elem_of_nil in I.
    + rewrite Forall_app, Forall_singleton. intros [F D].
      destruct (IH F) as (o & E & G). rewrite fold_left_app, E. by apply rightmost_step_greatest.
  - induction l as [|res l IH] using rev_ind; [by intros ?%Exists_nil|].
    rewrite Exists_app, Exists_cons, Exists_nil, fold_left_app. simpl. intros [X|[X|[]]].
    + specialize (IH X). by destruct (fold_left _ _ _).
    + by apply rightmost_step_bad.
Qed.
End correctness.

(** ** An instance *)

Module ToyBackend.
Import Byte.
#[local] Instance toy_rocks : RocksDb := {|
  DbOptions := unit; options_default := tt; set_keep_log_file_num _ o := o;
  set_db_log_dir _ o := o; set_error_if_exists _ o := o; create_if_missing _ o := o;
  create_missing_column_families _ o := o; DEFAULT_COLUMN_FAMILY_NAME := "default";
  DB := gmap bytes bytes;
  list_cf _ _ := Ok ["default"];
  open_cf _ path _ := Ok (if bool_decide (path = "written") then {[ [x07] := [x08] ]} else ∅);
  create_cf _ _ d := (d, Ok tt); db_dir _ := "fresh";
  db_get k d := Ok (d !! k); db_put k v d := (<[k := v]> d, Ok tt);
  db_iterator d := Ok <$> map_to_list d; db_contents d := d;
|}.

#[local] Instance toy_rocks_laws : RocksDbLaws.
Proof. split; [intros k d o [= <-]; done | intros k v d d' [= <-]; done]. Qed.

#[local] Instance toy_patriecia : Patriecia := {|
  KeyHash := Z; key_hash_lt := Z.ltb; NodeKey := bytes; LeafNode := bytes; Node := bytes;
  node_leaf n := Some n; leaf_key_hash n := Z.of_nat (length n); StaleNodeIndex := Z;
  encode_key k := Ok k; decode_key b := Ok b; encode_node n := Ok n; decode_node b := Ok b;
|}.

#[local] Instance toy_patriecia_laws : PatrieciaLaws.
Proof.
  split; [by intros ? ? [= <-] | by intros ? ? [= <-] | apply Z.ltb_irrefl |].
  intros j k l. simpl. rewrite !Z.ltb_lt. lia.
Qed.

Abbreviation env := (mk_EnvVars None None).
Abbreviation fresh := (mk_RocksDbAdapter
  (@RocksDbInner_new toy_rocks toy_patriecia (∅ : gmap bytes bytes)) "claims").
Abbreviation batch := (@mk_NodeBatch toy_patriecia [([x07], [x08])]
  [(1%Z, 5%Z, Some [x09]); (2%Z, 5%Z, None)]).

Lemma value_history_refines_log_witness :
  exists l1 l2, [(3%Z, 5%Z, Some [x09]); (2%Z, 5%Z, None)] = l1 ++ l2 /\ in_push_order l1.
Proof.
  destruct (value_history_refines_log env "fresh" "claims" fresh
    [(3%Z, 5%Z, Some [x09]); (2%Z, 5%Z, None)] _ _ eq_refl eq_refl) as (l1 & l2 & E & O & _).
  by exists l1, l2.
Defined.

End ToyBackend.
