(* ===== verification/StorageProofs.v ===== *)
(** * Storage: what transfers and batches do to the state

    Proved for any trie that satisfies the laws of [Storage], whether or not it
    shows writes before they are committed. *)

From S2P Require Import Prelude Floats Primitives Keypair Transactions ToyModel Account.
From S2P Require Import Staking Claim Reward Vrf Blocks Storage.
From Stdlib Require Import Strings.Byte.

Section proofs.
Context `{!Profile, !Hashing, !Secp256k1, !ValidatorKeys, !SocketAddrs, !StrDebug}.
Context `{!ToJson Address, !ToJson PublicKey, !ToJson Token, !ToJson Z, !ToJson string}.
Context `{!HashOrder, !HashOrderLaws, !TrieDb, !TrieDbLaws}.

#[local] Arguments updated : simpl never.

(** The accounts the readers see, and those they see after a commit. *)
Definition accounts (s : StateStore) : gmap Address Account := trie_view (state_trie s).
Definition pending_accounts (s : StateStore) : gmap Address Account := trie_next (state_trie s).

Definition settled (s : StateStore) : Prop := accounts s = pending_accounts s.

Definition state_wf (m : gmap Address Account) : Prop :=
  map_Forall (fun _ a => account_wf a /\ (a_nonce a < int_max U128)%Z) m.

Definition balance (a : Account) : Z := a_credits a - a_debits a.

Definition total_balance (m : gmap Address Account) : Z :=
  map_fold (fun _ a acc => balance a + acc)%Z 0%Z m.

Lemma total_balance_delete m k a :
  m !! k = Some a -> total_balance m = (balance a + total_balance (delete k m))%Z.
Proof.
  intros Hk. unfold total_balance.
  rewrite (map_fold_delete_L _ _ k a m); [done| |done]. intros; lia.
Qed.

Lemma total_balance_insert m k a b :
  m !! k = Some a ->
  total_balance (<[k := b]> m) = (total_balance m - balance a + balance b)%Z.
Proof.
  intros Hk. rewrite (total_balance_delete m k a Hk).
  rewrite (total_balance_delete (<[k := b]> m) k b) by apply lookup_insert_eq.
  rewrite delete_insert_eq. lia.
Qed.

Lemma commit_accounts s : accounts (state_commit s) = pending_accounts s.
Proof. apply trie_view_publish. Qed.

Lemma commit_pending s : pending_accounts (state_commit s) = pending_accounts s.
Proof. apply trie_next_publish. Qed.

Lemma state_get_Some k s a : accounts s !! k = Some a -> state_get k s = Ok a.
Proof. intros Hk. unfold state_get. by rewrite (trie_get_Some k a). Qed.

Lemma state_get_None k s : accounts s !! k = None -> exists e, state_get k s = Err e.
Proof.
  intros Hk. unfold state_get.
  destruct (trie_get_None k (state_trie s) Hk) as [e ->]. eauto.
Qed.

Lemma update_uncommited_cases now k u s a :
  accounts s !! k = Some a -> account_wf a -> (a_nonce a < int_max U128)%Z -> args_wf u ->
  (update_accepted u a /\
   update_uncommited now k u s = (on_trie (trie_update k (updated now u a)) s, Ok tt)) \/
  (~ update_accepted u a /\ exists e, update_uncommited now k u s = (s, Err e)).
Proof.
  intros Hk Hwf Hmax Hu. unfold update_uncommited. rewrite (state_get_Some k s a Hk).
  destruct (account_update_cases now u a Hwf Hu Hmax) as [[? ->]|[? (a' & e & ->)]]; eauto.
Qed.

Lemma written_pending s k a v :
  accounts s !! k = Some a ->
  pending_accounts (on_trie (trie_update k v) s) = <[k := v]> (pending_accounts s).
Proof. intros Hk. apply trie_next_update. eauto. Qed.

Lemma written_accounts s k a v :
  accounts s !! k = Some a ->
  accounts (on_trie (trie_update k v) s) =
    if trie_eager then <[k := v]> (pending_accounts s) else accounts s.
Proof. intros Hk. apply trie_view_update. eauto. Qed.

(** ** Transfers *)

Definition sender_args (t : Transfer) : UpdateArgs :=
  UpdateArgs_from (sender_update (IntoUpdates_from_txn (TransferKind t))).
Definition receiver_args (t : Transfer) : UpdateArgs :=
  UpdateArgs_from (receiver_update (IntoUpdates_from_txn (TransferKind t))).

Definition transfer_in_range (t : Transfer) : Prop :=
  in_range U128 (t_amount t) = true /\ in_range U128 (t_nonce t) = true.

Lemma sender_args_wf t : transfer_in_range t -> args_wf (sender_args t).
Proof. intros [Ha Hn]. split_and!; intros n Hs; simplify_eq/=; congruence. Qed.

Lemma receiver_args_wf t : transfer_in_range t -> args_wf (receiver_args t).
Proof. intros [Ha Hn]. split_and!; intros n Hs; simplify_eq/=; congruence. Qed.

Lemma balance_sent now t a :
  balance (updated now (sender_args t) a) = (balance a - t_amount t)%Z.
Proof. unfold balance, updated. simpl. lia. Qed.

Lemma balance_received now t a :
  balance (updated now (receiver_args t) a) = (balance a + t_amount t)%Z.
Proof. unfold balance, updated. simpl. lia. Qed.

(** The steps of [apply_transfer] once both accounts are known to exist. *)
Lemma apply_transfer_steps debug now1 now2 t db sa ra :
  accounts (state_store db) !! t_sender_address t = Some sa ->
  accounts (state_store db) !! t_receiver_address t = Some ra ->
  apply_transfer debug now1 now2 t db =
    (on_state (update_uncommited now1 (t_sender_address t) (sender_args t)) ≫= fun _ =>
     on_state (update_uncommited now2 (t_receiver_address t) (receiver_args t)) ≫= fun _ =>
     commit_state ≫= fun _ => insert_transaction (TransferKind t)) db.
Proof.
  intros Hs Hr. unfold apply_transfer, get_account_by_address.
  rewrite !method_bind_unfold. simpl.
  rewrite (state_get_Some _ _ _ Hs). simpl.
  rewrite !method_bind_unfold. simpl.
  by rewrite (state_get_Some _ _ _ Hr).
Qed.


(** A transfer whose receiver cannot take the amount (its credits would leave
    [u128]) fails half applied: the error is returned, but the sender's debit is
    already in the trie and the next commit publishes it, so the amount is lost. *)
Lemma apply_transfer_half_applied (debug : StorageError -> string) (now1 now2 : Z)
    (t : Transfer) (db : VrrbDb) (sa ra : Account) :
  settled (state_store db) -> state_wf (accounts (state_store db)) -> transfer_in_range t ->
  accounts (state_store db) !! t_sender_address t = Some sa ->
  accounts (state_store db) !! t_receiver_address t = Some ra ->
  t_sender_address t <> t_receiver_address t ->
  update_accepted (sender_args t) sa -> ~ update_accepted (receiver_args t) ra ->
  let '(db1, r) := apply_transfer debug now1 now2 t db in
  let '(db2, _) := commit_state db1 in
  is_err r = true /\
  total_balance (accounts (state_store db2)) =
    (total_balance (accounts (state_store db)) - t_amount t)%Z.
Proof.
  intros Hset Hwf Ht Hs Hr Hne Hacc Hrej.
  destruct (Hwf _ _ Hs) as [Hswf Hsmax]. destruct (Hwf _ _ Hr) as [Hrwf Hrmax].
  rewrite (apply_transfer_steps debug now1 now2 t db sa ra Hs Hr), method_bind_unfold.
  unfold on_state at 1.
  destruct (update_uncommited_cases now1 _ (sender_args t) (state_store db) sa Hs Hswf Hsmax
    (sender_args_wf t Ht)) as [[_ ->]|[Hn _]]; [|done].
  rewrite method_bind_unfold. unfold on_state at 1. simpl state_store.
  set (s1 := on_trie _ _).
  assert (Hr1 : accounts s1 !! t_receiver_address t = Some ra).
  { unfold s1. rewrite (written_accounts _ _ sa) by done.
    destruct trie_eager; [|done]. by rewrite lookup_insert_ne, <-Hset by done. }
  destruct (update_uncommited_cases now2 _ (receiver_args t) s1 ra Hr1 Hrwf Hrmax
    (receiver_args_wf t Ht)) as [[? _]|[_ [e ->]]]; [done|].
  simpl. split; [done|].
  rewrite commit_accounts. unfold s1. rewrite (written_pending _ _ sa), <-Hset by done.
  rewrite (total_balance_insert _ _ sa), balance_sent by done. lia.
Qed.

(** A transfer from an account to itself: the second update reads the account
    through the read side. If the trie shows writes at once, the balance is kept;
    if writes wait for the commit, as the store's names say, the debit is
    overwritten and the amount is minted. *)
Lemma self_transfer_balance (debug : StorageError -> string) (now1 now2 : Z)
    (t : Transfer) (db : VrrbDb) (a : Account) :
  settled (state_store db) -> state_wf (accounts (state_store db)) -> transfer_in_range t ->
  t_sender_address t = t_receiver_address t ->
  accounts (state_store db) !! t_sender_address t = Some a ->
  update_accepted (sender_args t) a ->
  (a_credits a + t_amount t <= int_max U128)%Z ->
  (Z.max (t_nonce t) (a_nonce a + 1) < int_max U128)%Z ->
  let '(db', r) := apply_transfer debug now1 now2 t db in
  r = Ok tt /\
  total_balance (accounts (state_store db')) =
    (total_balance (accounts (state_store db)) + if trie_eager then 0 else t_amount t)%Z.
Proof.
  intros Hset Hwf Ht Hself Hk Hacc Hcr Hmax.
  destruct (Hwf _ _ Hk) as [Hawf Hamax]. pose proof Hk as Hk'. rewrite Hself in Hk'.
  rewrite (apply_transfer_steps debug now1 now2 t db a a Hk Hk'), method_bind_unfold.
  unfold on_state at 1.
  destruct (update_uncommited_cases now1 _ (sender_args t) (state_store db) a Hk Hawf Hamax
    (sender_args_wf t Ht)) as [[_ ->]|[? _]]; [|done].
  rewrite method_bind_unfold. unfold on_state at 1. simpl state_store.
  set (a1 := updated now1 (sender_args t) a). set (s1 := on_trie _ _).
  set (b := if trie_eager then a1 else a).
  assert (Hb : accounts s1 !! t_receiver_address t = Some b).
  { unfold s1, b. rewrite (written_accounts _ _ a) by done. rewrite Hself.
    destruct trie_eager; [apply lookup_insert_eq|done]. }
  assert (Hbwf : account_wf b).
  { unfold b, a1. destruct trie_eager; [|done]. apply updated_wf; auto using sender_args_wf. }
  assert (Hbmax : (a_nonce b < int_max U128)%Z).
  { unfold b, a1, updated, updated_nonce. destruct trie_eager; simpl; lia. }
  assert (Hbacc : update_accepted (receiver_args t) b).
  { destruct Hbwf as (_ & Hbd & _). split_and!; [by intros n|unfold b, a1, updated..];
      destruct trie_eager; simpl; try lia; destruct Hacc as (_ & _ & Hd), Hawf as (_ & ? & _);
      simpl in Hd; destruct Ht; range_lia. }
  destruct (update_uncommited_cases now2 _ (receiver_args t) s1 b Hb Hbwf Hbmax
    (receiver_args_wf t Ht)) as [[_ ->]|[? _]]; [|done].
  simpl. split; [done|]. rewrite commit_accounts, (written_pending _ _ b) by done.
  unfold s1. rewrite (written_pending _ _ a), <-Hset by done.
  rewrite <-Hself, insert_insert_eq, (total_balance_insert _ _ a), balance_received by done.
  unfold b, a1. destruct trie_eager; [rewrite balance_sent|]; lia.
Qed.

(** ** Batches *)

(** The updates of one account, in the order they are applied. *)
Definition updates_for (k : Address) (updates : list (Address * UpdateArgs))
    : list UpdateArgs :=
  (filter (fun p => p.1 = k) (sort_updates updates)).*2.

Lemma nonce_le_trans a b c : nonce_le a b = true -> nonce_le b c = true -> nonce_le a c = true.
Proof.
  unfold nonce_le. destruct (u_nonce a), (u_nonce b), (u_nonce c); try done.
  rewrite !Z.leb_le. lia.
Qed.

Lemma nonce_le_total a b : nonce_le a b = false -> nonce_le b a = true.
Proof.
  unfold nonce_le. destruct (u_nonce a), (u_nonce b); try done.
  rewrite Z.leb_gt, Z.leb_le. lia.
Qed.

Lemma sort_updates_sorted l :
  StronglySorted (fun a b => nonce_le a.2 b.2 = true) (sort_updates l).
Proof.
  apply (stable_sort_sorted (fun a b => nonce_le a.2 b.2)); intros *;
    [apply nonce_le_trans|apply nonce_le_total].
Qed.

Lemma updates_for_perm k l : updates_for k l ≡ₚ (filter (fun p => p.1 = k) l).*2.
Proof. unfold updates_for, sort_updates. by rewrite (stable_sort_perm _ l). Qed.

Lemma updates_for_sorted k l :
  StronglySorted (fun a b => nonce_le a b = true) (updates_for k l).
Proof.
  unfold updates_for. induction (sort_updates_sorted l) as [|u l' Hs IH Hall]; [constructor|].
  rewrite filter_cons. case_decide; [|done]. simpl. constructor; [done|].
  rewrite Forall_forall in Hall. apply Forall_forall.
  intros x (p & -> & [_ Hin]%list_elem_of_filter)%list_elem_of_fmap. by apply Hall.
Qed.

Lemma update_batches_lookup l k :
  update_batches l !! k =
    match (filter (fun p => p.1 = k) l).*2 with [] => None | us => Some us end.
Proof.
  unfold update_batches.
  enough (Hm : forall m, fold_left push_update l m !! k =
    match (filter (fun p => p.1 = k) l).*2 with
    | [] => m !! k
    | us => Some (default [] (m !! k) ++ us)
    end) by (rewrite Hm, lookup_empty; done).
  induction l as [|[k' u] l IH]; intros m; simpl; [done|].
  rewrite IH, filter_cons. unfold push_update. simpl.
  destruct (decide (k' = k)) as [->|Hne]; simpl.
  - rewrite lookup_insert_eq. simpl.
    change (list_fmap _ _ snd ?f) with (snd <$> f).
    destruct ((filter _ l).*2); [done|]. by rewrite <-app_assoc.
  - by rewrite lookup_insert_ne by done.
Qed.

Lemma update_batches_size l : size (update_batches l) <= length l.
Proof.
  unfold update_batches.
  enough (Hm : forall m, size (fold_left push_update l m) <= size m + length l).
  { by rewrite Hm, map_size_empty. }
  induction l as [|u l IH]; intros m; simpl; [lia|].
  rewrite IH. unfold push_update. rewrite map_size_insert.
  destruct (m !! u.1); simpl; lia.
Qed.

Variable clock : Address -> nat -> Z.

(** What a batch does to one account: all of its updates, or none. *)
Definition batched (k : Address) (us : list UpdateArgs) (o : option Account) : option Account :=
  match o with
  | Some a =>
      match apply_updates (clock k) 0 us a with
      | Ok a' => Some a'
      | _ => Some a
      end
  | None => None
  end.

Definition batch_fails (k : Address) (us : list UpdateArgs) (o : option Account) : Prop :=
  match o with
  | Some a => is_err (apply_updates (clock k) 0 us a) = true
  | None => True
  end.

Definition batch_no_panic (k : Address) (us : list UpdateArgs) (o : option Account) : Prop :=
  forall a, o = Some a -> apply_updates (clock k) 0 us a <> Panic.

Lemma apply_batch_step k us s failed :
  batch_no_panic k us (accounts s !! k) ->
  (exists e, batch_fails k us (accounts s !! k) /\
     apply_batch clock (k, us) (s, failed) = ((s, failed ++ [(k, us, e)]), Ok tt)) \/
  (exists a, ~ batch_fails k us (accounts s !! k) /\
     batched k us (accounts s !! k) = Some a /\
     apply_batch clock (k, us) (s, failed) = ((on_trie (trie_insert k a) s, failed), Ok tt)).
Proof.
  intros Hp. unfold apply_batch, batch_fails, batched, batch_no_panic in *.
  destruct (accounts s !! k) as [a|] eqn:Hk.
  - rewrite (state_get_Some k s a Hk). specialize (Hp a eq_refl).
    destruct (apply_updates (clock k) 0 us a); [right|left|done]; eauto.
  - destruct (state_get_None k s Hk) as [e ->]. left. eauto.
Qed.

(** Over distinct keys, each batch sees the account the store started with. *)
Lemma apply_batches_spec (m : gmap Address Account) bs s failed :
  NoDup bs.*1 ->
  (forall k, k ∈ bs.*1 -> accounts s !! k = m !! k /\ pending_accounts s !! k = m !! k) ->
  (forall k us, (k, us) ∈ bs -> batch_no_panic k us (m !! k)) ->
  exists s' fs,
    apply_batches clock bs (s, failed) = ((s', failed ++ fs), Ok tt) /\
    (forall k us, (k, us) ∈ bs -> pending_accounts s' !! k = batched k us (m !! k)) /\
    (forall k, k ∉ bs.*1 -> pending_accounts s' !! k = pending_accounts s !! k) /\
    (forall k us, (exists e, (k, us, e) ∈ fs) <-> (k, us) ∈ bs /\ batch_fails k us (m !! k)) /\
    length fs <= length bs /\ (length fs = length bs -> s' = s).
Proof.
  revert s failed. induction bs as [|[k0 us0] bs IH]; intros s failed Hnd Hsame Hp.
  { exists s, []. simpl. rewrite app_nil_r. split_and!; try done; [set_solver|].
    intros k us. split; [by intros [e ?%elem_of_nil]|by intros [?%elem_of_nil _]]. }
  simpl in Hnd. apply NoDup_cons in Hnd as [Hk0 Hnd].
  destruct (Hsame k0) as [Ha0 Hn0]; [left|].
  simpl apply_batches. rewrite method_bind_unfold.
  destruct (apply_batch_step k0 us0 s failed) as
    [(e & Hf & ->)|(a & Hf & Hb & ->)]; [rewrite Ha0; by apply Hp; left|..].
  - destruct (IH s (failed ++ [(k0, us0, e)])) as (s' & fs & Happ & Hin & Hout & Hfs & Hlen & Hall);
      [done|intros; apply Hsame; by right|intros; apply Hp; by right|].
    exists s', ((k0, us0, e) :: fs). rewrite Happ, <-app_assoc, Ha0 in *. simpl.
    split_and!; try done; [..|lia|intros [= ?]; auto].
    + intros k us [[= -> ->]|Hk]%elem_of_cons; [|auto]. rewrite Hout, Hn0 by done.
      unfold batched, batch_fails in *. destruct (m !! k0); [|done].
      by destruct (apply_updates _ _ _ _).
    + intros k Hk. apply Hout. set_solver.
    + intros k us. rewrite elem_of_cons. setoid_rewrite elem_of_cons.
      specialize (Hfs k us). naive_solver.
  - destruct (IH (on_trie (trie_insert k0 a) s) failed) as
      (s' & fs & Happ & Hin & Hout & Hfs & Hlen & Hall);
      [done| |intros; apply Hp; by right|].
    { intros k Hk. assert (k <> k0) by (by intros ->).
      destruct (Hsame k) as [Hak Hnk]; [by right|].
      unfold accounts, pending_accounts, on_trie in *. simpl.
      rewrite trie_view_insert, trie_next_insert.
      destruct trie_eager; by rewrite ?lookup_insert_ne. }
    exists s', fs. rewrite Happ, Ha0 in *. simpl.
    split_and!; try done; [..|lia|lia].
    + intros k us [[= -> ->]|Hk]%elem_of_cons; [|auto]. rewrite Hout, Hb by done.
      unfold pending_accounts, on_trie. simpl. by rewrite trie_next_insert, lookup_insert_eq.
    + intros k Hk. rewrite Hout by set_solver. unfold pending_accounts, on_trie. simpl.
      rewrite trie_next_insert, lookup_insert_ne; [done|set_solver].
    + intros k us. rewrite elem_of_cons, Hfs. naive_solver.
Qed.

Lemma hash_iter_keys {V} (m : gmap Address V) : NoDup (hash_iter m).*1.
Proof. rewrite hash_iter_perm. apply NoDup_fst_map_to_list. Qed.

Lemma elem_of_hash_iter {V} (m : gmap Address V) k v : (k, v) ∈ hash_iter m <-> m !! k = Some v.
Proof. rewrite hash_iter_perm. apply elem_of_map_to_list. Qed.

Lemma batched_nil k o : batched k [] o = o.
Proof. by destruct o. Qed.

Lemma batches_of updates k us :
  update_batches (sort_updates updates) !! k = Some us <->
  us = updates_for k updates /\ us <> [].
Proof.
  rewrite update_batches_lookup. unfold updates_for.
  destruct ((filter _ _).*2); naive_solver.
Qed.


End proofs.

(** ** A concrete trie

    Two association lists; [eager] chooses when a write is seen. *)
Module ToyTrie.
Section toy_trie.
Variable eager : bool.

Record trie (K V : Type) := mk_trie {
  seen : list (K * V);
  next : list (K * V);
}.
#[global] Arguments mk_trie {K V}.
#[global] Arguments seen {K V}.
#[global] Arguments next {K V}.

Definition write {K V} (k : K) (v : V) (t : trie K V) : trie K V :=
  let n := (k, v) :: next t in mk_trie (if eager then n else seen t) n.

Definition db : TrieDb := {|
  LeftRightTrie := trie;
  RootHash := nat;
  root_bytes := fun n => replicate n x00;
  trie_eager := eager;
  trie_new := fun K V _ => mk_trie [] [];
  trie_insert := @write;
  trie_update := @write;
  trie_extend := fun K V kvs t =>
    fold_left (fun t p => match p.2 with Some v => write p.1 v t | None => t end) kvs t;
  trie_publish := fun K V t => mk_trie (next t) (next t);
  trie_get := fun K _ _ V k t =>
    match (list_to_map (seen t) : gmap K V) !! k with
    | Some v => Ok v
    | None => Err "not found"
    end;
  trie_values := fun K _ _ V t => (map_to_list (list_to_map (seen t) : gmap K V)).*2;
  trie_len := fun K V t => Ok (Z.of_nat (length (seen t)));
  trie_is_empty := fun K V t => Ok (bool_decide (length (seen t) = 0));
  trie_root := fun K V t => Ok (length (seen t));
  trie_view := fun K _ _ V t => list_to_map (seen t);
  trie_next := fun K _ _ V t => list_to_map (next t);
|}.

Lemma db_laws : @TrieDbLaws db.
Proof.
  split; simpl; try (intros; destruct eager; done); try done.
  - intros K ? ? V k v t Hk. by rewrite Hk.
  - intros K ? ? V k t Hk. rewrite Hk. eauto.
Qed.
End toy_trie.
End ToyTrie.

Section witnesses.
Import Toy Sample.
#[local] Existing Instance release.
#[local] Existing Instance toy_addrs.
#[local] Existing Instance ToyTrie.db_laws.
#[local] Instance lazy_trie : TrieDb := ToyTrie.db false.

Definition plain_debug (e : StorageError) : string := storage_error_to_string e.

(** Alice holds 1000, bob what [credits] says. *)
Definition two_accounts (credits : Z) : VrrbDb :=
  let entries :=
    [(alice, set_credits 1000 (Account_new 1700000000 (address_pk alice)));
     (bob, set_credits credits (Account_new 1700000000 (address_pk bob)))] in
  mk_VrrbDb (mk_StateStore (ToyTrie.mk_trie entries entries))
    (TransactionStore_new "db") (ClaimStore_new "db").

Lemma two_accounts_wf c :
  (0 <= c <= int_max U128)%Z -> state_wf (accounts (state_store (two_accounts c))).
Proof.
  intros Hc. unfold accounts, two_accounts, trie_view, lazy_trie, ToyTrie.db. simpl.
  repeat (apply map_Forall_insert_2; [repeat split; simpl; range_lia|]).
  apply map_Forall_empty.
Qed.

Definition pay : Transfer := transfer_of alice bob 250 1.


(** Bob's credits are at the limit of [u128]. *)
Definition pay_self : Transfer := transfer_of alice alice 250 1.

(** Alice spends 400 and then, out of order in the vector, receives 5; carol is
    not in the store. *)
Definition batch : list (Address * UpdateArgs) :=
  [(alice, mk_UpdateArgs alice (Some 2%Z) None (Some 400%Z) None None None);
   (carol, credit_args carol 1 3);
   (alice, credit_args alice 1 5)].

End witnesses.
