(* ===== verification/Dag.v ===== *)
(** * The block DAG: [crates/node/src/state_manager/dag.rs]

    The module through which blocks enter the DAG: their signatures are checked
    against the harvesters' group key, and edges from the referenced blocks are
    written. The bulldag crate is a parameter. *)

From S2P Require Import Prelude Floats Primitives Keypair Transactions ToyModel Staking Claim.
From S2P Require Import Reward Vrf Blocks BlockProofs Threshold.
From Stdlib Require Import Strings.Byte.

(** ** The graph of bulldag *)

Class BullDag (B : Type) := {
  Dag : Type;
  Vertex : Type;
  vertex_new : B -> string -> Vertex;
  vertex_data : Vertex -> B;
  vertex_index : Vertex -> string;
  vertex_sources : Vertex -> gset string;
  get_vertex : string -> Dag -> option Vertex;
  add_vertex : Vertex -> Dag -> Dag;
  add_edge : Vertex * Vertex -> Dag -> Dag;
  (* the indices reached along the references, and those with none *)
  dag_trace : Vertex -> Dag -> list string;
  get_leaves : Dag -> list string;
  (* the contents: the data under each index, and the two ends of the edges *)
  dag_blocks : Dag -> gmap string B;
  dag_sources : Dag -> string -> gset string;
  dag_refs : Dag -> string -> gset string;
}.

(** An edge from a vertex of the graph to a new vertex, or to one with no
    references of its own, cannot close a cycle; only such edges are written. *)
Definition edge_allowed `{!BullDag B} (s v : Vertex) (g : Dag) : Prop :=
  is_Some (dag_blocks g !! vertex_index s) /\ vertex_index s <> vertex_index v /\
  dag_blocks g !! vertex_index v ∈ [None; Some (vertex_data v)] /\
  dag_refs g (vertex_index v) = ∅.

Class BullDagLaws (B : Type) `{!BullDag B} := {
  vertex_new_data : forall b k, vertex_data (vertex_new b k) = b;
  vertex_new_index : forall b k, vertex_index (vertex_new b k) = k;
  get_vertex_None : forall g k, dag_blocks g !! k = None -> get_vertex k g = None;
  get_vertex_Some : forall g k b, dag_blocks g !! k = Some b ->
    exists v, get_vertex k g = Some v /\ vertex_data v = b /\ vertex_index v = k /\
      vertex_sources v = dag_sources g k;
  fresh_no_edges : forall g k, dag_blocks g !! k = None ->
    dag_sources g k = ∅ /\ dag_refs g k = ∅;
  add_vertex_blocks : forall v g, dag_blocks g !! vertex_index v = None ->
    dag_blocks (add_vertex v g) = <[vertex_index v := vertex_data v]> (dag_blocks g);
  (* a vertex that is there already is left or replaced, nothing else changes *)
  add_vertex_within : forall v g k b, dag_blocks (add_vertex v g) !! k = Some b ->
    b = vertex_data v \/ dag_blocks g !! k = Some b;
  add_edge_blocks : forall s v g, edge_allowed s v g ->
    dag_blocks (add_edge (s, v) g) = <[vertex_index v := vertex_data v]> (dag_blocks g);
  add_edge_within : forall s v g k b, dag_blocks (add_edge (s, v) g) !! k = Some b ->
    b = vertex_data s \/ b = vertex_data v \/ dag_blocks g !! k = Some b;
  add_edge_sources : forall s v g, edge_allowed s v g ->
    dag_sources (add_edge (s, v) g) (vertex_index v) =
      {[ vertex_index s ]} ∪ dag_sources g (vertex_index v);
  add_edge_refs : forall s v g, edge_allowed s v g ->
    dag_refs (add_edge (s, v) g) (vertex_index v) = ∅;
}.

Inductive GraphError :=
| NonExistentSource
| NonExistentReference
| GraphOther (msg : string).

Section dag.
Context `{!Profile, !Hashing, !Secp256k1, !ValidatorKeys, !SocketAddrs}.
Context `{!ToJson Z, !ToJson (list (string * QuorumCertifiedTxn)), !ToJson (list (Z * Claim)),
  !ToJson Claim}.
Context `{!BullDag Block, !ThresholdCrypto}.

(** The DAG is shared behind a lock, which is poisoned when a writer panicked. *)
Record DagModule := mk_DagModule {
  dm_dag : Dag;
  dm_poisoned : bool;
  dm_public_key_set : option PublicKeySet;
  last_confirmed_block_header : option BlockHeader;
  dm_claim : Claim;
}.

Definition DagModule_new (dag : Dag) (poisoned : bool) (claim : Claim) : DagModule :=
  mk_DagModule dag poisoned None None claim.

Definition with_dag (g : Dag) (d : DagModule) : DagModule :=
  mk_DagModule g (dm_poisoned d) (dm_public_key_set d) (last_confirmed_block_header d)
    (dm_claim d).

Definition set_harvester_pubkeys (pks : PublicKeySet) (d : DagModule) : DagModule :=
  mk_DagModule (dm_dag d) (dm_poisoned d) (Some pks) (last_confirmed_block_header d)
    (dm_claim d).

(** [Vertex::from(block)]: the block under its hash. *)
Definition vertex_of (b : Block) : Vertex := vertex_new b (block_hash b).

Definition get_reference_block (target : string) (d : DagModule) : result GraphError Vertex :=
  if dm_poisoned d then Err NonExistentReference
  else ok_or (get_vertex target (dm_dag d)) NonExistentReference.

Definition write_edge (edge : Vertex * Vertex) : method DagModule GraphError unit := fun d =>
  if dm_poisoned d then (d, Err (GraphOther "Error getting write guard"))
  else (with_dag (add_edge edge (dm_dag d)) d, Ok tt).

Fixpoint extend_edges (edges : list (Vertex * Vertex)) : method DagModule GraphError unit :=
  match edges with
  | [] => mret tt
  | e :: edges' => write_edge e ≫= fun _ => extend_edges edges'
  end.

Definition write_genesis (v : Vertex) : method DagModule GraphError unit := fun d =>
  if dm_poisoned d then (d, Err (GraphOther "Error getting write guard"))
  else (with_dag (add_vertex v (dm_dag d)) d, Ok tt).

(** The [Debug] text of a signature that does not parse. *)
Variable from_bytes_error : string.

Definition verify_partial_sig (v : BlockValidationData) (d : DagModule)
    : result SignerError bool :=
  match dm_public_key_set d, bv_node_idx v with
  | Some pks, Some idx =>
      if bool_decide (length (bv_signature v) = SIG_SIZE) then
        match share_from_bytes (bv_signature v) with
        | Some share => Ok (share_verify pks idx share (bv_payload_hash v))
        | None => Err (SignatureVerificationError
                    ("Error parsing partial signature details : " +:+ from_bytes_error))
        end
      else Err (PartialSignatureError "Error parsing signature into array")
  | _, _ => Err GroupPublicKeyMissing
  end.

Definition verify_threshold_sig (v : BlockValidationData) (d : DagModule)
    : result SignerError bool :=
  match dm_public_key_set d with
  | Some pks =>
      if bool_decide (length (bv_signature v) = SIG_SIZE) then
        match group_from_bytes (bv_signature v) with
        | Some sig => Ok (group_verify pks sig (bv_payload_hash v))
        | None => Err (SignatureVerificationError
                    ("Error parsing threshold signature details: " +:+ from_bytes_error))
        end
      else Err (PartialSignatureError "Error parsing signature into array")
  | None => Err GroupPublicKeyMissing
  end.

Definition dag_verify_signature (v : BlockValidationData) (d : DagModule)
    : result SignerError bool :=
  if bool_decide (length (bv_signature v) <> SIG_SIZE) then
    Err (CorruptSignatureShare "Invalid Signature ,Size must be 96 bytes")
  else
    match bv_signature_type v with
    | PartialSignature => verify_partial_sig v d
    | ThresholdSignature | ChainLockSignature => verify_threshold_sig v d
    end.

(** [check_valid_genesis], [check_valid_proposal] and [check_valid_convergence]
    have the same body. *)
Definition check_valid `{!Valid B} (block : B) (d : DagModule) : bool :=
  match get_validation_data block with
  | Ok v => match dag_verify_signature v d with Ok true => true | _ => false end
  | _ => false
  end.

Definition append_genesis (genesis : GenesisBlock) : method DagModule GraphError unit :=
  fun d =>
    if check_valid genesis d then write_genesis (vertex_of (Genesis genesis)) d
    else (d, Ok tt).

Definition append_proposal (proposal : ProposalBlock) : method DagModule GraphError unit :=
  fun d =>
    if check_valid proposal d then
      match get_reference_block (pb_ref_block proposal) d with
      | Ok ref_block => write_edge (ref_block, vertex_of (Proposal proposal)) d
      | _ => (d, Err NonExistentSource)
      end
    else (d, Ok tt).

Definition get_convergence_reference_blocks (convergence : ConvergenceBlock) (d : DagModule)
    : list Vertex :=
  omap (fun target => match get_reference_block target d with Ok v => Some v | _ => None end)
    (h_ref_hashes (cb_header convergence)).

Definition append_convergence (convergence : ConvergenceBlock)
    : method DagModule GraphError unit := fun d =>
  if check_valid convergence d then
    let ref_blocks := get_convergence_reference_blocks convergence d in
    let vtx := vertex_of (Convergence convergence) in
    extend_edges (map (fun ref_block => (ref_block, vtx)) ref_blocks) d
  else (d, Ok tt).

(** The appending calls of a block of any kind. *)
Definition append_block (b : Block) : method DagModule GraphError unit :=
  match b with
  | Genesis g => append_genesis g
  | Proposal p => append_proposal p
  | Convergence c => append_convergence c
  end.

(** ** Correctness *)

Abbreviation blocks d := (dag_blocks (dm_dag d)).

(** The payload a genesis or convergence block is verified against is empty. *)
Lemma check_valid_certificate `{!Valid B} (b : B) (cert : option Certificate) d :
  get_payload_hash b = [] -> get_signature_type b = ThresholdSignature ->
  get_raw_signature b = certificate_signature cert ->
  check_valid b d =
    match certificate_signature cert with
    | Ok sig =>
        match dag_verify_signature (mk_BlockValidationData None [] sig ThresholdSignature) d with
        | Ok true => true
        | _ => false
        end
    | _ => false
    end.
Proof.
  intros Hp Ht Hs. unfold check_valid, get_validation_data. rewrite Hs.
  destruct (certificate_signature cert); simpl; [|done..].
  unfold dag_verify_signature. simpl. rewrite Ht, Hp. done.
Qed.

(** A certificate is not bound to the block that carries it: whether a
    genesis or convergence block is accepted into the DAG depends on its
    certificate alone, so the certificate of any accepted block makes every
    other block acceptable, whatever its header, transactions and hash. *)
Lemma certificate_not_binding (d : DagModule) (c1 c2 : ConvergenceBlock) (g : GenesisBlock) :
  cb_certificate c2 = cb_certificate c1 -> gb_certificate g = cb_certificate c1 ->
  check_valid c2 d = check_valid c1 d /\ check_valid g d = check_valid c1 d.
Proof.
  intros Hc Hg.
  rewrite (check_valid_certificate c1 (cb_certificate c1)) by done.
  rewrite (check_valid_certificate c2 (cb_certificate c2)) by done.
  rewrite (check_valid_certificate g (gb_certificate g)) by done.
  by rewrite Hc, Hg.
Qed.

Lemma proposal_never_valid (p : ProposalBlock) d : check_valid p d = false.
Proof.
  unfold check_valid, get_validation_data. simpl.
  destruct (decode_signature_share p); simpl; [|done..].
  unfold dag_verify_signature. simpl. destruct (bool_decide _); [done|].
  unfold verify_partial_sig. simpl. by destruct (dm_public_key_set d).
Qed.

Context `{!BullDagLaws Block}.

Lemma get_reference_block_in target d v :
  get_reference_block target d = Ok v ->
  dm_poisoned d = false /\ blocks d !! target = Some (vertex_data v) /\ vertex_index v = target.
Proof.
  unfold get_reference_block. destruct (dm_poisoned d); [done|].
  destruct (blocks d !! target) as [b|] eqn:Hb.
  - destruct (get_vertex_Some _ _ _ Hb) as (v' & -> & <- & <- & _). by intros [= <-].
  - by rewrite (get_vertex_None _ _ Hb).
Qed.

Definition no_proposals (d : DagModule) : Prop :=
  map_Forall (fun _ b => is_proposal b = false) (blocks d).

Lemma extend_edges_no_proposals edges d :
  no_proposals d ->
  Forall (fun e => is_proposal (vertex_data e.1) = false /\
                   is_proposal (vertex_data e.2) = false) edges ->
  no_proposals (extend_edges edges d).1.
Proof.
  intros Hd Hall. revert d Hd. induction Hall as [|[s v] edges [Hs Hv] _ IH]; intros d Hd; [done|].
  simpl. rewrite method_bind_unfold. unfold write_edge.
  destruct (dm_poisoned d) eqn:Hp; simpl; [done|]. apply IH.
  intros k b Hb. simpl in Hb. apply add_edge_within in Hb as [->|[->|Hb]]; eauto.
Qed.

Lemma append_block_no_proposals b d : no_proposals d -> no_proposals (append_block b d).1.
Proof.
  intros Hd. destruct b as [c|p|g]; simpl.
  - unfold append_convergence. destruct (check_valid c d); [|done].
    apply extend_edges_no_proposals; [done|]. apply Forall_forall.
    intros e He. apply list_elem_of_In, in_map_iff in He as (v & <- & Hv%list_elem_of_In). simpl.
    apply list_elem_of_omap in Hv as (target & _ & Hv).
    destruct (get_reference_block target d) eqn:Hr; simplify_eq.
    apply get_reference_block_in in Hr as (_ & Hb & _). split; [eauto|].
    unfold vertex_of. by rewrite vertex_new_data.
  - unfold append_proposal. by rewrite proposal_never_valid.
  - unfold append_genesis, write_genesis. destruct (check_valid g d), (dm_poisoned d); try done.
    intros k b Hb. simpl in Hb. apply add_vertex_within in Hb as [->|Hb]; [|eauto].
    unfold vertex_of. by rewrite vertex_new_data.
Qed.

Lemma append_block_header b d :
  last_confirmed_block_header (append_block b d).1 = last_confirmed_block_header d.
Proof.
  assert (He : forall edges d, last_confirmed_block_header (extend_edges edges d).1 =
                               last_confirmed_block_header d).
  { induction edges as [|e edges IH]; intros d'; [done|]. simpl. rewrite method_bind_unfold.
    unfold write_edge. destruct (dm_poisoned d'); simpl; [done|]. by rewrite IH. }
  destruct b as [c|p|g]; simpl.
  - unfold append_convergence. destruct (check_valid c d); [apply He|done].
  - unfold append_proposal. by rewrite proposal_never_valid.
  - unfold append_genesis, write_genesis. by destruct (check_valid g d), (dm_poisoned d).
Qed.

(** The calls the node makes on the module. *)
Inductive dag_step : DagModule -> DagModule -> Prop :=
| dag_append b d : dag_step d (append_block b d).1
| dag_keys pks d : dag_step d (set_harvester_pubkeys pks d).

Inductive dag_reachable (d0 : DagModule) : DagModule -> Prop :=
| dag_start : dag_reachable d0 d0
| dag_next d d' : dag_reachable d0 d -> dag_step d d' -> dag_reachable d0 d'.

Lemma dag_reachable_no_proposals d0 d :
  no_proposals d0 -> dag_reachable d0 d -> no_proposals d.
Proof.
  intros Hstart. induction 1 as [|d d' _ IH Hs]; [done|].
  destruct Hs; [by apply append_block_no_proposals|done].
Qed.

(** No proposal block ever enters the DAG: appending one always reports
    success and changes nothing, because its validation data carries no node
    index; so in every state the module reaches from an empty DAG there are only
    genesis and convergence blocks. *)
Lemma dag_never_holds_proposals (g : Dag) (poisoned : bool) (claim : Claim) (d : DagModule) :
  dag_blocks g = ∅ -> dag_reachable (DagModule_new g poisoned claim) d ->
  (forall p, append_proposal p d = (d, Ok tt)) /\
  (forall k b, blocks d !! k = Some b -> is_proposal b = false).
Proof.
  intros Hg Hr. split.
  - intros p. unfold append_proposal. by rewrite proposal_never_valid.
  - refine (dag_reachable_no_proposals _ _ _ Hr). unfold no_proposals. simpl. rewrite Hg.
    apply map_Forall_empty.
Qed.

(** The referenced blocks the DAG knows. *)
Definition known_refs (c : ConvergenceBlock) (d : DagModule) : list string :=
  filter (fun h => is_Some (blocks d !! h)) (h_ref_hashes (cb_header c)).

Lemma reference_blocks_known c d :
  dm_poisoned d = false ->
  vertex_index <$> get_convergence_reference_blocks c d = known_refs c d.
Proof.
  intros Hp. unfold get_convergence_reference_blocks, known_refs, get_reference_block.
  rewrite Hp. induction (h_ref_hashes (cb_header c)) as [|h hs IH]; [done|].
  rewrite filter_cons. simpl. destruct (blocks d !! h) as [b|] eqn:Hb.
  - destruct (get_vertex_Some _ _ _ Hb) as (v & -> & _ & <- & _). simpl.
    f_equal. exact IH.
  - rewrite (get_vertex_None _ _ Hb). simpl.
    exact IH.
Qed.

Lemma extend_edges_spec v vs d :
  dm_poisoned d = false ->
  Forall (fun s => is_Some (blocks d !! vertex_index s) /\ vertex_index s <> vertex_index v) vs ->
  blocks d !! vertex_index v ∈ [None; Some (vertex_data v)] ->
  dag_refs (dm_dag d) (vertex_index v) = ∅ ->
  exists g, extend_edges (map (fun s => (s, v)) vs) d = (with_dag g d, Ok tt) /\
    dag_blocks g = (match vs with
                    | [] => blocks d
                    | _ => <[vertex_index v := vertex_data v]> (blocks d)
                    end) /\
    dag_sources g (vertex_index v) =
      list_to_set (vertex_index <$> vs) ∪ dag_sources (dm_dag d) (vertex_index v).
Proof.
  revert d. induction vs as [|s vs IH]; intros d Hp Hall Hin Href.
  { exists (dm_dag d). split; [by destruct d|]. split; [done|]. simpl. set_solver. }
  apply Forall_cons in Hall as [[Hs Hne] Hall].
  assert (Hal : edge_allowed s v (dm_dag d)) by (by split_and!).
  set (d1 := with_dag (add_edge (s, v) (dm_dag d)) d).
  assert (Hb1 : blocks d1 = <[vertex_index v := vertex_data v]> (blocks d))
    by (by apply add_edge_blocks).
  destruct (IH d1) as (g & He & Hg & Hsrc); [done| |rewrite Hb1, lookup_insert_eq; set_solver|
    by apply add_edge_refs|].
  { eapply Forall_impl; [exact Hall|]. intros s' [Hs' Hne'].
    by rewrite Hb1, lookup_insert_ne. }
  exists g. simpl. rewrite method_bind_unfold. unfold write_edge. rewrite Hp.
  fold d1. rewrite He. split; [done|]. split.
  - rewrite Hg, Hb1. by destruct vs; rewrite ?insert_insert_eq.
  - rewrite Hsrc. unfold d1. simpl. rewrite (add_edge_sources s v _ Hal). set_solver.
Qed.

(** C10. Appending a convergence block with a valid certificate and a new hash
    links it under exactly those of its referenced blocks that the DAG holds,
    dropping the unknown ones; when it knows none of them the block is not
    stored, and the call still succeeds. *)
Theorem append_convergence_spec (c : ConvergenceBlock) (d : DagModule) :
  dm_poisoned d = false -> check_valid c d = true -> blocks d !! cb_hash c = None ->
  exists d', append_convergence c d = (d', Ok tt) /\
    blocks d' = (if bool_decide (known_refs c d = []) then blocks d
                 else <[cb_hash c := Convergence c]> (blocks d)) /\
    (dag_sources (dm_dag d') (cb_hash c) : gset string) = list_to_set (known_refs c d).
Proof.
  intros Hp Hv Hfresh. unfold append_convergence. rewrite Hv.
  pose proof (reference_blocks_known c d Hp) as Hk.
  set (vs := get_convergence_reference_blocks c d) in *.
  set (v := vertex_of (Convergence c)).
  assert (Hi : vertex_index v = cb_hash c) by apply vertex_new_index.
  destruct (fresh_no_edges _ _ Hfresh) as [Hs0 Hr0].
  destruct (extend_edges_spec v vs d Hp) as (g & He & Hg & Hs).
  { apply Forall_forall. intros s Hin.
    assert (Hin' : vertex_index s ∈ known_refs c d) by (rewrite <-Hk; by apply list_elem_of_fmap_2).
    apply list_elem_of_filter in Hin' as [Hsome _]. split; [done|].
    rewrite Hi. intros Heq. rewrite Heq, Hfresh in Hsome. by destruct Hsome. }
  { rewrite Hi, Hfresh. left. }
  { by rewrite Hi. }
  exists (with_dag g d). split; [done|]. simpl. rewrite Hi, Hk, Hs0 in Hs.
  split; [|rewrite Hs; set_solver].
  rewrite Hg, Hi. unfold v, vertex_of. rewrite vertex_new_data, <-Hk.
  by destruct vs.
Qed.
End dag.

(** ** A concrete graph *)
Module ToyDag.
Section toy_dag.
Context {B : Type}.

Record entry := mk_entry {
  e_data : B;
  e_sources : gset string;
  e_refs : gset string;
}.

Record vertex := mk_vertex {
  v_data : B;
  v_index : string;
  v_sources : gset string;
}.

Definition sources_of (g : gmap string entry) (k : string) : gset string :=
  default ∅ (e_sources <$> g !! k).
Definition refs_of (g : gmap string entry) (k : string) : gset string :=
  default ∅ (e_refs <$> g !! k).

Definition link (e : vertex * vertex) (g : gmap string entry) : gmap string entry :=
  let '(s, v) := e in
  let g1 := alter (fun n => mk_entry (e_data n) (e_sources n) ({[ v_index v ]} ∪ e_refs n))
              (v_index s) g in
  <[v_index v := mk_entry (v_data v) ({[ v_index s ]} ∪ sources_of g (v_index v))
                   (refs_of g (v_index v))]> g1.

#[export] Instance dag : BullDag B := {|
  Dag := gmap string entry;
  Vertex := vertex;
  vertex_new := fun b k => mk_vertex b k ∅;
  vertex_data := v_data;
  vertex_index := v_index;
  vertex_sources := v_sources;
  get_vertex := fun k g => (fun n => mk_vertex (e_data n) k (e_sources n)) <$> g !! k;
  add_vertex := fun v g =>
    match g !! v_index v with
    | Some _ => g
    | None => <[v_index v := mk_entry (v_data v) ∅ ∅]> g
    end;
  add_edge := link;
  dag_trace := fun v g => elements (refs_of g (v_index v));
  get_leaves := fun g => (filter (fun p => e_refs p.2 = ∅) (map_to_list g)).*1;
  dag_blocks := fun g => e_data <$> g;
  dag_sources := sources_of;
  dag_refs := refs_of;
|}.

#[export] Instance dag_laws : BullDagLaws B.
Proof.
  split; simpl; try done.
  - intros g k Hk. rewrite lookup_fmap in Hk. by destruct (g !! k).
  - intros g k b Hk. rewrite lookup_fmap in Hk. unfold sources_of.
    destruct (g !! k) as [n|]; simplify_eq/=. eauto 6.
  - intros g k Hk. rewrite lookup_fmap in Hk. unfold sources_of, refs_of. by destruct (g !! k).
  - intros v g Hk. rewrite lookup_fmap in Hk. destruct (g !! v_index v); [done|].
    by rewrite fmap_insert.
  - intros v g k b. destruct (g !! v_index v); [by right|].
    rewrite fmap_insert, lookup_insert_Some. naive_solver.
  - intros s v g ((b & Hs) & Hne & _). simpl in *. unfold link. rewrite fmap_insert. f_equal.
    apply map_eq. intros k. rewrite !lookup_fmap.
    destruct (decide (k = v_index s)) as [->|Hk];
      [rewrite lookup_alter_eq; by destruct (g !! v_index s)|by rewrite lookup_alter_ne].
  - intros s v g k b. unfold link. rewrite fmap_insert, lookup_insert_Some, !lookup_fmap.
    intros [[_ <-]|[_ Hb]]; [auto|]. right; right. destruct (decide (k = v_index s)) as [->|Hk].
    + rewrite lookup_alter_eq in Hb. by destruct (g !! v_index s).
    + by rewrite lookup_alter_ne in Hb.
  - intros s v g _. unfold link, sources_of at 1. by rewrite lookup_insert_eq.
  - intros s v g (_ & _ & _ & Hr). unfold link, refs_of at 1. by rewrite lookup_insert_eq.
Qed.
End toy_dag.
End ToyDag.

Section witnesses.
Import Toy Sample ToyBlocks ToyGroup ToyDag.

Definition empty_dag : @Dag Block dag := ∅.

(** A signature of the empty payload. *)
Definition certificate : Certificate :=
  mk_Certificate (Toy.hex (pad x00)) None "root" "next" "genesis".

Definition certified_genesis : GenesisBlock :=
  mk_GenesisBlock empty_header [] [] "genesis" (Some certificate).

Definition certified (refs : list string) (hash : string) : ConvergenceBlock :=
  mk_ConvergenceBlock
    (mk_BlockHeader refs 0 0 0 0 0 0 "t" alice_claim "c" Reward_default Reward_default "s")
    [] [] hash (Some certificate).

Definition keyed_dag : DagModule :=
  set_harvester_pubkeys group (DagModule_new empty_dag false alice_claim).

Definition rooted_dag : DagModule :=
  (append_block EmptyString (Genesis certified_genesis) keyed_dag).1.

Lemma append_convergence_spec_witness :
  exists d', append_convergence EmptyString (certified ["genesis"; "missing"] "conv") rooted_dag
    = (d', Ok tt) /\
    (dag_sources (dm_dag d') "conv" : gset string) = {["genesis"]}.
Proof.
  destruct (append_convergence_spec EmptyString (certified ["genesis"; "missing"] "conv")
    rooted_dag) as (d' & He & _ & Hs); [reflexivity|..].
  - vm_cast_no_check (@eq_refl bool true).
  - vm_cast_no_check (@eq_refl (option Block) None).
  - exists d'. split; [exact He|]. etransitivity; [exact Hs|].
    vm_cast_no_check (@eq_refl (gset string) {["genesis"]}).
Defined.
End witnesses.
