(* ===== verification/Miner.v ===== *)
(** * The miner: [crates/miner]

    Collects the pending proposals of the DAG, resolves the transactions that
    several of them carry, and builds the convergence block ([miner.rs],
    [miner_impl.rs]). *)

From S2P Require Import Prelude Floats Primitives Keypair Transactions ToyModel Staking Claim.
From S2P Require Import Reward Vrf Blocks BlockProofs Threshold Dag.
From Stdlib Require Import Strings.Byte.

Inductive MinerStatus :=
| Mining
| Waiting.

Inductive MinerError :=
| NoLowestPointerError (msg : string)
| MinerInvalidSignature
| MinerInvalidPublicKey
| MinerOther (msg : string).

Definition MinerError_from (e : ClaimError) : MinerError :=
  match e with
  | ClaimInvalidSignature => MinerInvalidSignature
  | ClaimInvalidPublicKey => MinerInvalidPublicKey
  | ClaimOther details => MinerOther details
  end.

Section miner.
Context `{!Profile, !Hashing, !Secp256k1, !ValidatorKeys, !SocketAddrs, !Ecvrf}.
Context `{!ToJson string, !ToJson (list string), !ToJson Z, !ToJson Claim, !ToJson Reward}.
Context `{!ToJson (list (string * list TransactionDigest)), !ToJson (list (string * list Z)),
  !ToJson (list (Z * Claim))}.
Context `{!ToDebug string, !ToDebug (list string), !ToDebug Z, !ToDebug Claim, !ToDebug Reward}.
Context `{!HashOrder, !LinkedMap, !BullDag Block}.

(** The last block is kept as a trait object, a genesis or convergence block;
    the DAG is behind a lock. *)
Record Miner := mk_Miner {
  m_secret_key : SecretKey;
  m_public_key : PublicKey;
  m_address : Address;
  m_ip_address : SocketAddr;
  m_claim : Claim;
  m_dag : Dag;
  m_dag_poisoned : bool;
  m_last_block : option Block;
  m_status : MinerStatus;
  m_next_epoch_adjustment : Z;
}.

(** The claim of a miner's keys, as [Miner::new] and [generate_claim] make it. *)
Definition miner_claim (sk : SecretKey) (pk : PublicKey) (address : Address) (ip : SocketAddr)
    (node_id : string) : result MinerError Claim :=
  signature ← map_err MinerError_from (signature_for_valid_claim pk ip (sk_bytes sk));
  map_err MinerError_from (Claim_new pk address ip signature node_id).

Definition Miner_new (sk : SecretKey) (pk : PublicKey) (ip : SocketAddr) (dag : Dag)
    (poisoned : bool) (node_id : string) : result MinerError Miner :=
  let address := Address_new pk in
  claim ← miner_claim sk pk address ip node_id;
  Ok (mk_Miner sk pk address ip claim dag poisoned None Waiting 0).

Definition generate_claim (m : Miner) : result MinerError Claim :=
  miner_claim (m_secret_key m) (m_public_key m) (m_address m) (m_ip_address m)
    (c_node_id (m_claim m)).

Definition check_claim (winner : Z) (m : Miner) : bool := (winner =? c_hash (m_claim m))%Z.

(** [<Miner as BlockBuilder>::update]. *)
Definition miner_update (last_block : option Block) (adjustment : Z) (m : Miner) : Miner :=
  mk_Miner (m_secret_key m) (m_public_key m) (m_address m) (m_ip_address m) (m_claim m)
    (m_dag m) (m_dag_poisoned m) last_block (m_status m) adjustment.

Definition set_status (status : MinerStatus) (m : Miner) : Miner :=
  mk_Miner (m_secret_key m) (m_public_key m) (m_address m) (m_ip_address m) (m_claim m)
    (m_dag m) (m_dag_poisoned m) (m_last_block m) status (m_next_epoch_adjustment m).

Definition set_next_epoch_adjustment {E} (adjustment : Z) : method Miner E unit := fun m =>
  match arith I128 (m_next_epoch_adjustment m + adjustment) with
  | Ok n =>
      (mk_Miner (m_secret_key m) (m_public_key m) (m_address m) (m_ip_address m) (m_claim m)
         (m_dag m) (m_dag_poisoned m) (m_last_block m) (m_status m) n, Ok tt)
  | Err e => (m, Err e)
  | Panic => (m, Panic)
  end.

(** ** Conflicts *)

(** The proposers are a set of which only insertion, size and membership are
    used. *)
Record Conflict := mk_Conflict {
  conflict_txn_id : TransactionDigest;
  proposers : list (Claim * string);
  winner : option string;
}.

Definition set_insert {A} `{EqDecision A} (x : A) (l : list A) : list A :=
  if decide (x ∈ l) then l else x :: l.

Definition identify_txn (block : ProposalBlock) (conflicts : gmap TransactionDigest Conflict)
    (id : TransactionDigest) : gmap TransactionDigest Conflict :=
  let proposer := (pb_from block, pb_hash block) in
  partial_alter (fun o =>
    match o with
    | Some e => Some (mk_Conflict (conflict_txn_id e) (set_insert proposer (proposers e)) (winner e))
    | None => Some (mk_Conflict id [proposer] None)
    end) id conflicts.

Definition identify_block (conflicts : gmap TransactionDigest Conflict) (block : ProposalBlock)
    : gmap TransactionDigest Conflict :=
  fold_left (identify_txn block) (pb_txns block).*1 conflicts.

Definition identify (blocks : list ProposalBlock) : gmap TransactionDigest Conflict :=
  filter (fun p => 1 < length (proposers p.2)) (fold_left identify_block blocks ∅).

Definition get_proposers (blocks : list ProposalBlock) : list (Claim * string) :=
  map (fun block => (pb_from block, pb_hash block)) blocks.

(** The [BTreeMap] of the ballots by election result. *)
Definition get_election_results (ballots : list (Claim * string)) (seed : Z)
    : list (Z * (Claim * string)) :=
  bt_collect (map (fun b => (get_election_result b.1 seed, b)) ballots).

(** [while first.is_none() { first = iter.next() }], for [fuel] turns; [None] is
    a loop that has not ended. *)
Fixpoint first_entry {A} (fuel : nat) (first : option A) (iter : list A) : option A :=
  match first with
  | Some x => Some x
  | None =>
      match fuel with
      | O => None
      | S fuel' => first_entry fuel' (head iter) (tail iter)
      end
  end.

(** One turn of [append_winner]: the election results are narrowed to the
    conflict's proposers, for the conflicts that follow as well. *)
Definition elect_winner (fuel : nat) (results : list (Z * (Claim * string))) (c : Conflict)
    : option (list (Z * (Claim * string)) * Conflict) :=
  let results := filter (fun e => e.2 ∈ proposers c) results in
  first ← first_entry fuel (head results) (tail results);
  Some (results, mk_Conflict (conflict_txn_id c) (proposers c) (Some first.2.2)).

Fixpoint elect_winners (fuel : nat) (results : list (Z * (Claim * string)))
    (conflicts : list (TransactionDigest * Conflict))
    : option (list (TransactionDigest * Conflict)) :=
  match conflicts with
  | [] => Some []
  | (id, c) :: conflicts' =>
      '(results, c) ← elect_winner fuel results c;
      rest ← elect_winners fuel results conflicts';
      Some ((id, c) :: rest)
  end.

Definition append_winner (fuel : nat) (conflicts : gmap TransactionDigest Conflict)
    (results : list (Z * (Claim * string))) : option (gmap TransactionDigest Conflict) :=
  l ← elect_winners fuel results (hash_iter conflicts);
  Some (list_to_map l).

(** The transactions a block keeps: those without a conflict, and those of the
    conflicts it won. *)
Definition resolve_block (conflicts : gmap TransactionDigest Conflict) (block : ProposalBlock)
    : ProposalBlock :=
  let local_conflicts := filter (fun p => p.1 ∈ (pb_txns block).*1) conflicts in
  let removals : gset TransactionDigest :=
    list_to_set (filter (fun p => Some (pb_hash block) <> winner p.2)
                   (hash_iter local_conflicts)).*1 in
  set_pb_txns (filter (fun p => p.1 ∉ removals) (pb_txns block)) block.

Definition resolve_current (current : list ProposalBlock)
    (conflicts : gmap TransactionDigest Conflict) : list ProposalBlock :=
  map (resolve_block conflicts) current.

Definition split_proposals_by_round (blocks : list ProposalBlock) (m : Miner)
    : list ProposalBlock * list ProposalBlock :=
  match m_last_block m ≫= inner_block with
  | Some (header, _) =>
      (filter (fun b => is_current_round b (h_round header) = true) blocks,
       filter (fun b => is_current_round b (h_round header) = false) blocks)
  | None => ([], [])
  end.

(** The convergence blocks between a proposal's reference block and now. *)
Definition miner_get_sources (proposal : ProposalBlock) (m : Miner) : list ConvergenceBlock :=
  if m_dag_poisoned m then []
  else
    let source_refs :=
      match get_vertex (pb_ref_block proposal) (m_dag m) with
      | Some vtx => dag_trace vtx (m_dag m)
      | None => []
      end in
    omap (fun idx =>
      match get_vertex idx (m_dag m) with
      | Some vtx => match vertex_data vtx with Convergence block => Some block | _ => None end
      | None => None
      end) source_refs.

Definition resolve_earlier (blocks : list ProposalBlock) (round : Z) (m : Miner)
    : list ProposalBlock :=
  let prev_blocks := concat (map (fun b => miner_get_sources b m) blocks) in
  let removals := concat (map (fun b => concat (map snd (cb_txns b))) prev_blocks) in
  map (fun b => set_pb_txns (filter (fun p => p.1 ∉ removals) (pb_txns b)) b)
    (filter (fun b => pb_round b <> round) blocks).

(** The blocks among which conflicts are looked for. *)
Definition candidates (blocks : list ProposalBlock) (round : Z) (m : Miner)
    : list ProposalBlock :=
  let '(curr, prev) := split_proposals_by_round blocks m in
  curr ++ resolve_earlier prev round m.

Definition resolve (fuel : nat) (blocks : list ProposalBlock) (round seed : Z) (m : Miner)
    : option (list ProposalBlock) :=
  let curr := candidates blocks round m in
  conflicts ← append_winner fuel (identify curr)
                (get_election_results (get_proposers curr) seed);
  Some (resolve_current curr conflicts).

(** ** Building the convergence block *)

(** [BlockBuilder::get_references]: the leaves of the DAG that are proposals. *)
Definition get_references (m : Miner) : option (list ProposalBlock) :=
  if m_dag_poisoned m then None
  else Some (omap (fun leaf =>
    match get_vertex leaf (m_dag m) with
    | Some vtx => match vertex_data vtx with Proposal block => Some block | _ => None end
    | None => None
    end) (get_leaves (m_dag m))).

Definition get_last_block_vertex (idx : option string) (m : Miner) : option Vertex :=
  idx ← (match idx with
         | Some idx => Some idx
         | None => snd <$> (m_last_block m ≫= inner_block)
         end);
  if m_dag_poisoned m then None else get_vertex idx (m_dag m).

Definition consolidate_txns (blocks : list ProposalBlock)
    : list (string * list TransactionDigest) :=
  linked_collect (map (fun b => (pb_hash b, (pb_txns b).*1)) blocks).

Definition consolidate_claims (blocks : list ProposalBlock) : list (string * list Z) :=
  linked_collect (map (fun b => (pb_hash b, (pb_claims b).*1)) blocks).

Definition miner_get_ref_hashes (blocks : list ProposalBlock) : list string := map pb_hash blocks.

Definition get_txn_hash (txns : list (string * list TransactionDigest)) : string :=
  lower_hex (sha256 (to_json txns)).

Definition get_claim_hash (claims : list (string * list Z)) : string :=
  lower_hex (sha256 (to_json claims)).

(** The header of a genesis or convergence parent, at clock reading [now]. *)
Definition build_header {E} (now : Z) (ref_hashes : list string) (txns_hash claims_hash : string)
    (m : Miner) : result E (option BlockHeader) :=
  match m_last_block m with
  | Some (Genesis block) =>
      BlockHeader_new now (Genesis block) ref_hashes (m_claim m) (m_secret_key m) txns_hash
        claims_hash (m_next_epoch_adjustment m)
  | Some (Convergence block) =>
      BlockHeader_new now (Convergence block) ref_hashes (m_claim m) (m_secret_key m) txns_hash
        claims_hash (m_next_epoch_adjustment m)
  | _ => Ok None
  end.

Definition hash_block (h : BlockHeader) : string :=
  lower_hex (hash_data
    [to_json (h_ref_hashes h); to_json (h_round h); to_json (h_block_seed h);
     to_json (h_next_block_seed h); to_json (h_block_height h); to_json (h_timestamp h);
     to_json (h_txn_hash h); to_json (h_miner_claim h); to_json (h_claim_list_hash h);
     to_json (h_block_reward h); to_json (h_next_block_reward h);
     to_json (h_miner_signature h)]).

Definition get_seed (m : Miner) : Z :=
  match m_last_block m ≫= inner_block with
  | Some (header, _) => h_next_block_seed header
  | None => int_max U32
  end.

Definition get_round {E} (m : Miner) : result E Z :=
  match m_last_block m ≫= inner_block with
  | Some (header, _) => arith U128 (h_round header + 1)
  | None => Ok 0%Z
  end.

(** The block [build] makes of the resolved proposals. *)
Definition assemble {E} (now : Z) (resolved : list ProposalBlock) (m : Miner)
    : result E (option ConvergenceBlock) :=
  let txns := consolidate_txns resolved in
  let claims := consolidate_claims resolved in
  let ref_hashes := miner_get_ref_hashes resolved in
  header ← build_header now ref_hashes (get_txn_hash txns) (get_claim_hash claims) m;
  Ok (match header with
      | Some header => Some (mk_ConvergenceBlock header txns claims (hash_block header) None)
      | None => None
      end).

(** [build] with [fuel] turns for each election; the outer [None] is a call that
    has not returned. *)
Definition build {E} (fuel : nat) (now : Z) (m : Miner)
    : option (result E (option ConvergenceBlock)) :=
  match get_references m with
  | None => Some (Ok None)
  | Some blocks =>
      match get_round m with
      | Ok round =>
          resolved ← resolve fuel blocks round (get_seed m) m;
          Some (assemble now resolved m)
      | Err e => Some (Err e)
      | Panic => Some Panic
      end
  end.

(** [try_mine]. *)
Definition try_mine (fuel : nat) (now : Z) (m : Miner)
    : option (Miner * result MinerError Block) :=
  let m' := set_status Mining m in
  r ← build fuel now m';
  Some (m', match r with
            | Ok (Some block) => Ok (Convergence block)
            | Ok None => Err (MinerOther "Convergence Block Mining Failed")
            | Err e => Err e
            | Panic => Panic
            end).

(** [mine_genesis_block] outside of mainnet, where the block has no
    transactions. *)
Definition mine_genesis_block {E} (now : Z) (claim_list : list (Z * Claim)) (m : Miner)
    : result E (option GenesisBlock) :=
  let claim_list_hash := hash_data [to_json claim_list] in
  claim ← unwrap (generate_claim m);
  header ← BlockHeader_genesis now 0 0 0 claim (m_secret_key m) (lower_hex claim_list_hash);
  Ok (Some (mk_GenesisBlock header [] [(c_hash claim, claim)] (hash_block header) None)).

(** ** Elections that do not end *)

Lemma first_entry_none {A} fuel : first_entry fuel (@None A) [] = None.
Proof. induction fuel; [done|]. exact IHfuel. Qed.

Lemma elect_winner_within fuel results c results' c' :
  elect_winner fuel results c = Some (results', c') ->
  Forall (fun e => e.2 ∈ proposers c /\ e ∈ results) results'.
Proof.
  unfold elect_winner. destruct (first_entry _ _ _); simpl; [|done]. intros [= <- _].
  apply Forall_forall. intros e He. by apply list_elem_of_filter in He.
Qed.

Lemma elect_winner_empty fuel results c :
  Forall (fun e => e.2 ∉ proposers c) results -> elect_winner fuel results c = None.
Proof.
  intros Hall. unfold elect_winner.
  assert (Hnil : filter (fun e : Z * (Claim * string) => e.2 ∈ proposers c) results = []).
  { induction Hall as [|e l He _ IH]; [done|]. by rewrite filter_cons, decide_False. }
  rewrite Hnil. simpl. by rewrite first_entry_none.
Qed.

Lemma elect_winners_none fuel results id c l :
  (id, c) ∈ l -> Forall (fun e => e.2 ∉ proposers c) results ->
  elect_winners fuel results l = None.
Proof.
  revert results. induction l as [|[id' c'] l IH]; intros results Hin Hall; simpl;
    [by apply elem_of_nil in Hin|].
  apply elem_of_cons in Hin as [[= <- <-]|Hin].
  { by rewrite elect_winner_empty. }
  destruct (elect_winner fuel results c') as [[results' c'']|] eqn:He; simpl; [|done].
  rewrite (IH results'); [done|done|].
  apply elect_winner_within in He. rewrite Forall_forall in He, Hall |- *.
  intros e Hx. apply Hall. by apply He.
Qed.

Lemma elect_winners_disjoint fuel results id1 c1 id2 c2 l :
  (id1, c1) ∈ l -> (id2, c2) ∈ l -> id1 <> id2 ->
  (forall x, x ∈ proposers c1 -> x ∈ proposers c2 -> False) ->
  elect_winners fuel results l = None.
Proof.
  revert results. induction l as [|[id c] l IH]; intros results Hin1 Hin2 Hne Hdis; simpl;
    [by apply elem_of_nil in Hin1|].
  destruct (elect_winner fuel results c) as [[results' c']|] eqn:He; simpl; [|done].
  apply elect_winner_within in He. rewrite Forall_forall in He.
  apply elem_of_cons in Hin1, Hin2. destruct Hin1 as [[= -> ->]|Hin1], Hin2 as [[= -> ->]|Hin2].
  - done.
  - rewrite (elect_winners_none _ _ id2 c2); [done|done|].
    apply Forall_forall. intros e Hx Hc. destruct (He e Hx). eauto.
  - rewrite (elect_winners_none _ _ id1 c1); [done|done|].
    apply Forall_forall. intros e Hx Hc. destruct (He e Hx). eauto.
  - by rewrite IH.
Qed.

Context `{!HashOrderLaws}.

(** C39. Two conflicts without a common proposer hang the miner: the election
    results are narrowed to the first conflict's proposers and not restored, so
    at the second none is left and the loop that waits for a first entry never
    ends, whatever number of turns it is given. *)
Theorem disjoint_conflicts_hang (fuel : nat) (conflicts : gmap TransactionDigest Conflict)
    (results : list (Z * (Claim * string))) (id1 id2 : TransactionDigest) (c1 c2 : Conflict) :
  conflicts !! id1 = Some c1 -> conflicts !! id2 = Some c2 -> id1 <> id2 ->
  (forall x, x ∈ proposers c1 -> x ∈ proposers c2 -> False) ->
  append_winner fuel conflicts results = None.
Proof.
  intros Hc1 Hc2 Hne Hdis. unfold append_winner.
  rewrite (elect_winners_disjoint _ _ id1 c1 id2 c2); [done|..|done|done];
    rewrite hash_iter_perm; by apply elem_of_map_to_list.
Qed.

(** ** What is identified *)

Definition holds (id : TransactionDigest) (b : ProposalBlock) : Prop := id ∈ (pb_txns b).*1.
#[local] Instance holds_dec id b : Decision (holds id b).
Proof. unfold holds. apply _. Defined.

Definition ballot (b : ProposalBlock) : Claim * string := (pb_from b, pb_hash b).

(** The blocks that carry a transaction. *)
Definition holders (id : TransactionDigest) (blocks : list ProposalBlock) : list ProposalBlock :=
  filter (holds id) blocks.

(** The conflict entry of [id] lists exactly the ballots of [bs], once each. *)
Definition entry_of (id : TransactionDigest) (bs : list (Claim * string))
    (o : option Conflict) : Prop :=
  match o with
  | None => bs = []
  | Some c => NoDup (proposers c) /\ proposers c <> [] /\ forall x, x ∈ proposers c <-> x ∈ bs
  end.

Lemma set_insert_elem {A} `{EqDecision A} (x : A) l : x ∈ l -> set_insert x l = l.
Proof. apply decide_True. Qed.

Lemma elem_of_set_insert {A} `{EqDecision A} (x : A) l : x ∈ set_insert x l.
Proof. unfold set_insert. destruct (decide (x ∈ l)); [done|left]. Qed.

Lemma identify_txns_lookup block ids m id :
  fold_left (identify_txn block) ids m !! id =
    (if decide (id ∈ ids) then
       Some (match m !! id with
             | Some e => mk_Conflict (conflict_txn_id e) (set_insert (ballot block) (proposers e))
                           (winner e)
             | None => mk_Conflict id [ballot block] None
             end)
     else m !! id).
Proof.
  revert m. induction ids as [|i ids IH]; intros m; [done|]. cbn [fold_left].
  rewrite IH. unfold identify_txn. destruct (decide (id = i)) as [->|Hne].
  - rewrite lookup_partial_alter_eq, (decide_True (P := i ∈ i :: ids)) by left.
    destruct (decide (i ∈ ids)) as [_|_]; [|by destruct (m !! i)].
    destruct (m !! i) as [e|]; cbn [proposers conflict_txn_id winner].
    + by rewrite set_insert_elem by apply elem_of_set_insert.
    + by rewrite set_insert_elem by left.
  - rewrite lookup_partial_alter_ne by done.
    destruct (decide (id ∈ ids)) as [Hin|Hin].
    + by rewrite decide_True by (by right).
    + by rewrite decide_False by set_solver.
Qed.

Lemma set_insert_spec {A} `{EqDecision A} (x : A) l :
  NoDup l -> NoDup (set_insert x l) /\ forall y, y ∈ set_insert x l <-> y = x \/ y ∈ l.
Proof.
  intros Hnd. unfold set_insert. destruct (decide (x ∈ l)) as [Hin|Hin].
  - split; [done|]. intros y. naive_solver.
  - split; [by constructor|]. intros y. apply elem_of_cons.
Qed.

Lemma identify_blocks_entry blocks m id bs :
  entry_of id bs (m !! id) ->
  entry_of id (bs ++ (ballot <$> holders id blocks)) (fold_left identify_block blocks m !! id).
Proof.
  revert m bs. induction blocks as [|b blocks IH]; intros m bs Hm; simpl.
  { by rewrite app_nil_r. }
  unfold holders. rewrite filter_cons. destruct (decide (holds id b)) as [Hh|Hh]; simpl.
  - replace (bs ++ ballot b :: _) with ((bs ++ [ballot b]) ++ (ballot <$> holders id blocks))
      by (by rewrite <-app_assoc).
    apply IH. unfold identify_block. rewrite identify_txns_lookup, decide_True by done.
    destruct (m !! id) as [e|]; simpl in *.
    + destruct Hm as (Hnd & Hne & Hel). destruct (set_insert_spec (ballot b) _ Hnd) as [Hnd' Hel'].
      split_and!; [done| |].
      * intros Hnil. assert (Hb : ballot b ∈ set_insert (ballot b) (proposers e))
          by (apply Hel'; auto). rewrite Hnil in Hb. by apply elem_of_nil in Hb.
      * intros x. rewrite Hel', elem_of_app, list_elem_of_singleton, Hel. tauto.
    + subst bs. simpl. split_and!; [apply NoDup_singleton|done|done].
  - apply IH. unfold identify_block. by rewrite identify_txns_lookup, decide_False.
Qed.

(** ** Resolution *)

(** The conflict got the hash of one of its proposers' blocks as the winner. *)
Definition elected (p p' : TransactionDigest * Conflict) : Prop :=
  p'.1 = p.1 /\ exists x, x ∈ proposers p.2 /\ winner p'.2 = Some x.2.

Lemma elect_winners_common fuel results l e :
  e ∈ results -> (forall id c, (id, c) ∈ l -> e.2 ∈ proposers c) ->
  exists l', elect_winners fuel results l = Some l' /\ Forall2 elected l l'.
Proof.
  revert results. induction l as [|[id c] l IH]; intros results He Hall.
  { exists []. by split. }
  simpl. unfold elect_winner.
  assert (Hin : e ∈ filter (fun e => e.2 ∈ proposers c) results).
  { apply list_elem_of_filter. split; [|done]. apply (Hall id). left. }
  destruct (IH _ Hin) as (l' & Hl' & Hf); [intros; eapply Hall; by right|].
  destruct (filter _ results) as [|x rest] eqn:Hr; [by apply elem_of_nil in Hin|].
  assert (Hx : x ∈ filter (fun e => e.2 ∈ proposers c) results) by (rewrite Hr; left).
  apply list_elem_of_filter in Hx as [Hx _].
  eexists. simpl. destruct fuel; simpl; rewrite Hl'; simpl;
    (split; [done|]); (constructor; [|done]); split; simpl; eauto.
Qed.

Lemma elected_lookup l l' id :
  Forall2 elected l l' -> NoDup l.*1 ->
  match (list_to_map l : gmap TransactionDigest Conflict) !! id,
        (list_to_map l' : gmap TransactionDigest Conflict) !! id with
  | Some c, Some c' => exists x, x ∈ proposers c /\ winner c' = Some x.2
  | None, None => True
  | _, _ => False
  end.
Proof.
  intros Hf. induction Hf as [|[i c] [i' c'] l l' [Hi Hx] _ IH]; intros Hnd; simpl in *; [done|].
  subst i'. apply NoDup_cons in Hnd as [_ Hnd]. specialize (IH Hnd).
  destruct (decide (id = i)) as [->|Hne]; [by rewrite !lookup_insert_eq|].
  by rewrite !lookup_insert_ne.
Qed.

Lemma append_winner_common fuel conflicts results :
  conflicts = ∅ \/ (exists e, e ∈ results /\
    forall id c, conflicts !! id = Some c -> e.2 ∈ proposers c) ->
  exists conflicts', append_winner fuel conflicts results = Some conflicts' /\
    forall id, match conflicts !! id, conflicts' !! id with
               | Some c, Some c' => exists x, x ∈ proposers c /\ winner c' = Some x.2
               | None, None => True
               | _, _ => False
               end.
Proof.
  intros Hc. unfold append_winner.
  assert (Hel : exists l', elect_winners fuel results (hash_iter conflicts) = Some l' /\
    Forall2 elected (hash_iter conflicts) l').
  { destruct Hc as [->|(e & He & Hall)].
    - assert (Hnil : hash_iter (∅ : gmap TransactionDigest Conflict) = []).
      { apply Permutation_nil_r. by rewrite hash_iter_perm, map_to_list_empty. }
      rewrite Hnil. exists []. by split.
    - apply (elect_winners_common fuel results _ e He). intros id c.
      rewrite hash_iter_perm, elem_of_map_to_list. apply Hall. }
  destruct Hel as (l' & -> & Hf). eexists. split; [done|]. intros id.
  assert (Hnd : NoDup (hash_iter conflicts).*1).
  { rewrite hash_iter_perm. apply NoDup_fst_map_to_list. }
  pose proof (elected_lookup _ _ id Hf Hnd) as Hl.
  rewrite (list_to_map_perm _ _ Hnd (hash_iter_perm conflicts)) in Hl.
  by rewrite list_to_map_to_list in Hl.
Qed.

Lemma resolve_block_holds conflicts id b :
  holds id (resolve_block conflicts b) <->
  holds id b /\ forall c, conflicts !! id = Some c -> winner c = Some (pb_hash b).
Proof.
  unfold holds, resolve_block. simpl. rewrite !list_elem_of_fmap.
  set (removals := list_to_set _).
  assert (Hrem : id ∈ removals <-> holds id b /\ exists c, conflicts !! id = Some c /\
    Some (pb_hash b) <> winner c).
  { unfold removals. rewrite elem_of_list_to_set, list_elem_of_fmap. split.
    - intros ([i c] & -> & [Hw Hin]%list_elem_of_filter). rewrite hash_iter_perm in Hin.
      apply elem_of_map_to_list, map_lookup_filter_Some in Hin as [Hin Hh]. eauto.
    - intros (Hh & c & Hc & Hw). exists (id, c). split; [done|].
      apply list_elem_of_filter. split; [done|]. rewrite hash_iter_perm.
      by apply elem_of_map_to_list, map_lookup_filter_Some. }
  split.
  - intros (p & -> & [Hn Hp]%list_elem_of_filter). split; [by exists p|].
    intros c Hc. destruct (decide (winner c = Some (pb_hash b))); [done|]. exfalso.
    apply Hn, Hrem. split; [apply list_elem_of_fmap; by exists p|]. exists c. by split.
  - intros ((p & -> & Hp) & Hw). exists p. split; [done|]. apply list_elem_of_filter.
    split; [|done]. intros (_ & c & Hc & Hne)%Hrem. by rewrite (Hw c Hc) in Hne.
Qed.

Lemma filter_unique {A B} `{EqDecision B} (f : A -> B) (P : A -> Prop) `{!forall x, Decision (P x)}
    (l : list A) x :
  NoDup (f <$> l) -> x ∈ l -> P x ->
  length (filter (fun y => P y /\ f y = f x) l) = 1.
Proof.
  intros Hnd Hx HP. induction l as [|y l IH]; [by apply elem_of_nil in Hx|].
  simpl in Hnd. apply NoDup_cons in Hnd as [Hy Hnd]. rewrite filter_cons.
  apply elem_of_cons in Hx as [->|Hx].
  - rewrite decide_True by done. simpl. f_equal.
    assert (Hnil : filter (fun z => P z /\ f z = f y) l = []); [|by rewrite Hnil].
    clear IH Hnd. induction l as [|z l IH]; [done|]. rewrite filter_cons.
    rewrite decide_False; [apply IH; set_solver|]. intros [_ Hf]. set_solver.
  - rewrite decide_False; [auto|]. intros [_ Hf]. apply Hy. rewrite Hf.
    by apply list_elem_of_fmap_2.
Qed.

Lemma identify_entry blocks id :
  match identify blocks !! id with
  | Some c => NoDup (proposers c) /\ (forall x, x ∈ proposers c <-> x ∈ ballot <$> holders id blocks)
  | None => NoDup (pb_hash <$> blocks) -> length (holders id blocks) <= 1
  end.
Proof.
  pose proof (identify_blocks_entry blocks ∅ id [] ltac:(by rewrite lookup_empty)) as He.
  simpl in He. unfold identify. rewrite map_lookup_filter.
  destruct (fold_left identify_block blocks ∅ !! id) as [c|]; simpl in *.
  - destruct He as (Hnd & _ & Hel). case_guard as Hl; simpl; [done|]. intros Hh.
    assert (Hb : NoDup (ballot <$> holders id blocks)).
    { apply (NoDup_fmap_1 snd). rewrite <-list_fmap_compose.
      by apply NoDup_fmap_filter. }
    rewrite <-(length_fmap ballot). rewrite <-(NoDup_Permutation _ _ Hnd Hb Hel). lia.
  - intros _. destruct (holders id blocks); simpl in *; [lia|done].
Qed.

Lemma holders_resolved conflicts id curr :
  length (holders id (resolve_current curr conflicts)) =
    length (filter (fun b => holds id (resolve_block conflicts b)) curr).
Proof.
  unfold holders, resolve_current. induction curr as [|b curr IH]; [done|].
  cbn [map]. rewrite !filter_cons. destruct (decide _); cbn [length]; by rewrite IH.
Qed.

(** With a winner among its proposers for every conflict, one block keeps each
    transaction. *)
Lemma resolved_once curr conflicts id :
  NoDup (pb_hash <$> curr) ->
  (forall id, match identify curr !! id, conflicts !! id with
              | Some c, Some c' => exists x, x ∈ proposers c /\ winner c' = Some x.2
              | None, None => True
              | _, _ => False
              end) ->
  length (holders id (resolve_current curr conflicts)) = Nat.min 1 (length (holders id curr)).
Proof.
  intros Hnd Hw. rewrite holders_resolved. specialize (Hw id).
  pose proof (identify_entry curr id) as He.
  destruct (identify curr !! id) as [c|], (conflicts !! id) as [c'|] eqn:Hc'; try done.
  - destruct He as [_ Hel]. destruct Hw as (x & Hx & Hwin).
    apply Hel, list_elem_of_fmap in Hx as (b0 & -> & Hb0).
    pose proof Hb0 as [Hh0 Hin0]%list_elem_of_filter.
    assert (Hpos : 1 <= length (holders id curr)).
    { destruct (holders id curr); [by apply elem_of_nil in Hb0|simpl; lia]. }
    rewrite (Nat.min_l _ _ Hpos), <-(filter_unique pb_hash (holds id) curr b0 Hnd Hin0 Hh0).
    f_equal. apply list_filter_iff. intros b. rewrite resolve_block_holds, Hc'. simpl in Hwin.
    split; intros [Hh Hb]; (split; [done|]).
    + specialize (Hb c' eq_refl). rewrite Hwin in Hb. by injection Hb as <-.
    + intros ? [= <-]. by rewrite Hwin, Hb.
  - specialize (He Hnd). rewrite (Nat.min_r _ _ He). unfold holders. f_equal.
    apply list_filter_iff. intros b. rewrite resolve_block_holds, Hc'. naive_solver.
Qed.

(** An election that ends has left a ballot that every conflict lists. *)
Lemma elect_winners_some fuel results l l' :
  elect_winners fuel results l = Some l' ->
  l = [] \/ exists e, e ∈ results /\ forall id c, (id, c) ∈ l -> e.2 ∈ proposers c.
Proof.
  revert results l'. induction l as [|[id c] l IH]; intros results l'; [by left|]. simpl.
  destruct (elect_winner fuel results c) as [[results' c']|] eqn:He; simpl; [|done].
  pose proof (elect_winner_within _ _ _ _ _ He) as Hw. rewrite Forall_forall in Hw.
  destruct (elect_winners fuel results' l) as [rest|] eqn:Hr; [|done]. intros _. right.
  destruct (IH _ _ Hr) as [->|(e & Hin & Hall)].
  - unfold elect_winner in He. set (r := filter _ results) in He.
    destruct r as [|e r'] eqn:Er; [by simpl in He; rewrite first_entry_none in He|].
    assert (Hin : e ∈ r) by (rewrite Er; left).
    apply list_elem_of_filter in Hin as [Hp Hin]. exists e. split; [done|].
    intros id' c'' [= -> ->]%list_elem_of_singleton. done.
  - destruct (Hw e Hin) as [Hp Hin']. exists e. split; [done|].
    intros id' c'' [[= -> ->]|Hc]%elem_of_cons; [done|]. by eapply Hall.
Qed.

Lemma append_winner_some fuel conflicts results conflicts' :
  append_winner fuel conflicts results = Some conflicts' ->
  conflicts = ∅ \/ exists e, e ∈ results /\
    forall id c, conflicts !! id = Some c -> e.2 ∈ proposers c.
Proof.
  unfold append_winner. destruct (elect_winners _ _ _) as [l|] eqn:He; [|done]. intros _.
  apply elect_winners_some in He as [Hn|(e & He & Hall)].
  - left. apply map_to_list_empty_iff, Permutation_nil_r. by rewrite <-hash_iter_perm, Hn.
  - right. exists e. split; [done|]. intros id c Hc. apply (Hall id).
    by rewrite hash_iter_perm, elem_of_map_to_list.
Qed.

(** A transaction that several of the candidate blocks carry. *)
Definition contested (curr : list ProposalBlock) (id : TransactionDigest) : Prop :=
  1 < length (holders id curr).

(** A block that carries all of them, and after which no block has the same election
    result, as another block of the same proposer has. *)
Definition decides (seed : Z) (curr : list ProposalBlock) (b : ProposalBlock) : Prop :=
  (forall id, contested curr id -> holds id b) /\
  exists l1 l2, curr = l1 ++ b :: l2 /\
    Forall (fun b' => get_election_result (pb_from b') seed <>
                      get_election_result (pb_from b) seed) l2.

Lemma identify_contested curr id :
  NoDup (pb_hash <$> curr) -> contested curr id <-> is_Some (identify curr !! id).
Proof.
  intros Hnd. pose proof (identify_entry curr id) as He. unfold contested.
  destruct (identify curr !! id) as [c|] eqn:Hc.
  - split; [by eexists|intros _]. destruct He as [Hp Hel].
    assert (Hb : NoDup (ballot <$> holders id curr)).
    { apply (NoDup_fmap_1 snd). rewrite <-list_fmap_compose. by apply NoDup_fmap_filter. }
    rewrite <-(length_fmap ballot), <-(NoDup_Permutation _ _ Hp Hb Hel).
    unfold identify in Hc. by apply map_lookup_filter_Some in Hc as [_ ?].
  - specialize (He Hnd). split; [lia|by intros [? ?]].
Qed.

Lemma get_election_results_elem curr seed e :
  e ∈ get_election_results (get_proposers curr) seed <->
  exists b l1 l2, e = (get_election_result (pb_from b) seed, ballot b) /\
    curr = l1 ++ b :: l2 /\
    Forall (fun b' => get_election_result (pb_from b') seed <>
                      get_election_result (pb_from b) seed) l2.
Proof.
  unfold get_election_results, get_proposers. rewrite map_map, bt_collect_last.
  set (f := fun b => (get_election_result (pb_from b) seed, ballot b)).
  change (map _ curr) with (f <$> curr). split.
  - intros (l1 & l2 & (k1 & k2 & -> & Hk & ->)%fmap_app_inv & Hn).
    symmetry in Hk. apply fmap_cons_inv in Hk as (b & k3 & -> & -> & ->).
    exists b, k1, k3. split_and!; [done..|]. apply Forall_forall. intros b' Hb' Heq.
    apply Hn. simpl. rewrite <-Heq. rewrite <-list_fmap_compose.
    by apply (list_elem_of_fmap_2 (fst ∘ f)).
  - intros (b & l1 & l2 & -> & -> & Hall). exists (f <$> l1), (f <$> l2).
    rewrite fmap_app. split; [done|]. rewrite <-list_fmap_compose.
    intros (b' & Heq & Hb')%list_elem_of_fmap. rewrite Forall_forall in Hall.
    by destruct (Hall b' Hb').
Qed.

Lemma NoDup_fmap_elem {A B} (f : A -> B) (l : list A) x y :
  NoDup (f <$> l) -> x ∈ l -> y ∈ l -> f x = f y -> x = y.
Proof.
  intros Hnd [i Hi]%list_elem_of_lookup [j Hj]%list_elem_of_lookup Hf.
  assert (i = j) as ->; [|congruence].
  apply (NoDup_lookup _ i j (f x) Hnd); rewrite list_lookup_fmap.
  - by rewrite Hi.
  - by rewrite Hj, Hf.
Qed.

(** What the election needs, in terms of the blocks. *)
Lemma decides_election curr seed :
  NoDup (pb_hash <$> curr) ->
  (identify curr = ∅ \/
     exists e, e ∈ get_election_results (get_proposers curr) seed /\
       forall id c, identify curr !! id = Some c -> e.2 ∈ proposers c) <->
  (forall id, ~ contested curr id) \/ exists b, decides seed curr b.
Proof.
  intros Hnd. f_equiv.
  - split.
    + intros He id [c Hc]%identify_contested; [|done]. by rewrite He, lookup_empty in Hc.
    + intros Hn. apply map_empty. intros id. apply eq_None_not_Some. intros Hs.
      by apply (Hn id), identify_contested.
  - split.
    + intros (e & (b & l1 & l2 & -> & Hcur & Hl)%get_election_results_elem & Hall).
      exists b. split; [|by eauto]. intros id Hcon.
      pose proof (identify_entry curr id) as He.
      apply identify_contested in Hcon as [c Hc]; [|done]. rewrite Hc in He.
      specialize (Hall id c Hc). apply He in Hall. simpl in Hall.
      apply list_elem_of_fmap in Hall as (b' & Hbb & [Hh Hin]%list_elem_of_filter).
      assert (b' = b) as ->; [|done].
      apply (NoDup_fmap_elem pb_hash curr); [done|done| |by injection Hbb].
      rewrite Hcur. set_solver.
    + intros (b & Hc & l1 & l2 & Hcur & Hl).
      exists (get_election_result (pb_from b) seed, ballot b). split.
      { apply get_election_results_elem. eauto 10. }
      intros id c Hid. pose proof (identify_entry curr id) as He. rewrite Hid in He.
      apply He. apply (list_elem_of_fmap_2 ballot), list_elem_of_filter.
      split; [|rewrite Hcur; set_solver].
      apply Hc, identify_contested; [done|]. by rewrite Hid.
Qed.

(** C6. Among candidate blocks with different hashes, the resolution returns exactly
    when no transaction is in two of them, or when one block carries all that are and
    no block after it has the same election result (of several blocks of one
    proposer only the last has a ballot). It then keeps every transaction that some
    candidate carried in exactly one block: none is lost and none is included twice.
    Otherwise it does not return, whatever number of turns the search for a winner
    is given. *)
Theorem resolve_keeps_one (fuel : nat) (blocks : list ProposalBlock) (round seed : Z) (m : Miner) :
  let curr := candidates blocks round m in
  let resolvable := (forall id, ~ contested curr id) \/ exists b, decides seed curr b in
  NoDup (pb_hash <$> curr) ->
  (resolvable -> exists resolved, resolve fuel blocks round seed m = Some resolved /\
    pb_hash <$> resolved = pb_hash <$> curr /\
    forall id, length (holders id resolved) = Nat.min 1 (length (holders id curr))) /\
  (~ resolvable -> resolve fuel blocks round seed m = None).
Proof.
  intros curr resolvable Hnd. unfold resolvable. rewrite <-(decides_election curr seed Hnd).
  unfold resolve. fold curr. split; intros Hc.
  2: { destruct (append_winner _ _ _) eqn:Ha; [|done]. by apply append_winner_some in Ha. }
  destruct (append_winner_common fuel _ _ Hc) as (conflicts & -> & Hw).
  eexists. split; [reflexivity|]. split.
  { unfold resolve_current. clear. induction curr as [|b curr IH]; [done|]. simpl. by f_equal. }
  intros id. by apply resolved_once.
Qed.

Lemma build_without_parent {E} fuel now m :
  m_last_block m = None -> build (E := E) fuel now m = Some (Ok None).
Proof.
  intros Hl. assert (Hc : forall blocks round, candidates blocks round m = []).
  { intros. unfold candidates, split_proposals_by_round. by rewrite Hl. }
  unfold build, get_round, resolve. rewrite Hl.
  destruct (get_references m) as [blocks|]; [|done]. cbn [mbind option_bind].
  rewrite Hc. unfold append_winner.
  assert (He : hash_iter (identify []) = []).
  { apply Permutation_nil_r. by rewrite hash_iter_perm. }
  rewrite He. simpl. unfold assemble, build_header. by rewrite Hl.
Qed.
End miner.

Section witnesses.
Import Toy Sample ToyBlocks ToyDag.

Definition digest_a : TransactionDigest := mk_TransactionDigest [x01] "01".
Definition digest_b : TransactionDigest := mk_TransactionDigest [x02] "02".

(** Two conflicts over four blocks. *)
Definition conflict_a : Conflict :=
  mk_Conflict digest_a [(alice_claim, "p1"); (bob_claim, "p2")] None.
Definition conflict_b : Conflict :=
  mk_Conflict digest_b [(alice_claim, "p3"); (bob_claim, "p4")] None.

Lemma disjoint_conflicts_hang_witness :
  append_winner 1000 (<[digest_a := conflict_a]> {[ digest_b := conflict_b ]})
    (get_election_results
       [(alice_claim, "p1"); (bob_claim, "p2"); (alice_claim, "p3"); (bob_claim, "p4")] 77) = None.
Proof.
  apply (disjoint_conflicts_hang _ _ _ digest_a digest_b conflict_a conflict_b).
  - apply lookup_insert_eq.
  - by rewrite lookup_insert_ne, lookup_singleton_eq.
  - done.
  - intros [claim hash] Ha Hb. simpl in Ha, Hb. rewrite !elem_of_cons, elem_of_nil in Ha, Hb.
    destruct Ha as [[=]|[[=]|[]]], Hb as [[=]|[[=]|[]]]; by subst.
Defined.

Definition proposal_of (claim : Claim) (hash : string) : ProposalBlock :=
  mk_ProposalBlock "genesis" 0 0 [(digest_a, qc_txn_of transfer)] [] claim hash "sig".

Definition rival_blocks : list ProposalBlock :=
  [proposal_of alice_claim "p1"; proposal_of bob_claim "p2"].

Definition toy_miner : Miner :=
  mk_Miner alice_sk (address_pk alice) alice ip_alice alice_claim (empty_dag : Dag) false
    (Some (Genesis (mk_GenesisBlock empty_header [] [] "genesis" None))) Waiting 0.

(** The first block carries all that is contested but has no ballot, because another of
    the same proposer follows. *)
Definition txns_of (ids : list TransactionDigest) : list (TransactionDigest * QuorumCertifiedTxn) :=
  (fun id => (id, qc_txn_of transfer)) <$> ids.

Definition shadowed_blocks : list ProposalBlock :=
  [mk_ProposalBlock "genesis" 0 0 (txns_of [digest_a; digest_b]) [] alice_claim "p1" "sig";
   mk_ProposalBlock "genesis" 0 0 (txns_of [digest_a]) [] bob_claim "p2" "sig";
   mk_ProposalBlock "genesis" 0 0 (txns_of [digest_b]) [] bob_claim "p3" "sig";
   mk_ProposalBlock "genesis" 0 0 [] [] alice_claim "p4" "sig"].

Lemma resolve_keeps_one_witness :
  (exists resolved, resolve 1 rival_blocks 1 77 toy_miner = Some resolved /\
     pb_hash <$> resolved = ["p1"; "p2"] /\
     length (holders digest_a resolved) = 1) /\
  resolve 1000 shadowed_blocks 1 77 toy_miner = None.
Proof.
  split.
  - destruct (resolve_keeps_one 1 rival_blocks 1 77 toy_miner) as [Hr _].
    { apply (bool_decide_unpack _). vm_cast_no_check I. }
    destruct Hr as (resolved & Hr & Hh & Hone).
    + right. exists (proposal_of bob_claim "p2"). split.
      * intros id Hc. unfold contested in Hc.
        change (candidates rival_blocks 1 toy_miner) with rival_blocks in Hc.
        unfold holders, rival_blocks in Hc. rewrite !filter_cons in Hc.
        repeat case_decide; simpl in *; (done || lia).
      * exists [proposal_of alice_claim "p1"], []. by split.
    + exists resolved. split; [exact Hr|]. split; [exact Hh|].
      etrans; [apply Hone|]. reflexivity.
  - apply (resolve_keeps_one 1000 shadowed_blocks 1 77 toy_miner).
    { apply (bool_decide_unpack _). vm_cast_no_check I. }
    change (candidates shadowed_blocks 1 toy_miner) with shadowed_blocks.
    intros [Hn|(b & Hc & l1 & l2 & He & Hl)].
    + apply (Hn digest_a). vm_compute. lia.
    + assert (holds digest_a b /\ holds digest_b b) as [Ha Hb]
        by (split; apply Hc; vm_compute; lia).
      unfold shadowed_blocks in He.
      destruct l1 as [|? [|? [|? [|? l1]]]]; simplify_list_eq; unfold holds in Ha, Hb;
        simpl in Ha, Hb; rewrite ?elem_of_cons, ?elem_of_nil in Ha, Hb; try naive_solver.
      * rewrite !Forall_cons in Hl. by destruct Hl as (_ & _ & Hl & _).
      * by destruct l1.
Defined.
End witnesses.
