(* ===== verification/NodeErrors.v ===== *)
(** * Errors of the node: [crates/node/src/result.rs]

    The variants of the node's error that the modelled code builds, with the
    texts of the errors of the components below it. *)

From S2P Require Import Prelude Primitives Claim Threshold Storage Miner.

Definition dkg_error_to_string (e : DkgError) : string :=
  match e with
  | NotEnoughPeerPublicKeys => "Not enough peer public keys to create partial commitment"
  | SyncKeyGenInstanceNotCreated => "Sync key Generation instance not created."
  | NotEnoughPartMsgsReceived => "Not enough part messages received"
  | NotEnoughPartsCompleted =>
      "At least t+1 parts need to be completed for DKG generation to happen"
  | NotEnoughAckMsgsReceived => "Not enough ack messages received"
  | PartCommitmentNotGenerated => "Partial commitment not generated"
  | PartMsgMissingForNode n => "Partial Committment missing for node with index " +:+ n
  | PartMsgAlreadyAcknowledged n =>
      "Partial Message already acknowledge for node with index " +:+ n
  | InvalidPartMessage s => "Invalid part message: " +:+ s
  | InvalidAckMessage s => "Invalid ack message: " +:+ s
  | SyncKeyGenError s => "Unknown error occurred while synckeygen process: " +:+ s
  | ConfigInvalidValue k v => "Invalid Key " +:+ k +:+ "  Value " +:+ v
  | InvalidNode => "Only MasterNode should participate in DKG generation process"
  | ObserverNotAllowed => "All participants of Quorum need to actively participate in DKG"
  | DkgUnknown s => "Unknown Error: " +:+ s
  end.

Definition signer_error_to_string (e : SignerError) : string :=
  match e with
  | DkgStateCannotBeRead => "SignerError: Dkg state for node cannot be read"
  | GroupPublicKeyMissing => "SignerError: Group public key missing for the quorum"
  | SecretKeyShareMissing =>
      "SignerError: Secret key share for current master node is missing "
  | ThresholdSignatureError s =>
      "SignerError: Error generating threshold signature: " +:+ s
  | PartialSignatureError s => "SignerError: Error generating partial signature: " +:+ s
  | SignatureVerificationError s => "SignerError: Error verifying signature: " +:+ s
  | CorruptSignatureShare _ => "SignerError: "
  end.

Definition QuorumKind_to_string (k : QuorumKind) : string :=
  match k with
  | HarvesterQ => "Harvester"
  | FarmerQ => "Farmer"
  | MinerQ => "Miner"
  end.

(** [NodeError]; the variants that wrap errors of the network, of channels and
    of files are left out. *)
Inductive ManagerError :=
| ManagerOther (msg : string)
| ManagerStorage (e : StorageError)
| ManagerMiner (e : MinerError)
| ManagerClaim (e : ClaimError)
| ManagerDkg (e : DkgError).

Definition claim_error_to_string (e : ClaimError) : string :=
  match e with
  | ClaimInvalidSignature => "Invalid signature"
  | ClaimInvalidPublicKey => "Invalid public key"
  | ClaimOther details => "Details " +:+ details
  end.

Definition miner_error_to_string (e : MinerError) : string :=
  match e with
  | NoLowestPointerError s => "no lowest pointer: " +:+ s
  | MinerInvalidSignature => "Invalid signature during miner's claim verification"
  | MinerInvalidPublicKey => "Invalid public of miner encountered "
  | MinerOther s => s
  end.

Definition manager_error_to_string (e : ManagerError) : string :=
  match e with
  | ManagerOther msg => msg
  | ManagerStorage e => storage_error_to_string e
  | ManagerMiner e => "Error while creating instance of miner: " +:+ miner_error_to_string e
  | ManagerClaim e => "Error while creating claim for node: " +:+ claim_error_to_string e
  | ManagerDkg e => "DKG error: " +:+ dkg_error_to_string e
  end.
