(* ===== verification/StateManager.v ===== *)
(** * The state manager: [crates/node/src/state_manager]

    Turns a convergence block of the DAG into account updates ([utils.rs],
    [manager.rs]) and forwards blocks and transactions to the DAG, the database
    and the mempool. *)

From S2P Require Import Prelude Floats Primitives Keypair Transactions ToyModel Account.
From S2P Require Import Mempool Staking Claim Reward Vrf Blocks BlockProofs Threshold Storage.
From S2P Require Import StorageProofs Dag.
From S2P Require Import NodeErrors.
From Stdlib Require Import Strings.Byte.

(** [Option]'s order and sum as [consolidate_update_args] uses them. *)
Definition opt_max (a b : option Z) : option Z :=
  match a, b with
  | Some x, Some y => Some (Z.max x y)
  | Some x, None => Some x
  | None, b => b
  end.

Definition opt_add (a b : option Z) : option Z :=
  match a, b with
  | Some x, Some y => Some (x + y)%Z
  | a, None => a
  | None, b => b
  end.

Definition opt_digests (a b : option AccountDigests) : option AccountDigests :=
  match a, b with
  | Some x, Some y => Some (extend_all x y)
  | a, None => a
  | None, b => b
  end.

#[export] Instance opt_max_assoc : Assoc (=) opt_max.
Proof. intros [x|] [y|] [z|]; simpl; try done. by rewrite Z.max_assoc. Qed.
#[export] Instance opt_max_comm : Comm (=) opt_max.
Proof. intros [x|] [y|]; simpl; try done. by rewrite Z.max_comm. Qed.
#[export] Instance opt_add_assoc : Assoc (=) opt_add.
Proof. intros [x|] [y|] [z|]; simpl; try done. by rewrite Z.add_assoc. Qed.
#[export] Instance opt_add_comm : Comm (=) opt_add.
Proof. intros [x|] [y|]; simpl; try done. by rewrite Z.add_comm. Qed.
#[export] Instance opt_digests_assoc : Assoc (=) opt_digests.
Proof. intros [x|] [y|] [z|]; simpl; try done. by rewrite extend_all_assoc. Qed.
#[export] Instance opt_digests_comm : Comm (=) opt_digests.
Proof. intros [x|] [y|]; simpl; try done. by rewrite extend_all_comm. Qed.

Section state_manager.
Context `{!Profile, !Hashing, !Secp256k1, !ValidatorKeys, !SocketAddrs, !StrDebug}.
Context `{!ToJson Address, !ToJson PublicKey, !ToJson Token, !ToJson Z, !ToJson string}.
Context `{!ToJson (list (string * QuorumCertifiedTxn)), !ToJson (list (Z * Claim)),
  !ToJson Claim}.
Context `{!HashOrder, !TrieDb, !LinkedMap, !LeftRight, !ThresholdCrypto, !BullDag Block}.

(** ** [utils.rs] *)

Definition get_update_args (updates : gset StateUpdate) : gset UpdateArgs :=
  set_map UpdateArgs_from updates.

Definition add_amounts {E} (a b : option Z) : result E (option Z) :=
  match a, b with
  | Some x, Some y => z ← arith U128 (x + y); Ok (Some z)
  | a, None => Ok a
  | None, b => Ok b
  end.

(** The closure of [and_modify]. *)
Definition merge_args {E} (existing update : UpdateArgs) : result E UpdateArgs :=
  credits ← add_amounts (u_credits existing) (u_credits update);
  debits ← add_amounts (u_debits existing) (u_debits update);
  Ok (mk_UpdateArgs (u_address existing) (opt_max (u_nonce existing) (u_nonce update))
        credits debits (u_storage update) (u_code update)
        (opt_digests (u_digests existing) (u_digests update))).

Definition consolidate_step {E} (acc : result E (gmap Address UpdateArgs)) (update : UpdateArgs)
    : result E (gmap Address UpdateArgs) :=
  m ← acc;
  match m !! u_address update with
  | Some existing => merged ← merge_args existing update; Ok (<[u_address update := merged]> m)
  | None => Ok (<[u_address update := update]> m)
  end.

Definition consolidate_update_args {E} (updates : gset UpdateArgs)
    : result E (gmap Address UpdateArgs) :=
  fold_left consolidate_step (hash_elements updates) (Ok ∅).

(** ** [manager.rs] *)

Record StateManager := mk_StateManager {
  sm_dag : DagModule;
  sm_database : VrrbDb;
  sm_mempool : LeftRightMempool;
}.

Definition StateManager_new (database : VrrbDb) (dag : Dag) (poisoned : bool)
    (mempool : LeftRightMempool) (claim : Claim) : StateManager :=
  mk_StateManager (DagModule_new dag poisoned claim) database mempool.

Definition with_database (db : VrrbDb) (sm : StateManager) : StateManager :=
  mk_StateManager (sm_dag sm) db (sm_mempool sm).

(** A method of the database, with its errors converted by [f]. *)
Definition on_database {A} (f : StorageError -> ManagerError)
    (m : method VrrbDb StorageError A) : method StateManager ManagerError A := fun sm =>
  let '(db, r) := m (sm_database sm) in (with_database db sm, map_err f r).

Definition other_storage (e : StorageError) : ManagerError :=
  ManagerOther (storage_error_to_string e).

Definition confirm_txn (txn : TransactionKind)
    : method StateManager ManagerError TransactionDigest :=
  on_database ManagerStorage (insert_transaction txn) ≫= fun _ => mret (txn_id txn).

Definition sm_commit : method StateManager ManagerError unit :=
  on_database ManagerStorage commit_state.

(** The vertices of the sources the DAG still holds, and the proposals among
    them; [Err] is what a poisoned lock gives. *)
Definition get_sources (vertex : Vertex) (d : DagModule) : list Vertex :=
  if dm_poisoned d then []
  else omap (fun index => get_vertex index (dm_dag d)) (hash_elements (vertex_sources vertex)).

Definition convert_sources (sources : list Vertex) : list ProposalBlock :=
  omap (fun v => match vertex_data v with Proposal block => Some block | _ => None end) sources.

Definition get_proposal_blocks (index : string) (d : DagModule) : option RoundBlocks :=
  if dm_poisoned d then None
  else
    match get_vertex index (dm_dag d) with
    | Some vertex =>
        match vertex_data vertex with
        | Convergence block =>
            Some (mk_RoundBlocks block (convert_sources (get_sources vertex d)))
        | _ => None
        end
    | None => None
    end.

Definition retain_txns (block : ProposalBlock) (digests : list TransactionDigest)
    : ProposalBlock :=
  mk_ProposalBlock (pb_ref_block block) (pb_round block) (pb_epoch block)
    (filter (fun p => p.1 ∈ digests) (pb_txns block)) (pb_claims block) (pb_from block)
    (pb_hash block) (pb_signature block).

(** The proposals of the round, each cut down to the transactions the
    convergence block lists for it; one it does not list keeps them all. *)
Definition filter_proposals (round_blocks : RoundBlocks) : list ProposalBlock :=
  map (fun block =>
    match linked_get (pb_hash block) (cb_txns (rb_convergence round_blocks)) with
    | Some digests => retain_txns block digests
    | None => block
    end) (rb_proposals round_blocks).

(** [get_update_list], on the proposals it has filtered in place. *)
Definition get_update_list {E} (proposals : list ProposalBlock) : result E (gset StateUpdate) :=
  fold_left (fun acc block =>
    updates ← acc;
    subset ← updates_from_block block;
    Ok (updates ∪ subset)) proposals (Ok ∅).

(** The two [HashSet]s of [update_txn_trie] and [update_claim_store]: the distinct
    elements of a list in the set's iteration order. *)
Variable txn_set : list TransactionKind -> list TransactionKind.
Variable claim_set : list (Z * option Claim) -> list (Z * option Claim).

Definition update_txn_trie (proposals : list ProposalBlock) (db : VrrbDb) : VrrbDb :=
  let nested := map (fun block => txn_set (map (fun p => qc_txn p.2) (pb_txns block))) proposals in
  extend_transactions (txn_set (concat nested)) db.

Definition update_claim_store (proposals : list ProposalBlock) (db : VrrbDb) : VrrbDb :=
  let nested := map (fun block =>
    claim_set (map (fun p => (p.1, Some p.2)) (pb_claims block))) proposals in
  extend_claims (claim_set (concat nested)) db.

(** The accounts in the map's iteration order; a failed update is logged and
    skipped. *)
Fixpoint update_accounts (clock : Address -> Z) (l : list (Address * UpdateArgs))
    : method VrrbDb ManagerError unit :=
  match l with
  | [] => mret tt
  | (k, args) :: l' => fun db =>
      match update_account (clock k) args db with
      | (db', Panic) => (db', Panic)
      | (db', _) => update_accounts clock l' db'
      end
  end.

Definition update_state (clock : Address -> Z) (block_hash : string)
    : method StateManager ManagerError unit := fun sm =>
  match get_proposal_blocks block_hash (sm_dag sm) with
  | Some round_blocks =>
      let proposals := filter_proposals round_blocks in
      match get_update_list proposals ≫= (fun us => consolidate_update_args (get_update_args us)) with
      | Ok consolidated =>
          match update_accounts clock (hash_iter consolidated) (sm_database sm) with
          | (db, Ok _) =>
              (with_database (update_claim_store proposals (update_txn_trie proposals db)) sm,
               Ok tt)
          | (db, Err e) => (with_database db sm, Err e)
          | (db, Panic) => (with_database db sm, Panic)
          end
      | Err e => (sm, Err e)
      | Panic => (sm, Panic)
      end
  | None => (sm, Err (ManagerOther "Convergene block not found in DAG"))
  end.

Definition sm_insert_account (key : Address) (account : Account)
    : method StateManager ManagerError unit :=
  on_database other_storage (insert_account key account).

Definition sm_update_account (now : Z) (args : UpdateArgs)
    : method StateManager ManagerError unit :=
  on_database other_storage (update_account now args).

Definition sm_get_account (address : Address) (sm : StateManager)
    : result ManagerError Account :=
  map_err other_storage (state_get address (state_store (sm_database sm))).

Definition sm_apply_block (debug : StorageError -> string) (clock : nat -> Z * Z)
    (block : Block) : method StateManager ManagerError ApplyBlockResult :=
  on_database other_storage (apply_block debug clock block).

Variable from_bytes_error : string.
Variable debug_graph : GraphError -> string.

(** [handle_block_received]; the precheck of an uncertified convergence block
    has no effect. *)
Definition handle_block_received (block : Block) : method StateManager ManagerError unit :=
  fun sm =>
    let '(d, r) := append_block from_bytes_error block (sm_dag sm) in
    (mk_StateManager d (sm_database sm) (sm_mempool sm),
     map_err (fun e => ManagerOther ("Encountered GraphError: " +:+ debug_graph e)) r).

Definition handle_new_txn_created (txn_size now : Z) (txn : TransactionKind)
    : method StateManager ManagerError TransactionDigest := fun sm =>
  let '(mp, r) := mp_insert (E := ManagerError) txn_size now txn (sm_mempool sm) in
  (mk_StateManager (sm_dag sm) (sm_database sm) mp, _ ← r; Ok (txn_id txn)).

Definition handle_transaction_validated (txn : TransactionKind)
    : method StateManager ManagerError unit := fun sm =>
  let sm' := mk_StateManager (sm_dag sm) (sm_database sm)
               (mp_remove (txn_id txn) (sm_mempool sm)) in
  (confirm_txn txn ≫= fun _ => mret tt) sm'.

Definition sm_get_claims (claim_hashes : list Z) (sm : StateManager) : list Claim :=
  map snd (filter (fun p => c_hash p.2 ∈ claim_hashes)
    (hash_iter (claims_entries (claim_store (sm_database sm))))).

Definition get_claims_by_account_address (address : Address) (sm : StateManager) : list Claim :=
  map snd (filter (fun p => c_address p.2 = address)
    (hash_iter (claims_entries (claim_store (sm_database sm))))).

(** ** Consolidation *)

(** What merging does when no sum overflows. *)
Definition merged (existing update : UpdateArgs) : UpdateArgs :=
  mk_UpdateArgs (u_address existing) (opt_max (u_nonce existing) (u_nonce update))
    (opt_add (u_credits existing) (u_credits update))
    (opt_add (u_debits existing) (u_debits update)) (u_storage update) (u_code update)
    (opt_digests (u_digests existing) (u_digests update)).

Definition merge_into (o : option UpdateArgs) (u : UpdateArgs) : option UpdateArgs :=
  match o with
  | Some existing => Some (merged existing u)
  | None => Some u
  end.

Definition pure_step (m : gmap Address UpdateArgs) (u : UpdateArgs) : gmap Address UpdateArgs :=
  partial_alter (fun o => merge_into o u) (u_address u) m.

Definition of_address (k : Address) (l : list UpdateArgs) : list UpdateArgs :=
  filter (fun u => u_address u = k) l.

Lemma pure_step_lookup l m k :
  fold_left pure_step l m !! k = fold_left merge_into (of_address k l) (m !! k).
Proof.
  revert m. induction l as [|u l IH]; intros m; simpl; [done|].
  rewrite IH. unfold pure_step at 1, of_address. rewrite filter_cons.
  case_decide as Hk; simpl.
  - by rewrite Hk, lookup_partial_alter_eq.
  - by rewrite lookup_partial_alter_ne.
Qed.

(** The total a list of optional amounts adds up to. *)
Definition amount_sum (l : list (option Z)) : Z := foldr (fun o s => default 0%Z o + s)%Z 0%Z l.

Definition amounts_fit (l : list UpdateArgs) : Prop :=
  Forall args_wf l /\
  forall k, (amount_sum (u_credits <$> of_address k l) <= int_max U128)%Z /\
            (amount_sum (u_debits <$> of_address k l) <= int_max U128)%Z.

Lemma add_amounts_ok {E} a b :
  opt_u128 a -> opt_u128 b -> (default 0%Z a + default 0%Z b <= int_max U128)%Z ->
  add_amounts (E := E) a b = Ok (opt_add a b) /\ opt_u128 (opt_add a b).
Proof.
  intros Ha Hb Hs. destruct a as [x|], b as [y|]; simpl in *; try done.
  specialize (Ha x eq_refl). specialize (Hb y eq_refl). rewrite arith_ok by range_lia.
  split; [done|]. intros n [= <-]. range_lia.
Qed.

Lemma default_opt_add a b : default 0%Z (opt_add a b) = (default 0%Z a + default 0%Z b)%Z.
Proof. destruct a, b; simpl; lia. Qed.

Lemma amount_sum_nonneg l : Forall opt_u128 l -> (0 <= amount_sum l)%Z.
Proof.
  induction 1 as [|[x|] l Hx _ IH]; simpl; [lia| |lia]. specialize (Hx x eq_refl). range_lia.
Qed.

Lemma of_address_wf k l : Forall args_wf l -> Forall args_wf (of_address k l).
Proof. apply Forall_filter_sub. Qed.

Lemma sums_nonneg k l :
  Forall args_wf l ->
  (0 <= amount_sum (u_credits <$> of_address k l))%Z /\
  (0 <= amount_sum (u_debits <$> of_address k l))%Z.
Proof.
  intros Hl%(of_address_wf k). split; apply amount_sum_nonneg, Forall_fmap;
    (eapply Forall_impl; [exact Hl|]); by intros u (_ & ? & ?).
Qed.

(** The room left under [u128] once [existing] is counted. *)
Definition room (l : list UpdateArgs) (k : Address) (existing : UpdateArgs) : Prop :=
  args_wf existing /\
  (default 0%Z (u_credits existing) + amount_sum (u_credits <$> of_address k l)
     <= int_max U128)%Z /\
  (default 0%Z (u_debits existing) + amount_sum (u_debits <$> of_address k l)
     <= int_max U128)%Z.

Lemma opt_max_u128 a b : opt_u128 a -> opt_u128 b -> opt_u128 (opt_max a b).
Proof.
  intros Ha Hb. destruct a as [x|], b as [y|]; try done.
  intros n [= <-]. specialize (Ha x eq_refl). specialize (Hb y eq_refl). range_lia.
Qed.

Lemma amount_sum_of_address (f : UpdateArgs -> option Z) u l :
  amount_sum (f <$> of_address (u_address u) (u :: l)) =
    (default 0%Z (f u) + amount_sum (f <$> of_address (u_address u) l))%Z.
Proof. unfold of_address. rewrite filter_cons, decide_True by done. reflexivity. Qed.

Lemma merge_args_ok {E} u l existing :
  args_wf u -> Forall args_wf l -> room (u :: l) (u_address u) existing ->
  merge_args (E := E) existing u = Ok (merged existing u) /\
  room l (u_address u) (merged existing u).
Proof.
  intros (Hun & Huc & Hud) Hl ((Hen & Hec & Hed) & Hc & Hd).
  rewrite amount_sum_of_address in Hc, Hd.
  destruct (sums_nonneg (u_address u) l Hl) as [Hc0 Hd0].
  unfold merge_args.
  destruct (add_amounts_ok (E := E) (u_credits existing) (u_credits u)) as [-> Hc'];
    [done|done|lia|].
  destruct (add_amounts_ok (E := E) (u_debits existing) (u_debits u)) as [-> Hd'];
    [done|done|lia|].
  split; [done|]. split; [split_and!; simpl; auto using opt_max_u128|].
  unfold merged. simpl u_credits. simpl u_debits. rewrite !default_opt_add. lia.
Qed.

Definition fits_from (l : list UpdateArgs) (m : gmap Address UpdateArgs) : Prop :=
  forall k, match m !! k with
            | Some existing => room l k existing
            | None => (amount_sum (u_credits <$> of_address k l) <= int_max U128)%Z /\
                      (amount_sum (u_debits <$> of_address k l) <= int_max U128)%Z
            end.

Lemma of_address_ne k u l : u_address u <> k -> of_address k (u :: l) = of_address k l.
Proof. intros Hne. unfold of_address. by rewrite filter_cons, decide_False. Qed.

Lemma fits_from_step u l m a :
  fits_from (u :: l) m -> room l (u_address u) a -> fits_from l (<[u_address u := a]> m).
Proof.
  intros Hf Hr k. destruct (decide (u_address u = k)) as [<-|Hne].
  - by rewrite lookup_insert_eq.
  - rewrite lookup_insert_ne by done. specialize (Hf k). unfold room in *.
    by rewrite of_address_ne in Hf by done.
Qed.

Lemma consolidate_fold {E} l m :
  Forall args_wf l -> fits_from l m ->
  fold_left consolidate_step l (Ok m) = Ok (E := E) (fold_left pure_step l m).
Proof.
  intros Hwf. revert m. induction Hwf as [|u l Hu Hl IH]; intros m Hf; [done|].
  assert (consolidate_step (E := E) (Ok m) u = Ok (pure_step m u) /\
    fits_from l (pure_step m u)) as [Hs Hf']; [|simpl; by rewrite <-IH, <-Hs].
  pose proof (Hf (u_address u)) as Hk. unfold pure_step.
  destruct (m !! u_address u) as [existing|] eqn:Hm.
  - destruct (merge_args_ok (E := E) u l existing Hu Hl Hk) as [Hok Hr].
    assert (Hp : partial_alter (fun o => merge_into o u) (u_address u) m =
      <[u_address u := merged existing u]> m) by (apply partial_alter_ext; intros ? <-; by rewrite Hm).
    simpl. rewrite Hm, Hok, Hp. split; [done|]. by apply fits_from_step.
  - assert (Hp : partial_alter (fun o => merge_into o u) (u_address u) m =
      <[u_address u := u]> m) by (apply partial_alter_ext; intros ? <-; by rewrite Hm).
    simpl. rewrite Hm, Hp. split; [done|]. apply fits_from_step; [done|].
    split; [done|]. by rewrite !amount_sum_of_address in Hk.
Qed.

Lemma amount_sum_perm l1 l2 : l1 ≡ₚ l2 -> amount_sum l1 = amount_sum l2.
Proof. induction 1; simpl; lia. Qed.

Lemma of_address_perm k l1 l2 : l1 ≡ₚ l2 -> of_address k l1 ≡ₚ of_address k l2.
Proof. intros Hp. unfold of_address. by rewrite Hp. Qed.

(** A field of a merged update is the fold of the field over the updates. *)
Lemma merge_into_field {A} (f : UpdateArgs -> option A) (op : option A -> option A -> option A)
    us o :
  (forall a, op None a = a) ->
  (forall e u, f (merged e u) = op (f e) (f u)) ->
  fold_left merge_into us o ≫= f = fold_left op (f <$> us) (o ≫= f).
Proof.
  intros Hid Hop. revert o. induction us as [|u us IH]; intros o; [done|].
  simpl. rewrite IH. f_equal. destruct o; simpl; by rewrite ?Hop, ?Hid.
Qed.

Lemma merge_into_shape k us o :
  Forall (fun u => u_address u = k) us -> (forall a, o = Some a -> u_address a = k) ->
  match fold_left merge_into us o with
  | Some a => u_address a = k
  | None => us = [] /\ o = None
  end.
Proof.
  intros Hus. revert o. induction Hus as [|u us Hu _ IH]; intros o Ho; simpl.
  - by destruct o; [apply Ho|].
  - assert (Ho' : forall a, merge_into o u = Some a -> u_address a = k).
    { intros a. destruct o; intros [= <-]; simpl; auto. }
    specialize (IH _ Ho'). destruct (fold_left _ us _); [done|]. by destruct o, IH.
Qed.

Context `{!HashOrderLaws}.

(** The consolidated update of an account, from all of its updates. *)
Definition consolidation_of (k : Address) (us : list UpdateArgs) (o : option UpdateArgs) : Prop :=
  match o with
  | None => us = []
  | Some a =>
      us <> [] /\ u_address a = k /\
      u_nonce a = foldr opt_max None (u_nonce <$> us) /\
      u_credits a = foldr opt_add None (u_credits <$> us) /\
      u_debits a = foldr opt_add None (u_debits <$> us) /\
      u_digests a = foldr opt_digests None (u_digests <$> us)
  end.

(** Storage and code come from the account's update that is visited last. *)
Definition written_last (k : Address) (visited : list UpdateArgs) (o : option UpdateArgs) : Prop :=
  forall a, o = Some a ->
    exists u, last (of_address k visited) = Some u /\
      u_storage a = u_storage u /\ u_code a = u_code u.

Lemma merge_into_last us o a :
  fold_left merge_into us o = Some a -> us <> [] ->
  exists u, last us = Some u /\ u_storage a = u_storage u /\ u_code a = u_code u.
Proof.
  induction us as [|u us _] using rev_ind; intros Hf Hn; [done|]. exists u.
  rewrite last_snoc. split; [done|]. rewrite fold_left_app in Hf. simpl in Hf.
  destruct (fold_left merge_into us o); by injection Hf as <-.
Qed.

Lemma consolidate_ok {E} (updates : gset UpdateArgs) :
  amounts_fit (elements updates) ->
  exists m, consolidate_update_args updates = Ok (E := E) m /\
    forall k, consolidation_of k (of_address k (elements updates)) (m !! k) /\
      written_last k (hash_elements updates) (m !! k).
Proof.
  intros [Hwf Hfit]. pose proof (hash_elements_perm updates) as Hp.
  exists (fold_left pure_step (hash_elements updates) ∅). split.
  { apply consolidate_fold; [by rewrite Hp|]. intros k. rewrite lookup_empty.
    rewrite !(amount_sum_perm _ _ (fmap_Permutation _ _ _ (of_address_perm k _ _ Hp))).
    apply Hfit. }
  intros k. rewrite pure_step_lookup, lookup_empty.
  pose proof (of_address_perm k _ _ Hp) as Hpk.
  set (us := of_address k (hash_elements updates)) in *.
  pose proof (merge_into_shape k us None) as Hshape.
  assert (Hf : forall {A} (f : UpdateArgs -> option A) op, Assoc (=) op -> Comm (=) op ->
    (forall a, op None a = a) -> (forall e u, f (merged e u) = op (f e) (f u)) ->
    fold_left merge_into us None ≫= f =
      foldr op None (f <$> of_address k (elements updates))).
  { intros A f op ? ? Hid Hop. rewrite (merge_into_field f op us None Hid Hop).
    rewrite (fold_left_foldr op). apply (foldr_perm op). by rewrite Hpk. }
  pose proof (Hf _ u_nonce opt_max _ _ ltac:(done) ltac:(done)) as Hn.
  pose proof (Hf _ u_credits opt_add _ _ ltac:(by intros []) ltac:(done)) as Hc.
  pose proof (Hf _ u_debits opt_add _ _ ltac:(by intros []) ltac:(done)) as Hd.
  pose proof (Hf _ u_digests opt_digests _ _ ltac:(by intros []) ltac:(done)) as Hg.
  split; [|intros a Ha; apply (merge_into_last us None a Ha); by intros ->].
  unfold consolidation_of.
  destruct (fold_left merge_into us None) as [a|] eqn:Hm.
  - split_and!; try done.
    + intros Hnil. rewrite Hnil in Hpk. apply Permutation_nil_r in Hpk. by rewrite Hpk in Hm.
    + apply Hshape; [|done]. apply Forall_forall. by intros u [? _]%list_elem_of_filter.
  - destruct Hshape as [Hus _]; [|done|].
    { apply Forall_forall. by intros u [? _]%list_elem_of_filter. }
    rewrite Hus in Hpk. by apply Permutation_nil_l in Hpk.
Qed.

(** C8. When no account's credits or debits add up to more than [u128] holds,
    consolidating a round's updates succeeds and gives one update per account that has
    any. Its nonce is the highest, its credits and debits are the sums and its digests
    the union of theirs, whatever the iteration order of the set. Its storage and code
    are those of the account's update that the set happens to yield last. *)
Theorem consolidate_spec {E} (updates : gset UpdateArgs) :
  amounts_fit (elements updates) ->
  exists m, consolidate_update_args updates = Ok (E := E) m /\
    forall k, consolidation_of k (of_address k (elements updates)) (m !! k) /\
      written_last k (hash_elements updates) (m !! k).
Proof. apply consolidate_ok. Qed.

(** ** Applying a round *)

Lemma foldr_opt_add_sum l : default 0%Z (foldr opt_add None l) = amount_sum l.
Proof. induction l as [|o l IH]; simpl; [done|]. by rewrite default_opt_add, IH. Qed.

Lemma foldr_opt_add_u128 l :
  Forall opt_u128 l -> (amount_sum l <= int_max U128)%Z -> opt_u128 (foldr opt_add None l).
Proof.
  intros Hl Hs n Hn. pose proof (foldr_opt_add_sum l) as Hsum. rewrite Hn in Hsum.
  simpl in Hsum. subst n. pose proof (amount_sum_nonneg l Hl). range_lia.
Qed.

Lemma consolidation_wf k l a :
  amounts_fit l -> consolidation_of k (of_address k l) (Some a) -> args_wf a.
Proof.
  intros [Hwf Hfit] (_ & _ & Hn & Hc & Hd & _). destruct (Hfit k) as [Hfc Hfd].
  assert (Hk : Forall args_wf (of_address k l)) by (by apply of_address_wf).
  unfold args_wf. rewrite Hn, Hc, Hd.
  split; [|split; apply foldr_opt_add_u128; try done; apply Forall_fmap;
    (eapply Forall_impl; [exact Hk|]); by intros u (? & ? & ?)].
  clear -Hk. induction Hk as [|u us (Hu & _) _ IH]; [done|]. simpl. by apply opt_max_u128.
Qed.

(** What one consolidated update does to an account. *)
Definition after_update (now : Z) (args : UpdateArgs) (o o' : option Account) : Prop :=
  match o with
  | None => o' = None
  | Some a =>
      (update_accepted args a /\ o' = Some (updated now args a)) \/
      (~ update_accepted args a /\ o' = Some a)
  end.

Abbreviation db_accounts db := (accounts (state_store db)).

Context `{!TrieDbLaws}.

Lemma update_account_step now args db :
  settled (state_store db) -> args_wf args ->
  (forall a, db_accounts db !! u_address args = Some a ->
     account_wf a /\ (a_nonce a < int_max U128)%Z) ->
  exists db' r, update_account now args db = (db', r) /\ r <> Panic /\
    settled (state_store db') /\
    after_update now args (db_accounts db !! u_address args) (db_accounts db' !! u_address args) /\
    (forall k, k <> u_address args -> db_accounts db' !! k = db_accounts db !! k).
Proof.
  intros Hset Hargs Hwf. unfold update_account, on_state, state_update.
  rewrite method_bind_unfold. destruct (db_accounts db !! u_address args) as [a|] eqn:Hk.
  - destruct (Hwf a eq_refl) as [Ha Hmax].
    destruct (update_uncommited_cases now (u_address args) args (state_store db) a Hk Ha Hmax Hargs)
      as [[Hacc ->]|[Hrej [e ->]]].
    + do 2 eexists. split; [reflexivity|]. split; [done|]. simpl state_store.
      unfold settled. rewrite commit_accounts, commit_pending, (written_pending _ _ a) by done.
      rewrite lookup_insert_eq. split; [done|]. split; [by left|].
      intros k Hne. rewrite lookup_insert_ne by congruence. by rewrite Hset.
    + do 2 eexists. split; [reflexivity|]. split; [done|]. simpl state_store.
      rewrite Hk. split; [done|]. split; [by right|done].
  - unfold update_uncommited. destruct (state_get_None _ _ Hk) as [e ->].
    do 2 eexists. split; [reflexivity|]. split; [done|]. simpl state_store.
    rewrite Hk. by split_and!.
Qed.

Lemma update_accounts_spec clock l db :
  NoDup l.*1 -> settled (state_store db) ->
  Forall (fun p => u_address p.2 = p.1 /\ args_wf p.2) l ->
  (forall k a, k ∈ l.*1 -> db_accounts db !! k = Some a ->
     account_wf a /\ (a_nonce a < int_max U128)%Z) ->
  exists db', update_accounts clock l db = (db', Ok tt) /\ settled (state_store db') /\
    (forall k args, (k, args) ∈ l ->
       after_update (clock k) args (db_accounts db !! k) (db_accounts db' !! k)) /\
    (forall k, k ∉ l.*1 -> db_accounts db' !! k = db_accounts db !! k).
Proof.
  intros Hnd Hset Hall. revert db Hset.
  induction Hall as [|[k0 args0] l [Haddr Hargs] _ IH]; intros db Hset Hwf.
  { exists db. split_and!; try done. by intros k args ?%elem_of_nil. }
  simpl in Hnd, Haddr, Hargs. apply NoDup_cons in Hnd as [Hk0 Hnd].
  destruct (update_account_step (clock k0) args0 db Hset Hargs) as
    (db1 & r & He & Hr & Hset1 & Hafter & Hsame).
  { intros a. rewrite Haddr. apply Hwf. left. }
  rewrite Haddr in Hafter, Hsame.
  destruct (IH Hnd db1 Hset1) as (db' & Hu & Hset' & Hin & Hout).
  { intros k a Hk. rewrite Hsame by (by intros ->). apply Hwf. by right. }
  exists db'. simpl. rewrite He. split; [by destruct r|]. split; [done|]. split.
  - intros k args [[= -> ->]|Hk]%elem_of_cons; [by rewrite Hout|].
    assert (k <> k0).
    { intros ->. apply Hk0. apply list_elem_of_fmap. by exists (k0, args). }
    rewrite <-(Hsame k) by done. by apply Hin.
  - intros k Hk. rewrite Hout, Hsame by set_solver. done.
Qed.

Lemma update_state_frame clock h sm :
  sm_dag (update_state clock h sm).1 = sm_dag sm /\
  sm_mempool (update_state clock h sm).1 = sm_mempool sm.
Proof. unfold update_state. breaks; done. Qed.
Lemma update_state_round (clock : Address -> Z) (h : string) (sm : StateManager)
    (rb : RoundBlocks) (us : gset StateUpdate) :
  get_proposal_blocks h (sm_dag sm) = Some rb ->
  get_update_list (filter_proposals rb) = Ok (E := ManagerError) us ->
  amounts_fit (elements (get_update_args us)) ->
  settled (state_store (sm_database sm)) -> state_wf (db_accounts (sm_database sm)) ->
  exists m sm', consolidate_update_args (get_update_args us) = Ok (E := ManagerError) m /\
    update_state clock h sm = (sm', Ok tt) /\ settled (state_store (sm_database sm')) /\
    forall k,
      match m !! k with
      | Some args => after_update (clock k) args (db_accounts (sm_database sm) !! k)
                       (db_accounts (sm_database sm') !! k)
      | None => db_accounts (sm_database sm') !! k = db_accounts (sm_database sm) !! k
      end.
Proof.
  intros Hrb Hus Hfit Hset Hwf.
  destruct (consolidate_ok (E := ManagerError) (get_update_args us) Hfit) as (m & Hm & Hcons).
  assert (Hiter : forall k args, (k, args) ∈ hash_iter m <-> m !! k = Some args).
  { intros k args. rewrite hash_iter_perm. apply elem_of_map_to_list. }
  destruct (update_accounts_spec clock (hash_iter m) (sm_database sm)) as
    (db' & Hu & Hset' & Hin & Hout).
  - rewrite hash_iter_perm. apply NoDup_fst_map_to_list.
  - done.
  - apply Forall_forall. intros [k args] Hk%Hiter. destruct (Hcons k) as [Hcons' _]. rewrite Hk in Hcons'.
    split; [apply Hcons'|]. by eapply consolidation_wf.
  - intros k a _ Hk. by apply (Hwf k).
  - eexists m, _. split; [done|]. unfold update_state. rewrite Hrb, Hus. simpl. rewrite Hm, Hu.
    split; [reflexivity|]. simpl. split; [done|]. intros k.
    destruct (m !! k) as [args|] eqn:Hk; [by apply Hin, Hiter|]. apply Hout.
    intros ([k' args] & -> & Hx%Hiter)%list_elem_of_fmap. simpl in Hk. congruence.
Qed.

(** A transaction with validators none of whom voted for it. *)
Definition unvoted (txn : QuorumCertifiedTxn) : Prop :=
  exists vs, txn_validators (qc_txn txn) = Some vs /\
    filter (fun '(_, vote) => vote = true) vs = ∅.

(** The fees of a block can be shared out. *)
Definition payable (b : ProposalBlock) : Prop :=
  Forall (fun p => ~ unvoted p.2) (pb_txns b) /\
  (Z.of_nat (length (pb_txns b)) * (BASE_FEE / 2) <= int_max U128)%Z.

Lemma fees_unvoted {E} txn :
  unvoted txn -> fees_from_txn (qc_txn txn) = Panic (E := E).
Proof.
  intros (vs & Hvs & He). unfold fees_from_txn. rewrite Hvs, He.
  by rewrite bool_decide_eq_true_2 by apply map_size_empty.
Qed.

Lemma fees_voted {E} txn :
  ~ unvoted txn -> exists us, fees_from_txn (qc_txn txn) = Ok (E := E) us.
Proof.
  intros Hn. unfold fees_from_txn, unvoted in *.
  destruct (txn_validators (qc_txn txn)) as [vs|]; [|by eexists].
  rewrite bool_decide_eq_false_2; [by eexists|]. intros Hs%map_size_empty_iff.
  apply Hn. eauto.
Qed.

Lemma block_txns_ok {E} txns fees set :
  Forall (fun p => ~ unvoted p.2) txns -> (0 <= fees)%Z ->
  (fees + Z.of_nat (length txns) * (BASE_FEE / 2) <= int_max U128)%Z ->
  exists r, fold_left block_txn_step txns (Ok (fees, set)) = Ok (E := E) r.
Proof.
  intros Hv. revert fees set. induction Hv as [|[id txn] txns Ht _ IH]; intros fees set Hf Hs;
    [by eexists|].
  cbn [fold_left length] in *. unfold block_txn_step at 2.
  change (qc_proposer_fee_share (id, txn).2) with (BASE_FEE / 2)%Z.
  assert (0 <= BASE_FEE / 2)%Z by (by apply (bool_decide_unpack _)).
  cbn [snd mbind result_bind]. rewrite arith_ok by range_lia. cbn [snd mbind result_bind].
  destruct (fees_voted (E := E) txn Ht) as [us ->]. cbn [snd mbind result_bind]. apply IH; lia.
Qed.

Lemma get_update_list_ok {E} proposals :
  Forall payable proposals -> exists us, get_update_list proposals = Ok (E := E) us.
Proof.
  unfold get_update_list. generalize (∅ : gset StateUpdate) as us. intros us Hp. revert us.
  induction Hp as [|b bs [Hv Hs] _ IH]; intros us; [by eexists|]. simpl.
  unfold updates_from_block. destruct (block_txns_ok (E := E) (pb_txns b) 0 ∅ Hv) as [[f set] ->];
    [lia|lia|]. apply IH.
Qed.

Lemma fold_panic {E A B} (f : result E A -> B -> result E A) l :
  (forall b, f Panic b = Panic) -> fold_left f l Panic = Panic.
Proof. intros Hf. induction l as [|b l IH]; simpl; [done|]. by rewrite Hf. Qed.

Lemma block_txn_step_not_err {E} acc p :
  (forall e, acc <> Err e) -> forall e : E, block_txn_step acc p <> Err e.
Proof.
  intros He e. unfold block_txn_step.
  destruct acc as [[f set]|e'|]; simpl; [|by destruct (He e')|done].
  destruct (arith U128 _) eqn:Ha; simpl; [|by apply arith_not_err in Ha|done].
  unfold fees_from_txn. by repeat case_match.
Qed.

Lemma block_txns_not_err {E} txns acc :
  (forall e, acc <> Err e) -> forall e : E, fold_left block_txn_step txns acc <> Err e.
Proof.
  revert acc. induction txns as [|p txns IH]; intros acc He; [done|].
  apply IH. by apply block_txn_step_not_err.
Qed.

Lemma block_txns_panic {E} txns p acc :
  p ∈ txns -> unvoted p.2 -> (forall e, acc <> Err e) ->
  fold_left block_txn_step txns acc = Panic (E := E).
Proof.
  intros Hp Hu. revert acc. induction Hp as [p txns|p q txns _ IH]; intros acc He; simpl.
  - assert (block_txn_step acc p = Panic) as ->; [|by apply fold_panic].
    unfold block_txn_step. destruct acc as [[f set]|e|]; simpl; [|by destruct (He e)|done].
    destruct (arith U128 _) eqn:Ha; simpl; [|by apply arith_not_err in Ha|done].
    by rewrite fees_unvoted.
  - apply IH; [done|]. by apply block_txn_step_not_err.
Qed.

Lemma get_update_list_panic {E} proposals b p :
  b ∈ proposals -> p ∈ pb_txns b -> unvoted p.2 ->
  get_update_list proposals = Panic (E := E).
Proof.
  unfold get_update_list. intros Hb Hp Hu.
  assert (Hacc : forall e, Ok (E := E) (∅ : gset StateUpdate) <> Err e) by done. revert Hacc.
  generalize (Ok (E := E) (∅ : gset StateUpdate)) as acc.
  induction Hb as [b bs|b b' bs _ IH]; intros acc Hacc; simpl.
  - destruct acc as [us|e|]; simpl; [|by destruct (Hacc e)|by apply fold_panic].
    unfold updates_from_block.
    rewrite (block_txns_panic (pb_txns b) p) by done. by apply fold_panic.
  - apply IH; [done|]. intros e. destruct acc as [us|e'|]; simpl; [|by destruct (Hacc e')|done].
    unfold updates_from_block. destruct (fold_left _ _ _) as [[]| |] eqn:Hf; simpl; [done| |done].
    by apply block_txns_not_err in Hf.
Qed.

(** C9. Applying the round of a convergence block. If the DAG does not hold the block,
    nothing changes and an error is returned. If some transaction of the filtered
    proposals names validators none of whom voted for it, the fee of a validator
    divides by zero: the call panics before anything is written. Otherwise (and if the
    proposers' fees fit in [u128]) the updates of the round exist; when the amounts of each account
    add up within [u128], the store has no uncommitted writes and its accounts are
    well formed with nonces below the maximum, the call succeeds: every account
    becomes the old one with its consolidated update applied, or stays as it was when
    it has none or the update is refused; no account is created, the store has no
    uncommitted writes again, and the DAG and the mempool stay as they were. *)
Theorem update_state_spec (clock : Address -> Z) (h : string) (sm : StateManager) :
  (get_proposal_blocks h (sm_dag sm) = None ->
     exists e, update_state clock h sm = (sm, Err e)) /\
  forall rb, get_proposal_blocks h (sm_dag sm) = Some rb ->
    ((exists b p, b ∈ filter_proposals rb /\ p ∈ pb_txns b /\ unvoted p.2) ->
       update_state clock h sm = (sm, Panic)) /\
    (Forall payable (filter_proposals rb) ->
     exists us, get_update_list (filter_proposals rb) = Ok (E := ManagerError) us /\
       (amounts_fit (elements (get_update_args us)) ->
        settled (state_store (sm_database sm)) -> state_wf (db_accounts (sm_database sm)) ->
        exists m sm', consolidate_update_args (get_update_args us) = Ok (E := ManagerError) m /\
          update_state clock h sm = (sm', Ok tt) /\ settled (state_store (sm_database sm')) /\
          sm_dag sm' = sm_dag sm /\ sm_mempool sm' = sm_mempool sm /\
          forall k,
            match m !! k with
            | Some args => after_update (clock k) args (db_accounts (sm_database sm) !! k)
                             (db_accounts (sm_database sm') !! k)
            | None => db_accounts (sm_database sm') !! k = db_accounts (sm_database sm) !! k
            end)).
Proof.
  split; [intros Hn; unfold update_state; rewrite Hn; by eexists|]. intros rb Hrb. split.
  - intros (b & p & Hb & Hp & Hu). unfold update_state. rewrite Hrb.
    by rewrite (get_update_list_panic _ b p) by done.
  - intros [us Hus]%(get_update_list_ok (E := ManagerError)). exists us. split; [done|].
    intros Hfit Hset Hwf.
    destruct (update_state_round clock h sm rb us Hrb Hus Hfit Hset Hwf)
      as (m & sm' & Hm & Hu & Hset' & Hk).
    exists m, sm'. pose proof (update_state_frame clock h sm) as [Hd Hp]. rewrite Hu in Hd, Hp.
    by split_and!.
Qed.

(** Without proposals in the DAG a round has no updates. *)
Lemma no_proposals_round `{!BullDagLaws Block} h d rb :
  no_proposals d -> get_proposal_blocks h d = Some rb -> rb_proposals rb = [].
Proof.
  intros Hno. unfold get_proposal_blocks. destruct (dm_poisoned d) eqn:Hp; [done|].
  destruct (get_vertex h (dm_dag d)) as [v|]; [|done].
  destruct (vertex_data v); [|done..]. intros [= <-]. simpl.
  unfold convert_sources. destruct (omap _ _) as [|p ps] eqn:Hl; [done|]. exfalso.
  assert (Hin : p ∈ p :: ps) by left. rewrite <-Hl in Hin.
  apply list_elem_of_omap in Hin as (x & Hx & Hd). unfold get_sources in Hx. rewrite Hp in Hx.
  apply list_elem_of_omap in Hx as (index & _ & Hx).
  destruct (dag_blocks (dm_dag d) !! index) as [b|] eqn:Hb.
  - destruct (get_vertex_Some _ _ _ Hb) as (x' & Hx' & Hdata & _). rewrite Hx in Hx'.
    injection Hx' as <-. specialize (Hno index b Hb). rewrite Hdata in Hd. by destruct b.
  - by rewrite (get_vertex_None _ _ Hb) in Hx.
Qed.

Lemma update_state_no_proposals `{!BullDagLaws Block} (clock : Address -> Z) (h : string)
    (sm : StateManager) :
  no_proposals (sm_dag sm) ->
  state_store (sm_database (update_state clock h sm).1) = state_store (sm_database sm).
Proof.
  intros Hno.
  unfold update_state. destruct (get_proposal_blocks h (sm_dag sm)) as [rb|] eqn:Hrb; [|done].
  unfold filter_proposals. rewrite (no_proposals_round h _ rb Hno Hrb). simpl.
  unfold get_update_args, consolidate_update_args. rewrite set_map_empty.
  assert (He : hash_elements (∅ : gset UpdateArgs) = []).
  { apply Permutation_nil_r. by rewrite hash_elements_perm, elements_empty. }
  rewrite He. simpl.
  assert (Hi : hash_iter (∅ : gmap Address UpdateArgs) = []).
  { apply Permutation_nil_r. by rewrite hash_iter_perm, map_to_list_empty. }
  by rewrite Hi.
Qed.

End state_manager.

Section witnesses.
Import Toy Sample ToyBlocks ToyGroup ToyDag.
#[local] Existing Instance ToyTrie.db_laws.
#[local] Existing Instance lazy_trie.
#[local] Existing Instance Mempool.ToyLeftRight.left_right.

Lemma amounts_fit_perm l1 l2 : l1 ≡ₚ l2 -> amounts_fit l2 -> amounts_fit l1.
Proof.
  intros Hp [Hwf Hfit]. split; [by rewrite Hp|]. intros k.
  by rewrite !(amount_sum_perm _ _ (fmap_Permutation _ _ _ (of_address_perm k _ _ Hp))).
Qed.

Lemma NoDup_three {A} (a b c : A) : a <> b -> a <> c -> b <> c -> NoDup [a; b; c].
Proof.
  intros. repeat (constructor; [rewrite ?elem_of_cons, ?elem_of_nil; naive_solver|]). constructor.
Qed.

Lemma get_update_args_three (a b c : StateUpdate) :
  get_update_args (∅ ∪ ({[a]} ∪ (∅ ∪ {[b; c]} ∪ ∅))) =
    list_to_set [UpdateArgs_from a; UpdateArgs_from b; UpdateArgs_from c].
Proof. unfold get_update_args. set_solver. Qed.

Lemma fee_args_wf addr tok amount :
  in_range U128 amount = true -> args_wf (UpdateArgs_from (fee_update addr tok amount)).
Proof. intros Ha. split_and!; intros n Hn; simplify_eq/=; congruence. Qed.

(** Alice's spending and two credits. *)
Definition round_args : list UpdateArgs :=
  [spend; credit_args alice 3 7; credit_args bob 1 2].

Lemma round_args_fit : amounts_fit round_args.
Proof.
  split.
  - unfold round_args. repeat apply Forall_cons_2; [..|apply Forall_nil_2];
      split_and!; intros n Hn; by simplify_eq/=.
  - intros k. unfold of_address, round_args. rewrite !filter_cons.
    repeat case_decide; vm_compute; split; congruence.
Qed.

Lemma round_args_set : elements (list_to_set round_args : gset UpdateArgs) ≡ₚ round_args.
Proof.
  apply elements_list_to_set, NoDup_three; intros Heq.
  - by apply (f_equal u_digests) in Heq.
  - by apply (f_equal u_digests) in Heq.
  - by apply (f_equal u_nonce) in Heq.
Qed.

Lemma consolidate_spec_witness :
  exists m, consolidate_update_args (list_to_set round_args) = Ok (E := ManagerError) m /\
    forall k, consolidation_of k (of_address k (elements (list_to_set round_args : gset UpdateArgs)))
                (m !! k) /\
      written_last k (hash_elements (list_to_set round_args : gset UpdateArgs)) (m !! k).
Proof.
  apply (consolidate_spec (E := ManagerError) (list_to_set round_args)).
  eapply amounts_fit_perm; [apply round_args_set|apply round_args_fit].
Defined.

(** A round of one proposal with the transfer [pay], whose convergence block
    lists it. *)
Definition pay_proposal : ProposalBlock :=
  mk_ProposalBlock "genesis" 1 0 [(t_id pay, qc_txn_of pay)] [] alice_claim "p1" "sig".

Definition pay_convergence : ConvergenceBlock :=
  mk_ConvergenceBlock empty_header [("p1", [t_id pay])] [] "conv" None.

Definition pay_dag : @Dag Block dag :=
  add_edge (vertex_of (Proposal pay_proposal), vertex_of (Convergence pay_convergence))
    (add_vertex (vertex_of (Proposal pay_proposal)) empty_dag).

Definition pay_manager : StateManager :=
  StateManager_new (two_accounts 7) pay_dag false LeftRightMempool_new alice_claim.

Definition pay_updates : gset StateUpdate :=
  ∅ ∪ ({[ fee_update alice (Some Token_default) (qc_proposer_fee_share (qc_txn_of pay)) ]} ∪
    (∅ ∪ {[ sender_update (IntoUpdates_from_txn (TransferKind pay));
            receiver_update (IntoUpdates_from_txn (TransferKind pay)) ]} ∪ ∅)).

Definition pay_args : list UpdateArgs :=
  [UpdateArgs_from (fee_update alice (Some Token_default)
     (qc_proposer_fee_share (qc_txn_of pay)));
   sender_args pay; receiver_args pay].

Lemma pay_args_fit : amounts_fit (elements (get_update_args pay_updates)).
Proof.
  assert (Hset : get_update_args pay_updates = list_to_set pay_args).
  { apply get_update_args_three. }
  rewrite Hset. eapply amounts_fit_perm; [apply elements_list_to_set|].
  - apply NoDup_three; intros Heq.
    + by apply (f_equal u_digests) in Heq.
    + by apply (f_equal u_digests) in Heq.
    + by apply (f_equal u_credits) in Heq.
  - split.
    { repeat apply Forall_cons_2; [|apply sender_args_wf|apply receiver_args_wf|apply Forall_nil_2];
        [by apply fee_args_wf|split; reflexivity..]. }
    intros k. unfold of_address, pay_args. rewrite !filter_cons.
    repeat case_decide; vm_compute; split; congruence.
Qed.

Lemma pay_round :
  get_proposal_blocks "conv" (sm_dag pay_manager) =
    Some (mk_RoundBlocks pay_convergence [pay_proposal]).
Proof.
  vm_cast_no_check (@eq_refl (option RoundBlocks)
    (Some (mk_RoundBlocks pay_convergence [pay_proposal]))).
Qed.

Lemma pay_retained : retain_txns pay_proposal [t_id pay] = pay_proposal.
Proof. unfold retain_txns. simpl pb_txns. by rewrite filter_cons, decide_True by (simpl; left). Qed.

Lemma pay_update_list :
  get_update_list (filter_proposals (mk_RoundBlocks pay_convergence [pay_proposal])) =
    Ok (E := ManagerError) pay_updates.
Proof.
  change (filter_proposals _) with
    [match linked_get "p1" [("p1", [t_id pay])] with
     | Some digests => retain_txns pay_proposal digests
     | None => pay_proposal
     end].
  assert (Hl : linked_get "p1" [("p1", [t_id pay])] = Some [t_id pay]) by reflexivity.
  rewrite Hl, pay_retained. reflexivity.
Qed.

Lemma pay_payable :
  Forall payable (filter_proposals (mk_RoundBlocks pay_convergence [pay_proposal])).
Proof.
  assert (Hp : filter_proposals (mk_RoundBlocks pay_convergence [pay_proposal]) = [pay_proposal]).
  { change (filter_proposals _) with
      [match linked_get "p1" [("p1", [t_id pay])] with
       | Some digests => retain_txns pay_proposal digests
       | None => pay_proposal
       end].
    assert (Hl : linked_get "p1" [("p1", [t_id pay])] = Some [t_id pay]) by reflexivity.
    by rewrite Hl, pay_retained. }
  rewrite Hp. repeat constructor; [|by vm_compute]. by intros (vs & Hvs & _).
Qed.

Lemma update_state_spec_witness :
  exists m sm', consolidate_update_args (get_update_args pay_updates) = Ok (E := ManagerError) m /\
    update_state id id (fun _ => 9%Z) "conv" pay_manager = (sm', Ok tt) /\
    settled (state_store (sm_database sm')) /\
    forall k,
      match m !! k with
      | Some args => after_update 9 args (accounts (state_store (sm_database pay_manager)) !! k)
                       (accounts (state_store (sm_database sm')) !! k)
      | None => accounts (state_store (sm_database sm')) !! k =
                  accounts (state_store (sm_database pay_manager)) !! k
      end.
Proof.
  destruct (update_state_spec id id (fun _ => 9%Z) "conv" pay_manager) as [_ Hspec].
  destruct (Hspec _ pay_round) as [_ Hok]. destruct Hok as (us & Hus & Hok).
  { apply pay_payable. }
  rewrite pay_update_list in Hus. injection Hus as <-.
  destruct Hok as (m & sm' & Hm & Hu & Hs & _ & _ & Hk).
  - apply pay_args_fit.
  - reflexivity.
  - by apply (two_accounts_wf 7).
  - exists m, sm'. by split_and!.
Defined.
End witnesses.
