(* ===== verification/Quorum.v ===== *)
(** * Elections and quorum assignment

    [crates/consensus/quorum/src/quorum.rs] and
    [crates/node/src/consensus/quorum_module.rs]. *)

From S2P Require Import Prelude Floats Primitives Keypair Transactions ToyModel Staking Claim.
From S2P Require Import Reward Vrf Blocks BlockProofs.
From Stdlib Require Import Strings.Byte.

Section quorum.
Context `{!Profile, !Hashing, !Secp256k1, !ValidatorKeys, !SocketAddrs, !Ecvrf}.

Inductive QuorumError :=
| InvalidSeedError
| InvalidPointerSumError (claims : list Claim)
| InvalidChildBlockError
| InsufficientNodesError
| NoSeedError
| QuorumClaimError.

Record Quorum := mk_Quorum {
  quorum_seed : Z;
  master_pubkeys : list string;
  quorum_pk : string;
  election_block_height : Z;
}.

Definition check_validity (height : Z) : bool := (0 <? height)%Z.

Definition Quorum_new (seed height : Z) : result QuorumError Quorum :=
  if negb (check_validity height) then Err InvalidChildBlockError
  else Ok {| quorum_seed := seed; master_pubkeys := []; quorum_pk := EmptyString;
             election_block_height := height |}.

(** The [while] loop of [generate_seed], [fuel] draws at most; [None] is a loop
    that is still running. *)
Fixpoint seed_loop (fuel : nat) (v : VVRF) (random_number : Z) : option Z :=
  if (random_number <? int_max U32)%Z then
    match fuel with
    | O => None
    | S fuel' => let '(v', r) := generate_u64 v in seed_loop fuel' v' r
    end
  else Some random_number.

Definition quorum_generate_seed (fuel : nat) (height : Z) (block_hash : string)
    (kp : KeyPair) : option (result QuorumError Z) :=
  if negb (check_validity height) then Some (Err InvalidChildBlockError)
  else
    match VVRF_new (str_bytes block_hash) (sk_bytes (miner_kp kp).1) with
    | Ok vvrf =>
        if is_err (verify_seed vvrf) then Some (Err InvalidSeedError)
        else
          let '(v, r) := generate_u64 vvrf in
          Ok <$> seed_loop fuel v r
    | Err e => Some (Err e)
    | Panic => Some Panic
    end.

Definition get_eligible_claims (claims : list Claim) : result QuorumError (list Claim) :=
  let eligible_claims :=
    filter (fun claim => c_eligibility claim = EligHarvester /\
                         c_eligibility claim = EligFarmer) claims in
  if bool_decide (length eligible_claims < 20) then Err InsufficientNodesError
  else Ok eligible_claims.

(** [((n as f32) * pct).ceil() as usize]. *)
Definition share_f32 (num den : Z) (n : Z) : Z :=
  float_ceil_to_int Usize (fmul F32 (float_of_Z F32 n) (flit F32 num den)).

Definition election_results (seed : Z) (claims : list Claim) : list (Z * Claim) :=
  bt_collect (map (fun claim => (get_election_result claim seed, claim)) claims).

Definition set_master_pubkeys (ks : list string) (q : Quorum) : Quorum :=
  {| quorum_seed := quorum_seed q; master_pubkeys := ks; quorum_pk := quorum_pk q;
     election_block_height := election_block_height q |}.

Definition get_final_quorum (claims : list Claim) : method Quorum QuorumError unit := fun q =>
  if (quorum_seed q =? 0)%Z then (q, Err NoSeedError)
  else
    let n := Z.of_nat (length claims) in
    let num_claims := share_f32 51 100 n in
    let results := election_results (quorum_seed q) claims in
    if (Z.of_nat (length results) <? share_f32 65 100 n)%Z then
      (q, Err (InvalidPointerSumError claims))
    else
      let pubkeys := take (Z.to_nat num_claims)
                       (map (fun p => pk_to_string (c_public_key p.2)) results) in
      (* [pubkeys[0..num_claims]] *)
      if (Z.of_nat (length pubkeys) <? num_claims)%Z then (q, Panic)
      else (set_master_pubkeys (take (Z.to_nat num_claims) pubkeys) q, Ok tt).

Definition run_election (ballot : list Claim) : method Quorum QuorumError unit := fun q =>
  if (election_block_height q =? 0)%Z then (q, Err InvalidChildBlockError)
  else
    match get_eligible_claims ballot with
    | Ok eligible_claims => get_final_quorum eligible_claims q
    | Err e => (q, Err e)
    | Panic => (q, Panic)
    end.

(** ** The quorum module of the node *)

Class Kademlia := {
  KademliaPeerId : Type;
}.

Context `{!Kademlia, !HashOrder}.

Record PeerData := mk_PeerData {
  p_node_id : string;
  p_node_type : NodeType;
  p_kademlia_peer_id : KademliaPeerId;
  p_udp_gossip_addr : SocketAddr;
  p_raptorq_gossip_addr : SocketAddr;
  p_kademlia_liveness_addr : SocketAddr;
  p_validator_public_key : ValidatorPublicKey;
}.

Record AssignedQuorumMembership := mk_AssignedQuorumMembership {
  am_node_id : string;
  am_kademlia_peer_id : KademliaPeerId;
  am_quorum_kind : QuorumKind;
  am_peers : list PeerData;
}.

Definition assign_membership_to_quorum (kind : QuorumKind) (peer_data : PeerData)
    (peers : list PeerData) : AssignedQuorumMembership :=
  {| am_quorum_kind := kind; am_node_id := p_node_id peer_data;
     am_kademlia_peer_id := p_kademlia_peer_id peer_data;
     am_peers := filter (fun peer => p_node_id peer <> p_node_id peer_data) peers |}.

(** [(count as f64 * 0.3).ceil() as usize]. *)
Definition harvester_count (n : Z) : Z :=
  float_ceil_to_int Usize (fmul F64 (float_of_Z F64 n) (flit F64 3 10)).

Definition peers_of_type (t : NodeType) (peer_list : gmap string (PeerData * bool))
    : list PeerData :=
  filter (fun pd => p_node_type pd = t) (map (fun e => e.2.1) (hash_iter peer_list)).

(** One [for] loop: assign every peer of [intended] to a quorum of [kind]. *)
Definition assign_all (kind : QuorumKind) (intended peers : list PeerData)
    (m : gmap string AssignedQuorumMembership) : gmap string AssignedQuorumMembership :=
  fold_left (fun m pd =>
    <[p_node_id pd := assign_membership_to_quorum kind pd peers]> m) intended m.

Definition assign_peer_list_to_quorums (peer_list : gmap string (PeerData * bool))
    : gmap string AssignedQuorumMembership :=
  let unassigned_miner_peers := peers_of_type NodeMiner peer_list in
  let unassigned_peers := peers_of_type Validator peer_list in
  let count := Z.to_nat (harvester_count (Z.of_nat (length unassigned_peers))) in
  let harvester_peers := take count unassigned_peers in
  let m := assign_all HarvesterQ harvester_peers harvester_peers ∅ in
  let m := assign_all FarmerQ (drop count unassigned_peers) unassigned_peers m in
  assign_all MinerQ unassigned_miner_peers unassigned_miner_peers m.

Definition elect_quorum (claims : gmap string Claim) (header : BlockHeader)
    : result QuorumError Quorum :=
  match Quorum_new (h_next_block_seed header) (h_block_height header) with
  | Ok quorum =>
      match run_election (map snd (hash_iter claims)) quorum with
      | (q, Ok _) => Ok q
      | (_, Panic) => Panic
      | (_, Err _) => Err InvalidSeedError
      end
  | _ => Err InvalidSeedError
  end.

Definition elect_miner (claims : gmap string Claim) (block_seed : Z) : list (Z * Claim) :=
  election_results block_seed
    (filter (fun claim => c_eligibility claim = EligMiner) (map snd (hash_iter claims))).

(** [get_winner]'s loop over the iterator; once exhausted, the iterator goes on
    yielding nothing. [None] is a loop that is still running. *)
Fixpoint get_winner (fuel : nat) (iter : list (Z * Claim)) : option (Z * Claim) :=
  match fuel with
  | O => None
  | S fuel' =>
      match iter with
      | (pointer_sum, claim) :: _ => Some (pointer_sum, claim)
      | [] => get_winner fuel' []
      end
  end.

(** ** Elections *)

(** A quorum can never be elected: a claim is eligible only if it is a
    harvester's and a farmer's at once, so an election fails on every ballot,
    and [elect_quorum] returns the seed error for all claims and headers. *)
Lemma quorum_election_always_fails (claims : gmap string Claim) (header : BlockHeader)
    (ballot : list Claim) (q : Quorum) :
  elect_quorum claims header = Err InvalidSeedError /\
  is_err (run_election ballot q).2 = true.
Proof.
  assert (Hel : forall l, get_eligible_claims l = Err InsufficientNodesError).
  { intros l. unfold get_eligible_claims.
    assert (Hnil : filter (fun claim => c_eligibility claim = EligHarvester /\
      c_eligibility claim = EligFarmer) l = []).
    { induction l as [|c l IH]; [done|]. rewrite filter_cons_False; [done|].
      intros []. congruence. }
    by rewrite Hnil. }
  assert (Hrun : forall l q, is_err (run_election l q).2 = true).
  { intros l q'. unfold run_election. rewrite Hel. by destruct (_ =? 0)%Z. }
  split; [|apply Hrun]. unfold elect_quorum.
  destruct (Quorum_new _ _) as [q'|e|]; [|done..].
  specialize (Hrun (map snd (hash_iter claims)) q').
  destruct (run_election _ q') as [q2 [u|e|]]; simpl in *; done.
Qed.

Lemma election_results_wf seed claims : bt_wf (election_results seed claims).
Proof. apply bt_collect_wf. Qed.

Lemma election_results_elem seed claims r c :
  (r, c) ∈ election_results seed claims ->
  c ∈ claims /\ r = get_election_result c seed.
Proof.
  intros (c' & [= -> ->] & Hc)%bt_collect_elem%list_elem_of_fmap. done.
Qed.

(** With distinct hashes no claim is lost from the ordered map. *)
Lemma election_results_perm seed claims :
  is_u64 seed -> Forall (fun c => is_u256 (c_hash c)) claims -> NoDup (c_hash <$> claims) ->
  election_results seed claims ≡ₚ map (fun c => (get_election_result c seed, c)) claims.
Proof.
  intros Hs Hall Hnd. apply bt_collect_perm.
  rewrite map_map. simpl. revert Hall Hnd.
  induction claims as [|c claims IH]; intros Hall Hnd; simpl; [constructor|].
  apply Forall_cons in Hall as [Hc Hall]. apply NoDup_cons in Hnd as [Hni Hnd].
  constructor; [|auto]. intros (c' & Heq & Hin)%list_elem_of_fmap. apply Hni.
  apply list_elem_of_fmap. exists c'. split; [|done].
  rewrite Forall_forall in Hall. by apply (election_result_inj _ _ seed); auto.
Qed.

Lemma get_winner_cons fuel p l : 0 < fuel -> get_winner fuel (p :: l) = Some p.
Proof. destruct fuel, p; [lia|done]. Qed.

Lemma get_winner_nil fuel : get_winner fuel [] = None.
Proof. by induction fuel. Qed.

Context `{!HashOrderLaws}.

Lemma eligible_miner_elem (claims : gmap string Claim) c :
  c ∈ filter (fun claim => c_eligibility claim = EligMiner) (map snd (hash_iter claims)) <->
  c_eligibility c = EligMiner /\ exists id, claims !! id = Some c.
Proof.
  rewrite list_elem_of_filter, list_elem_of_fmap. split.
  - intros [He ([id c'] & -> & Hin)]. split; [done|]. exists id.
    rewrite (hash_iter_perm claims) in Hin. by apply elem_of_map_to_list.
  - intros [He [id Hid]]. split; [done|]. exists (id, c). split; [done|].
    rewrite (hash_iter_perm claims). by apply elem_of_map_to_list.
Qed.

(** C12. A miner election has a winner exactly when some claim is eligible to
    mine (otherwise the search for it never ends): whatever order the map of
    claims is iterated in, the winner is such a claim, no other one has a
    smaller election result, and if the hashes are distinct the winner is the
    only one with its result. *)
Theorem miner_election_spec (claims : gmap string Claim) (seed : Z) (fuel : nat) :
  0 < fuel -> is_u64 seed -> (forall id c, claims !! id = Some c -> is_u256 (c_hash c)) ->
  match get_winner fuel (elect_miner claims seed) with
  | Some (r, w) =>
      (exists id, claims !! id = Some w) /\ c_eligibility w = EligMiner /\
      r = get_election_result w seed /\
      forall id c, claims !! id = Some c -> c_eligibility c = EligMiner ->
        (r <= get_election_result c seed)%Z /\
        (get_election_result c seed = r -> c_hash c = c_hash w)
  | None => forall id c, claims !! id = Some c -> c_eligibility c <> EligMiner
  end.
Proof.
  intros Hf Hs Hh. unfold elect_miner.
  set (l := filter _ _). pose proof (eligible_miner_elem claims) as Hl. fold l in Hl.
  pose proof (election_results_wf seed l) as Hwf.
  assert (Hkey : forall c, c ∈ l -> get_election_result c seed ∈ (election_results seed l).*1).
  { intros c Hc. apply bt_collect_keys. rewrite <-list_fmap_compose.
    apply list_elem_of_fmap. by exists c. }
  destruct (election_results seed l) as [|[r w] rest] eqn:Hres.
  - rewrite get_winner_nil. intros id c Hid He.
    apply (not_elem_of_nil (get_election_result c seed)), (Hkey c), Hl. eauto.
  - rewrite get_winner_cons by done.
    destruct (election_results_elem seed l r w) as [Hw ->].
    { rewrite Hres. by apply elem_of_cons; left. }
    apply Hl in Hw as Hw'. destruct Hw' as [Hew Hidw]. split_and!; [done..|].
    intros id c Hid He.
    assert (Hc : c ∈ l) by (apply Hl; eauto).
    destruct Hidw as [idw Hidw].
    split; [|intros Heq; apply (election_result_inj _ _ seed); eauto].
    apply Hkey, list_elem_of_fmap in Hc as ([r' c'] & -> & Hc').
    by apply (bt_wf_head_min _ _ _ Hwf Hc').
Qed.

(** ** Shares *)

Lemma share_between num den m e n :
  flit F32 num den = S754_finite false m e -> (e <= 0)%Z -> (0 < n < 2 ^ 24)%Z ->
  (Zpos m <= 2 ^ (- e))%Z ->
  (n * Zpos m / 2 ^ (- e) <= share_f32 num den n)%Z /\
  (share_f32 num den n <= Z.min n (n * Zpos m / 2 ^ (- e) + 1))%Z.
Proof.
  intros Hl He Hn Hm. unfold share_f32. rewrite Hl.
  pose proof (pow2_pos (- e) ltac:(lia)) as Hp.
  pose proof (Z.mul_div_le (n * Zpos m) (2 ^ (- e)) Hp) as Hlo.
  pose proof (Z.mul_succ_div_gt (n * Zpos m) (2 ^ (- e)) Hp) as Hhi.
  assert (Hq : (0 <= n * Zpos m / 2 ^ (- e))%Z) by (apply Z.div_pos; lia).
  set (q := (n * Zpos m / 2 ^ (- e))%Z) in *.
  assert (Hqn : (q <= n)%Z) by (apply Z.div_le_upper_bound; nia).
  assert (Hb : float_between (fmul F32 (float_of_Z F32 n) (S754_finite false m e)) q
            (Z.min n (q + 1))).
  { apply fmul_int_between; try done; simpl; lia || nia. }
  apply (float_between_cast Usize) in Hb as [_ Hb]; [lia|lia|lia|range_lia].
Qed.

Lemma share_51 : flit F32 51 100 = S754_finite false 8556380 (-24).
Proof. vm_compute. reflexivity. Qed.

Lemma share_65 : flit F32 65 100 = S754_finite false 10905190 (-24).
Proof. vm_compute. reflexivity. Qed.

(** 51 per cent of a ballot never exceeds 65 per cent of it, nor the ballot. *)
Lemma share_51_le_65 n :
  (0 <= n < 2 ^ 24)%Z ->
  (0 <= share_f32 51 100 n <= share_f32 65 100 n)%Z /\ (share_f32 65 100 n <= n)%Z.
Proof.
  intros Hn. destruct (decide (n < 8)%Z) as [Hs|Hs].
  - assert (Hc : (n = 0 \/ n = 1 \/ n = 2 \/ n = 3 \/ n = 4 \/ n = 5 \/ n = 6 \/ n = 7)%Z) by lia.
    destruct_or! Hc; subst; vm_compute; split_and!; discriminate.
  - destruct (share_between 51 100 _ _ n share_51) as [Hl1 Hu1]; [lia..|done|].
    destruct (share_between 65 100 _ _ n share_65) as [Hl2 Hu2]; [lia..|done|].
    change (2 ^ (- -24))%Z with 16777216%Z in *.
    assert (0 <= n * 8556380 / 16777216)%Z by (apply Z.div_pos; lia).
    assert (n * 8556380 / 16777216 + 1 <= n * 10905190 / 16777216)%Z.
    { apply Z.div_le_lower_bound; [lia|].
      pose proof (Z.mul_div_le (n * 8556380) 16777216 ltac:(lia)). lia. }
    lia.
Qed.

Lemma harvester_lit : flit F64 3 10 = S754_finite false 5404319552844595 (-54).
Proof. vm_compute. reflexivity. Qed.

(** The harvesters are three tenths of the validators, rounded up, or one less
    through the rounding of the literal; never more than there are. *)
Lemma harvester_count_spec n :
  (0 <= n < 2 ^ 53)%Z ->
  (0 <= harvester_count n <= n)%Z /\ ((3 * n - 1) / 10 <= harvester_count n <= (3 * n + 9) / 10)%Z.
Proof.
  intros Hn. destruct (decide (n = 0)%Z) as [->|Hnz]; [by vm_compute|].
  unfold harvester_count. rewrite harvester_lit.
  assert (Hlo : (0 <= (3 * n - 1) / 10)%Z) by (apply Z.div_pos; lia).
  pose proof (Z.mul_div_le (3 * n - 1) 10 ltac:(lia)).
  pose proof (Z.mul_succ_div_gt (3 * n + 9) 10 ltac:(lia)).
  pose proof (Z.mul_div_le (3 * n + 9) 10 ltac:(lia)).
  assert (Hb : float_between (fmul F64 (float_of_Z F64 n)
            (S754_finite false 5404319552844595 (-54))) ((3 * n - 1) / 10) ((3 * n + 9) / 10)).
  { apply fmul_int_between; try done; simpl f_prec; lia. }
  apply (float_between_cast Usize) in Hb as [_ Hb]; [lia|lia|lia|range_lia].
Qed.

(** Exactly three tenths rounded up, for as many validators as a network may have. *)
Lemma harvester_count_exact n :
  (0 <= n <= 4096)%Z -> harvester_count n = ((3 * n + 9) / 10)%Z.
Proof.
  intros Hn.
  assert (Ht : forallb (fun k => (harvester_count (Z.of_nat k) =? (3 * Z.of_nat k + 9) / 10)%Z)
    (seq 0 4097) = true) by (vm_compute; reflexivity).
  rewrite forallb_forall in Ht. specialize (Ht (Z.to_nat n)). rewrite Z2Nat.id in Ht by lia.
  apply Z.eqb_eq, Ht, in_seq. lia.
Qed.

Lemma harvester_count_nat n :
  (Z.of_nat n < 2 ^ 53)%Z -> Z.to_nat (harvester_count (Z.of_nat n)) <= n.
Proof. intros Hn. destruct (harvester_count_spec (Z.of_nat n)) as [? _]; lia. Qed.

(** C13. The final quorum: with fewer than [2 ^ 24] claims of distinct hashes and
    a non-zero seed, the selection succeeds (the slice is within bounds) and the
    quorum's keys are those of the 51 per cent of claims with the lowest
    election results, in increasing order of result. *)
Theorem final_quorum_spec (claims : list Claim) (q : Quorum) :
  quorum_seed q <> 0%Z -> is_u64 (quorum_seed q) ->
  Forall (fun c => is_u256 (c_hash c)) claims -> NoDup (c_hash <$> claims) ->
  (Z.of_nat (length claims) < 2 ^ 24)%Z ->
  exists q' sorted, get_final_quorum claims q = (q', Ok tt) /\
    sorted ≡ₚ claims /\
    StronglySorted Z.lt (map (fun c => get_election_result c (quorum_seed q)) sorted) /\
    master_pubkeys q' =
      map (fun c => pk_to_string (c_public_key c))
        (take (Z.to_nat (share_f32 51 100 (Z.of_nat (length claims)))) sorted).
Proof.
  intros Hs0 Hs Hh Hnd Hlen. unfold get_final_quorum.
  rewrite (proj2 (Z.eqb_neq _ _)) by done.
  pose proof (election_results_perm (quorum_seed q) claims Hs Hh Hnd) as Hp.
  pose proof (election_results_wf (quorum_seed q) claims) as Hwf.
  pose proof (election_results_elem (quorum_seed q) claims) as Hel.
  set (R := election_results (quorum_seed q) claims) in *.
  assert (HlR : length R = length claims) by (by rewrite Hp, length_map).
  destruct (share_51_le_65 (Z.of_nat (length claims))) as [Hle Hle2]; [lia|].
  rewrite HlR, (proj2 (Z.ltb_ge _ _)) by lia.
  rewrite (proj2 (Z.ltb_ge _ _)) by (rewrite length_take, length_map, HlR; lia).
  eexists _, R.*2. split; [reflexivity|]. split_and!.
  - rewrite Hp, <-list_fmap_compose. by rewrite list_fmap_id.
  - replace (map _ R.*2) with R.*1; [done|]. rewrite <-list_fmap_compose.
    apply list_fmap_ext. intros i [r c] Hi%list_elem_of_lookup_2. simpl.
    by apply Hel in Hi as [_ ->].
  - simpl. rewrite take_take, Nat.min_id, <-!fmap_take. by rewrite <-list_fmap_compose.
Qed.

(** ** Quorum assignment *)

Definition assignment_entry (kind : QuorumKind) (peers : list PeerData) (pd : PeerData)
    : string * AssignedQuorumMembership :=
  (p_node_id pd, assign_membership_to_quorum kind pd peers).

Definition assignment_entries (peer_list : gmap string (PeerData * bool))
    : list (string * AssignedQuorumMembership) :=
  let miners := peers_of_type NodeMiner peer_list in
  let vals := peers_of_type Validator peer_list in
  let k := Z.to_nat (harvester_count (Z.of_nat (length vals))) in
  (assignment_entry HarvesterQ (take k vals) <$> take k vals)
  ++ (assignment_entry FarmerQ vals <$> drop k vals)
  ++ (assignment_entry MinerQ miners <$> miners).

Lemma assign_all_fold kind intended peers m :
  assign_all kind intended peers m =
    fold_left (fun m p => <[p.1 := p.2]> m) (assignment_entry kind peers <$> intended) m.
Proof.
  unfold assign_all. revert m. induction intended as [|pd l IH]; intros m; simpl; [done|].
  apply IH.
Qed.

Section assignment.
Context (peer_list : gmap string (PeerData * bool)).
Context (Hkeys : forall id pd b, peer_list !! id = Some (pd, b) -> p_node_id pd = id).

Lemma peers_of_type_elem ty pd :
  pd ∈ peers_of_type ty peer_list <->
  p_node_type pd = ty /\ exists b, peer_list !! p_node_id pd = Some (pd, b).
Proof.
  unfold peers_of_type. rewrite list_elem_of_filter, list_elem_of_fmap. split.
  - intros [Ht ([id [pd' b]] & -> & Hin)]. split; [done|]. simpl in *.
    rewrite (hash_iter_perm peer_list) in Hin. apply elem_of_map_to_list in Hin.
    rewrite (Hkeys _ _ _ Hin). eauto.
  - intros [Ht [b Hb]]. split; [done|]. exists (p_node_id pd, (pd, b)). split; [done|].
    rewrite (hash_iter_perm peer_list). by apply elem_of_map_to_list.
Qed.

Lemma peer_ids_NoDup : NoDup (map (fun e => p_node_id e.2.1) (hash_iter peer_list)).
Proof.
  assert (Heq : map (fun e => p_node_id e.2.1) (map_to_list peer_list) =
                (map_to_list peer_list).*1).
  { apply list_fmap_ext. intros i [id [pd b]] Hi%list_elem_of_lookup_2. simpl.
    apply elem_of_map_to_list in Hi. by eapply Hkeys. }
  rewrite (hash_iter_perm peer_list), Heq. apply NoDup_fst_map_to_list.
Qed.

Lemma peers_of_type_NoDup ty : NoDup (p_node_id <$> peers_of_type ty peer_list).
Proof.
  pose proof peer_ids_NoDup as Hnd. unfold peers_of_type.
  rewrite <-(map_map (fun e => e.2.1) p_node_id) in Hnd. revert Hnd.
  induction (map (fun e => e.2.1) (hash_iter peer_list)) as [|pd l IH]; simpl; [done|].
  intros [Hni Hnd]%NoDup_cons. rewrite filter_cons. case_decide; simpl; [|auto].
  constructor; [|auto]. intros (pd' & Heq & [_ Hin]%list_elem_of_filter)%list_elem_of_fmap.
  apply Hni. apply list_elem_of_fmap. eauto.
Qed.

Lemma assignment_keys :
  (assignment_entries peer_list).*1 =
    (p_node_id <$> peers_of_type Validator peer_list)
    ++ (p_node_id <$> peers_of_type NodeMiner peer_list).
Proof.
  unfold assignment_entries. rewrite !fmap_app, <-!list_fmap_compose.
  set (vals := peers_of_type Validator peer_list). set (k := Z.to_nat _).
  replace (p_node_id <$> vals) with (p_node_id <$> (take k vals ++ drop k vals))
    by (by rewrite take_drop).
  by rewrite fmap_app, <-app_assoc.
Qed.

Lemma assignment_keys_NoDup : NoDup (assignment_entries peer_list).*1.
Proof.
  rewrite assignment_keys. apply NoDup_app. split_and!; [apply peers_of_type_NoDup| |apply peers_of_type_NoDup].
  intros id (pd & -> & [Ht [b Hb]]%peers_of_type_elem)%list_elem_of_fmap
    (pd' & Heq & [Ht' [b' Hb']]%peers_of_type_elem)%list_elem_of_fmap.
  rewrite Heq in Hb. congruence.
Qed.

Lemma assignment_lookup id a :
  assign_peer_list_to_quorums peer_list !! id = Some a <->
  (id, a) ∈ assignment_entries peer_list.
Proof.
  trans (fold_left (fun (m : gmap string AssignedQuorumMembership) p => <[p.1 := p.2]> m)
           (assignment_entries peer_list) ∅ !! id = Some a).
  { unfold assign_peer_list_to_quorums, assignment_entries.
    by rewrite !assign_all_fold, !fold_left_app. }
  rewrite fold_insert_list_to_map by apply assignment_keys_NoDup.
  rewrite (right_id_L ∅ (∪)). symmetry. apply elem_of_list_to_map, assignment_keys_NoDup.
Qed.

(** The peers a member of a quorum of [kind] is told of, itself left out. *)
Definition fellow (m : gmap string AssignedQuorumMembership) (kind : QuorumKind) (p : PeerData)
    : Prop :=
  (exists b, peer_list !! p_node_id p = Some (p, b)) /\
  match kind with
  | HarvesterQ => exists a, m !! p_node_id p = Some a /\ am_quorum_kind a = HarvesterQ
  | FarmerQ => p_node_type p = Validator
  | MinerQ => p_node_type p = NodeMiner
  end.

(** What a membership says of its node. *)
Definition assigned (id : string) (a : AssignedQuorumMembership) : Prop :=
  am_node_id a = id /\
  (exists pd b, peer_list !! id = Some (pd, b) /\
     am_kademlia_peer_id a = p_kademlia_peer_id pd /\
     p_node_type pd = if decide (am_quorum_kind a = MinerQ) then NodeMiner else Validator) /\
  forall p, p ∈ am_peers a <->
    p_node_id p <> id /\ fellow (assign_peer_list_to_quorums peer_list) (am_quorum_kind a) p.

Lemma elected_harvester pd :
  let vals := peers_of_type Validator peer_list in
  pd ∈ take (Z.to_nat (harvester_count (Z.of_nat (length vals)))) vals <->
  fellow (assign_peer_list_to_quorums peer_list) HarvesterQ pd.
Proof.
  intros vals. set (k := Z.to_nat _). split.
  - intros Hin. pose proof Hin as [_ Hb]%elem_of_take_sub%peers_of_type_elem.
    split; [done|]. exists (assignment_entry HarvesterQ (take k vals) pd).2.
    rewrite assignment_lookup. unfold assignment_entries. fold vals k. rewrite elem_of_app.
    split; [left|done]. by apply (list_elem_of_fmap_2 (assignment_entry HarvesterQ (take k vals))).
  - intros [[b Hb] (a & Ha%assignment_lookup & Hk)]. unfold assignment_entries in Ha.
    rewrite !elem_of_app in Ha. fold vals k in Ha.
    destruct Ha as [(pd' & [= Hid ->] & Hin)%list_elem_of_fmap|[(pd' & [= _ ->] & _)%list_elem_of_fmap|
      (pd' & [= _ ->] & _)%list_elem_of_fmap]]; [|done..].
    pose proof Hin as [_ [b' Hb']]%elem_of_take_sub%peers_of_type_elem.
    rewrite <-Hid, Hb in Hb'. by injection Hb' as -> ->.
Qed.

Lemma assigned_entry kind peers pd :
  (exists b, peer_list !! p_node_id pd = Some (pd, b)) ->
  p_node_type pd = (if decide (kind = MinerQ) then NodeMiner else Validator) ->
  (forall p, p ∈ peers <-> fellow (assign_peer_list_to_quorums peer_list) kind p) ->
  assigned (p_node_id pd) (assignment_entry kind peers pd).2.
Proof.
  intros [b Hb] Ht Hp. split; [done|]. split; [by exists pd, b|].
  intros p. simpl. by rewrite list_elem_of_filter, Hp.
Qed.

Lemma assignment_entries_elem id a :
  (id, a) ∈ assignment_entries peer_list -> assigned id a.
Proof.
  unfold assignment_entries. rewrite !elem_of_app.
  intros [(pd & [= -> ->] & Hin)%list_elem_of_fmap|[(pd & [= -> ->] & Hin)%list_elem_of_fmap|
    (pd & [= -> ->] & Hin)%list_elem_of_fmap]]; apply assigned_entry.
  - by apply elem_of_take_sub, peers_of_type_elem in Hin as [_ ?].
  - by apply elem_of_take_sub, peers_of_type_elem in Hin as [? _].
  - apply elected_harvester.
  - by apply elem_of_drop_sub, peers_of_type_elem in Hin as [_ ?].
  - by apply elem_of_drop_sub, peers_of_type_elem in Hin as [? _].
  - intros p. rewrite peers_of_type_elem. unfold fellow. tauto.
  - by apply peers_of_type_elem in Hin as [_ ?].
  - by apply peers_of_type_elem in Hin as [? _].
  - intros p. rewrite peers_of_type_elem. unfold fellow. tauto.
Qed.

Lemma assignment_dom id :
  is_Some (assign_peer_list_to_quorums peer_list !! id) <->
  exists pd b, peer_list !! id = Some (pd, b) /\
    (p_node_type pd = NodeMiner \/ p_node_type pd = Validator).
Proof.
  split.
  - intros [a (_ & (pd & b & Hpd & _ & Ht) & _)%assignment_lookup%assignment_entries_elem].
    exists pd, b. split; [done|]. destruct (decide _); auto.
  - intros (pd & b & Hpd & Ht).
    assert (Hin : id ∈ (assignment_entries peer_list).*1).
    { rewrite assignment_keys, elem_of_app, !list_elem_of_fmap.
      rewrite <-(Hkeys _ _ _ Hpd) in Hpd |- *.
      destruct Ht; [right|left]; exists pd; (split; [done|]);
        apply peers_of_type_elem; eauto. }
    apply list_elem_of_fmap in Hin as ([id' a] & -> & Hin). exists a. by apply assignment_lookup.
Qed.

Lemma assignment_entries_kind kind :
  length (filter (fun p => am_quorum_kind p.2 = kind) (assignment_entries peer_list)) =
  let vals := peers_of_type Validator peer_list in
  let k := Z.to_nat (harvester_count (Z.of_nat (length vals))) in
  match kind with
  | HarvesterQ => length (take k vals)
  | FarmerQ => length (drop k vals)
  | MinerQ => length (peers_of_type NodeMiner peer_list)
  end.
Proof.
  assert (Hf : forall k peers l,
    length (filter (fun p => am_quorum_kind p.2 = kind) (assignment_entry k peers <$> l)) =
    if decide (k = kind) then length l else 0).
  { intros k peers l. induction l as [|pd l IH]; [by case_decide|].
    rewrite fmap_cons, filter_cons. simpl.
    destruct (decide (k = kind)); simpl; rewrite IH; done. }
  unfold assignment_entries. rewrite !filter_app, !length_app, !Hf. simpl.
  destruct kind; simpl; lia.
Qed.
End assignment.

End quorum.

Section witnesses.
Import Toy Sample ToyBlocks.

#[export] Instance toy_kademlia : Kademlia := {| KademliaPeerId := bytes |}.

Definition peer (id : string) (t : NodeType) : PeerData :=
  mk_PeerData id t [] ip_alice ip_alice ip_alice x01.

Definition sample_peers : gmap string (PeerData * bool) :=
  list_to_map (map (fun p => (p_node_id p, (p, true)))
    [peer "v1" Validator; peer "v2" Validator; peer "v3" Validator; peer "v4" Validator;
     peer "m1" NodeMiner; peer "b1" Bootstrap]).

Definition as_eligible (e : Eligibility) (c : Claim) : Claim :=
  mk_Claim (c_public_key c) (c_address c) (c_hash c) e (c_ip_address c) (c_signature c)
    (c_node_id c) (c_stake c) (c_stake_txns c).

Definition sample_claims : gmap string Claim :=
  {[ "node-1" := as_eligible EligMiner alice_claim; "node-2" := bob_claim ]}.

Lemma sample_peers_keys id pd b : sample_peers !! id = Some (pd, b) -> p_node_id pd = id.
Proof.
  intros Hl. apply elem_of_list_to_map_2 in Hl.
  apply list_elem_of_fmap in Hl as (p & [= -> -> ->] & _). reflexivity.
Defined.

Lemma miner_election_spec_witness :
  match get_winner 1 (elect_miner sample_claims 99) with
  | Some (r, w) => c_eligibility w = EligMiner
  | None => forall id c, sample_claims !! id = Some c -> c_eligibility c <> EligMiner
  end.
Proof.
  assert (H : forall id c, sample_claims !! id = Some c -> is_u256 (c_hash c)).
  { intros id c. unfold sample_claims. rewrite lookup_insert_Some, lookup_singleton_Some.
    intros [[_ <-]|[_ [_ <-]]]; vm_compute; (split; [discriminate|reflexivity]). }
  pose proof (miner_election_spec sample_claims 99 1 ltac:(lia)
                ltac:(split; [discriminate|reflexivity]) H) as Hw.
  destruct (get_winner 1 (elect_miner sample_claims 99)) as [[r w]|]; [|exact Hw].
  apply Hw.
Defined.

Definition sample_quorum : Quorum := mk_Quorum 99 [] "pk" 3.

Lemma final_quorum_spec_witness :
  exists q' sorted, get_final_quorum [alice_claim; bob_claim] sample_quorum = (q', Ok tt) /\
    sorted ≡ₚ [alice_claim; bob_claim].
Proof.
  destruct (final_quorum_spec [alice_claim; bob_claim] sample_quorum)
    as (q' & sorted & H1 & H2 & _).
  - discriminate.
  - split; [discriminate|reflexivity].
  - repeat constructor; vm_compute; congruence.
  - apply (bool_decide_unpack _). vm_compute. exact I.
  - reflexivity.
  - exists q', sorted. split; [exact H1|exact H2].
Defined.

End witnesses.
