(* ===== verification/Config.v ===== *)
(** * Configuration of a node: [crates/vrrb_config]

    The node's own settings, the members of a quorum and the quorum a bootstrap
    node waits for. Paths are strings, durations are milliseconds. *)

From S2P Require Import Prelude Primitives Keypair Staking Claim Reward Vrf Blocks Quorum.

Section config.
Context `{!ValidatorKeys, !Secp256k1, !SocketAddrs, !Kademlia}.

Record QuorumMember := mk_QuorumMember {
  qm_node_id : string;
  qm_kademlia_peer_id : KademliaPeerId;
  qm_node_type : NodeType;
  qm_udp_gossip_address : SocketAddr;
  qm_raptorq_gossip_address : SocketAddr;
  qm_kademlia_liveness_address : SocketAddr;
  qm_validator_public_key : ValidatorPublicKey;
}.

(** The members are a [BTreeMap], iterated in the order of its keys. *)
Record QuorumMembershipConfig := mk_QuorumMembershipConfig {
  qmc_quorum_kind : QuorumKind;
  qmc_quorum_members : gmap string QuorumMember;
}.

Definition members_in_order (m : gmap string QuorumMember) : list (string * QuorumMember) :=
  stable_sort (fun a b => String.leb a.1 b.1) (map_to_list m).

Record BootstrapQuorumConfig := mk_BootstrapQuorumConfig {
  bq_membership_config : QuorumMembershipConfig;
  bq_genesis_transaction_threshold : Z;
}.

Record BootstrapConfig := mk_BootstrapConfig {
  bc_id : KademliaPeerId;
  bc_udp_gossip_addr : SocketAddr;
  bc_raptorq_gossip_addr : SocketAddr;
  bc_kademlia_liveness_addr : SocketAddr;
}.

Record NodeConfig := mk_NodeConfig {
  nc_id : string;
  nc_data_dir : string;
  nc_db_path : string;
  nc_public_ip_address : SocketAddr;
  nc_kademlia_peer_id : option KademliaPeerId;
  nc_kademlia_liveness_address : SocketAddr;
  nc_udp_gossip_address : SocketAddr;
  nc_raptorq_gossip_address : SocketAddr;
  nc_rendezvous_local_address : SocketAddr;
  nc_rendezvous_server_address : SocketAddr;
  nc_node_type : NodeType;
  nc_http_api_address : SocketAddr;
  nc_http_api_title : string;
  nc_http_api_version : string;
  nc_http_api_shutdown_timeout : option Z;
  nc_jsonrpc_server_address : SocketAddr;
  nc_preload_mock_state : bool;
  nc_bootstrap_config : option BootstrapConfig;
  nc_quorum_config : option QuorumMembershipConfig;
  nc_bootstrap_quorum_config : option BootstrapQuorumConfig;
  nc_keypair : KeyPair;
  nc_gui : bool;
  nc_disable_networking : bool;
  nc_enable_block_indexing : bool;
  nc_threshold_config : ThresholdConfig;
}.

(** [NodeConfig::merge]: what the update syntax [..other] fills in comes from
    the other configuration. *)
Definition NodeConfig_merge (self other : NodeConfig) : NodeConfig := {|
  nc_id := if bool_decide (nc_id other = EmptyString) then nc_id self else nc_id other;
  nc_data_dir := nc_data_dir self;
  nc_db_path := nc_db_path self;
  nc_raptorq_gossip_address := nc_raptorq_gossip_address self;
  nc_udp_gossip_address := nc_udp_gossip_address self;
  nc_node_type := nc_node_type self;
  nc_http_api_address := nc_http_api_address self;
  nc_http_api_title := nc_http_api_title self;
  nc_http_api_version := nc_http_api_version self;
  nc_http_api_shutdown_timeout := nc_http_api_shutdown_timeout self;
  nc_jsonrpc_server_address := nc_jsonrpc_server_address self;
  nc_preload_mock_state := nc_preload_mock_state self;
  nc_bootstrap_config := nc_bootstrap_config self;
  nc_keypair := nc_keypair self;
  nc_public_ip_address := nc_public_ip_address other;
  nc_kademlia_peer_id := nc_kademlia_peer_id other;
  nc_kademlia_liveness_address := nc_kademlia_liveness_address other;
  nc_rendezvous_local_address := nc_rendezvous_local_address other;
  nc_rendezvous_server_address := nc_rendezvous_server_address other;
  nc_quorum_config := nc_quorum_config other;
  nc_bootstrap_quorum_config := nc_bootstrap_quorum_config other;
  nc_gui := nc_gui other;
  nc_disable_networking := nc_disable_networking other;
  nc_enable_block_indexing := nc_enable_block_indexing other;
  nc_threshold_config := nc_threshold_config other;
|}.

(** [NodeConfig::default], for the fresh identifier, the local address with a
    random port and the random key pair it draws. *)
Definition NodeConfig_default (uuid : string) (localhost : SocketAddr) (keypair : KeyPair)
    : NodeConfig := {|
  nc_id := uuid;
  nc_data_dir := ".vrrb";
  nc_db_path := ".vrrb/node/db";
  nc_public_ip_address := localhost;
  nc_raptorq_gossip_address := localhost;
  nc_udp_gossip_address := localhost;
  nc_kademlia_peer_id := None;
  nc_kademlia_liveness_address := localhost;
  nc_rendezvous_local_address := localhost;
  nc_rendezvous_server_address := localhost;
  nc_node_type := Full;
  nc_http_api_address := localhost;
  nc_http_api_title := "VRRB Node";
  nc_http_api_version := "v.0.1.0";
  nc_http_api_shutdown_timeout := None;
  nc_jsonrpc_server_address := localhost;
  nc_preload_mock_state := false;
  nc_bootstrap_config := None;
  nc_quorum_config := None;
  nc_bootstrap_quorum_config := None;
  nc_keypair := keypair;
  nc_gui := false;
  nc_disable_networking := false;
  nc_threshold_config := ThresholdConfig_default;
  nc_enable_block_indexing := false;
|}.

Lemma NodeConfig_merge_self c : NodeConfig_merge c c = c.
Proof. unfold NodeConfig_merge. destruct c. simpl. by case_bool_decide. Qed.

Lemma NodeConfig_merge_assoc a b c :
  NodeConfig_merge a (NodeConfig_merge b c) = NodeConfig_merge (NodeConfig_merge a b) c.
Proof.
  unfold NodeConfig_merge. simpl. f_equal. by repeat (case_bool_decide; simpl in * ).
Qed.

Lemma elem_of_members_in_order m p : p ∈ members_in_order m <-> m !! p.1 = Some p.2.
Proof.
  unfold members_in_order. rewrite (stable_sort_perm _ _). destruct p as [k x].
  apply elem_of_map_to_list.
Qed.

Lemma members_in_order_keys m : NoDup (members_in_order m).*1.
Proof.
  unfold members_in_order. rewrite (stable_sort_perm _ _). apply NoDup_fst_map_to_list.
Qed.
End config.
