(* ===== verification/Events.v ===== *)
(** * Messages between components and between nodes

    [crates/events]: the events of the bus inside a node, and the messages nodes
    send each other, [crates/node/src/network/network_event.rs]. *)

From S2P Require Import Prelude Floats Primitives Keypair Transactions Mempool Staking Claim.
From S2P Require Import Reward Vrf Blocks Threshold Storage Miner Quorum Config.

Inductive TxnValidationStatus :=
| TxnStatusValid
| TxnStatusInvalid.

(** The public keys of the shares of a threshold key. *)
Class KeyShares := {
  PublicKeyShare : Type;
  PublicKeyShare_eq_dec :: EqDecision PublicKeyShare;
  PublicKeyShare_countable :: Countable PublicKeyShare;
}.

Section events.
Context `{!Secp256k1, !ValidatorKeys, !SocketAddrs, !ThresholdCrypto, !KeyGen, !Kademlia}.
Context `{!KeyShares}.

Record Vote := mk_Vote {
  vote_farmer_id : bytes;
  vote_farmer_node_id : Z;
  vote_signature : bytes;
  vote_txn : TransactionKind;
  vote_quorum_public_key : bytes;
  vote_quorum_threshold : Z;
  vote_is_txn_valid : bool;
  vote_execution_result : option string;
}.

Inductive JobStatus :=
| JobVotes (votes : list (option Vote)) (threshold : Z)
| JobCertifiedTxn (votes : list Vote) (signature : bytes) (digest : TransactionDigest)
    (execution_result : string) (farmer_id : bytes) (txn : TransactionKind) (is_valid : bool)
| JobConvergenceBlockPartialSign (block_hash : string) (share : PublicKeyShare)
    (signature : bytes).

Inductive Event :=
| NoOp
| Stop
| NewTxnCreated (txn : TransactionKind)
| TxnValidated (txn : TransactionKind)
| TxnAddedToMempool (digest : TransactionDigest)
| MempoolSizeThesholdReached (cutoff_transaction : TransactionDigest)
| BlockReceived (block : Block)
| BlockConfirmed (b : bytes)
| ClaimCreated (claim : Claim)
| ClaimReceived (claim : Claim)
| ClaimAbandoned (node_id : string) (claim : Claim)
| PeerJoined (peer : PeerData)
| NodeAddedToPeerList (peer : PeerData)
| CreateAccountRequested (address : Address) (account : bytes)
| AccountUpdateRequested (address : Address) (account : bytes)
| PeerSyncFailed (addrs : list SocketAddr)
| BlockCreated (block : Block)
| QuorumMembershipAssigmentCreated (assigned : AssignedQuorumMembership)
| QuorumMembershipSet (node_id : string)
| PartCommitmentCreated (node_id : string) (part : Part)
| PartCommitmentAcknowledged (node_id sender_id : string) (ack : Ack)
| HarvesterPublicKeyReceived (pks : PublicKeySet)
| TransactionCertificateRequested (votes : list Vote) (txn_id : TransactionDigest)
    (quorum_key : bytes) (farmer_id : string) (txn : TransactionKind) (quorum_threshold : Z)
| TransactionCertificateCreated (votes : list Vote) (signature : bytes)
    (digest : TransactionDigest) (execution_result farmer_id : string) (txn : TransactionKind)
    (is_valid : TxnValidationStatus)
| MinerElectionStarted (header : BlockHeader)
| MinerElected (winner : Z * Claim)
| ProposalBlockCreated (block : ProposalBlock)
| ConvergenceBlockCreated (block : ConvergenceBlock)
| ConvergenceBlockCertified (block : ConvergenceBlock)
| QuorumElectionStarted (header : BlockHeader)
| TxnsReadyForProcessing (txns : list TransactionKind)
| TxnsValidated (votes : list (option Vote)) (quorum_threshold : Z)
| ProposalBlockMineRequestCreated (ref_hash : string) (round epoch : Z) (claim : Claim)
| ConvergenceBlockSignatureRequested (block : ConvergenceBlock)
| ConvergenceBlockPartialSignatureCreated (block_hash : string) (share : PublicKeyShare)
    (partial_signature : bytes)
| ConvergenceBlockPrecheckRequested (block : ConvergenceBlock) (header : BlockHeader)
| ConvergenceBlockPeerSignatureRequested (node_id block_hash : string)
    (share partial_signature : bytes)
| Ping (node_id : string)
| UpdateState (block_hash : string)
| ConvergenceBlockPartialSign (status : JobStatus)
| CheckConflictResolution (proposals : list ProposalBlock) (round seed : Z)
    (block : ConvergenceBlock)
| SignConvergenceBlock (block : ConvergenceBlock)
| SendPeerConvergenceBlockSign (node_idx : Z) (block_hash : string)
    (share partial_signature : bytes)
| SendBlockCertificate (certificate : Certificate)
| BlockCertificateCreated (certificate : Certificate).

(** An event with the topic it is routed to, if it has one. *)
Record EventMessage := mk_EventMessage {
  em_topic : option string;
  em_event : Event;
}.

Definition network_events (e : Event) : EventMessage := mk_EventMessage (Some "network-events") e.
Definition runtime_events (e : Event) : EventMessage := mk_EventMessage (Some "runtime-events") e.

Inductive NetworkEvent :=
| NetClaimCreated (node_id : string) (claim : Claim)
| NetClaimAbandoned (claim : bytes) (sender_id : string)
| NetPeerJoined (node_id : string) (node_type : NodeType) (kademlia_peer_id : KademliaPeerId)
    (udp_gossip_addr raptorq_gossip_addr kademlia_liveness_addr : SocketAddr)
    (validator_public_key : ValidatorPublicKey)
| NetAssignmentToQuorumCreated (assigned : AssignedQuorumMembership)
| NetAssignmentToQuorumReceived (assigned : AssignedQuorumMembership)
| NetPeerUnregistered (peer_id : bytes) (addr : SocketAddr)
| NetForwardedTxn (record : TxnRecord)
| NetPartCommitmentCreated (node_id : string) (part : Part)
| NetPartCommitmentAcknowledged (node_id sender_id : string) (ack : Ack)
| NetConvergenceBlockCertified (block : ConvergenceBlock)
| NetPing (node_id : string)
| NetEmpty.

(** ** Actors

    A handler changes the actor's own state and leaves events on the bus and
    messages on the wire. The bus refuses events once its receiver is gone. *)
Inductive Transmission :=
| SendTo (addr : SocketAddr) (message : NetworkEvent)
| Broadcast (unreliable : bool) (erasure_count : Z) (message : NetworkEvent).

Record Outbox := mk_Outbox {
  ob_closed : bool;
  ob_events : list EventMessage;
  ob_wire : list Transmission;
}.

Inductive ActorState :=
| ActorRunning
| ActorStopped.

#[local] Abbreviation actor S := (method (S * Outbox) string).

Definition on_actor {S E A} (f : E -> string) (m : method S E A) : actor S A := fun w =>
  let '(s, r) := m w.1 in ((s, w.2), map_err f r).

Definition emit {S} (e : EventMessage) : actor S unit := fun w =>
  let o := w.2 in
  if ob_closed o then (w, Err "channel closed")
  else ((w.1, mk_Outbox (ob_closed o) (ob_events o ++ [e]) (ob_wire o)), Ok tt).

Definition transmit {S} (t : Transmission) : actor S unit := fun w =>
  let o := w.2 in
  ((w.1, mk_Outbox (ob_closed o) (ob_events o) (ob_wire o ++ [t])), Ok tt).

(** A computation that only reads the actor's state, a change of that state, and
    a step whose error is only logged. *)
Definition lift_result {S A} (r : S -> result string A) : actor S A := fun w => (w, r w.1).

Definition modify_actor {S} (f : S -> S) : actor S unit := fun w => ((f w.1, w.2), Ok tt).

Definition logged {S A} (m : actor S A) : actor S unit := fun w =>
  match m w with
  | (w', Panic) => (w', Panic)
  | (w', _) => (w', Ok tt)
  end.

Fixpoint emit_all {S} (l : list EventMessage) : actor S unit :=
  match l with
  | [] => mret tt
  | e :: l' => _ ← emit e; emit_all l'
  end.

(** What is on the bus only grows, and by nothing but what is emitted. *)
Lemma emit_all_spec {S} (l : list EventMessage) (s : S) (o : Outbox) :
  emit_all l (s, o) =
  if ob_closed o && negb (bool_decide (l = [])) then ((s, o), Err "channel closed")
  else ((s, mk_Outbox (ob_closed o) (ob_events o ++ l) (ob_wire o)), Ok tt).
Proof.
  revert o. induction l as [|e l IH]; intros [c es ws].
  - simpl. rewrite andb_false_r, app_nil_r. done.
  - cbn [emit_all]. rewrite method_bind_unfold. unfold emit. simpl. destruct c; simpl; [done|].
    rewrite IH. simpl. by rewrite <-(assoc_L (++)).
Qed.
End events.

Abbreviation actor S := (method (S * Outbox) string).
