(* ===== verification/Network.v ===== *)
(** * The network module of a node: [crates/node/src/network]

    What a node tells its peers and what it makes of what they tell it
    ([module.rs], [handler.rs], [network_event_handler.rs], [component.rs]). The
    distributed hash table of kademlia and the transport of dyswarm are
    parameters; every use of the transport is kept in the actor's outbox. *)

From S2P Require Import Prelude Floats Primitives Keypair Transactions Mempool ToyModel Staking.
From S2P Require Import Claim Reward Vrf Blocks BlockProofs Threshold Storage Miner Quorum Config.
From S2P Require Import Events.
From Stdlib Require Import Strings.Byte.

(** ** Third-party services *)

(** [bincode::serialize]; [None] is a failure. *)
Class Bincode (A : Type) := bincode : A -> option bytes.

Definition digest_data_to_bytes `{!Hashing, !Bincode A} (data : A) : bytes :=
  sha256 (default [] (bincode data)).

Section node_data.
Context `{!Kademlia, !SocketAddrs}.

(** An entry of the routing table. *)
Record NodeData := mk_NodeData {
  nd_id : KademliaPeerId;
  nd_node_id : string;
  nd_addr : SocketAddr;
  nd_udp_gossip_addr : SocketAddr;
}.
End node_data.

Class KademliaDht `{!Kademlia, !SocketAddrs} := {
  KademliaNode : Type;
  kademlia_id_eq :: EqDecision KademliaPeerId;
  kademlia_key : bytes -> result string KademliaPeerId;
  kademlia_new : option KademliaPeerId -> string -> SocketAddr -> SocketAddr ->
    option NodeData -> result string KademliaNode;
  kademlia_data : KademliaNode -> NodeData;
  get_closest_nodes : KademliaPeerId -> nat -> KademliaNode -> list NodeData;
  kademlia_insert : KademliaPeerId -> string -> KademliaNode -> KademliaNode;
  kademlia_kill : KademliaNode -> KademliaNode;
}.

Class KademliaDhtLaws `{!Kademlia, !SocketAddrs, !KademliaDht} := {
  get_closest_nodes_count : forall id n k, length (get_closest_nodes id n k) <= n;
}.

Section transport.
Context `{!Secp256k1, !ValidatorKeys, !SocketAddrs, !ThresholdCrypto, !KeyGen, !Kademlia}.

Class Dyswarm := {
  Client : Type;
  dyswarm_client_new : SocketAddr -> result string Client;
  add_peers : list SocketAddr -> Client -> Client * result string unit;
  client_broadcast : bool -> Z -> NetworkEvent -> Client -> result string unit;
  send_data_via_quic : NetworkEvent -> SocketAddr -> Client -> result string unit;
}.
End transport.

Section network.
Context `{!Hashing, !Secp256k1, !ValidatorKeys, !SocketAddrs, !ThresholdCrypto, !KeyGen}.
Context `{!Kademlia, !KademliaDht, !Dyswarm, !Bincode KademliaPeerId}.
Context `{!KeyShares}.

Record NetworkModuleConfig := mk_NetworkModuleConfig {
  nmc_node_id : string;
  nmc_node_type : NodeType;
  nmc_udp_gossip_addr : SocketAddr;
  nmc_raptorq_gossip_addr : SocketAddr;
  nmc_kademlia_liveness_addr : SocketAddr;
  nmc_kademlia_peer_id : option KademliaPeerId;
  nmc_bootstrap_node_config : option BootstrapConfig;
  nmc_membership_config : option QuorumMembershipConfig;
  nmc_validator_public_key : ValidatorPublicKey;
}.

Record NetworkModule := mk_NetworkModule {
  nm_node_id : string;
  nm_node_type : NodeType;
  nm_is_bootstrap : bool;
  nm_kademlia_node : KademliaNode;
  nm_udp_gossip_addr : SocketAddr;
  nm_raptorq_gossip_addr : SocketAddr;
  nm_kademlia_liveness_addr : SocketAddr;
  nm_dyswarm_client : Client;
  nm_membership_config : option QuorumMembershipConfig;
  nm_validator_public_key : ValidatorPublicKey;
}.

(** The entry made for the bootstrap node carries the joining node's own name and
    a digest of the bootstrap node's key. *)
Definition setup_kademlia_node (udp_gossip_addr : SocketAddr) (config : NetworkModuleConfig)
    : result string KademliaNode :=
  let new := kademlia_new (nmc_kademlia_peer_id config) (nmc_node_id config)
               (nmc_kademlia_liveness_addr config) udp_gossip_addr in
  match nmc_bootstrap_node_config config with
  | Some bootstrap_node_config =>
      key ← map_err (fun err => "Node key should have a 32 byte length: " +:+ err)
              (kademlia_key (digest_data_to_bytes (bc_id bootstrap_node_config)));
      new (Some {| nd_id := key; nd_node_id := nmc_node_id config;
                   nd_addr := bc_kademlia_liveness_addr bootstrap_node_config;
                   nd_udp_gossip_addr := bc_udp_gossip_addr bootstrap_node_config |})
  | None => new None
  end.

(** [NetworkModule::new], for the address the started server resolved. *)
Definition NetworkModule_new (server : result string SocketAddr) (config : NetworkModuleConfig)
    : result string NetworkModule :=
  udp_gossip_addr ← server;
  client ← dyswarm_client_new udp_gossip_addr;
  kademlia_node ← setup_kademlia_node udp_gossip_addr config;
  Ok {| nm_node_id := nmc_node_id config; nm_node_type := nmc_node_type config;
        nm_is_bootstrap :=
          match nmc_bootstrap_node_config config with None => true | Some _ => false end;
        nm_kademlia_node := kademlia_node; nm_udp_gossip_addr := udp_gossip_addr;
        nm_raptorq_gossip_addr := nmc_raptorq_gossip_addr config;
        nm_kademlia_liveness_addr := nd_addr (kademlia_data kademlia_node);
        nm_dyswarm_client := client; nm_membership_config := nmc_membership_config config;
        nm_validator_public_key := nmc_validator_public_key config |}.

Definition with_client (c : Client) (n : NetworkModule) : NetworkModule :=
  mk_NetworkModule (nm_node_id n) (nm_node_type n) (nm_is_bootstrap n) (nm_kademlia_node n)
    (nm_udp_gossip_addr n) (nm_raptorq_gossip_addr n) (nm_kademlia_liveness_addr n) c
    (nm_membership_config n) (nm_validator_public_key n).

Definition with_kademlia (k : KademliaNode) (n : NetworkModule) : NetworkModule :=
  mk_NetworkModule (nm_node_id n) (nm_node_type n) (nm_is_bootstrap n) k
    (nm_udp_gossip_addr n) (nm_raptorq_gossip_addr n) (nm_kademlia_liveness_addr n)
    (nm_dyswarm_client n) (nm_membership_config n) (nm_validator_public_key n).

Definition kademlia_peer_id (n : NetworkModule) : KademliaPeerId :=
  nd_id (kademlia_data (nm_kademlia_node n)).

Definition kademlia_liveness_addr (n : NetworkModule) : SocketAddr :=
  nd_addr (kademlia_data (nm_kademlia_node n)).

(** The nodes of the routing table closest to this one, as the table is at the call.
    The crate's own threads change the table too; they are not modelled. *)
Definition closest (count : nat) (n : NetworkModule) : list NodeData :=
  get_closest_nodes (kademlia_peer_id n) count (nm_kademlia_node n).

(** ** Uses of the transport *)

Definition add_closest (count : nat) : actor NetworkModule unit := fun w =>
  let '(c, r) := add_peers (map nd_udp_gossip_addr (closest count w.1)) (nm_dyswarm_client w.1) in
  ((with_client c w.1, w.2), r).

Definition broadcast (unreliable : bool) (erasure_count : Z) (message : NetworkEvent)
    : actor NetworkModule unit :=
  _ ← transmit (Broadcast unreliable erasure_count message);
  lift_result (fun n => client_broadcast unreliable erasure_count message (nm_dyswarm_client n)).

(** [BroadcastConfig::default] does not ask for unreliable delivery. *)
Definition broadcast_default (message : NetworkEvent) : actor NetworkModule unit :=
  broadcast false 0 message.

Definition send (message : NetworkEvent) (addr : SocketAddr) : actor NetworkModule unit :=
  _ ← transmit (SendTo addr message);
  lift_result (fun n => send_data_via_quic message addr (nm_dyswarm_client n)).

Definition DEFAULT_ERASURE_COUNT : Z := 100.

Definition join_message (n : NetworkModule) : NetworkEvent :=
  NetPeerJoined (nm_node_id n) (nm_node_type n) (kademlia_peer_id n) (nm_udp_gossip_addr n)
    (nm_raptorq_gossip_addr n) (kademlia_liveness_addr n) (nm_validator_public_key n).

(** A failed broadcast is only logged. *)
Definition broadcast_join_intent : actor NetworkModule unit := fun w =>
  (_ ← add_closest 7; logged (broadcast false DEFAULT_ERASURE_COUNT (join_message w.1))) w.

(** The first of the eight closest nodes that satisfies [f]. *)
Definition find_closest (f : NodeData -> bool) (n : NetworkModule) : result string NodeData :=
  ok_or (head (filter (fun d => f d = true) (closest 8 n))) "Could not find peer in routing table".

Definition notify_quorum_membership_assignment (assigned : AssignedQuorumMembership)
    : actor NetworkModule unit :=
  found_peer ← lift_result (find_closest (fun d =>
                 bool_decide (nd_id d = am_kademlia_peer_id assigned)));
  send (NetAssignmentToQuorumCreated assigned) (nd_udp_gossip_addr found_peer).

Definition broadcast_claim (claim : Claim) : actor NetworkModule unit := fun w =>
  (_ ← add_closest 8; broadcast_default (NetClaimCreated (nm_node_id w.1) claim)) w.

Definition broadcast_part_commitment (node_id : string) (part : Part) : actor NetworkModule unit :=
  _ ← add_closest 8; broadcast_default (NetPartCommitmentCreated node_id part).

Definition broadcast_part_commitment_acknowledgement (node_id sender_id : string) (ack : Ack)
    : actor NetworkModule unit :=
  found_peer ← lift_result (find_closest (fun d => bool_decide (nd_node_id d = node_id)));
  send (NetPartCommitmentAcknowledged node_id sender_id ack) (nd_udp_gossip_addr found_peer).

Definition broadcast_certified_convergence_block (block : ConvergenceBlock)
    : actor NetworkModule unit := broadcast_default (NetConvergenceBlockCertified block).

(** ** The two handlers *)

(** [NetworkModule::handle]: events of the bus. *)
Definition network_handle (event : Event)
    : actor NetworkModule ActorState :=
  match event with
  | PeerJoined peer_data =>
      _ ← modify_actor (fun n => with_kademlia (kademlia_insert (p_kademlia_peer_id peer_data)
            (sockaddr_to_string (p_kademlia_liveness_addr peer_data)) (nm_kademlia_node n)) n);
      _ ← emit (runtime_events (NodeAddedToPeerList peer_data));
      mret ActorRunning
  | QuorumMembershipAssigmentCreated assigned =>
      _ ← notify_quorum_membership_assignment assigned; mret ActorRunning
  | ClaimCreated claim => _ ← broadcast_claim claim; mret ActorRunning
  | PartCommitmentCreated node_id part =>
      _ ← broadcast_part_commitment node_id part; mret ActorRunning
  | PartCommitmentAcknowledged node_id sender_id ack =>
      _ ← broadcast_part_commitment_acknowledgement node_id sender_id ack; mret ActorRunning
  | ConvergenceBlockCertified block =>
      _ ← broadcast_certified_convergence_block block; mret ActorRunning
  | Stop =>
      _ ← modify_actor (fun n => with_kademlia (kademlia_kill (nm_kademlia_node n)) n);
      mret ActorStopped
  | _ => mret ActorRunning
  end.

(** [DyswarmHandler::handle]: messages of peers. *)
Definition dyswarm_handle (message : NetworkEvent) : actor unit unit :=
  match message with
  | NetPeerJoined node_id node_type kademlia_peer_id udp raptorq liveness pk =>
      emit (network_events (PeerJoined
        {| p_node_id := node_id; p_node_type := node_type;
           p_kademlia_peer_id := kademlia_peer_id; p_udp_gossip_addr := udp;
           p_raptorq_gossip_addr := raptorq; p_kademlia_liveness_addr := liveness;
           p_validator_public_key := pk |}))
  | NetClaimCreated _ claim => emit (network_events (ClaimReceived claim))
  | NetAssignmentToQuorumCreated assigned =>
      emit (runtime_events (QuorumMembershipAssigmentCreated assigned))
  | NetPartCommitmentCreated node_id part =>
      logged (emit (runtime_events (PartCommitmentCreated node_id part)))
  | NetPartCommitmentAcknowledged node_id sender_id ack =>
      emit (runtime_events (PartCommitmentAcknowledged node_id sender_id ack))
  | _ => mret tt
  end.

(** [NetworkModule::setup] up to the start of the actor. *)
Definition network_setup (server : result string SocketAddr) (config : NodeConfig)
    (membership_config : option QuorumMembershipConfig) (pk : ValidatorPublicKey)
    (o : Outbox) : result string (NetworkModule * Outbox) :=
  network_module ← NetworkModule_new server
    {| nmc_node_id := nc_id config; nmc_node_type := nc_node_type config;
       nmc_udp_gossip_addr := nc_udp_gossip_address config;
       nmc_raptorq_gossip_addr := nc_raptorq_gossip_address config;
       nmc_kademlia_liveness_addr := nc_kademlia_liveness_address config;
       nmc_kademlia_peer_id := nc_kademlia_peer_id config;
       nmc_bootstrap_node_config := nc_bootstrap_config config;
       nmc_membership_config := membership_config; nmc_validator_public_key := pk |};
  if nm_is_bootstrap network_module then Ok (network_module, o)
  else let '(w, r) := broadcast_join_intent (network_module, o) in _ ← r; Ok w.

(** ** Delivery *)

(** The actor handles its events one after the other, whatever each returns. *)
Definition run_network (w : NetworkModule * Outbox)
    (events : list Event) : NetworkModule * Outbox :=
  fold_left (fun w e => (network_handle e w).1) events w.

Definition reachable_peer (n : NetworkModule) (a : AssignedQuorumMembership) : bool :=
  bool_decide (am_kademlia_peer_id a ∈ map nd_id (closest 8 n)).

Lemma find_closest_spec f n :
  match find_closest f n with
  | Ok d => d ∈ closest 8 n /\ f d = true
  | Err e => e = "Could not find peer in routing table" /\
      forall d, d ∈ closest 8 n -> f d = false
  | Panic => False
  end.
Proof.
  unfold find_closest. destruct (filter _ _) as [|d l] eqn:Hf; simpl.
  - split; [done|]. intros d Hd. apply not_true_iff_false. intros Ht.
    assert (d ∈ filter (fun d => f d = true) (closest 8 n)) as Hin
      by by apply list_elem_of_filter.
    rewrite Hf in Hin. by apply elem_of_nil in Hin.
  - assert (d ∈ filter (fun d => f d = true) (closest 8 n)) as Hin by (rewrite Hf; left).
    by apply list_elem_of_filter in Hin as [? ?].
Qed.

Lemma send_spec m addr n o :
  send m addr (n, o) =
  ((n, mk_Outbox (ob_closed o) (ob_events o) (ob_wire o ++ [SendTo addr m])),
   send_data_via_quic m addr (nm_dyswarm_client n)).
Proof. done. Qed.

(** Handling an assignment sends it, if the peer is among the eight closest. *)
Lemma notify_spec a n o :
  exists ts, (network_handle (QuorumMembershipAssigmentCreated a) (n, o)).1 =
    (n, mk_Outbox (ob_closed o) (ob_events o) (ob_wire o ++ ts)) /\
  if reachable_peer n a
  then exists d, d ∈ closest 8 n /\ nd_id d = am_kademlia_peer_id a /\
         ts = [SendTo (nd_udp_gossip_addr d) (NetAssignmentToQuorumCreated a)]
  else ts = [] /\ (network_handle (QuorumMembershipAssigmentCreated a) (n, o)).2 =
         Err "Could not find peer in routing table".
Proof.
  simpl. unfold notify_quorum_membership_assignment. rewrite !method_bind_unfold.
  unfold lift_result. simpl.
  pose proof (find_closest_spec (fun d => bool_decide (nd_id d = am_kademlia_peer_id a)) n) as Hf.
  unfold reachable_peer. destruct (find_closest _ n) as [d|e|]; [| |done].
  - destruct Hf as [Hd He%bool_decide_eq_true]. rewrite bool_decide_true.
    2: { apply list_elem_of_fmap. eauto. }
    rewrite send_spec. exists [SendTo (nd_udp_gossip_addr d) (NetAssignmentToQuorumCreated a)].
    split; [by destruct (send_data_via_quic _ _ _)|eauto].
  - destruct Hf as [-> Hf]. rewrite bool_decide_false.
    2: { intros (d & Heq & Hd)%list_elem_of_fmap. apply Hf in Hd.
         by apply bool_decide_eq_false in Hd. }
    exists []. simpl. rewrite app_nil_r. by destruct o.
Qed.

Lemma run_assignments_wire l n o :
  exists ts, run_network (n, o) (map QuorumMembershipAssigmentCreated l) =
    (n, mk_Outbox (ob_closed o) (ob_events o) (ob_wire o ++ ts)) /\
    length ts = length (filter (fun a => reachable_peer n a = true) l).
Proof.
  revert o. induction l as [|a l IH]; intros o.
  - exists []. simpl. rewrite app_nil_r. by destruct o.
  - unfold run_network in *. cbn [map fold_left].
    destruct (notify_spec a n o) as (ts & -> & Ha).
    destruct (IH (mk_Outbox (ob_closed o) (ob_events o) (ob_wire o ++ ts))) as (ts' & -> & Hl).
    simpl. exists (ts ++ ts'). rewrite <-(assoc_L (++)). split; [done|].
    rewrite filter_cons, length_app, Hl.
    destruct (reachable_peer n a); [destruct Ha as (? & ? & ? & ->)|destruct Ha as [-> _]]; done.
Qed.

Context `{!KademliaDhtLaws}.

(** C25. A node delivers at most eight of the assignments it announces while its routing
    table stays as it is: each is looked up among the eight nodes of the table closest to
    the sender and fails when its peer is not one of them. So a genesis with more than
    eight members leaves the others without a quorum until the table changes. *)
Theorem assignments_delivered_bounded (l : list AssignedQuorumMembership) (n : NetworkModule)
    (o : Outbox) :
  NoDup (map am_kademlia_peer_id l) ->
  let w := run_network (n, o) (map QuorumMembershipAssigmentCreated l) in
  length (ob_wire w.2) <= length (ob_wire o) + 8 /\
  forall a, a ∈ l -> am_kademlia_peer_id a ∉ map nd_id (closest 8 n) ->
    (network_handle (QuorumMembershipAssigmentCreated a) w).2 =
      Err "Could not find peer in routing table".
Proof.
  intros Hnd w. destruct (run_assignments_wire l n o) as (ts & Hw & Hts). subst w.
  rewrite Hw. simpl. split.
  - rewrite length_app, Hts. apply Nat.add_le_mono_l.
    trans (length (map nd_id (closest 8 n))).
    2: { rewrite length_map. apply get_closest_nodes_count. }
    rewrite <-(length_map am_kademlia_peer_id). apply submseteq_length, NoDup_submseteq.
    + eapply sublist_NoDup; [exact Hnd|]. apply fmap_sublist, sublist_filter.
    + intros k (a & -> & [Ha _]%list_elem_of_filter)%list_elem_of_fmap.
      by apply bool_decide_eq_true in Ha.
  - intros a _ Hout.
    destruct (notify_spec a n (mk_Outbox (ob_closed o) (ob_events o) (ob_wire o ++ ts)))
      as (ts' & _ & Ha).
    unfold reachable_peer in Ha. rewrite bool_decide_false in Ha by done. by destruct Ha.
Qed.
End network.

(** ** A concrete network *)
Module ToyNet.
Import Toy Sample ToyBlocks ToyGroup.

(** A node of the table is its own entry and the entries it knows. *)
#[export] Instance dht : KademliaDht := {|
  KademliaNode := NodeData * list NodeData;
  kademlia_id_eq := _;
  kademlia_key := fun b => Ok b;
  kademlia_new := fun id node_id addr udp bootstrap =>
    Ok (mk_NodeData (default [] id) node_id addr udp, option_list bootstrap);
  kademlia_data := fst;
  get_closest_nodes := fun _ n k => take n k.2;
  kademlia_insert := fun _ _ k => k;
  kademlia_kill := fun k => k;
|}.

#[export] Instance dht_laws : KademliaDhtLaws.
Proof. split. intros id n k. simpl. rewrite length_take. lia. Qed.

#[export] Instance dyswarm : Dyswarm := {|
  Client := list SocketAddr;
  dyswarm_client_new := fun _ => Ok [];
  add_peers := fun l c => (c ++ l, Ok tt);
  client_broadcast := fun _ _ _ _ => Ok tt;
  send_data_via_quic := fun _ _ _ => Ok tt;
|}.

#[export] Instance key_shares : KeyShares := {| PublicKeyShare := N |}.

#[export] Instance bincode_id : Bincode (KademliaPeerId (Kademlia := toy_kademlia)) := fun k => Some k.

Definition empty_outbox : Outbox := mk_Outbox false [] [].

Definition entry_of_id (k : byte) : NodeData := mk_NodeData [k] "peer" ip_alice ip_alice.

Definition module_knowing (known : list NodeData) : NetworkModule :=
  mk_NetworkModule "b1" Bootstrap true (mk_NodeData [] "b1" ip_alice ip_alice, known)
    ip_alice ip_alice ip_alice [] None x00.

Definition assignment_to (k : byte) : AssignedQuorumMembership :=
  mk_AssignedQuorumMembership "peer" [k] FarmerQ [].
End ToyNet.

Section witnesses.
Import Toy Sample ToyBlocks ToyGroup ToyNet.

Definition nine : list byte := [x01; x02; x03; x04; x05; x06; x07; x08; x09].

(** Nine known peers with an assignment each: the ninth is not told. *)
Lemma assignments_delivered_bounded_witness :
  let w := run_network (module_knowing (map entry_of_id nine), empty_outbox)
             (map QuorumMembershipAssigmentCreated (map assignment_to nine)) in
  length (ob_wire w.2) <= 8 /\
  (network_handle (QuorumMembershipAssigmentCreated (assignment_to x09)) w).2 =
    Err "Could not find peer in routing table".
Proof.
  destruct (assignments_delivered_bounded (map assignment_to nine)
    (module_knowing (map entry_of_id nine)) empty_outbox) as [Hlen Herr].
  - apply (bool_decide_unpack _). reflexivity.
  - split; [exact Hlen|]. apply Herr; [apply list_elem_of_In; simpl; tauto|].
    apply (bool_decide_unpack _). reflexivity.
Defined.
End witnesses.
