(* ===== verification/Consensus.v ===== *)
(** * The consensus module of a node: [crates/node/src/consensus]

    Membership in a quorum, the key generation inside it and the certification
    of blocks ([consensus_module.rs]), over the state of [quorum_module.rs]. The
    cuckoo filter behind [vrrb_core/src/bloom.rs] and the LRU cache behind
    [vrrb_core/src/cache.rs] are parameters. *)

From S2P Require Import Prelude Floats Primitives Keypair Transactions ToyModel Staking Claim.
From S2P Require Import Reward Vrf Blocks BlockProofs Threshold Storage Miner NodeErrors Quorum.
From S2P Require Import Config Events Network.
From Stdlib Require Import Strings.Byte.

(** ** Third-party containers *)

Class CuckooFilters := {
  CuckooFilter : Type;
  cuckoo_with_capacity : Z -> CuckooFilter;
  cuckoo_add : string -> CuckooFilter -> CuckooFilter * result string unit;
}.

(** A cache forgets entries with time and with size; it never makes one up. *)
Class LruCaches := {
  LruCache : Type -> Type -> Type;
  lru_new : forall {K V}, Z -> Z -> LruCache K V;
  lru_get : forall {K V} `{Countable K}, K -> LruCache K V -> LruCache K V * option V;
  lru_insert : forall {K V} `{Countable K}, K -> V -> LruCache K V -> LruCache K V;
  lru_contents : forall {K V} `{Countable K}, LruCache K V -> gmap K V;
}.

Class LruCacheLaws `{!LruCaches} := {
  lru_contents_new : forall {K V} `{Countable K} limit ttl,
    lru_contents (lru_new limit ttl : LruCache K V) = ∅;
  lru_get_spec : forall {K V} `{Countable K} k (c : LruCache K V) c' o,
    lru_get k c = (c', o) ->
    lru_contents c' ⊆ lru_contents c /\
    (forall v, o = Some v -> lru_contents c !! k = Some v);
  lru_insert_spec : forall {K V} `{Countable K} k v (c : LruCache K V),
    lru_contents (lru_insert k v c) ⊆ <[k := v]> (lru_contents c);
}.

Section consensus.
Context `{!Profile, !Hashing, !Secp256k1, !ValidatorKeys, !SocketAddrs, !Ecvrf, !StrDebug}.
Context `{!ToJson Address, !ToJson PublicKey, !ToJson Token, !ToJson Z, !ToJson string}.
Context `{!ToJson (list (string * QuorumCertifiedTxn)),
  !ToJson (list (Z * Claim)), !ToJson Claim}.
Context `{!HashOrder, !LinkedMap, !ThresholdCrypto, !KeyGen, !Kademlia}.
Context `{!CuckooFilters, !LruCaches}.
Context `{!KeyShares}.

(** [Bloom::new] and [Bloom::push]. *)
Definition Bloom_new (limit : Z) : CuckooFilter := cuckoo_with_capacity limit.
Definition Bloom_push (key : string) (f : CuckooFilter) : CuckooFilter * result string unit :=
  cuckoo_add key f.

(** [Cache::new], [Cache::get] and [Cache::push]. *)
Definition Cache_new {K V} (limit ttl : Z) : LruCache K V := lru_new limit ttl.
Definition Cache_get {K V} `{Countable K} (k : K) (c : LruCache K V) := lru_get k c.
Definition Cache_push {K V} `{Countable K} (k : K) (v : V) (c : LruCache K V) :=
  lru_insert k v c.

(** ** The quorum module's state *)

Record QuorumModule := mk_QuorumModule {
  qd_node_config : NodeConfig;
  qd_membership_config : option QuorumMembershipConfig;
  qd_bootstrap_quorum_config : option BootstrapQuorumConfig;
  qd_available_nodes : gmap string (PeerData * bool);
}.

Definition peer_of_member (m : QuorumMember) : PeerData :=
  {| p_node_id := qm_node_id m; p_node_type := qm_node_type m;
     p_kademlia_peer_id := qm_kademlia_peer_id m;
     p_udp_gossip_addr := qm_udp_gossip_address m;
     p_raptorq_gossip_addr := qm_raptorq_gossip_address m;
     p_kademlia_liveness_addr := qm_kademlia_liveness_address m;
     p_validator_public_key := qm_validator_public_key m |}.

(** [QuorumModule::new]: every expected member starts offline; the membership
    of the configuration is not taken over. *)
Definition QuorumModule_new (node_config : NodeConfig) : QuorumModule :=
  let available :=
    match nc_bootstrap_quorum_config node_config with
    | Some quorum_config =>
        list_to_map (reverse (map (fun p => (qm_node_id p.2, (peer_of_member p.2, false)))
          (members_in_order (qmc_quorum_members (bq_membership_config quorum_config)))))
    | None => ∅
    end in
  mk_QuorumModule node_config None (nc_bootstrap_quorum_config node_config) available.

Definition with_membership (c : QuorumMembershipConfig) (q : QuorumModule) : QuorumModule :=
  mk_QuorumModule (qd_node_config q) (Some c) (qd_bootstrap_quorum_config q)
    (qd_available_nodes q).

Definition reconfigure_quorum_membership (c : QuorumMembershipConfig) (q : QuorumModule)
    : QuorumModule := with_membership c q.

Definition with_available (m : gmap string (PeerData * bool)) (q : QuorumModule)
    : QuorumModule :=
  mk_QuorumModule (qd_node_config q) (qd_membership_config q) (qd_bootstrap_quorum_config q) m.

(** ** The consensus module *)

Record ConsensusModule := mk_ConsensusModule {
  cm_quorum_certified_txns : list QuorumCertifiedTxn;
  cm_keypair : KeyPair;
  cm_certified_txns_filter : CuckooFilter;
  cm_quorum_driver : QuorumModule;
  cm_dkg_engine : DkgEngine;
  cm_node_config : NodeConfig;
  cm_sig_provider : SignatureProvider;
  cm_convergence_block_certificates :
    LruCache string (gset (Z * PublicKeyShare * bytes));
}.

(** [ConsensusModule::new] for what [OsRng::new] gives to the two copies of the
    key generation engine; a failure of either panics. *)
Definition ConsensusModule_new {E} (rng1 rng2 : result string OsRng) (keypair : KeyPair)
    (node_config : NodeConfig) (dkg_generator : DkgEngine) : result E ConsensusModule :=
  dkg_engine ← DkgEngine_clone rng1 dkg_generator;
  sig_engine ← DkgEngine_clone rng2 dkg_generator;
  Ok {| cm_quorum_certified_txns := []; cm_keypair := keypair;
        cm_certified_txns_filter := Bloom_new 10;
        cm_quorum_driver := QuorumModule_new node_config;
        cm_dkg_engine := dkg_engine; cm_node_config := node_config;
        cm_sig_provider := mk_SignatureProvider (Some (dkg_state sig_engine))
                             (nc_threshold_config node_config);
        cm_convergence_block_certificates := Cache_new 10 300 |}.

Definition with_quorum_driver (q : QuorumModule) (cm : ConsensusModule) : ConsensusModule :=
  mk_ConsensusModule (cm_quorum_certified_txns cm) (cm_keypair cm)
    (cm_certified_txns_filter cm) q (cm_dkg_engine cm) (cm_node_config cm)
    (cm_sig_provider cm) (cm_convergence_block_certificates cm).

Definition with_dkg_engine (e : DkgEngine) (cm : ConsensusModule) : ConsensusModule :=
  mk_ConsensusModule (cm_quorum_certified_txns cm) (cm_keypair cm)
    (cm_certified_txns_filter cm) (cm_quorum_driver cm) e (cm_node_config cm)
    (cm_sig_provider cm) (cm_convergence_block_certificates cm).

Definition with_filter (f : CuckooFilter) (cm : ConsensusModule) : ConsensusModule :=
  mk_ConsensusModule (cm_quorum_certified_txns cm) (cm_keypair cm) f (cm_quorum_driver cm)
    (cm_dkg_engine cm) (cm_node_config cm) (cm_sig_provider cm)
    (cm_convergence_block_certificates cm).

Definition with_certificates (c : LruCache string (gset (Z * PublicKeyShare * bytes)))
    (cm : ConsensusModule) : ConsensusModule :=
  mk_ConsensusModule (cm_quorum_certified_txns cm) (cm_keypair cm)
    (cm_certified_txns_filter cm) (cm_quorum_driver cm) (cm_dkg_engine cm) (cm_node_config cm)
    (cm_sig_provider cm) c.

(** A method of the key generation engine, with its error converted. *)
Definition on_dkg_engine {A} (f : DkgError -> ManagerError) (m : method DkgEngine DkgError A)
    : method ConsensusModule ManagerError A := fun cm =>
  let '(e, r) := m (cm_dkg_engine cm) in (with_dkg_engine e cm, map_err f r).

Definition other_dkg (e : DkgError) : ManagerError := ManagerOther (dkg_error_to_string e).

Definition PULL_TXN_BATCH_SIZE : nat := 100.

(** Marks a transaction as certified; a full filter is only logged. *)
Definition mark_certified (f : CuckooFilter) (txn : QuorumCertifiedTxn) : CuckooFilter :=
  (Bloom_push (digest_string (txn_id (qc_txn txn))) f).1.

Definition mine_proposal_block (ref_hash : string) (claim_map : gmap string Claim)
    (round epoch : Z) (claim : Claim) (cm : ConsensusModule)
    : ConsensusModule * ProposalBlock :=
  let txns := take PULL_TXN_BATCH_SIZE (cm_quorum_certified_txns cm) in
  let claim_list :=
    linked_collect (map (fun p => (c_hash p.2, p.2)) (hash_iter claim_map)) in
  let txns_list := linked_collect (map (fun txn => (txn_id (qc_txn txn), txn)) txns) in
  let cm' := with_filter (fold_left mark_certified txns (cm_certified_txns_filter cm)) cm in
  (cm', ProposalBlock_build ref_hash round epoch txns_list claim_list claim
          (miner_kp (cm_keypair cm)).1).

(** The shares of a block by node index; of two with one index the later stays. *)
Definition certificate_shares (s : gset (Z * PublicKeyShare * bytes)) : list (Z * bytes) :=
  bt_collect (map (fun q => (q.1.1, q.2)) (hash_elements s)).

(** [certify_convergence_block]; the check it runs first has no effect. *)
Definition certify_convergence_block (debug : string -> string) (block : ConvergenceBlock)
    (last_block_header : BlockHeader) : method ConsensusModule ManagerError Certificate :=
  fun cm =>
  let block_hash := cb_hash block in
  let quorum_threshold := threshold (nc_threshold_config (cm_node_config cm)) in
  let '(cache, found) := Cache_get block_hash (cm_convergence_block_certificates cm) in
  (with_certificates cache cm,
   match found with
   | None => Err (ManagerOther ("No certificate shares found for block " +:+ block_hash))
   | Some certificates_share =>
       if (wrap U16 (Z.of_nat (size certificates_share)) <=? quorum_threshold)%Z then
         Err (ManagerOther "Not enough partial signatures to create a certificate")
       else
         match generate_quorum_signature debug quorum_threshold
                 (certificate_shares certificates_share) (cm_sig_provider cm) with
         | Ok signature =>
             Ok {| cert_signature := hex_encode signature; cert_inauguration := None;
                   cert_root_hash := EmptyString; cert_next_root_hash := EmptyString;
                   cert_block_hash := block_hash |}
         | Err err =>
             Err (ManagerOther ("Failed to generate block certificate for block "
                    +:+ block_hash +:+ ": " +:+ signer_error_to_string err))
         | Panic => Panic
         end
   end).

(** ** Key generation inside the quorum *)

Definition add_peer_public_key_to_dkg_state (node_id : string) (pk : ValidatorPublicKey)
    (cm : ConsensusModule) : ConsensusModule :=
  with_dkg_engine (add_peer_public_key node_id pk (cm_dkg_engine cm)) cm.

Definition generate_partial_commitment_message (os_rng : result string OsRng)
    : method ConsensusModule ManagerError (Part * string) := fun cm =>
  let config := cm_node_config cm in
  if bool_decide (nc_node_type config = Bootstrap) then
    (cm, Err (ManagerOther "Bootstrap nodes cannot participate in DKG"))
  else if bool_decide (nc_node_type config = NodeMiner) then
    (cm, Err (ManagerOther "Miner nodes cannot participate in Validator DKG"))
  else
    match qd_membership_config (cm_quorum_driver cm) with
    | None =>
        (cm, Err (ManagerOther ("Node " +:+ nc_id config +:+ " cannot participate in DKG")))
    | Some membership =>
        let threshold := (Z.of_nat (size (qmc_quorum_members membership)) / 2)%Z in
        on_dkg_engine other_dkg (generate_partial_commitment os_rng threshold)
          (add_peer_public_key_to_dkg_state (nc_id config) (validator_kp (cm_keypair cm)).2 cm)
    end.

(** [entry(k).or_insert_with(v)]. *)
Definition or_insert {K V} `{Countable K} (k : K) (v : V) (m : gmap K V) : gmap K V :=
  match m !! k with Some _ => m | None => <[k := v]> m end.

Definition handle_part_commitment_created (sender_id : string) (part : Part)
    : method ConsensusModule ManagerError (string * string * Ack) := fun cm =>
  let own_id := nc_id (cm_node_config cm) in
  let stranger :=
    match qd_membership_config (cm_quorum_driver cm) with
    | Some membership =>
        negb (bool_decide (sender_id = own_id)) &&
        negb (bool_decide (is_Some (qmc_quorum_members membership !! sender_id)))
    | None => false
    end in
  if stranger then
    (cm, Err (ManagerOther ("Node " +:+ own_id +:+ " is not a quorum member")))
  else
    let e := cm_dkg_engine cm in
    let store := or_insert sender_id part (part_message_store (dkg_state e)) in
    let e := with_dkg_state (set_part_message_store store (dkg_state e)) e in
    on_dkg_engine other_dkg (ack_partial_commitment sender_id) (with_dkg_engine e cm).

Definition handle_part_commitment_acknowledged (receiver_id sender_id : string) (ack : Ack)
    : method ConsensusModule ManagerError unit := fun cm =>
  let e := cm_dkg_engine cm in
  let store := or_insert (receiver_id, sender_id) ack (ack_message_store (dkg_state e)) in
  (with_dkg_engine (with_dkg_state (set_ack_message_store store (dkg_state e)) e) cm, Ok tt).

Definition handle_all_ack_messages (debug : string -> string)
    : method ConsensusModule ManagerError unit :=
  on_dkg_engine ManagerDkg (handle_ack_messages debug).

Definition generate_keysets : method ConsensusModule ManagerError unit :=
  on_dkg_engine other_dkg generate_key_sets.

(** ** Membership *)

Definition all_online (m : gmap string (PeerData * bool)) : bool :=
  forallb (fun p => p.2.2) (hash_iter m).

Definition member_ids (quorum_config : BootstrapQuorumConfig) : list string :=
  map (fun p => qm_node_id p.2)
    (members_in_order (qmc_quorum_members (bq_membership_config quorum_config))).

Definition handle_node_added_to_peer_list (peer_data : PeerData)
    : method ConsensusModule ManagerError (option (gmap string AssignedQuorumMembership)) :=
  fun cm =>
  let node_id := p_node_id peer_data in
  let add_key cm :=
    (add_peer_public_key_to_dkg_state node_id (p_validator_public_key peer_data) cm, Ok None) in
  match qd_bootstrap_quorum_config (cm_quorum_driver cm) with
  | None => add_key cm
  | Some quorum_config =>
      let available := qd_available_nodes (cm_quorum_driver cm) in
      let available :=
        if bool_decide (node_id ∈ member_ids quorum_config) then
          <[node_id := (peer_data, true)]> available
        else available in
      let cm := with_quorum_driver (with_available available (cm_quorum_driver cm)) cm in
      if all_online available
         && bool_decide (nc_node_type (qd_node_config (cm_quorum_driver cm)) = Bootstrap)
      then (cm, Ok (Some (assign_peer_list_to_quorums available)))
      else add_key cm
  end.

(** A peer as a member; its type is not looked up. *)
Definition member_of_peer (peer : PeerData) : QuorumMember :=
  {| qm_node_id := p_node_id peer; qm_kademlia_peer_id := p_kademlia_peer_id peer;
     qm_node_type := Validator; qm_udp_gossip_address := p_udp_gossip_addr peer;
     qm_raptorq_gossip_address := p_raptorq_gossip_addr peer;
     qm_kademlia_liveness_address := p_kademlia_liveness_addr peer;
     qm_validator_public_key := p_validator_public_key peer |}.

Definition membership_of (assigned : AssignedQuorumMembership) : QuorumMembershipConfig :=
  {| qmc_quorum_kind := am_quorum_kind assigned;
     qmc_quorum_members :=
       list_to_map (reverse (map (fun peer => (p_node_id peer, member_of_peer peer))
                               (am_peers assigned))) |}.

Definition handle_quorum_membership_assigment_created (assigned : AssignedQuorumMembership)
    : method ConsensusModule ManagerError unit := fun cm =>
  let id := nc_id (cm_node_config cm) in
  if bool_decide (nc_node_type (cm_node_config cm) = Bootstrap) then
    (cm, Err (ManagerOther ("bootstrap node " +:+ id +:+ " cannot belong to a quorum")))
  else
    match qd_membership_config (cm_quorum_driver cm) with
    | Some membership =>
        (cm, Err (ManagerOther (id +:+ " already belongs to a "
                    +:+ QuorumKind_to_string (qmc_quorum_kind membership) +:+ " quorum")))
    | None =>
        (with_quorum_driver (with_membership (membership_of assigned) (cm_quorum_driver cm)) cm,
         Ok tt)
    end.

(** [handle_miner_election_started]; [None] is a search for a winner that is
    still running. *)
Definition handle_miner_election_started (fuel : nat) (header : BlockHeader)
    (claims : gmap string Claim) : option (Z * Claim) :=
  get_winner fuel (elect_miner claims (h_block_seed header)).

(** ** Runs of the module *)

Inductive module_step : ConsensusModule -> ConsensusModule -> Prop :=
| ms_commit rng cm : module_step cm (generate_partial_commitment_message rng cm).1
| ms_part sender part cm : module_step cm (handle_part_commitment_created sender part cm).1
| ms_acknowledged receiver sender ack cm :
    module_step cm (handle_part_commitment_acknowledged receiver sender ack cm).1
| ms_acks debug cm : module_step cm (handle_all_ack_messages debug cm).1
| ms_keysets cm : module_step cm (generate_keysets cm).1
| ms_key id pk cm : module_step cm (add_peer_public_key_to_dkg_state id pk cm)
| ms_assigned assigned cm :
    module_step cm (handle_quorum_membership_assigment_created assigned cm).1
| ms_certify debug block header cm :
    module_step cm (certify_convergence_block debug block header cm).1
| ms_propose ref claims round epoch claim cm :
    module_step cm (mine_proposal_block ref claims round epoch claim cm).1.

Inductive consensus_step : ConsensusModule -> ConsensusModule -> Prop :=
| cs_module cm cm' : module_step cm cm' -> consensus_step cm cm'
| cs_peer peer cm : consensus_step cm (handle_node_added_to_peer_list peer cm).1.

(** The membership alone: a node without one may join a quorum, once. *)
Definition membership (cm : ConsensusModule) : option QuorumMembershipConfig :=
  qd_membership_config (cm_quorum_driver cm).

Inductive join_step (t : NodeType) :
    option QuorumMembershipConfig -> option QuorumMembershipConfig -> Prop :=
| join assigned : t <> Bootstrap -> join_step t None (Some (membership_of assigned)).

Lemma on_dkg_engine_frame {A} f (m : method DkgEngine DkgError A) cm :
  (on_dkg_engine f m cm).1 = with_dkg_engine (m (cm_dkg_engine cm)).1 cm.
Proof. unfold on_dkg_engine. by destruct (m _). Qed.

(** What no step changes. *)
Definition same_frame (cm cm' : ConsensusModule) : Prop :=
  cm_sig_provider cm' = cm_sig_provider cm /\ cm_node_config cm' = cm_node_config cm /\
  qd_bootstrap_quorum_config (cm_quorum_driver cm') =
    qd_bootstrap_quorum_config (cm_quorum_driver cm) /\
  qd_node_config (cm_quorum_driver cm') = qd_node_config (cm_quorum_driver cm).

#[local] Instance same_frame_preorder : PreOrder same_frame.
Proof.
  split; [by intros ?|]. unfold same_frame. intros cm1 cm2 cm3. intuition congruence.
Qed.

Lemma consensus_step_frame cm cm' : consensus_step cm cm' -> same_frame cm cm'.
Proof.
  destruct 1 as [cm cm' []|]; unfold generate_partial_commitment_message, handle_part_commitment_created,
    handle_all_ack_messages, generate_keysets, handle_node_added_to_peer_list,
    handle_quorum_membership_assigment_created, certify_convergence_block; breaks;
    rewrite ?on_dkg_engine_frame; done.
Qed.

Lemma consensus_step_joins cm cm' :
  consensus_step cm cm' ->
  membership cm' = membership cm \/
  join_step (nc_node_type (cm_node_config cm)) (membership cm) (membership cm').
Proof.
  destruct 1 as [? ? [| | | | | |assigned cm| |]|]; unfold membership, generate_partial_commitment_message,
    handle_part_commitment_created, handle_all_ack_messages, generate_keysets,
    handle_node_added_to_peer_list, certify_convergence_block;
    try (left; breaks; rewrite ?on_dkg_engine_frame; done).
  unfold handle_quorum_membership_assigment_created.
  case_bool_decide as Hb; [by left|].
  destruct (qd_membership_config (cm_quorum_driver cm)) eqn:Hm; simpl; [by left|].
  right. by constructor.
Qed.

Lemma runs_keep_frame cm cm' : rtc consensus_step cm cm' -> same_frame cm cm'.
Proof.
  induction 1 as [cm|cm1 cm2 cm3 Hs _ IH]; [reflexivity|].
  etransitivity; [by apply consensus_step_frame|done].
Qed.

Lemma consensus_new_inv {E} rng1 rng2 kp cfg engine cm :
  ConsensusModule_new (E := E) rng1 rng2 kp cfg engine = Ok cm ->
  cm_quorum_driver cm = QuorumModule_new cfg /\ cm_node_config cm = cfg /\
  cm_convergence_block_certificates cm = Cache_new 10 300 /\
  engine_id (cm_dkg_engine cm) = engine_id engine /\
  exists s, cm_sig_provider cm = mk_SignatureProvider (Some s) (nc_threshold_config cfg) /\
    dkg_secret_key_share s = dkg_secret_key_share (dkg_state engine).
Proof.
  unfold ConsensusModule_new, DkgEngine_clone.
  rewrite result_bind_Ok. intros (e1 & He1 & Hr).
  rewrite result_bind_Ok in Hr. destruct Hr as (e2 & He2 & [= <-]).
  rewrite result_bind_Ok in He1. destruct He1 as (rng1' & _ & He1).
  rewrite result_bind_Ok in He1. destruct He1 as ([kg1 part1] & _ & [= <-]).
  rewrite result_bind_Ok in He2. destruct He2 as (rng & _ & He2).
  rewrite result_bind_Ok in He2. destruct He2 as ([kg part] & _ & [= <-]).
  split_and!; [done..|]. by eexists.
Qed.

(** Every handler drives the key generation engine by steps of its protocol. *)
Lemma or_insert_part e id part :
  rtc dkg_step e (with_dkg_state (set_part_message_store
    (or_insert id part (part_message_store (dkg_state e))) (dkg_state e)) e).
Proof.
  unfold or_insert. destruct (_ !! id).
  - by destruct e as [? ? ? ? [] ?].
  - apply rtc_once, (step_part id part e).
Qed.

Lemma or_insert_ack e key ack :
  rtc dkg_step e (with_dkg_state (set_ack_message_store
    (or_insert key ack (ack_message_store (dkg_state e))) (dkg_state e)) e).
Proof.
  unfold or_insert. destruct (_ !! key).
  - by destruct e as [? ? ? ? [] ?].
  - apply rtc_once, (step_ack_store key ack e).
Qed.

Lemma part_created_stores sender part cm cm' receiver s ack :
  handle_part_commitment_created sender part cm = (cm', Ok (receiver, s, ack)) ->
  ack_message_store (dkg_state (cm_dkg_engine cm')) !! (dkg_node_id (cm_dkg_engine cm), sender)
    = Some ack.
Proof.
  unfold handle_part_commitment_created.
  match goal with |- context [if ?c then (cm, _) else _] => destruct c end; [done|].
  unfold on_dkg_engine. simpl.
  destruct (ack_partial_commitment _ _) as [e [[[r s'] a]| |]] eqn:Ha; simpl; [|done..].
  intros [= <- -> -> ->]. by apply ack_partial_commitment_stores in Ha.
Qed.

Lemma on_dkg_engine_runs {A} f (m : method DkgEngine DkgError A) cm :
  (forall e, dkg_step e (m e).1) ->
  rtc dkg_step (cm_dkg_engine cm) (cm_dkg_engine (on_dkg_engine f m cm).1).
Proof. intros Hm. rewrite on_dkg_engine_frame. apply rtc_once, Hm. Qed.

Lemma module_step_engine cm cm' :
  module_step cm cm' -> rtc dkg_step (cm_dkg_engine cm) (cm_dkg_engine cm').
Proof.
  destruct 1 as [rng cm|sender part cm|receiver sender ack cm|debug cm|cm|id pk cm| | | ].
  - unfold generate_partial_commitment_message. repeat case_bool_decide; [done..|].
    destruct (qd_membership_config _); [|done].
    eapply rtc_l; [|apply on_dkg_engine_runs; constructor]. constructor.
  - unfold handle_part_commitment_created.
    match goal with |- context [if ?c then (cm, _) else _] => destruct c end; [done|].
    etrans; [apply or_insert_part|]. apply (on_dkg_engine_runs _ _ (with_dkg_engine _ cm)).
    constructor.
  - apply or_insert_ack.
  - apply on_dkg_engine_runs. constructor.
  - apply on_dkg_engine_runs. constructor.
  - apply rtc_once, step_peer.
  - unfold handle_quorum_membership_assigment_created. by breaks.
  - unfold certify_convergence_block. by breaks.
  - done.
Qed.

Lemma consensus_step_engine cm cm' :
  consensus_step cm cm' -> rtc dkg_step (cm_dkg_engine cm) (cm_dkg_engine cm').
Proof.
  destruct 1 as [cm cm' Hs|peer cm]; [by apply module_step_engine|].
  unfold handle_node_added_to_peer_list.
  repeat case_match; simplify_eq/=; try done; apply rtc_once, step_peer.
Qed.

Lemma runs_drive_engine cm cm' :
  rtc consensus_step cm cm' -> rtc dkg_step (cm_dkg_engine cm) (cm_dkg_engine cm').
Proof. induction 1 as [|c1 c2 c3 Hs _ IH]; [done|]. etrans; [by apply consensus_step_engine|done]. Qed.

Lemma runs_join cfg a b :
  rtc consensus_step a b -> cm_node_config a = cfg ->
  rtc (join_step (nc_node_type cfg)) (membership a) (membership b).
Proof.
  induction 1 as [a|a b c Hs _ IH]; intros Ha; [reflexivity|].
  destruct (consensus_step_frame _ _ Hs) as (_ & Hcb & _).
  specialize (IH ltac:(congruence)).
  destruct (consensus_step_joins _ _ Hs) as [<-|Hj]; [done|].
  rewrite Ha in Hj. by eapply rtc_l.
Qed.

Lemma new_no_membership {E} rng1 rng2 kp cfg engine cm :
  ConsensusModule_new (E := E) rng1 rng2 kp cfg engine = Ok cm -> membership cm = None.
Proof. intros (Hq & _)%consensus_new_inv. unfold membership. by rewrite Hq. Qed.

Lemma runs_bootstrap_alone {E} rng1 rng2 kp cfg engine cm0 cm :
  ConsensusModule_new (E := E) rng1 rng2 kp cfg engine = Ok cm0 ->
  rtc consensus_step cm0 cm -> nc_node_type cfg = Bootstrap -> membership cm = None.
Proof.
  intros Hnew Hrun Hb. pose proof (new_no_membership _ _ _ _ _ _ Hnew) as Hn.
  apply consensus_new_inv in Hnew as (_ & Hcfg & _).
  pose proof (runs_join _ _ _ Hrun Hcfg) as Hr. rewrite Hn in Hr.
  inversion Hr as [|? y ? Hs]; [done|]. by inversion Hs.
Qed.

(** C16. A node joins at most one quorum and a bootstrap node none: seen through
    its membership, every run of the module's handlers is a run of the
    specification whose only step goes from no quorum to an assigned one; so a
    membership, once there, stays, and it came from an assignment. *)
Theorem membership_refines_join (rng1 rng2 : result string OsRng) (kp : KeyPair)
    (cfg : NodeConfig) (engine : DkgEngine) (cm0 cm cm' : ConsensusModule) :
  ConsensusModule_new (E := ManagerError) rng1 rng2 kp cfg engine = Ok cm0 ->
  rtc consensus_step cm0 cm -> rtc consensus_step cm cm' ->
  rtc (join_step (nc_node_type cfg)) (membership cm) (membership cm') /\
  (nc_node_type cfg = Bootstrap -> membership cm = None) /\
  (forall c, membership cm = Some c ->
     membership cm' = Some c /\ exists assigned, c = membership_of assigned).
Proof.
  intros Hnew Hcm Hcm'. pose proof (new_no_membership _ _ _ _ _ _ Hnew) as Hn.
  pose proof (consensus_new_inv _ _ _ _ _ _ Hnew) as (_ & Hcfg & _).
  pose proof (runs_keep_frame _ _ Hcm) as (_ & Hc & _).
  pose proof (runs_join _ _ _ Hcm Hcfg) as Hr0.
  pose proof (runs_join cfg _ _ Hcm' ltac:(congruence)) as Hr1.
  assert (Hj : forall o o', rtc (join_step (nc_node_type cfg)) o o' ->
    forall c, o = Some c -> o' = Some c).
  { induction 1 as [|o1 o2 o3 Hs _ IH]; [done|]. intros c ->. by inversion Hs. }
  rewrite Hn in Hr0. split_and!; [done| |].
  - by eapply runs_bootstrap_alone.
  - intros c Hm. split; [by eapply Hj|]. inversion Hr0 as [|? y ? Hs Hr]; [congruence|].
    inversion Hs as [a _ Heq]. subst. specialize (Hj _ _ Hr _ eq_refl).
    exists a. congruence.
Qed.

(** ** Certification *)

Context `{!LruCacheLaws}.

Lemma consensus_step_cache cm cm' :
  consensus_step cm cm' ->
  lru_contents (cm_convergence_block_certificates cm') ⊆
    lru_contents (cm_convergence_block_certificates cm).
Proof.
  destruct 1 as [cm cm' []|]; unfold generate_partial_commitment_message, handle_part_commitment_created,
    handle_all_ack_messages, generate_keysets, handle_node_added_to_peer_list,
    handle_quorum_membership_assigment_created;
    try (breaks; rewrite ?on_dkg_engine_frame; done).
  unfold certify_convergence_block, Cache_get.
  destruct (lru_get _ _) as [cache found] eqn:Hg. simpl. by apply lru_get_spec in Hg as [? _].
Qed.

Lemma runs_keep_cache cm cm' :
  rtc consensus_step cm cm' ->
  lru_contents (cm_convergence_block_certificates cm') ⊆
    lru_contents (cm_convergence_block_certificates cm).
Proof.
  induction 1 as [cm|cm1 cm2 cm3 Hs _ IH]; [done|].
  etransitivity; [done|by apply consensus_step_cache].
Qed.

(** As the module is wired it never certifies a block and never signs: no
    handler adds a signature share to the cache the certificate is made from,
    and the signature provider holds a copy of the key generation state from
    before the key generation, whatever the engine has reached since. *)
Lemma consensus_never_certifies (rng1 rng2 : result string OsRng) (kp : KeyPair)
    (cfg : NodeConfig) (node_id : string) (t : NodeType) (sk : ValidatorSecretKey)
    (tc : ThresholdConfig) (cm0 cm : ConsensusModule) :
  ConsensusModule_new (E := ManagerError) rng1 rng2 kp cfg (DkgEngine_new node_id t sk tc)
    = Ok cm0 ->
  rtc consensus_step cm0 cm ->
  (forall debug block header,
     (certify_convergence_block debug block header cm).2 =
     Err (ManagerOther ("No certificate shares found for block " +:+ cb_hash block))) /\
  (forall m, generate_partial_signature m (cm_sig_provider cm) = Err SecretKeyShareMissing).
Proof.
  intros Hnew Hcm. apply consensus_new_inv in Hnew as (_ & _ & Hc & _ & s & Hs & Hk).
  split.
  - intros debug block header. unfold certify_convergence_block, Cache_get.
    destruct (lru_get _ _) as [cache found] eqn:Hg. simpl.
    apply lru_get_spec in Hg as [_ Hg]. destruct found as [v|]; [|done].
    specialize (Hg v eq_refl). apply runs_keep_cache in Hcm.
    apply (lookup_weaken _ _ _ _ Hg) in Hcm. rewrite Hc in Hcm. unfold Cache_new in Hcm.
    by rewrite lru_contents_new in Hcm.
  - intros m. destruct (runs_keep_frame _ _ Hcm) as (-> & _). rewrite Hs.
    unfold generate_partial_signature. simpl. by rewrite Hk.
Qed.

(** ** The genesis quorum *)

Context `{!HashOrderLaws}.

(** Runs with the peers announced so far; the other handlers run in between. *)
Inductive announced (cm0 : ConsensusModule) : list PeerData -> ConsensusModule -> Prop :=
| an_start : announced cm0 [] cm0
| an_module ps cm cm' : announced cm0 ps cm -> module_step cm cm' -> announced cm0 ps cm'
| an_peer ps p cm :
    announced cm0 ps cm -> announced cm0 (ps ++ [p]) (handle_node_added_to_peer_list p cm).1.

(** The last announcement of a node. *)
Definition latest (id : string) (ps : list PeerData) : option PeerData :=
  last (filter (fun p => p_node_id p = id) ps).

Definition online (ids : list string) (ps : list PeerData)
    (available : gmap string (PeerData * bool)) : Prop :=
  forall id, match available !! id with
             | Some (pd, true) => id ∈ ids /\ latest id ps = Some pd
             | Some (pd, false) => id ∈ ids /\ latest id ps = None
             | None => id ∉ ids
             end.

Lemma latest_snoc id ps p :
  latest id (ps ++ [p]) = if decide (p_node_id p = id) then Some p else latest id ps.
Proof.
  unfold latest. rewrite filter_app, filter_cons, filter_nil.
  case_decide; [by rewrite last_snoc|by rewrite app_nil_r].
Qed.

Lemma latest_id id ps p : latest id ps = Some p -> p_node_id p = id.
Proof. intros Hl%last_Some_elem_of. by apply list_elem_of_filter in Hl as [? _]. Qed.

Lemma online_new cfg qc :
  nc_bootstrap_quorum_config cfg = Some qc ->
  online (member_ids qc) [] (qd_available_nodes (QuorumModule_new cfg)).
Proof.
  intros Hqc id. unfold QuorumModule_new. rewrite Hqc. simpl. unfold member_ids.
  generalize (members_in_order (qmc_quorum_members (bq_membership_config qc))). intros l.
  assert (Hl : id ∈ map (fun p => qm_node_id p.2) l <->
    id ∈ (reverse (map (fun p : string * QuorumMember =>
            (qm_node_id p.2, (peer_of_member p.2, false))) l)).*1).
  { rewrite fmap_reverse, elem_of_reverse. induction l as [|x l IH]; [done|].
    simpl. by rewrite !elem_of_cons, IH. }
  destruct (list_to_map _ !! id) as [[pd b]|] eqn:Hid.
  - apply elem_of_list_to_map_2 in Hid as Hin.
    assert (b = false) as ->.
    { apply elem_of_reverse, list_elem_of_fmap in Hin as (? & [= _ _ ->] & _). done. }
    split; [|done]. apply Hl, list_elem_of_fmap. by exists (id, (pd, false)).
  - rewrite Hl. by apply not_elem_of_list_to_map_2.
Qed.

(** What an announcement does to the table of expected members. *)
Definition mark_online (ids : list string) (p : PeerData)
    (available : gmap string (PeerData * bool)) : gmap string (PeerData * bool) :=
  if bool_decide (p_node_id p ∈ ids) then <[p_node_id p := (p, true)]> available else available.

Lemma online_mark ids ps p available :
  online ids ps available -> online ids (ps ++ [p]) (mark_online ids p available).
Proof.
  intros Ho id. specialize (Ho id). unfold mark_online. rewrite latest_snoc.
  case_bool_decide as Hin; case_decide as Heq; subst.
  - by rewrite lookup_insert_eq.
  - by rewrite lookup_insert_ne.
  - by destruct (available !! _) as [[pd []]|]; destruct_and?.
  - done.
Qed.

Lemma module_step_available cm cm' :
  module_step cm cm' ->
  qd_available_nodes (cm_quorum_driver cm') = qd_available_nodes (cm_quorum_driver cm).
Proof.
  destruct 1; unfold generate_partial_commitment_message, handle_part_commitment_created,
    handle_all_ack_messages, generate_keysets, handle_quorum_membership_assigment_created,
    certify_convergence_block; breaks; rewrite ?on_dkg_engine_frame; done.
Qed.

Lemma peer_available p cm qc :
  qd_bootstrap_quorum_config (cm_quorum_driver cm) = Some qc ->
  qd_available_nodes (cm_quorum_driver (handle_node_added_to_peer_list p cm).1) =
  mark_online (member_ids qc) p (qd_available_nodes (cm_quorum_driver cm)).
Proof.
  intros Hqc. unfold handle_node_added_to_peer_list, mark_online. rewrite Hqc.
  by destruct (all_online _ && _).
Qed.

Lemma announced_run cm0 ps cm : announced cm0 ps cm -> rtc consensus_step cm0 cm.
Proof.
  induction 1 as [|ps cm cm' _ IH Hs|ps p cm _ IH]; [done|..];
    (eapply rtc_r; [done|]); by constructor.
Qed.

Lemma announced_online cfg qc cm0 ps cm :
  cm_quorum_driver cm0 = QuorumModule_new cfg ->
  nc_bootstrap_quorum_config cfg = Some qc -> announced cm0 ps cm ->
  online (member_ids qc) ps (qd_available_nodes (cm_quorum_driver cm)).
Proof.
  intros Hq Hqc. induction 1 as [|ps cm cm' _ IH Hs|ps p cm Ha IH].
  - rewrite Hq. by apply online_new.
  - by rewrite (module_step_available _ _ Hs).
  - apply announced_run, runs_keep_frame in Ha as (_ & _ & Hb & _).
    rewrite (peer_available _ _ qc); [by apply online_mark|].
    rewrite Hb, Hq. done.
Qed.

Lemma all_online_spec ids ps available :
  online ids ps available ->
  all_online available = bool_decide (Forall (fun id => is_Some (latest id ps)) ids).
Proof.
  intros Ho. apply eq_bool_prop_intro. unfold all_online. rewrite bool_decide_spec.
  rewrite forallb_True, !Forall_forall. split.
  - intros Ha id Hid. specialize (Ho id).
    destruct (available !! id) as [[pd []]|] eqn:Hl; [|exfalso|done].
    + destruct Ho as [_ ->]. by eexists.
    + specialize (Ha (id, (pd, false))). rewrite hash_iter_perm in Ha.
      by apply Ha, elem_of_map_to_list.
  - intros Hs [id [pd b]]. rewrite hash_iter_perm, elem_of_map_to_list. intros Hl.
    specialize (Ho id). rewrite Hl in Ho. destruct b; [done|].
    destruct Ho as [Hid Hn]. apply Hs in Hid. rewrite Hn in Hid. by destruct Hid.
Qed.

(** C15. The bootstrap node holds the genesis election as soon as it can: the
    announcement that completes the configured quorum members, in whatever order
    they came and with whatever ran in between, returns an assignment that gives a
    membership to exactly the members that announced themselves as miner or
    validator; before that, an announcement returns none. *)
Theorem genesis_election_live (rng1 rng2 : result string OsRng) (kp : KeyPair)
    (cfg : NodeConfig) (engine : DkgEngine) (cm0 cm : ConsensusModule)
    (qc : BootstrapQuorumConfig) (ps : list PeerData) (p : PeerData) :
  ConsensusModule_new (E := ManagerError) rng1 rng2 kp cfg engine = Ok cm0 ->
  nc_node_type cfg = Bootstrap -> nc_bootstrap_quorum_config cfg = Some qc ->
  announced cm0 ps cm ->
  let seen := ps ++ [p] in
  let r := (handle_node_added_to_peer_list p cm).2 in
  if bool_decide (Forall (fun id => is_Some (latest id seen)) (member_ids qc)) then
    exists m, r = Ok (Some m) /\
      forall id, is_Some (m !! id) <->
        id ∈ member_ids qc /\ exists q, latest id seen = Some q /\
          (p_node_type q = NodeMiner \/ p_node_type q = Validator)
  else r = Ok None.
Proof.
  intros Hnew Ht Hqc Ha seen r. apply consensus_new_inv in Hnew as (Hq & _).
  pose proof (announced_online _ _ _ _ _ Hq Hqc Ha) as Ho.
  apply (online_mark _ _ p) in Ho. fold seen in Ho.
  apply announced_run, runs_keep_frame in Ha as (_ & _ & Hb & Hc).
  rewrite Hq in Hb, Hc. simpl in Hb, Hc. rewrite Hqc in Hb.
  unfold r, handle_node_added_to_peer_list. rewrite Hb. fold (mark_online (member_ids qc) p
    (qd_available_nodes (cm_quorum_driver cm))). simpl. rewrite Hc, Ht.
  rewrite (all_online_spec _ _ _ Ho). case_bool_decide as Hall; simpl; [|done].
  eexists. split; [done|]. intros id. rewrite assignment_dom.
  - specialize (Ho id). rewrite Forall_forall in Hall. split.
    + intros (pd & b & Hl & Hpd). rewrite Hl in Ho. destruct b; destruct_and!; [by eauto|].
      exfalso. destruct (Hall id) as [? ?]; [done|congruence].
    + intros (Hid & q & Hlat & Hpd). destruct (mark_online _ _ _ !! id) as [[pd []]|];
        destruct_and?; [|congruence|done]. exists q, true. split; [congruence|done].
  - intros id' pd b Hl. specialize (Ho id'). rewrite Hl in Ho. rewrite Forall_forall in Hall.
    destruct b; destruct Ho as [Hid Hlat]; [by eapply latest_id|].
    destruct (Hall id') as [? ?]; [done|congruence].
Qed.
End consensus.

(** ** Concrete containers and a concrete node *)
Module ToyNode.
Import Toy Sample ToyBlocks ToyGroup ToyNet.

#[export] Instance cuckoo : CuckooFilters := {|
  CuckooFilter := list string;
  cuckoo_with_capacity := fun _ => [];
  cuckoo_add := fun k f => (k :: f, Ok tt);
|}.

(** An association list that forgets nothing. *)
#[export] Instance lru : LruCaches := {|
  LruCache := fun K V => list (K * V);
  lru_new := fun _ _ _ _ => [];
  lru_get := fun _ _ _ _ k c => (c, (list_to_map c : gmap _ _) !! k);
  lru_insert := fun _ _ _ _ k v c => (k, v) :: c;
  lru_contents := fun _ _ _ _ c => list_to_map c;
|}.

#[export] Instance lru_laws : LruCacheLaws.
Proof. split; [done| |done]. by intros K V ? ? k c c' o [= <- <-]. Qed.

Definition keypair : KeyPair := KeyPair_new node_key alice_sk.

Definition node_config (id : string) (t : NodeType) (qc : option BootstrapQuorumConfig)
    : NodeConfig := {|
  nc_id := id; nc_data_dir := ".vrrb"; nc_db_path := ".vrrb/node/db";
  nc_public_ip_address := ip_alice; nc_kademlia_peer_id := None;
  nc_kademlia_liveness_address := ip_alice; nc_udp_gossip_address := ip_alice;
  nc_raptorq_gossip_address := ip_alice; nc_rendezvous_local_address := ip_alice;
  nc_rendezvous_server_address := ip_alice; nc_node_type := t;
  nc_http_api_address := ip_alice; nc_http_api_title := "node"; nc_http_api_version := "1";
  nc_http_api_shutdown_timeout := None; nc_jsonrpc_server_address := ip_alice;
  nc_preload_mock_state := false; nc_bootstrap_config := None; nc_quorum_config := None;
  nc_bootstrap_quorum_config := qc; nc_keypair := keypair; nc_gui := false;
  nc_disable_networking := false; nc_enable_block_indexing := false;
  nc_threshold_config := config |}.

Definition engine (id : string) (t : NodeType) : DkgEngine :=
  DkgEngine_new id t node_key config.

Definition module_of (cfg : NodeConfig) : result ManagerError ConsensusModule :=
  ConsensusModule_new (Ok entropy) (Ok entropy) keypair cfg
    (engine (nc_id cfg) (nc_node_type cfg)).

Definition quorum_of_two : BootstrapQuorumConfig :=
  mk_BootstrapQuorumConfig (mk_QuorumMembershipConfig FarmerQ
    (list_to_map (map (fun p => (p_node_id p, member_of_peer p))
      [peer "v1" Validator; peer "m1" NodeMiner]))) 1.
End ToyNode.

Section witnesses.
Import Toy Sample ToyBlocks ToyGroup ToyNet ToyNode.

Lemma module_of_ok cfg : exists cm0, module_of cfg = Ok cm0.
Proof. by eexists. Qed.

Definition farmer : AssignedQuorumMembership :=
  mk_AssignedQuorumMembership "v1" [] FarmerQ [peer "v2" Validator].

Lemma membership_refines_join_witness :
  exists cm0, module_of (node_config "v1" Validator None) = Ok cm0 /\
    forall assigned, membership
      (handle_quorum_membership_assigment_created assigned
        (handle_quorum_membership_assigment_created farmer cm0).1).1 =
      Some (membership_of farmer).
Proof.
  eexists. split; [reflexivity|]. intros assigned.
  edestruct (membership_refines_join (Ok entropy) (Ok entropy) keypair
    (node_config "v1" Validator None) (engine "v1" Validator)) as (_ & _ & Hm).
  - reflexivity.
  - apply rtc_once, cs_module, (ms_assigned farmer).
  - apply rtc_once, cs_module, (ms_assigned assigned).
  - apply (Hm (membership_of farmer)). reflexivity.
Defined.

Lemma quorum_of_two_ids : member_ids quorum_of_two = ["m1"; "v1"].
Proof. vm_cast_no_check (@eq_refl (list string) ["m1"; "v1"]). Qed.

Definition seen_m1_v1 : list PeerData := [peer "m1" NodeMiner] ++ [peer "v1" Validator].

Lemma seen_members : Forall (fun id => is_Some (latest id seen_m1_v1)) (member_ids quorum_of_two).
Proof. rewrite quorum_of_two_ids. repeat constructor; by eexists. Qed.

Lemma unseen_v1 :
  ~ Forall (fun id => is_Some (latest id ([peer "m1" NodeMiner] ++ [peer "x9" Validator])))
      (member_ids quorum_of_two).
Proof.
  rewrite quorum_of_two_ids. intros Hall. rewrite Forall_forall in Hall.
  destruct (Hall "v1") as [q Hq]; [rewrite !elem_of_cons; auto|discriminate].
Qed.

Lemma genesis_election_live_witness :
  exists cm0, module_of (node_config "b1" Bootstrap (Some quorum_of_two)) = Ok cm0 /\
    let cm := (handle_node_added_to_peer_list (peer "m1" NodeMiner) cm0).1 in
    (handle_node_added_to_peer_list (peer "x9" Validator) cm).2 = Ok None /\
    exists m, (handle_node_added_to_peer_list (peer "v1" Validator) cm).2 = Ok (Some m) /\
      is_Some (m !! "v1") /\ is_Some (m !! "m1").
Proof.
  destruct (module_of_ok (node_config "b1" Bootstrap (Some quorum_of_two))) as [cm0 Hnew].
  exists cm0. split; [exact Hnew|]. intros cm.
  assert (Ha : announced cm0 [peer "m1" NodeMiner] cm) by apply (an_peer cm0 []), an_start.
  pose proof (fun p => genesis_election_live _ _ _ _ _ cm0 cm
    quorum_of_two [peer "m1" NodeMiner] p Hnew eq_refl eq_refl Ha) as Hg.
  clearbody cm. split.
  - specialize (Hg (peer "x9" Validator)). cbv zeta in Hg.
    rewrite bool_decide_false in Hg by exact unseen_v1. exact Hg.
  - specialize (Hg (peer "v1" Validator)). cbv zeta in Hg.
    rewrite bool_decide_true in Hg by exact seen_members.
    destruct Hg as (m & Hm & Hdom). exists m. split; [exact Hm|].
    split; apply Hdom; rewrite quorum_of_two_ids; (split; [rewrite !elem_of_cons; auto|]);
      eexists; (split; [reflexivity|]); auto.
Defined.
End witnesses.
