(* ===== verification/Runtime.v ===== *)
(** * The runtime of a node: [crates/node/src/runtime]

    A node's state manager, consensus module and miner, wired together
    ([node_runtime.rs]), and the dispatch of the events that drive them
    ([node_runtime_handler.rs]). *)

From S2P Require Import Prelude Floats Primitives Keypair Transactions ToyModel Account Mempool.
From S2P Require Import Staking Claim Reward Vrf Blocks BlockProofs Threshold Storage.
From S2P Require Import StorageProofs Dag Miner NodeErrors StateManager Quorum Config Events.
From S2P Require Import Network Consensus.
From Stdlib Require Import Strings.Byte.

(** The part of a header that the hash of a genesis block covers: all of it but
    the epoch. *)
Definition HeaderTuple `{!Secp256k1, !SocketAddrs} : Type :=
  list string * Z * Z * Z * Z * Z * string * Claim * string * Reward * Reward * string.

(** [todo!()], and a call whose result is dropped. *)
Definition todo {S E A} : method S E A := fun s => (s, Panic).

Definition ignore_result {S E F A} (m : method S E A) : method S F unit := fun s =>
  match m s with
  | (s', Panic) => (s', Panic)
  | (s', _) => (s', Ok tt)
  end.

Create HintDb runtime.

Section runtime.
Context `{!Profile, !Hashing, !Secp256k1, !ValidatorKeys, !SocketAddrs, !Ecvrf, !StrDebug}.
Context `{!ToJson Address, !ToJson PublicKey, !ToJson Token, !ToJson Z, !ToJson string}.
Context `{!ToJson (list string), !ToJson Reward, !ToJson (list (string * list TransactionDigest)),
  !ToJson (list (string * list Z)), !ToJson (list (string * QuorumCertifiedTxn)),
  !ToJson (list (Z * Claim)), !ToJson Claim}.
Context `{!ToDebug string, !ToDebug (list string), !ToDebug Z, !ToDebug Claim, !ToDebug Reward}.
Context `{!HashOrder, !TrieDb, !LinkedMap, !LeftRight, !ThresholdCrypto, !KeyGen}.
Context `{!BullDag Block, !Kademlia, !CuckooFilters, !LruCaches}.
Context `{!Bincode (list (Z * Claim)), !Bincode HeaderTuple}.
Context `{!KeyShares}.

Record NodeRuntime := mk_NodeRuntime {
  rt_config : NodeConfig;
  rt_state_driver : StateManager;
  rt_consensus_driver : ConsensusModule;
  rt_mining_driver : Miner;
}.

Definition with_state_driver (sm : StateManager) (rt : NodeRuntime) : NodeRuntime :=
  mk_NodeRuntime (rt_config rt) sm (rt_consensus_driver rt) (rt_mining_driver rt).

Definition with_consensus_driver (cm : ConsensusModule) (rt : NodeRuntime) : NodeRuntime :=
  mk_NodeRuntime (rt_config rt) (rt_state_driver rt) cm (rt_mining_driver rt).

Definition on_state_driver {E A} (m : method StateManager E A) : method NodeRuntime E A :=
  fun rt => let '(sm, r) := m (rt_state_driver rt) in (with_state_driver sm rt, r).

Definition on_consensus_driver {E A} (m : method ConsensusModule E A) : method NodeRuntime E A :=
  fun rt => let '(cm, r) := m (rt_consensus_driver rt) in (with_consensus_driver cm rt, r).

(** [NodeRuntime::new], for two empty graphs and for what the operating system's
    generator gives; the state manager and the miner get a graph each. *)
Definition NodeRuntime_new (rng1 rng2 : result string OsRng) (dag1 dag2 : Dag)
    (config : NodeConfig) : result ManagerError NodeRuntime :=
  let '(miner_sk, miner_pk) := miner_kp (nc_keypair config) in
  signature ← map_err ManagerClaim
                (signature_for_valid_claim miner_pk (nc_public_ip_address config)
                   (sk_bytes miner_sk));
  claim ← map_err ManagerClaim
            (Claim_new miner_pk (Address_new miner_pk) (nc_public_ip_address config) signature
               (nc_id config));
  let state_driver :=
    StateManager_new (VrrbDb_new (nc_db_path config)) dag1 false LeftRightMempool_new claim in
  miner ← map_err ManagerMiner
            (Miner_new miner_sk miner_pk (nc_public_ip_address config) dag2 false (nc_id config));
  let dkg_generator :=
    DkgEngine_new (nc_id config) (nc_node_type config) (validator_kp (nc_keypair config)).1
      (nc_threshold_config config) in
  consensus_driver ←
    ConsensusModule_new rng1 rng2 (nc_keypair config) config dkg_generator;
  Ok (mk_NodeRuntime config state_driver consensus_driver miner).

(** ** Roles *)

(** The pattern of [matches!] is a fresh variable: every type matches it. *)
Definition has_required_node_type (intended_node_type : NodeType) (action : string)
    (rt : NodeRuntime) : result ManagerError unit :=
  match nc_node_type (rt_config rt) with
  | intended_node_type => Ok tt
  end.

Definition belongs_to_correct_quorum (intended_quorum : QuorumKind) (action : string)
    (rt : NodeRuntime) : result ManagerError unit :=
  match membership (rt_consensus_driver rt) with
  | Some m => match qmc_quorum_kind m with intended_quorum => Ok tt end
  | None => Err (ManagerOther "No quorum configuration found for node")
  end.

(** ** Operations *)

Definition store_part_commitment (node_id : string) (part : Part) (rt : NodeRuntime)
    : NodeRuntime :=
  let cm := rt_consensus_driver rt in
  let e := cm_dkg_engine cm in
  let store := or_insert node_id part (part_message_store (dkg_state e)) in
  with_consensus_driver
    (with_dkg_engine (with_dkg_state (set_part_message_store store (dkg_state e)) e) cm) rt.

(** [vesting::generate_genesis_txns]; on mainnet every vesting is still to be
    written. *)
Definition generate_genesis_txns {E} (mainnet : bool)
    : result E (list (TransactionDigest * TransactionKind)) :=
  if mainnet then Panic else Ok [].

Definition produce_genesis_transactions (mainnet : bool) (rt : NodeRuntime)
    : result ManagerError (list (TransactionDigest * TransactionKind)) :=
  _ ← has_required_node_type Bootstrap "produce genesis transactions" rt;
  generate_genesis_txns mainnet.

Definition header_tuple (h : BlockHeader) : HeaderTuple :=
  (h_ref_hashes h, h_round h, h_block_seed h, h_next_block_seed h, h_block_height h,
   h_timestamp h, h_txn_hash h, h_miner_claim h, h_claim_list_hash h, h_block_reward h,
   h_next_block_reward h, h_miner_signature h).

Definition rt_mine_genesis_block (now : Z)
    (txns : list (TransactionDigest * TransactionKind)) (rt : NodeRuntime)
    : result ManagerError GenesisBlock :=
  _ ← has_required_node_type NodeMiner "mine genesis block" rt;
  let claim := dm_claim (sm_dag (rt_state_driver rt)) in
  let claim_list_hash := digest_data_to_bytes [(c_hash claim, claim)] in
  header ← BlockHeader_genesis now 0 0 0 claim (miner_kp (nc_keypair (rt_config rt))).1
             (hex_encode claim_list_hash);
  Ok (mk_GenesisBlock header txns [(c_hash claim, claim)]
        (hex_encode (digest_data_to_bytes (header_tuple header))) None).

(** The outer [None] is a search that is still running. *)
Definition mine_convergence_block (fuel : nat) (now : Z) (rt : NodeRuntime)
    : option (result ManagerError ConvergenceBlock) :=
  match has_required_node_type NodeMiner "mine convergence block" rt with
  | Ok _ =>
      r ← build fuel now (rt_mining_driver rt);
      Some (o ← r; ok_or o (ManagerOther "Could not mine convergence block"))
  | Err e => Some (Err e)
  | Panic => Some Panic
  end.

Definition rt_certify_convergence_block (debug : string -> string) (block : ConvergenceBlock)
    : method NodeRuntime ManagerError unit := fun rt =>
  match (_ ← has_required_node_type Validator "certify convergence block" rt;
         _ ← belongs_to_correct_quorum HarvesterQ "certify convergence block" rt;
         ok_or (last_confirmed_block_header (sm_dag (rt_state_driver rt)))
           (ManagerOther ("Node " +:+ nc_id (rt_config rt)
              +:+ " does not have a last confirmed block header"))) with
  | Ok header =>
      ignore_result (on_consensus_driver (certify_convergence_block debug block header)) rt
  | Err e => (rt, Err e)
  | Panic => (rt, Panic)
  end.

Definition create_account (now : Z) (public_key : PublicKey)
    : method NodeRuntime ManagerError Address :=
  let address := Address_new public_key in
  _ ← on_state_driver (sm_insert_account address (Account_new now public_key));
  mret address.

Definition rt_update_account (now : Z) (args : UpdateArgs)
    : method NodeRuntime ManagerError unit := on_state_driver (sm_update_account now args).

Definition rt_get_round (rt : NodeRuntime) : result ManagerError Z :=
  header ← ok_or (last_confirmed_block_header (sm_dag (rt_state_driver rt)))
             (ManagerOther "failed to fetch latest block header from dag");
  Ok (h_round header).

(** ** Blocks *)

Variable from_bytes_error : string.
Variable debug_graph : GraphError -> string.
Variable debug_storage : StorageError -> string.
Variable debug : string -> string.

Definition on_dag {A} (f : GraphError -> ManagerError) (m : method DagModule GraphError A)
    : method StateManager ManagerError A := fun sm =>
  let '(d, r) := m (sm_dag sm) in
  (mk_StateManager d (sm_database sm) (sm_mempool sm), map_err f r).

Definition check_harvester {A} (action : string) (m : method NodeRuntime ManagerError A)
    : method NodeRuntime ManagerError A := fun rt =>
  match (_ ← has_required_node_type Validator action rt;
         belongs_to_correct_quorum HarvesterQ action rt) with
  | Ok _ => m rt
  | Err e => (rt, Err e)
  | Panic => (rt, Panic)
  end.

Definition handle_genesis_block_received (clock : nat -> Z * Z) (block : GenesisBlock)
    : method NodeRuntime ManagerError ApplyBlockResult :=
  check_harvester "store genesis block"
    (_ ← on_state_driver (on_dag (fun err =>
           ManagerOther ("Failed to append genesis block to DAG: " +:+ debug_graph err))
           (append_genesis from_bytes_error block));
     on_state_driver (sm_apply_block debug_storage clock (Genesis block))).

(** What follows a proposal that was appended is still to be written. *)
Definition handle_proposal_block_received (block : ProposalBlock)
    : method NodeRuntime ManagerError ApplyBlockResult :=
  _ ← on_state_driver (on_dag (fun e =>
        ManagerOther ("Failed to append proposal block to DAG: " +:+ debug_graph e))
        (append_proposal from_bytes_error block));
  todo.

(** A block without certificate is certified if there is a confirmed header; the
    result is dropped. *)
Definition certify_if_missing (block : ConvergenceBlock) : method NodeRuntime ManagerError unit :=
  fun rt =>
  match cb_certificate block, last_confirmed_block_header (sm_dag (rt_state_driver rt)) with
  | None, Some header =>
      ignore_result (on_consensus_driver (certify_convergence_block debug block header)) rt
  | _, _ => (rt, Ok tt)
  end.

Definition handle_convergence_block_received (clock : nat -> Z * Z) (block : ConvergenceBlock)
    : method NodeRuntime ManagerError ApplyBlockResult :=
  check_harvester "certify convergence block"
    (_ ← on_state_driver (on_dag (fun err =>
           ManagerOther ("Could not append convergence block to DAG: " +:+ debug_graph err))
           (append_convergence from_bytes_error block));
     _ ← certify_if_missing block;
     on_state_driver (sm_apply_block debug_storage clock (Convergence block))).

Definition rt_handle_block_received (clock : nat -> Z * Z) (block : Block)
    : method NodeRuntime ManagerError ApplyBlockResult :=
  match block with
  | Genesis block => handle_genesis_block_received clock block
  | Proposal block => handle_proposal_block_received block
  | Convergence block => handle_convergence_block_received clock block
  end.

(** ** Events *)

(** What a call reads from outside: the generator of the operating system, the
    clocks, the size of a transaction, and the turns granted to an election. *)
Record Env := mk_Env {
  env_rng : result string OsRng;
  env_now : Z;
  env_txn_size : Z;
  env_clock : Address -> Z;
  env_fuel : nat;
}.

Variable txn_set : list TransactionKind -> list TransactionKind.
Variable claim_set : list (Z * option Claim) -> list (Z * option Claim).

(** Whether the hash ring of these keys can be built. *)
Variable maglev_new : list ValidatorPublicKey -> bool.

Definition run_consensus {A} (m : method ConsensusModule ManagerError A) : actor NodeRuntime A :=
  on_actor manager_error_to_string (on_consensus_driver m).

Definition run_state {A} (m : method StateManager ManagerError A) : actor NodeRuntime A :=
  on_actor manager_error_to_string (on_state_driver m).

Definition handle_txns_ready_for_processing (cm : ConsensusModule)
    : result string unit :=
  let keys := map snd (hash_iter (peer_public_keys (dkg_state (cm_dkg_engine cm)))) in
  if maglev_new keys then Ok tt else Panic.

(** The calls of [handle] for one event, up to its final [Ok]. The futures of
    [handle_transaction_validated] are dropped before they run. *)
Definition handle_event (env : Env) (event : Event) : actor NodeRuntime unit :=
  match event with
  | NodeAddedToPeerList peer_data =>
      assignments ← run_consensus (handle_node_added_to_peer_list peer_data);
      match assignments with
      | Some assignments =>
          emit_all (map (fun p => network_events (QuorumMembershipAssigmentCreated p.2))
                      (hash_iter assignments))
      | None => mret tt
      end
  | QuorumMembershipAssigmentCreated assigned =>
      _ ← logged (run_consensus (handle_quorum_membership_assigment_created assigned));
      p ← run_consensus (generate_partial_commitment_message (env_rng env));
      emit (network_events (PartCommitmentCreated p.2 p.1))
  | PartCommitmentCreated node_id part =>
      p ← run_consensus (handle_part_commitment_created node_id part);
      own ← lift_result (fun rt => Ok (nc_id (rt_config rt)));
      emit (network_events (PartCommitmentAcknowledged node_id own p.2))
  | PartCommitmentAcknowledged node_id sender_id ack =>
      run_consensus (handle_part_commitment_acknowledged node_id sender_id ack)
  | TransactionCertificateRequested _ _ _ _ _ _ => todo
  | ProposalBlockMineRequestCreated _ _ _ _ => todo
  | TxnsReadyForProcessing _ =>
      lift_result (fun rt => handle_txns_ready_for_processing (rt_consensus_driver rt))
  | NewTxnCreated txn =>
      txn_hash ← run_state (handle_new_txn_created (env_txn_size env) (env_now env) txn);
      emit (mk_EventMessage None (TxnAddedToMempool txn_hash))
  | AccountUpdateRequested _ _ => todo
  | UpdateState block_hash =>
      logged (run_state (update_state txn_set claim_set (env_clock env) block_hash))
  | BlockReceived block => run_state (handle_block_received from_bytes_error debug_graph block)
  | BlockCertificateCreated _ => todo
  | HarvesterPublicKeyReceived pks =>
      run_state (fun sm =>
        (mk_StateManager (set_harvester_pubkeys pks (sm_dag sm)) (sm_database sm) (sm_mempool sm),
         Ok tt))
  | _ => mret tt
  end.

(** [<NodeRuntime as Handler>::handle]; [None] is a miner election that is still
    running. *)
Definition handle (env : Env) (event : Event) (w : NodeRuntime * Outbox)
    : option ((NodeRuntime * Outbox) * result string ActorState) :=
  match event with
  | MinerElectionStarted header =>
      winner ← handle_miner_election_started (env_fuel env) header
                 (claims_entries (claim_store (sm_database (rt_state_driver w.1))));
      Some ((_ ← emit (network_events (MinerElected winner)); mret ActorRunning) w)
  | _ => Some ((_ ← handle_event env event; mret ActorRunning) w)
  end.

(** ** Runs of the event loop *)

Inductive manager_step : StateManager -> StateManager -> Prop :=
| mgr_txn size now txn sm : manager_step sm (handle_new_txn_created size now txn sm).1
| mgr_update clock h sm : manager_step sm (update_state txn_set claim_set clock h sm).1
| mgr_block b sm : manager_step sm (handle_block_received from_bytes_error debug_graph b sm).1
| mgr_keys pks sm :
    manager_step sm (mk_StateManager (set_harvester_pubkeys pks (sm_dag sm)) (sm_database sm)
                       (sm_mempool sm)).

(** An event may be handled with any contents of the outbox. *)
Inductive runtime_step (rt rt' : NodeRuntime) : Prop :=
| rt_handled env e o o' r : handle env e (rt, o) = Some ((rt', o'), r) -> runtime_step rt rt'.

(** What handling events amounts to for the components. *)
Definition advances (rt rt' : NodeRuntime) : Prop :=
  rt_config rt' = rt_config rt /\ rt_mining_driver rt' = rt_mining_driver rt /\
  rtc consensus_step (rt_consensus_driver rt) (rt_consensus_driver rt') /\
  rtc manager_step (rt_state_driver rt) (rt_state_driver rt').

#[local] Instance advances_preorder : PreOrder advances.
Proof.
  split; [by intros rt; repeat split|].
  intros r1 r2 r3 (? & ? & ? & ?) (? & ? & ? & ?).
  split_and!; [congruence|congruence|by etransitivity..].
Qed.

Definition actor_advances {A} (m : actor NodeRuntime A) : Prop :=
  forall w, advances w.1 (m w).1.1.

Lemma bind_advances {A B} (m : actor NodeRuntime A) (k : A -> actor NodeRuntime B) :
  actor_advances m -> (forall a, actor_advances (k a)) -> actor_advances (m ≫= k).
Proof.
  intros Hm Hk w. rewrite method_bind_unfold. specialize (Hm w).
  destruct (m w) as [w' [a|e|]]; simpl in *; [|done..]. etransitivity; [done|apply Hk].
Qed.

Lemma ret_advances {A} (a : A) : actor_advances (mret a).
Proof. by intros w. Qed.

Lemma lift_advances {A} (f : NodeRuntime -> result string A) : actor_advances (lift_result f).
Proof. by intros w. Qed.

Lemma todo_advances {A} : actor_advances (todo : actor NodeRuntime A).
Proof. by intros w. Qed.

Lemma emit_advances e : actor_advances (emit e).
Proof. intros [rt o]. unfold emit. by destruct (ob_closed _). Qed.

Lemma emit_all_advances l : actor_advances (emit_all l).
Proof. intros [rt o]. rewrite emit_all_spec. by destruct (_ && _). Qed.

Lemma logged_advances {A} (m : actor NodeRuntime A) : actor_advances m -> actor_advances (logged m).
Proof. intros Hm w. specialize (Hm w). unfold logged. by destruct (m w) as [w' []]. Qed.

Lemma consensus_advances {A} (m : method ConsensusModule ManagerError A) :
  (forall cm, rtc consensus_step cm (m cm).1) -> actor_advances (run_consensus m).
Proof.
  intros Hm [rt o]. unfold run_consensus, on_actor, on_consensus_driver. simpl.
  specialize (Hm (rt_consensus_driver rt)). destruct (m _) as [cm r]. by split_and!.
Qed.

Lemma state_advances {A} (m : method StateManager ManagerError A) :
  (forall sm, manager_step sm (m sm).1) -> actor_advances (run_state m).
Proof.
  intros Hm [rt o]. unfold run_state, on_actor, on_state_driver. simpl.
  specialize (Hm (rt_state_driver rt)). destruct (m _) as [sm r].
  split_and!; [done..|by apply rtc_once].
Qed.

#[local] Hint Resolve ret_advances lift_advances todo_advances emit_advances
  emit_all_advances : runtime.
#[local] Hint Constructors manager_step module_step consensus_step : runtime.

Ltac advance :=
  repeat match goal with
  | |- actor_advances (_ ≫= _) => apply bind_advances; [|intros]
  | |- actor_advances (logged _) => apply logged_advances
  | |- actor_advances (run_consensus _) => apply consensus_advances; intros; apply rtc_once
  | |- actor_advances (run_state _) => apply state_advances; intros
  | |- actor_advances (match ?o with _ => _ end) => destruct o
  | _ => solve [eauto with runtime]
  end.

Lemma handle_event_advances env e : actor_advances (handle_event env e).
Proof. destruct e; simpl; advance. Qed.

Lemma runtime_step_advances rt rt' : runtime_step rt rt' -> advances rt rt'.
Proof.
  destruct 1 as [env e o o' r Hr].
  assert (Hdef : forall m : actor NodeRuntime unit, actor_advances m ->
    Some ((_ ← m; mret ActorRunning) (rt, o)) = Some ((rt', o'), r) -> advances rt rt').
  { intros m Hm [= Heq]. assert (Ha : actor_advances (_ ← m; mret ActorRunning)) by advance.
    specialize (Ha (rt, o)). by rewrite Heq in Ha. }
  unfold handle in Hr.
  destruct e; try exact (Hdef _ (handle_event_advances _ _) Hr).
  simpl in Hr. destruct (handle_miner_election_started _ _ _) as [winner|]; [|done].
  exact (Hdef _ (emit_advances _) Hr).
Qed.

Lemma runtime_runs_advance rt rt' : rtc runtime_step rt rt' -> advances rt rt'.
Proof.
  induction 1 as [|r1 r2 r3 Hs _ IH]; [reflexivity|].
  etransitivity; [by apply runtime_step_advances|done].
Qed.

(** ** What the event loop never does *)

Context `{!HashOrderLaws, !LinkedMapLaws, !LeftRightLaws, !BullDagLaws Block}.

(** The state managers an event loop can reach from [sm0]: no proposal in the
    graph, no confirmed header, the accounts of [sm0], and every pending
    transaction of [sm0] still pending. *)
Definition frozen (sm0 sm : StateManager) : Prop :=
  no_proposals (sm_dag sm) /\ last_confirmed_block_header (sm_dag sm) = None /\
  state_store (sm_database sm) = state_store (sm_database sm0) /\
  mp_wf (sm_mempool sm) /\ dom (mp_abs (sm_mempool sm0)) ⊆ dom (mp_abs (sm_mempool sm)).

Lemma manager_step_frozen sm0 sm sm' : manager_step sm sm' -> frozen sm0 sm -> frozen sm0 sm'.
Proof.
  destruct 1 as [size now txn sm|clock h sm|b sm|pks sm]; intros (Hno & Hh & Hs & Hwf & Hdom).
  - unfold handle_new_txn_created. simpl.
    destruct (publish_all_spec [AddOp (TxnRecord_new now txn)] (sm_mempool sm) Hwf) as [Hwf' Ha].
    unfold frozen. simpl. split_and!; [done..|].
    unfold append_all in Ha. simpl in Ha. rewrite Ha, dom_insert_L. set_solver.
  - destruct (update_state_frame txn_set claim_set clock h sm) as [Hd Hm].
    unfold frozen. rewrite Hd, Hm, update_state_no_proposals by done. by split_and!.
  - unfold handle_block_received.
    pose proof (append_block_no_proposals from_bytes_error b _ Hno) as Hno'.
    pose proof (append_block_header from_bytes_error b (sm_dag sm)) as Hh'.
    destruct (append_block _ _ _) as [d r]. simpl in *. unfold frozen. simpl.
    split_and!; try done. congruence.
  - by split_and!.
Qed.

Lemma manager_runs_frozen sm0 sm sm' :
  rtc manager_step sm sm' -> frozen sm0 sm -> frozen sm0 sm'.
Proof. induction 1; eauto using manager_step_frozen. Qed.

Lemma runtime_new_inv rng1 rng2 dag1 dag2 cfg rt :
  NodeRuntime_new rng1 rng2 dag1 dag2 cfg = Ok rt ->
  rt_config rt = cfg /\
  (exists claim, rt_state_driver rt =
     StateManager_new (VrrbDb_new (nc_db_path cfg)) dag1 false LeftRightMempool_new claim) /\
  ConsensusModule_new (E := ManagerError) rng1 rng2 (nc_keypair cfg) cfg
    (DkgEngine_new (nc_id cfg) (nc_node_type cfg) (validator_kp (nc_keypair cfg)).1
       (nc_threshold_config cfg)) = Ok (rt_consensus_driver rt) /\
  m_dag (rt_mining_driver rt) = dag2 /\ m_dag_poisoned (rt_mining_driver rt) = false /\
  m_last_block (rt_mining_driver rt) = None.
Proof.
  unfold NodeRuntime_new. destruct (miner_kp (nc_keypair cfg)) as [sk pk].
  rewrite result_bind_Ok. intros (sig & _ & Hr).
  rewrite result_bind_Ok in Hr. destruct Hr as (claim & _ & Hr).
  rewrite result_bind_Ok in Hr. destruct Hr as (m & Hm & Hr).
  rewrite result_bind_Ok in Hr. destruct Hr as (cm & Hcm & [= <-]). simpl.
  assert (Hmm : m_dag m = dag2 /\ m_dag_poisoned m = false /\ m_last_block m = None).
  { unfold Miner_new in Hm. destruct (miner_claim _ _ _ _ _); simpl in Hm; by simplify_eq. }
  destruct Hmm as (? & ? & ?). split_and!; eauto.
Qed.

(** A node whose miner keys belong together starts whenever its key generation
    does. *)
Lemma runtime_new_ok `{!HashingLaws, !Secp256k1Laws} rng1 rng2 dag1 dag2 cfg kg1 kg2 :
  (miner_kp (nc_keypair cfg)).2 = pk_of_sk (miner_kp (nc_keypair cfg)).1 ->
  let new := keygen_new (nc_id cfg) (validator_kp (nc_keypair cfg)).1 ∅
               (threshold (nc_threshold_config cfg)) in
  new rng1 = Ok kg1 -> new rng2 = Ok kg2 ->
  exists rt, NodeRuntime_new (Ok rng1) (Ok rng2) dag1 dag2 cfg = Ok rt.
Proof.
  intros Hpk new Hk1 Hk2. unfold NodeRuntime_new, Miner_new, miner_claim.
  destruct (miner_kp (nc_keypair cfg)) as [sk pk]. simpl in Hpk. subst pk.
  destruct (claim_new_roundtrip sk (Address_new (pk_of_sk sk)) (nc_public_ip_address cfg)
    (nc_id cfg)) as (sig & c & Hsig & Hc & _).
  rewrite Hsig. simpl. rewrite Hc. simpl.
  unfold ConsensusModule_new, DkgEngine_clone. simpl.
  unfold new in Hk1, Hk2. rewrite Hk1, Hk2. destruct kg1, kg2. by eexists.
Qed.

Lemma runtime_run_inv rng1 rng2 dag1 dag2 cfg rt0 rt :
  NodeRuntime_new rng1 rng2 dag1 dag2 cfg = Ok rt0 -> dag_blocks dag1 = ∅ ->
  rtc runtime_step rt0 rt ->
  frozen (rt_state_driver rt0) (rt_state_driver rt) /\
  rt_mining_driver rt = rt_mining_driver rt0 /\ rt_config rt = cfg /\
  rtc consensus_step (rt_consensus_driver rt0) (rt_consensus_driver rt).
Proof.
  intros Hnew Hd (Hc & Hm & Hcm & Hsm)%runtime_runs_advance.
  apply runtime_new_inv in Hnew as (Hcfg & (claim & Hs) & _).
  split_and!; [|done|congruence|done]. refine (manager_runs_frozen _ _ _ Hsm _).
  rewrite Hs. destruct new_wf as [Hwf _]. split_and!; try done.
  unfold no_proposals. simpl. rewrite Hd. apply map_Forall_empty.
Qed.

(** C21. The event loop of a node never reaches the ledger: whatever events it
    handles, blocks and rounds to apply among them, no account is created or
    changed, and a transaction that entered the mempool is still there, also
    after it was validated. *)
Theorem ledger_never_changes (rng1 rng2 : result string OsRng) (dag1 dag2 : Dag)
    (cfg : NodeConfig) (rt0 rt rt' : NodeRuntime) :
  NodeRuntime_new rng1 rng2 dag1 dag2 cfg = Ok rt0 -> dag_blocks dag1 = ∅ ->
  rtc runtime_step rt0 rt -> rtc runtime_step rt rt' ->
  state_store (sm_database (rt_state_driver rt)) = StateStore_new (nc_db_path cfg) /\
  dom (mp_abs (sm_mempool (rt_state_driver rt))) ⊆
    dom (mp_abs (sm_mempool (rt_state_driver rt'))).
Proof.
  intros Hnew Hd Hrt Hrt'.
  pose proof (runtime_run_inv _ _ _ _ _ _ _ Hnew Hd Hrt) as ((Hno & Hh & Hs & Hwf & _) & _).
  apply runtime_new_inv in Hnew as (_ & (claim & Hsm) & _). split.
  - rewrite Hs, Hsm. done.
  - apply runtime_runs_advance in Hrt' as (_ & _ & _ & Hm).
    refine (proj2 (proj2 (proj2 (proj2 (manager_runs_frozen _ _ _ Hm _))))).
    by split_and!.
Qed.

(** A node never takes part in the chain: at every point of its event loop
    mining returns, but without a block, because the miner's parent block is
    never set; there is no round, because no header is ever confirmed; and of the
    blocks it is handed it can only ever apply a genesis block. *)
Lemma node_never_mines (rng1 rng2 : result string OsRng) (dag1 dag2 : Dag)
    (cfg : NodeConfig) (rt0 rt : NodeRuntime) :
  NodeRuntime_new rng1 rng2 dag1 dag2 cfg = Ok rt0 -> dag_blocks dag1 = ∅ ->
  rtc runtime_step rt0 rt ->
  (forall fuel now, mine_convergence_block fuel now rt =
     Some (Err (ManagerOther "Could not mine convergence block"))) /\
  rt_get_round rt = Err (ManagerOther "failed to fetch latest block header from dag") /\
  (forall clock b r, (rt_handle_block_received clock b rt).2 = Ok r ->
     exists g, b = Genesis g).
Proof.
  intros Hnew Hd Hrt.
  pose proof (runtime_run_inv _ _ _ _ _ _ _ Hnew Hd Hrt) as ((Hno & Hh & _) & Hm & _).
  apply runtime_new_inv in Hnew as (_ & _ & _ & _ & _ & Hl). split_and!.
  - intros fuel now. unfold mine_convergence_block. simpl.
    rewrite Hm, build_without_parent by done. done.
  - unfold rt_get_round. by rewrite Hh.
  - intros clock b r. destruct b as [c|p|g]; [| |eauto]; intros Hr; exfalso; revert Hr; simpl.
    + unfold handle_convergence_block_received, check_harvester. simpl.
      destruct (belongs_to_correct_quorum _ _ _); [|done..].
      rewrite method_bind_unfold. destruct (on_state_driver _ rt) as [rt1 [[]| |]]; [|done..].
      rewrite method_bind_unfold. by destruct (certify_if_missing c rt1) as [rt2 [[]| |]].
    + unfold handle_proposal_block_received. rewrite method_bind_unfold.
      by destruct (on_state_driver _ rt) as [rt1 [[]| |]].
Qed.

(** ** Identity *)

Definition rt_engine (rt : NodeRuntime) : DkgEngine := cm_dkg_engine (rt_consensus_driver rt).

Definition ack_store (rt : NodeRuntime) : gmap (string * string) Ack :=
  ack_message_store (dkg_state (rt_engine rt)).

(** Every component of a runtime acts for the node of its configuration. *)
Definition rt_wf (cfg : NodeConfig) (rt : NodeRuntime) : Prop :=
  rt_config rt = cfg /\ cm_node_config (rt_consensus_driver rt) = cfg /\
  qd_node_config (cm_quorum_driver (rt_consensus_driver rt)) = cfg /\
  engine_id (rt_engine rt) =
    (nc_id cfg, nc_node_type cfg, nc_threshold_config cfg, (validator_kp (nc_keypair cfg)).1).

Lemma engine_runs_id e e' : rtc dkg_step e e' -> engine_id e' = engine_id e.
Proof. induction 1 as [|e1 e2 e3 Hs _ IH]; [done|]. by rewrite IH, (dkg_step_id _ _ Hs). Qed.

Lemma runtime_run_wf rng1 rng2 dag1 dag2 cfg rt0 rt :
  NodeRuntime_new rng1 rng2 dag1 dag2 cfg = Ok rt0 -> rtc runtime_step rt0 rt -> rt_wf cfg rt.
Proof.
  intros Hnew (Hc & _ & Hcm & _)%runtime_runs_advance.
  apply runtime_new_inv in Hnew as (Hcfg & _ & Hnew & _).
  apply consensus_new_inv in Hnew as (Hq & Hn & _ & Hid & _).
  pose proof (runs_keep_frame _ _ Hcm) as (_ & Hn' & _ & Hq').
  apply runs_drive_engine, engine_runs_id in Hcm.
  unfold rt_wf, rt_engine. split_and!; [congruence|congruence| |].
  - rewrite Hq', Hq. done.
  - by rewrite Hcm, Hid.
Qed.

(** C20. The parts of a node agree at every point of its event loop: the runtime,
    the consensus module, the quorum module and the key generation engine act for
    the node of the configuration, with its key and threshold; the mempool holds
    every transaction once and under its own digest; and a node of type bootstrap
    belongs to no quorum. *)
Theorem runtime_well_formed (rng1 rng2 : result string OsRng) (dag1 dag2 : Dag)
    (cfg : NodeConfig) (rt0 rt : NodeRuntime) :
  NodeRuntime_new rng1 rng2 dag1 dag2 cfg = Ok rt0 -> dag_blocks dag1 = ∅ ->
  rtc runtime_step rt0 rt ->
  rt_wf cfg rt /\ mp_wf (sm_mempool (rt_state_driver rt)) /\
  (nc_node_type cfg = Bootstrap -> membership (rt_consensus_driver rt) = None).
Proof.
  intros Hnew Hd Hrt. pose proof (runtime_run_wf _ _ _ _ _ _ _ Hnew Hrt) as Hwf.
  pose proof (runtime_run_inv _ _ _ _ _ _ _ Hnew Hd Hrt) as ((_ & _ & _ & Hmp & _) & _ & _ & Hcm).
  split_and!; [done..|]. intros Hb.
  apply runtime_new_inv in Hnew as (_ & _ & Hc & _).
  by eapply runs_bootstrap_alone.
Qed.

(** ** The exchange of acknowledgements *)

Context `{!KademliaDht, !Dyswarm}.

Definition empty : Outbox := mk_Outbox false [] [].

Lemma handle_part_emits env a part rt rt' o :
  handle env (PartCommitmentCreated a part) (rt, empty) = Some ((rt', o), Ok ActorRunning) ->
  exists ack, ob_events o =
    [network_events (PartCommitmentAcknowledged a (nc_id (rt_config rt)) ack)] /\
    ack_store rt' !! (dkg_node_id (rt_engine rt), a) = Some ack.
Proof.
  unfold handle. intros [= Heq]. revert Heq. cbn [handle_event].
  rewrite !method_bind_unfold. unfold run_consensus, on_actor, on_consensus_driver. simpl.
  destruct (handle_part_commitment_created a part _) as [cm [[[r s] ack]|e|]] eqn:Hp; simpl;
    [|done..].
  intros [= <- <-]. exists ack. split; [done|].
  by apply part_created_stores in Hp.
Qed.

(** An acknowledgement is filed under the wrong node: node [b] acknowledges
    the part of node [a] as the one of receiver [b] for sender [a], but the event
    it sends through both network modules makes [a] file it as one of receiver [a]
    for sender [b]; what [a] holds under the right key is not changed. So [a]
    checks the acknowledgement as if it were its own. *)
Lemma acknowledgement_misattributed (env env' : Env) (rng1 rng2 : result string OsRng)
    (dag1 dag2 : Dag) (cfg : NodeConfig) (A B0 B B' : NodeRuntime) (nb : NetworkModule)
    (part : Part) (o : Outbox) (peer : NodeData) :
  let a := nc_id (rt_config A) in
  let b := nc_id cfg in
  NodeRuntime_new rng1 rng2 dag1 dag2 cfg = Ok B0 -> rtc runtime_step B0 B ->
  handle env (PartCommitmentCreated a part) (B, empty) = Some ((B', o), Ok ActorRunning) ->
  find_closest (fun d => bool_decide (nd_node_id d = a)) nb = Ok peer ->
  exists ack event message A',
    ob_events o = [network_events event] /\
    ob_wire (network_handle event (nb, empty)).1.2 = [SendTo (nd_udp_gossip_addr peer) message] /\
    ob_events (dyswarm_handle message (tt, empty)).1.2 = [runtime_events event] /\
    handle env' event (A, empty) = Some ((A', empty), Ok ActorRunning) /\
    ack_store B' !! (b, a) = Some ack /\
    ack_store A' !! (a, b) = Some (default ack (ack_store A !! (a, b))) /\
    (a <> b -> ack_store A' !! (b, a) = ack_store A !! (b, a)).
Proof.
  intros a b Hnew Hrun Hpart Hfind.
  pose proof (runtime_run_wf _ _ _ _ _ _ _ Hnew Hrun) as (Hcfg & _ & _ & [= Hid _ _ _]).
  apply handle_part_emits in Hpart as (ack & Ho & Hb). rewrite Hcfg in Ho. rewrite Hid in Hb.
  fold b in Ho, Hb.
  exists ack, (PartCommitmentAcknowledged a b ack), (NetPartCommitmentAcknowledged a b ack).
  eexists. split_and!; [done| |done|done|done| |].
  - cbn [network_handle]. unfold broadcast_part_commitment_acknowledgement.
    rewrite !method_bind_unfold. unfold lift_result. simpl. rewrite Hfind, send_spec.
    by destruct (send_data_via_quic _ _ _).
  - unfold ack_store, rt_engine. simpl. unfold or_insert.
    destruct (ack_message_store _ !! (a, b)) eqn:Hl; simpl; [done|apply lookup_insert_eq].
  - intros Hab. unfold ack_store, rt_engine. simpl. unfold or_insert.
    destruct (ack_message_store _ !! (a, b)); [done|]. apply lookup_insert_ne. congruence.
Qed.
End runtime.

Section witnesses.
Import Toy Sample ToyBlocks ToyGroup ToyDag ToyNet ToyNode.
#[local] Existing Instance ToyTrie.db_laws.
#[local] Existing Instance lazy_trie.
#[local] Existing Instance Mempool.ToyLeftRight.left_right.
#[local] Existing Instance Mempool.ToyLeftRight.left_right_laws.

#[local] Instance json_txn_lists : ToJson (list (string * list TransactionDigest)) := fun _ => [].
#[local] Instance json_claim_lists : ToJson (list (string * list Z)) := fun _ => [].
#[local] Instance json_reward : ToJson Reward := fun r => to_json (r_amount r).
#[local] Instance bincode_claims : Bincode (list (Z * Claim)) := fun l => Some (to_json l).
#[local] Instance bincode_header : Bincode HeaderTuple := fun _ => Some [].

Definition toy_env : Env := mk_Env (Ok entropy) 1700000000 512 (fun _ => 0%Z) 10.

#[local] Abbreviation toy_handle :=
  (handle EmptyString (fun _ => EmptyString) (fun l => l) (fun l => l) (fun _ => true) toy_env).

#[local] Abbreviation toy_new id :=
  (NodeRuntime_new (Ok entropy) (Ok entropy) empty_dag empty_dag (node_config id Validator None)).

Lemma toy_new_ok id : exists rt, toy_new id = Ok rt.
Proof.
  by apply (runtime_new_ok entropy entropy empty_dag empty_dag (node_config id Validator None)
    (true, Some tt) (true, Some tt)).
Qed.

Definition pay_txn : TransactionKind := TransferKind transfer.

(** Only an election can keep [handle] from returning. *)
Lemma toy_handle_returns e rt o :
  (forall h, e <> MinerElectionStarted h) ->
  exists rt' o' r, toy_handle e (rt, o) = Some ((rt', o'), r).
Proof.
  intros He. unfold handle.
  assert (Hs : forall x : NodeRuntime * Outbox * result string ActorState,
    exists rt' o' r, Some x = Some ((rt', o'), r)).
  { intros [[rt' o'] r]. eauto. }
  destruct e; try apply Hs. by destruct (He header).
Qed.

Lemma ledger_never_changes_witness :
  exists rt0 rt rt' o r o' r',
    toy_new "v1" = Ok rt0 /\
    toy_handle (NewTxnCreated pay_txn) (rt0, empty) = Some ((rt, o), r) /\
    toy_handle (TxnValidated pay_txn) (rt, empty) = Some ((rt', o'), r') /\
    state_store (sm_database (rt_state_driver rt)) = StateStore_new ".vrrb/node/db" /\
    dom (mp_abs (sm_mempool (rt_state_driver rt))) ⊆
      dom (mp_abs (sm_mempool (rt_state_driver rt'))).
Proof.
  destruct (toy_new_ok "v1") as [rt0 Hnew].
  destruct (toy_handle_returns (NewTxnCreated pay_txn) rt0 empty) as (rt & o & r & H1);
    [discriminate|].
  destruct (toy_handle_returns (TxnValidated pay_txn) rt empty) as (rt' & o' & r' & H2);
    [discriminate|].
  exists rt0, rt, rt', o, r, o', r'. split; [exact Hnew|]. split; [exact H1|].
  split; [exact H2|].
  apply (ledger_never_changes EmptyString (fun _ => EmptyString) id (fun l => l) (fun l => l)
    (fun _ => true) (Ok entropy) (Ok entropy) empty_dag empty_dag
    (node_config "v1" Validator None) rt0 rt rt' Hnew eq_refl);
    apply rtc_once; econstructor; [exact H1|exact H2].
Defined.

Lemma runtime_well_formed_witness :
  exists rt0 rt o r, toy_new "v1" = Ok rt0 /\
    toy_handle (QuorumMembershipAssigmentCreated farmer) (rt0, empty) = Some ((rt, o), r) /\
    rt_wf (node_config "v1" Validator None) rt.
Proof.
  destruct (toy_new_ok "v1") as [rt0 Hnew].
  destruct (toy_handle_returns (QuorumMembershipAssigmentCreated farmer) rt0 empty)
    as (rt & o & r & H1); [discriminate|].
  exists rt0, rt, o, r. split; [exact Hnew|]. split; [exact H1|].
  apply (runtime_well_formed EmptyString (fun _ => EmptyString) id (fun l => l) (fun l => l)
    (fun _ => true) (Ok entropy) (Ok entropy) empty_dag empty_dag
    (node_config "v1" Validator None) rt0 rt Hnew eq_refl).
  apply rtc_once. econstructor. exact H1.
Defined.

End witnesses.
