(* ===== verification/Rpc.v ===== *)
(** * The remote procedure calls of a node and the wallet that makes them

    [crates/vrrb_rpc/src/rpc/server_impl.rs] and [api.rs]: the calls a node answers
    from its read handles, and the events it puts on the bus for the others.
    [crates/wallet/src/v2/mod.rs]: the wallet, over any server. The transport of
    jsonrpsee is a parameter: a client is a record of calls on the remote side. *)

From S2P Require Import Prelude Floats Primitives Keypair Transactions Account Mempool Staking.
From S2P Require Import Claim Reward Vrf Blocks Threshold Storage Miner Quorum Config Events Network.
From S2P Require Import ToyModel BlockProofs StorageProofs.
From stdpp Require Import pretty.

(** [SecretKey::from_str]. *)
Class SecretKeyParse `{!Secp256k1} := sk_from_str : string -> option SecretKey.

(** The texts [PublicKey::from_str] takes: the hexadecimal form of a compressed or of
    an uncompressed point. *)
Class PublicKeyParseLaws `{!Secp256k1} :=
  pk_from_str_length : forall s p,
    pk_from_str s = Some p -> String.length s = 66 \/ String.length s = 130.

(** The [Debug] texts of keys. *)
Class KeyDebug `{!Secp256k1} := {
  sk_debug : SecretKey -> string;
  pk_debug : PublicKey -> string;
}.

Section rpc.
Context `{!Hashing, !Secp256k1, !SecretKeyParse, !ValidatorKeys, !StrDebug}.
Context `{!ToJson Address, !ToJson PublicKey, !ToJson Token, !ToJson Z, !ToJson string}.
Context `{!SocketAddrs, !ThresholdCrypto, !KeyGen, !Kademlia, !KeyShares}.
Context `{!LinkedMap, !LeftRight, !TrieDb, !HashOrder, !Bincode Account}.

Record RpcTransactionRecord := mk_RpcTransactionRecord {
  rpc_id : string;
  rpc_timestamp : Z;
  rpc_sender_address : Address;
  rpc_sender_public_key : PublicKey;
  rpc_receiver_address : Address;
  rpc_token : Token;
  rpc_amount : Z;
  rpc_signature : string;
  rpc_validators : gmap string bool;
  rpc_nonce : Z;
}.

Definition RpcTransactionRecord_from (txn : TransactionKind) : RpcTransactionRecord :=
  {| rpc_id := digest_string (txn_digest txn);
     rpc_timestamp := txn_timestamp txn;
     rpc_sender_address := txn_sender_address txn;
     rpc_sender_public_key := txn_sender_public_key txn;
     rpc_receiver_address := txn_receiver_address txn;
     rpc_token := txn_token txn;
     rpc_amount := txn_amount txn;
     rpc_signature := sig_to_string (txn_signature txn);
     rpc_validators := default ∅ (txn_validators txn);
     rpc_nonce := txn_nonce txn |}.

Record SignOpts := mk_SignOpts {
  so_timestamp : Z;
  so_sender_address : string;
  so_sender_public_key : string;
  so_receiver_address : string;
  so_amount : Z;
  so_token : Token;
  so_nonce : Z;
  so_private_key : string;
}.

(** The read handles look at the stores and at the pool of the node. *)
Record RpcServerImpl := mk_RpcServerImpl {
  rs_node_type : NodeType;
  rs_vrrbdb : VrrbDb;
  rs_mempool : LeftRightMempool;
}.

(** [TransactionStoreReadHandle::entries]. *)
Definition txns_entries (s : TransactionStore) : gmap TransactionDigest TransactionKind :=
  fold_left (fun m txn => <[txn_digest txn := txn]> m) (trie_values (txn_trie s)) ∅.

Definition state_store_values (db : VrrbDb) : gmap Address Account :=
  state_entries (state_store db).
Definition transaction_store_values (db : VrrbDb) : gmap TransactionDigest TransactionKind :=
  txns_entries (transaction_store db).
Definition claim_store_values (db : VrrbDb) : gmap string Claim :=
  claims_entries (claim_store db).

(** ** The server *)

Abbreviation server A := (actor RpcServerImpl A).

Definition get_full_state (s : RpcServerImpl) : gmap Address Account :=
  state_store_values (rs_vrrbdb s).

Definition get_full_mempool (s : RpcServerImpl) : list RpcTransactionRecord :=
  map RpcTransactionRecord_from (factory_values (rs_mempool s)).

Definition get_node_type (s : RpcServerImpl) : NodeType := rs_node_type s.

Definition create_txn (args : NewTransferArgs) : server RpcTransactionRecord :=
  let txn := TransferKind (Transfer_new args) in
  _ ← emit (mk_EventMessage None (NewTxnCreated txn));
  mret (RpcTransactionRecord_from txn).

Definition get_transaction (transaction_digest : string) (s : RpcServerImpl)
    : result string RpcTransactionRecord :=
  parsed_digest ← map_err (fun _ => "unable to parse transaction digest")
                    (TransactionDigest_from_str transaction_digest);
  match transaction_store_values (rs_vrrbdb s) !! parsed_digest with
  | Some txn => Ok (RpcTransactionRecord_from txn)
  | None => Err "unable to find transaction"
  end.

(** A digest that does not parse is looked up as the default one. *)
Definition list_step (s : RpcServerImpl) (values : gmap string RpcTransactionRecord)
    (digest : string) : gmap string RpcTransactionRecord :=
  let parsed_digest :=
    match TransactionDigest_from_str digest with
    | Ok d => d
    | _ => TransactionDigest_default
    end in
  match transaction_store_values (rs_vrrbdb s) !! parsed_digest with
  | Some txn => <[digest_string (txn_digest txn) := RpcTransactionRecord_from txn]> values
  | None => values
  end.

Definition list_transactions (digests : list string) (s : RpcServerImpl)
    : gmap string RpcTransactionRecord :=
  fold_left (list_step s) digests ∅.

(** [encode_to_binary], whose error text is the encoder's. *)
Definition encode_account (encode_error : string) (account : Account) : result string bytes :=
  ok_or (bincode account) encode_error.

Definition rpc_create_account (encode_error : string) (address : Address) (account : Account)
    : server unit :=
  account_bytes ← lift_result (fun _ => encode_account encode_error account);
  emit (mk_EventMessage None (CreateAccountRequested address account_bytes)).

Definition node_error_text (e : NodeError) : string :=
  match e with
  | InvalidEnvironment s => "invalid environment: " +:+ s
  | NodeOther s => s
  end.

Definition rpc_update_account (encode_error : string) (account : Account) : server unit :=
  account_bytes ← lift_result (fun _ => encode_account encode_error account);
  addr ← lift_result (fun _ => map_err node_error_text (Address_from_str (a_hash account)));
  emit (mk_EventMessage None (AccountUpdateRequested addr account_bytes)).

Definition rpc_get_account (address : Address) (s : RpcServerImpl) : result string Account :=
  ok_or (state_store_values (rs_vrrbdb s) !! address) "unable to find account".

Definition rpc_sign_transaction (opts : SignOpts) : result string string :=
  let payload :=
    pretty (so_timestamp opts) +:+ "," +:+ so_sender_address opts +:+ ","
    +:+ so_sender_public_key opts +:+ "," +:+ so_receiver_address opts +:+ ","
    +:+ pretty (so_amount opts) +:+ "," +:+ Token_debug (so_token opts) +:+ ","
    +:+ pretty (so_nonce opts) in
  let payload_hash := sha256 (str_bytes payload) in
  secret_key ← ok_or (sk_from_str (so_private_key opts)) "unable to parse secret_key";
  Ok (sig_to_string (sign_ecdsa payload_hash secret_key)).

(** The claims in the order the map of the store is walked. *)
Definition stored_claims (s : RpcServerImpl) : list Claim :=
  (hash_iter (claim_store_values (rs_vrrbdb s))).*2.

Definition get_claims_by_account_id (address : Address) (s : RpcServerImpl) : list Claim :=
  filter (fun claim => c_address claim = address) (stored_claims s).

Definition get_claim_hashes (s : RpcServerImpl) : list Z := map c_hash (stored_claims s).

Definition get_claims (claim_hashes : list Z) (s : RpcServerImpl) : list Claim :=
  filter (fun claim => c_hash claim ∈ claim_hashes) (stored_claims s).
End rpc.

(** ** The wallet *)

Section wallet.
Context `{!Hashing, !Secp256k1, !SecretKeyParse, !KeyDebug, !ValidatorKeys, !StrDebug}.
Context `{!ToJson Address, !ToJson PublicKey, !ToJson Token, !ToJson Z, !ToJson string}.
Context `{!SocketAddrs, !HashOrder}.

(** The calls a wallet makes, on a remote side of type [W]. *)
Record RpcClient (W : Type) := mk_RpcClient {
  cl_get_full_mempool : method W string (list RpcTransactionRecord);
  cl_create_txn : NewTransferArgs -> method W string RpcTransactionRecord;
  cl_get_transaction : string -> method W string RpcTransactionRecord;
  cl_list_transactions : list string -> method W string (gmap string RpcTransactionRecord);
  cl_create_account : Address -> Account -> method W string unit;
  cl_get_account : Address -> method W string Account;
}.

Inductive WalletError :=
| WalletRpcError (msg : string)
| WalletApiError (msg : string)
| WalletCustom (msg : string).

Record Wallet := mk_Wallet {
  w_secret_key : SecretKey;
  w_welcome_message : string;
  w_public_key : PublicKey;
  w_addresses : gmap Z Address;
  w_accounts : gmap Address Account;
  w_nonce : Z;
}.

Record WalletConfig := mk_WalletConfig {
  wc_rpc_server_address : SocketAddr;
  wc_secret_key : SecretKey;
  wc_public_key : PublicKey;
  wc_accounts : gmap Address Account;
  wc_addresses : gmap Z Address;
}.

Record WalletInfo := mk_WalletInfo {
  wi_secret_key : SecretKey;
  wi_public_key : string;
  wi_addresses : gmap Z Address;
  wi_nonce : Z;
}.

Definition newline : string := String (Ascii.ascii_of_N 10) EmptyString.

(** For the outcome of [create_client]. *)
Definition Wallet_new (connected : SocketAddr -> result string unit) (config : WalletConfig)
    : result WalletError Wallet :=
  _ ← map_err WalletApiError (connected (wc_rpc_server_address config));
  let welcome_message :=
    "DO NOT SHARE OR LOSE YOUR SECRET KEY:" +:+ newline +:+ "SECRET KEY: "
    +:+ sk_debug (wc_secret_key config) +:+ newline +:+ "PUBLIC KEY: "
    +:+ pk_debug (wc_public_key config) +:+ newline in
  Ok {| w_secret_key := wc_secret_key config; w_welcome_message := welcome_message;
        w_public_key := wc_public_key config; w_addresses := wc_addresses config;
        w_accounts := wc_accounts config; w_nonce := 0 |}.

Definition wallet_info (w : Wallet) : WalletInfo :=
  mk_WalletInfo (w_secret_key w) (pk_to_string (w_public_key w)) (w_addresses w) (w_nonce w).

Section remote.
Context {W : Type} (client : RpcClient W).

Abbreviation wallet A := (method (Wallet * W) WalletError A).

(** A call of the client, with what its error becomes. *)
Definition remote {A} (f : string -> WalletError) (m : method W string A) : wallet A := fun s =>
  let '(w', r) := m s.2 in ((s.1, w'), map_err f r).

Definition api_error (err : string) : WalletError := WalletCustom ("API Error: " +:+ err).

Definition get_mempool : wallet (list RpcTransactionRecord) :=
  remote WalletRpcError (cl_get_full_mempool W client).

Definition sender_address_of (address_number : Z) (w : Wallet) : option Address :=
  match w_addresses w !! address_number with
  | Some addr => Some addr
  | None => w_addresses w !! 0%Z
  end.

Definition wallet_sign_transaction (payload : bytes) (w : Wallet) : Signature :=
  sign_ecdsa payload (w_secret_key w).

Definition wallet_payload (w : Wallet) (sender receiver : Address) (amount : Z) (token : Token)
    (timestamp : Z) : bytes :=
  hash_data [to_json timestamp; to_json (Address_to_string sender);
             to_json (pk_to_string (w_public_key w)); to_json (Address_to_string receiver);
             to_json amount; to_json token; to_json (w_nonce w)].

Definition wallet_args (w : Wallet) (sender receiver : Address) (amount : Z) (token : Token)
    (timestamp : Z) : NewTransferArgs :=
  {| arg_timestamp := timestamp; arg_sender_address := sender;
     arg_sender_public_key := w_public_key w; arg_receiver_address := receiver;
     arg_token := Some token; arg_amount := amount;
     arg_signature := wallet_sign_transaction
                        (wallet_payload w sender receiver amount token timestamp) w;
     arg_validators := Some ∅; arg_nonce := w_nonce w |}.

Definition send_transaction (address_number : Z) (receiver : Address) (amount : Z)
    (token : Token) (timestamp : Z) : wallet string := fun s =>
  match sender_address_of address_number s.1 with
  | None => (s, Err (WalletCustom "wallet has no addresses"))
  | Some sender =>
      (txn ← remote api_error
               (cl_create_txn W client (wallet_args s.1 sender receiver amount token timestamp));
       mret (rpc_id txn)) s
  end.

Definition wallet_get_transaction (digest : string)
    : method W WalletError (option RpcTransactionRecord) := fun remote_state =>
  match cl_get_transaction W client digest remote_state with
  | (remote_state', Ok value) => (remote_state', Ok (Some value))
  | (remote_state', Err _) => (remote_state', Ok None)
  | (remote_state', Panic) => (remote_state', Panic)
  end.

Definition wallet_get_account (address : Address) : wallet Account :=
  remote api_error (cl_get_account W client address).

Definition wallet_list_transactions (ids : list string)
    : method W WalletError (gmap string RpcTransactionRecord) := fun remote_state =>
  match cl_list_transactions W client ids remote_state with
  | (remote_state', Ok values) => (remote_state', Ok values)
  | (remote_state', Err _) => (remote_state', Ok ∅)
  | (remote_state', Panic) => (remote_state', Panic)
  end.

(** [len() as u32]. *)
Definition get_new_address (w : Wallet) : Wallet :=
  let largest_address_index := (Z.of_nat (size (w_addresses w)) mod 2 ^ 32)%Z in
  {| w_secret_key := w_secret_key w; w_welcome_message := w_welcome_message w;
     w_public_key := w_public_key w;
     w_addresses := <[largest_address_index := Address_new (w_public_key w)]> (w_addresses w);
     w_accounts := w_accounts w; w_nonce := w_nonce w |}.

Definition record_account (alias : Z) (address : Address) (account : Account) (w : Wallet)
    : Wallet :=
  {| w_secret_key := w_secret_key w; w_welcome_message := w_welcome_message w;
     w_public_key := w_public_key w; w_addresses := <[alias := address]> (w_addresses w);
     w_accounts := <[address := account]> (w_accounts w); w_nonce := w_nonce w |}.

Definition keep_account (alias : Z) (address : Address) (account : Account)
    : wallet (Address * Account) := fun s =>
  ((record_account alias address account s.1, s.2), Ok (address, account)).

Definition wallet_create_account (now alias : Z) (pk : PublicKey) : wallet (Address * Account) :=
  let account := Account_new now pk in
  let address := Address_new pk in
  _ ← remote WalletCustom (cl_create_account W client address account);
  keep_account alias address account.

(** The accounts of a restored wallet, asked for one after another. *)
Fixpoint fetch_accounts (addresses : list (Z * Address)) (accounts : gmap Address Account)
    : wallet (gmap Address Account) :=
  match addresses with
  | [] => mret accounts
  | (_, addr) :: addresses' =>
      account ← wallet_get_account addr;
      fetch_accounts addresses' (<[addr := account]> accounts)
  end.

Definition restored (w : Wallet) (accounts : gmap Address Account) : result WalletError Wallet :=
  match w_addresses w !! 1%Z with
  | Some addr =>
      Ok {| w_secret_key := w_secret_key w;
            w_welcome_message :=
              "DO NOT SHARE OR LOSE YOUR SECRET KEY:" +:+ newline +:+ "SECRET KEY: "
              +:+ sk_debug (w_secret_key w) +:+ newline +:+ "PUBLIC KEY: "
              +:+ pk_debug (w_public_key w) +:+ newline +:+ "ADDRESS: "
              +:+ Address_to_string addr +:+ newline;
            w_public_key := w_public_key w; w_addresses := w_addresses w;
            w_accounts := accounts; w_nonce := w_nonce w |}
  | None => Panic
  end.

Definition restore_from_private_key (connected : SocketAddr -> result string unit)
    (secret_key : string) (rpc_server : SocketAddr) (remote_state : W)
    : W * result WalletError Wallet :=
  match sk_from_str secret_key with
  | Some secretkey =>
      match connected rpc_server with
      | Ok _ =>
          let w := get_new_address
            {| w_secret_key := secretkey; w_welcome_message := EmptyString;
               w_public_key := pk_of_sk secretkey; w_addresses := ∅; w_accounts := ∅;
               w_nonce := 0 |} in
          match fetch_accounts (hash_iter (w_addresses w)) ∅ (w, remote_state) with
          | ((w', remote_state'), Ok accounts) => (remote_state', restored w' accounts)
          | ((_, remote_state'), Err e) => (remote_state', Err e)
          | ((_, remote_state'), Panic) => (remote_state', Panic)
          end
      | Err e => (remote_state, Err (WalletApiError e))
      | Panic => (remote_state, Panic)
      end
  | None => (remote_state, Err (WalletCustom "unable to restore wallet from secret key"))
  end.
End remote.
End wallet.

(** ** Correctness of the server *)

Section server_correctness.
Context `{!Hashing, !HashingLaws, !Secp256k1, !PublicKeyParseLaws, !SecretKeyParse}.
Context `{!ValidatorKeys, !StrDebug}.
Context `{!ToJson Address, !ToJson PublicKey, !ToJson Token, !ToJson Z, !ToJson string}.
Context `{!SocketAddrs, !ThresholdCrypto, !KeyGen, !Kademlia, !KeyShares}.
Context `{!LinkedMap, !LeftRight, !TrieDb, !TrieDbLaws, !HashOrder, !Bincode Account, !Profile}.

Lemma fold_insert_lookup `{Countable K} {V} (key : V -> K) (l : list V) (m : gmap K V) (v : V) :
  v ∈ l -> (forall v', v' ∈ l -> key v' = key v -> v' = v) ->
  fold_left (fun m v => <[key v := v]> m) l m !! key v = Some v.
Proof.
  induction l as [|x l IH] using rev_ind; [by intros ?%not_elem_of_nil|].
  intros I U. rewrite fold_left_app. simpl. destruct (decide (key x = key v)) as [E|N].
  - rewrite E, lookup_insert_eq. f_equal. apply U; [|done].
    apply elem_of_app. right. by apply list_elem_of_singleton.
  - rewrite lookup_insert_ne by done.
    apply elem_of_app in I as [I | ->%list_elem_of_singleton]; [|done].
    apply IH; [done|]. intros v' I'. apply U. apply elem_of_app. by left.
Qed.

(** Every transaction of the store is under its own digest. *)
Definition digest_keyed (s : TransactionStore) : Prop :=
  forall k txn, trie_view (txn_trie s) !! k = Some txn -> txn_digest txn = k.

Lemma txns_entries_lookup s txn :
  digest_keyed s -> trie_view (txn_trie s) !! txn_digest txn = Some txn ->
  txns_entries s !! txn_digest txn = Some txn.
Proof.
  intros K L.
  assert (forall t, t ∈ trie_values (txn_trie s) <->
    exists k, trie_view (txn_trie s) !! k = Some t) as V.
  { intros t. rewrite (trie_values_view (txn_trie s)), list_elem_of_fmap. split.
    - intros ([k t'] & -> & I%elem_of_map_to_list). by exists k.
    - intros [k I%elem_of_map_to_list]. by exists (k, t). }
  apply fold_insert_lookup; [apply V; eauto|].
  intros t [k I]%V E. rewrite (K _ _ I) in E. subst k. congruence.
Qed.

Lemma digest_parse_print t :
  Transfer_wf t -> TransactionDigest_from_str (digest_string (t_id t)) = Ok (t_id t).
Proof.
  unfold Transfer_wf, build_payload_digest, TransactionDigest_from_str. intros ->. simpl.
  by rewrite hex_decode_encode.
Qed.

(** A transaction that the store publishes under its digest is found by the identifier
    the record of the same transaction carries, with every field as stored; the
    same identifier in a list of requests gives the same record. *)
Lemma get_transaction_finds (s : RpcServerImpl) (txn : TransactionKind) :
  digest_keyed (transaction_store (rs_vrrbdb s)) ->
  trie_view (txn_trie (transaction_store (rs_vrrbdb s))) !! txn_digest txn = Some txn ->
  Transfer_wf (kind_transfer txn) ->
  let record := RpcTransactionRecord_from txn in
  get_transaction (rpc_id record) s = Ok record /\
  list_transactions [rpc_id record] s = {[ rpc_id record := record ]}.
Proof.
  intros K L Wf. unfold get_transaction, list_transactions, list_step, transaction_store_values.
  simpl. rewrite (digest_parse_print _ Wf). simpl.
  pose proof (txns_entries_lookup _ txn K L) as E. simpl in E. by rewrite E.
Qed.

Definition hash_printed (a : Account) : Prop := String.length (a_hash a) = 64.

Lemma hash_printed_new now pk : hash_printed (Account_new now pk).
Proof. unfold hash_printed. simpl. by rewrite lower_hex_length, sha256_length. Qed.

Lemma hash_printed_update now args a :
  hash_printed a -> hash_printed (Account_update now args a).1.
Proof.
  intros P. unfold Account_update.
  repeat (rewrite method_bind_unfold;
    match goal with |- context [if_some ?o ?f ?x] =>
      assert (hash_printed (if_some o f x).1) by
        (destruct o; simpl; unfold update_nonce_step, bump_nonce, update_single_field_no_hash;
         breaks; done);
      destruct (if_some o f x) as [? [?| |]]; simpl in *; try done
    end).
  unfold hash_printed. simpl. unfold account_hash. by rewrite lower_hex_length, sha256_length.
Qed.

(** The accounts of the program: new ones and their updates. *)
Inductive account_made : Account -> Prop :=
| made_new now pk : account_made (Account_new now pk)
| made_update now args a : account_made a -> account_made (Account_update now args a).1.

Lemma account_made_hash a : account_made a -> hash_printed a.
Proof. induction 1; [apply hash_printed_new | by apply hash_printed_update]. Qed.

(** updateAccount refuses every account: it parses the account's hash, 64 hexadecimal
    digits, as a public key, and puts nothing on the bus. *)
Lemma update_account_refused (encode_error : string) (a : Account) (s : RpcServerImpl)
    (o : Outbox) :
  account_made a -> exists e, rpc_update_account encode_error a (s, o) = ((s, o), Err e).
Proof.
  intros P%account_made_hash. unfold rpc_update_account. rewrite !method_bind_unfold.
  unfold lift_result, encode_account. destruct (bincode a); simpl; [|by eexists].
  unfold Address_from_str. destruct (pk_from_str (a_hash a)) eqn:E; simpl; [|by eexists].
  apply pk_from_str_length in E. unfold hash_printed in P. lia.
Qed.
End server_correctness.

(** ** Correctness of the wallet *)

Section wallet_correctness.
Context `{!Hashing, !Secp256k1, !SecretKeyParse, !KeyDebug, !ValidatorKeys, !StrDebug}.
Context `{!ToJson Address, !ToJson PublicKey, !ToJson Token, !ToJson Z, !ToJson string}.
Context `{!SocketAddrs, !ThresholdCrypto, !KeyGen, !Kademlia, !KeyShares}.
Context `{!LinkedMap, !LeftRight, !TrieDb, !HashOrder, !HashOrderLaws, !Bincode Account}.

(** The calls answered by a server of the node. *)
Definition server_client (encode_error : string) : RpcClient (RpcServerImpl * Outbox) := {|
  cl_get_full_mempool := lift_result (fun s => Ok (get_full_mempool s));
  cl_create_txn := create_txn;
  cl_get_transaction := fun d => lift_result (get_transaction d);
  cl_list_transactions := fun l => lift_result (fun s => Ok (list_transactions l s));
  cl_create_account := rpc_create_account encode_error;
  cl_get_account := fun a => lift_result (rpc_get_account a);
|}.

(** What the owner of a wallet can do with it, whatever the remote side answers. *)
Inductive wallet_step {W} (client : RpcClient W) : Wallet -> Wallet -> Prop :=
| step_send n receiver amount token timestamp w remote_state :
    wallet_step client w
      (send_transaction client n receiver amount token timestamp (w, remote_state)).1.1
| step_get_account address w remote_state :
    wallet_step client w (wallet_get_account client address (w, remote_state)).1.1
| step_mempool w remote_state : wallet_step client w (get_mempool client (w, remote_state)).1.1
| step_new_address w : wallet_step client w (get_new_address w)
| step_create_account now alias pk w remote_state :
    wallet_step client w (wallet_create_account client now alias pk (w, remote_state)).1.1.

Lemma remote_keeps {W A} f (m : method W string A) s : (remote f m s).1.1 = s.1.
Proof. unfold remote. by destruct (m s.2). Qed.

Lemma send_transaction_keeps {W} (client : RpcClient W) n receiver amount token timestamp s :
  (send_transaction client n receiver amount token timestamp s).1.1 = s.1.
Proof.
  unfold send_transaction. destruct (sender_address_of n s.1); [|done].
  rewrite method_bind_unfold.
  pose proof (remote_keeps api_error
    (cl_create_txn W client (wallet_args s.1 a receiver amount token timestamp)) s) as K.
  by destruct (remote _ _ s) as [[] [| |]].
Qed.

Lemma wallet_step_nonce {W} (client : RpcClient W) w w' :
  wallet_step client w w' -> w_nonce w' = w_nonce w.
Proof.
  destruct 1; try (unfold wallet_get_account, get_mempool; by rewrite remote_keeps).
  - by rewrite send_transaction_keeps.
  - done.
  - unfold wallet_create_account. rewrite method_bind_unfold.
    pose proof (remote_keeps WalletCustom
      (cl_create_account W client (Address_new pk) (Account_new now pk)) (w, remote_state)) as K.
    destruct (remote _ _ _) as [[] [| |]]; simpl in *; by subst.
Qed.

Lemma wallet_run_nonce {W} (client : RpcClient W) connected config w0 w :
  Wallet_new connected config = Ok w0 -> rtc (wallet_step client) w0 w -> w_nonce w = 0%Z.
Proof.
  intros N R. assert (w_nonce w0 = 0%Z) as Z0.
  { unfold Wallet_new in N. destruct (connected _); simpl in N; [|done..]. by injection N as <-. }
  clear N. induction R as [|x y z S R IH]; [done|].
  apply IH. by rewrite (wallet_step_nonce _ _ _ S).
Qed.

(** C26. A transaction sent from a wallet to a node with an open bus is published there
    as one new transaction, under the identifier the wallet returns, and changes
    nothing in the wallet. Its nonce is 0 after any run of the wallet, so sending
    the same payment again publishes the same transaction. *)
Theorem sent_transaction_published encode_error connected config w0 w n sender receiver amount
    token timestamp (srv : RpcServerImpl) (o : Outbox) :
  Wallet_new connected config = Ok w0 ->
  rtc (wallet_step (server_client encode_error)) w0 w ->
  sender_address_of n w = Some sender -> ob_closed o = false ->
  let t := Transfer_new (wallet_args w sender receiver amount token timestamp) in
  let publish o := mk_Outbox (ob_closed o)
    (ob_events o ++ [mk_EventMessage None (NewTxnCreated (TransferKind t))]) (ob_wire o) in
  let send := send_transaction (server_client encode_error) n receiver amount token timestamp in
  t_nonce t = 0%Z /\
  send (w, (srv, o)) = ((w, (srv, publish o)), Ok (digest_string (t_id t))) /\
  send (w, (srv, publish o)) = ((w, (srv, publish (publish o))), Ok (digest_string (t_id t))).
Proof.
  intros N R S C t publish send. split; [by apply (wallet_run_nonce _ _ _ _ _ N R)|].
  assert (forall o, ob_closed o = false ->
    send (w, (srv, o)) = ((w, (srv, publish o)), Ok (digest_string (t_id t)))) as Send.
  { intros o' C'. unfold send, send_transaction. simpl. rewrite S, method_bind_unfold.
    unfold remote. simpl. unfold create_txn. rewrite method_bind_unfold.
    unfold emit, publish. simpl. by rewrite C'. }
  split; apply Send; exact C.
Qed.

(** No wallet is ever restored: once the key parses, the server is reached and the
    account is found, the restoration panics, since it asks for address 1 of a
    wallet whose only address is 0; otherwise it reports what failed. *)
Lemma restore_never_returns {W} (client : RpcClient W) connected key addr (remote_state : W) :
  (restore_from_private_key client connected key addr remote_state).2 =
  match sk_from_str key with
  | None => Err (WalletCustom "unable to restore wallet from secret key")
  | Some sk =>
      _ ← map_err WalletApiError (connected addr);
      _ ← map_err api_error (cl_get_account W client (Address_new (pk_of_sk sk)) remote_state).2;
      Panic
  end.
Proof.
  unfold restore_from_private_key. destruct (sk_from_str key) as [sk|]; [|done].
  destruct (connected addr); simpl; [|done..].
  assert (hash_iter (<[0%Z := Address_new (pk_of_sk sk)]> ∅ : gmap Z Address) =
    [(0%Z, Address_new (pk_of_sk sk))]) as E.
  { apply Permutation_singleton_r. by rewrite hash_iter_perm, insert_empty, map_to_list_singleton. }
  unfold get_new_address.
  cbn [w_addresses w_secret_key w_public_key w_welcome_message w_accounts w_nonce].
  rewrite map_size_empty. change (Z.of_nat 0 mod 2 ^ 32)%Z with 0%Z. rewrite E. cbn [fetch_accounts]. rewrite method_bind_unfold.
  unfold wallet_get_account, remote. simpl.
  destruct (cl_get_account _ _ _ _) as [w' [acc| |]]; simpl; [|done..].
  unfold restored. simpl. by rewrite lookup_insert_ne by done.
Qed.
End wallet_correctness.

Section witnesses.
Import Toy Sample ToyBlocks ToyGroup ToyNet.
#[local] Existing Instance lazy_trie.
#[local] Existing Instance ToyTrie.db_laws.
#[local] Existing Instance Mempool.ToyLeftRight.left_right.
#[local] Existing Instance release.

#[local] Instance sk_parse : SecretKeyParse := fun s =>
  if bool_decide (s = "key") then Some alice_sk else None.
#[local] Instance key_debug : KeyDebug := {| sk_debug _ := "sk"; pk_debug _ := "pk" |}.
#[local] Instance bincode_account : Bincode Account := fun a => Some (str_bytes (a_hash a)).

#[local] Instance pk_parse_laws : PublicKeyParseLaws.
Proof.
  intros s p E. left. unfold pk_from_str, secp in E.
  destruct (unhex s) as [b|] eqn:U; simpl in E; [|done].
  apply unhex_length in U. rewrite U. assert (length b = 33) as ->; [|done].
  unfold key_of_bytes in E. destruct (drop 32 b) as [|? [|]] eqn:D; [done| |done].
  apply (f_equal length) in D. rewrite length_drop in D. simpl in D. lia.
Qed.

Definition stored_txn : TransactionKind := TransferKind transfer.

Definition txn_server : RpcServerImpl :=
  mk_RpcServerImpl Full
    (mk_VrrbDb (StateStore_new "db")
       (txns_commit (txns_insert stored_txn (TransactionStore_new "db"))) (ClaimStore_new "db"))
    LeftRightMempool_new.

Definition alice_config : WalletConfig :=
  mk_WalletConfig ip_alice alice_sk (address_pk alice) ∅ {[ 0%Z := alice ]}.

Lemma alice_wallet : exists w,
  Wallet_new (fun _ => Ok tt) alice_config = Ok w /\ sender_address_of 0 w = Some alice.
Proof. eexists. split; reflexivity. Qed.

Lemma sent_transaction_published_witness : exists w o id,
  Wallet_new (fun _ => Ok tt) alice_config = Ok w /\
  send_transaction (server_client "encoding") 0 bob 250 Token_default 1700000000
    (w, (txn_server, empty_outbox)) = ((w, (txn_server, o)), Ok id).
Proof.
  destruct alice_wallet as (w & N & A).
  destruct (sent_transaction_published "encoding" (fun _ => Ok tt) alice_config w w 0 alice bob 250
    Token_default 1700000000 txn_server empty_outbox N (rtc_refl _ _) A eq_refl) as (_ & S & _).
  exists w. eexists _, _. split; [exact N | exact S].
Defined.

(** The account of the restored key is found, and the restoration panics. *)
End witnesses.
