(* ===== verification/JobTask.v ===== *)
(** * Tasks of the job pool: [crates/consensus/job_pool/src]

    [task.rs], [poller.rs], [waker.rs] and [error.rs]: what a caller holds after it
    submits a job, the job itself, and the protocol by which the thread that runs
    the job hands its result to the thread that waits for it. A critical section of
    the mutex is one step. *)

From S2P Require Import Prelude.

Inductive PoolError :=
| InvalidPoolWorkerConfig (msg : string)
| FailedToEndTask.

Definition pool_error_to_string (e : PoolError) : string :=
  match e with
  | InvalidPoolWorkerConfig s => "Error : " +:+ s
  | FailedToEndTask => "Thread failed to complete its execution,Re run"
  end.

(** [std::thread::Result]: a panic is caught with its payload. *)
Inductive ThreadResult (T : Type) :=
| Returned (v : T)
| Panicked (payload : string).
Arguments Returned {T} v.
Arguments Panicked {T} payload.

(** What a waker does: nothing, unpark a thread, put an address on the channel of a
    worker, or wake a task of some other executor. *)
Inductive Waker :=
| EmptyWaker
| UnparkThread (thread : nat)
| NotifyWorker (address : Z)
| ContextWaker (id : nat).

#[export] Instance Waker_eq_dec : EqDecision Waker.
Proof. solve_decision. Defined.

(** [std::sync::Mutex]: a panic under the lock poisons it, and [lock] then fails. *)
Record Mutex (A : Type) := mk_Mutex {
  poisoned : bool;
  guarded : A;
}.
Arguments mk_Mutex {A} poisoned guarded.
Arguments poisoned {A} m.
Arguments guarded {A} m.

Definition lock {A} (m : Mutex A) : option A :=
  if poisoned m then None else Some (guarded m).

Section tasks.
Context {T : Type}.

Record TaskStatus := mk_TaskStatus {
  ts_result : option (ThreadResult T);
  ts_waker : option Waker;
  ts_is_timeout : bool;
}.

Abbreviation Task := (Mutex TaskStatus).

Definition create_pending_task : Task := mk_Mutex false (mk_TaskStatus None None false).

Definition has_timeout_occurred (t : Task) : bool :=
  match lock t with
  | Some status => ts_is_timeout status
  | None => false
  end.

Definition is_finished (t : Task) : bool :=
  match lock t with
  | Some status => bool_decide (is_Some (ts_result status))
  | None => false
  end.

(** Writes under the lock. *)
Definition set_result (r : option (ThreadResult T)) (t : Task) : Task :=
  mk_Mutex (poisoned t)
    (mk_TaskStatus r (ts_waker (guarded t)) (ts_is_timeout (guarded t))).

Definition set_waiter (w : Waker) (t : Task) : Task :=
  mk_Mutex (poisoned t)
    (mk_TaskStatus (ts_result (guarded t)) (Some w) (ts_is_timeout (guarded t))).

Definition set_timeout (t : Task) : Task :=
  mk_Mutex (poisoned t)
    (mk_TaskStatus (ts_result (guarded t)) (ts_waker (guarded t)) true).

Definition poison (t : Task) : Task := mk_Mutex true (guarded t).

Inductive Poll :=
| Ready (v : T)
| Pending.

(** [Future::poll] of a task; the payload of the job is raised with the lock held. *)
Definition task_poll (cx : Waker) : method Task PoolError Poll := fun t =>
  match lock t with
  | Some inner =>
      match ts_result inner with
      | Some (Returned value) => (set_result None t, Ok (Ready value))
      | Some (Panicked _) => (poison (set_result None t), Panic)
      | None => (set_waiter cx t, Ok Pending)
      end
  | None => (t, Ok Pending)
  end.

(** ** Waiting without a deadline *)

Inductive JoinPc :=
| JoinStart
| JoinParked
| JoinCheck
| JoinDone (r : option (ThreadResult T)).

(** The two critical sections of [join_catch], for the thread [me]. *)
Definition join_catch_step (me : nat) (pc : JoinPc) (t : Task) : JoinPc * Task :=
  match pc with
  | JoinStart =>
      match lock t with
      | Some status =>
          match ts_result status with
          | Some result => (JoinDone (Some result), set_result None t)
          | None => (JoinParked, set_waiter (UnparkThread me) t)
          end
      | None => (JoinDone None, t)
      end
  | JoinCheck =>
      match lock t with
      | Some status =>
          match ts_result status with
          | Some result => (JoinDone (Some result), set_result None t)
          | None => (JoinParked, t)
          end
      | None => (JoinParked, t)
      end
  | _ => (pc, t)
  end.

Definition join (caught : option (ThreadResult T)) : result PoolError T :=
  match caught with
  | Some (Returned value) => Ok value
  | Some (Panicked _) => Panic
  | None => Err FailedToEndTask
  end.

(** ** Waiting with a deadline *)

Inductive DeadlinePc :=
| DlStart
| DlLoop
| DlParked
| DlCheck
| DlValue (v : T)
| DlTimedOut
| DlRaised
| DlFailed.

Definition dl_outcome (r : ThreadResult T) : DeadlinePc :=
  match r with
  | Returned v => DlValue v
  | Panicked _ => DlRaised
  end.

(** One step at clock reading [now]; from [DlParked] it is the return of
    [park_timeout], for whatever reason. The payload of a result that is there at
    once is raised with the lock held. *)
Definition join_deadline_step (me : nat) (deadline now : Z) (pc : DeadlinePc) (t : Task)
    : DeadlinePc * Task :=
  match pc with
  | DlStart =>
      match lock t with
      | Some status =>
          match ts_result status with
          | Some (Returned v) => (DlValue v, set_result None t)
          | Some (Panicked _) => (DlRaised, poison (set_result None t))
          | None => (DlLoop, set_waiter (UnparkThread me) t)
          end
      | None => (DlFailed, t)
      end
  | DlLoop => if (now <=? deadline)%Z then (DlParked, t) else (DlTimedOut, t)
  | DlParked =>
      match lock t with
      | Some _ => (DlCheck, set_timeout t)
      | None => (DlCheck, t)
      end
  | DlCheck =>
      match lock t with
      | Some status =>
          match ts_result status with
          | Some result => (dl_outcome result, set_result None t)
          | None => (DlLoop, t)
          end
      | None => (DlLoop, t)
      end
  | _ => (pc, t)
  end.

(** [join_timeout]: the task is given back when the time is over. *)
Definition join_timeout_result (pc : DeadlinePc) (t : Task) : option (result PoolError (T + Task)) :=
  match pc with
  | DlValue v => Some (Ok (inl v))
  | DlTimedOut => Some (Ok (inr t))
  | DlRaised => Some Panic
  | DlFailed => Some (Err FailedToEndTask)
  | _ => None
  end.

(** ** Jobs *)

(** What a poll of the caller's future comes to, unwinding caught. *)
Inductive FuturePoll :=
| PollPending
| PollReady (v : T)
| PollUnwound (payload : string).

(** The caller's code: a closure is called once, a future is polled. *)
Context {F Fut : Type} (call : F -> ThreadResult T) (poll : Waker -> Fut -> Fut * FuturePoll).

Inductive JobExecutionStatus :=
| Yield
| Complete (is_err : bool)
| NoJobToPoll.

Inductive JobPoller :=
| SyncJobPoller (sync_job : option F) (result : option (ThreadResult T))
| AsyncJobPoller (future : Fut) (result : option (ThreadResult T)).

Definition poller_result (p : JobPoller) : option (ThreadResult T) :=
  match p with
  | SyncJobPoller _ r => r
  | AsyncJobPoller _ r => r
  end.

Definition is_panic (r : ThreadResult T) : bool :=
  match r with
  | Returned _ => false
  | Panicked _ => true
  end.

Definition run_job (cx : Waker) (p : JobPoller) : JobPoller * JobExecutionStatus :=
  match p with
  | SyncJobPoller (Some closure) _ =>
      let result := call closure in
      (SyncJobPoller None (Some result), Complete (is_panic result))
  | SyncJobPoller None _ => (p, NoJobToPoll)
  | AsyncJobPoller future r =>
      match poll cx future with
      | (future', PollPending) => (AsyncJobPoller future' r, Yield)
      | (future', PollReady value) =>
          (AsyncJobPoller future' (Some (Returned value)), Complete false)
      | (future', PollUnwound e) =>
          (AsyncJobPoller future' (Some (Panicked e)), Complete true)
      end
  end.

(** [complete] of a poller on the status it shares with the task, and the waker it
    wakes. *)
Definition complete (p : JobPoller) (t : Task) : Task * option Waker :=
  match poller_result p with
  | Some result =>
      match lock t with
      | Some status => (set_result (Some result) t, ts_waker status)
      | None => (t, None)
      end
  | None => (t, None)
  end.

(** A job with its address, the one of its boxed poller. *)
Record Job := mk_Job {
  is_future : bool;
  job_waker : Waker;
  poller : JobPoller;
  job_addr : Z;
}.

Definition from_closure (addr : Z) (closure : F) : Task * Job :=
  (create_pending_task, mk_Job false EmptyWaker (SyncJobPoller (Some closure) None) addr).

Definition from_future (addr : Z) (future : Fut) : Task * Job :=
  (create_pending_task, mk_Job true EmptyWaker (AsyncJobPoller future None) addr).

Definition set_waker (w : Waker) (j : Job) : Job :=
  mk_Job (is_future j) w (poller j) (job_addr j).

Definition job_run (j : Job) : Job * JobExecutionStatus :=
  let '(p, status) := run_job (job_waker j) (poller j) in
  (mk_Job (is_future j) (job_waker j) p (job_addr j), status).
End tasks.
Arguments TaskStatus : clear implicits.
Arguments JoinPc : clear implicits.
Arguments JobPoller : clear implicits.
Arguments Job : clear implicits.

(** ** The hand-over of a result

    One thread runs a job and completes it, another joins its task. The token is the
    one [park] waits for; a park may also return for no reason. *)

Section protocol.
Context {T F Fut : Type} (call : F -> ThreadResult T).
Context (poll : Waker -> Fut -> Fut * @FuturePoll T) (me : nat).

Inductive Runner :=
| Unfinished (j : Job T F Fut)
| Finishing (j : Job T F Fut)
| Consumed (r : ThreadResult T).

Record Handover := mk_Handover {
  ho_task : Mutex (TaskStatus T);
  ho_token : bool;
  ho_joiner : JoinPc T;
  ho_runner : Runner;
}.

Definition wakes_me (w : option Waker) : bool := bool_decide (w = Some (UnparkThread me)).

(** The joiner's next step, when it has one. *)
Definition joiner_step (s : Handover) : Handover :=
  match ho_joiner s with
  | JoinParked =>
      if ho_token s then mk_Handover (ho_task s) false JoinCheck (ho_runner s) else s
  | pc =>
      let '(pc', t) := join_catch_step me pc (ho_task s) in
      mk_Handover t (ho_token s) pc' (ho_runner s)
  end.

Inductive handover_step : Handover -> Handover -> Prop :=
| ho_join s : handover_step s (joiner_step s)
| ho_spurious t token r :
    handover_step (mk_Handover t token JoinParked r) (mk_Handover t token JoinCheck r)
| ho_run t token pc j j' status :
    job_run call poll j = (j', status) ->
    handover_step (mk_Handover t token pc (Unfinished j))
      (mk_Handover t token pc
         match status with Complete _ => Finishing j' | _ => Unfinished j' end)
| ho_complete t token pc j t' w r :
    complete (poller j) t = (t', w) -> poller_result (poller j) = Some r ->
    handover_step (mk_Handover t token pc (Finishing j))
      (mk_Handover t' (token || wakes_me w) pc (Consumed r)).

Definition handover_start (j : Job T F Fut) : Handover :=
  mk_Handover create_pending_task false JoinStart (Unfinished j).

(** A result is in one place: with the runner, in the task, or with the joiner; and
    a parked joiner is known to the task and has its token once the result is there. *)
Definition handed_over (s : Handover) : Prop :=
  poisoned (ho_task s) = false /\
  (ho_joiner s = JoinParked \/ ho_joiner s = JoinCheck ->
     ts_waker (guarded (ho_task s)) = Some (UnparkThread me)) /\
  match ho_runner s with
  | Consumed r =>
      (ts_result (guarded (ho_task s)) = Some r /\
       match ho_joiner s with
       | JoinParked => ho_token s = true
       | JoinDone _ => False
       | _ => True
       end) \/
      (ts_result (guarded (ho_task s)) = None /\ ho_joiner s = JoinDone (Some r))
  | _ => ts_result (guarded (ho_task s)) = None /\ forall r, ho_joiner s <> JoinDone r
  end.

Lemma handed_over_start j : handed_over (handover_start j).
Proof. split_and!; try done. by intros [? | ?]. Qed.

Lemma joiner_step_handed_over s : handed_over s -> handed_over (joiner_step s).
Proof.
  destruct s as [[p [res w tmo]] token pc r]. unfold handed_over, joiner_step; simpl.
  intros (-> & W & R). destruct pc as [| | |o]; simpl.
  - destruct res as [v|]; simpl; (split; [done|]; split; [naive_solver|]);
      destruct r; naive_solver.
  - destruct token; simpl; (split; [done|]; split; [naive_solver|]); destruct r; naive_solver.
  - destruct res as [v|]; simpl; (split; [done|]; split; [naive_solver|]);
      destruct r; naive_solver.
  - split; [done|]. split; [naive_solver|]. destruct r; naive_solver.
Qed.

Lemma handover_step_handed_over s s' : handover_step s s' -> handed_over s -> handed_over s'.
Proof.
  destruct 1 as [s|t token r|t token pc j j' st E|t token pc j t' w r E P].
  - apply joiner_step_handed_over.
  - unfold handed_over; simpl. intros (Po & W & R).
    split; [done|]. split; [naive_solver|]. destruct r; naive_solver.
  - unfold handed_over; simpl. intros (Po & W & R). split_and!; [done|done|by destruct st].
  - unfold handed_over; simpl. intros (Po & W & [R N]).
    unfold complete, lock in E. rewrite P, Po in E. injection E as <- <-. simpl.
    split; [done|]. split; [done|]. left. split; [done|].
    destruct pc; try done; [|by apply (N r0)].
    rewrite W by (by left). unfold wakes_me. rewrite bool_decide_true by done. apply orb_true_r.
Qed.

Lemma reachable_handed_over j s :
  rtc handover_step (handover_start j) s -> handed_over s.
Proof.
  intros R. assert (handed_over (handover_start j)) as H by apply handed_over_start.
  induction R; [done|]. by eauto using handover_step_handed_over.
Qed.

(** C19. No result of a job is lost or made up on its way to the thread that joins its
    task, however the two threads interleave and however often a park returns early:
    a joiner that has returned holds the result of the consumed job, and once a job
    is consumed its joiner returns that result within three steps of its own. *)
Theorem join_gets_result (j : Job T F Fut) (s : Handover) :
  rtc handover_step (handover_start j) s ->
  (forall o, ho_joiner s = JoinDone o -> exists r, o = Some r /\ ho_runner s = Consumed r) /\
  (forall r, ho_runner s = Consumed r ->
     ho_joiner (Nat.iter 3 joiner_step s) = JoinDone (Some r)).
Proof.
  intros (P & W & R)%reachable_handed_over.
  destruct s as [[p [res w tmo]] token pc rn]; simpl in *. subst p. split.
  - intros o ->. destruct rn as [| |r]; [by destruct (proj2 R o)..|].
    exists r. destruct R as [[_ []]|[_ [= <-]]]. done.
  - intros r ->. destruct R as [[-> J]|[-> ->]]; [|done].
    destruct pc; simpl in *; subst; done.
Qed.
End protocol.

(** ** Deadlines *)

Section deadlines.
Context {T : Type} (me : nat) (deadline : Z).

Definition dl_final (pc : @DeadlinePc T) : bool :=
  match pc with
  | DlStart | DlLoop | DlParked | DlCheck => false
  | _ => true
  end.

Definition dl_steps (n : nat) (now : Z) (s : @DeadlinePc T * Mutex (TaskStatus T)) :=
  Nat.iter n (fun s => join_deadline_step me deadline now s.1 s.2) s.

(** Past the deadline a joiner returns, whatever the state of the task. *)
Lemma deadline_expires (now : Z) (pc : DeadlinePc) (t : Mutex (TaskStatus T)) :
  (deadline < now)%Z -> dl_final (dl_steps 3 now (pc, t)).1 = true.
Proof.
  intros L. assert ((now <=? deadline)%Z = false) as E by (apply Z.leb_gt; lia).
  destruct t as [p [res w tmo]]. unfold dl_steps. simpl.
  destruct pc, p, res as [[]|]; simpl; rewrite ?E; simpl; rewrite ?E; done.
Qed.

(** A task given back because its time was over before the first wait does not say
    that a timeout occurred. *)
Lemma expired_not_reported (now : Z) :
  (deadline < now)%Z ->
  let '(pc, t) := dl_steps 2 now (DlStart, create_pending_task) in
  pc = DlTimedOut /\ has_timeout_occurred t = false.
Proof.
  intros L. unfold dl_steps. simpl. by rewrite (proj2 (Z.leb_gt _ _) L).
Qed.
End deadlines.

(** A closure that returns 7, run and completed while its joiner is parked. *)
Lemma join_gets_result_witness : exists s,
  ho_runner s = Consumed (Returned 7%Z) /\
  ho_joiner (Nat.iter 3 (joiner_step 0) s) = JoinDone (Some (Returned 7%Z)) /\
  rtc (handover_step (fun r => r) (fun _ f => (f, PollPending)) 0)
    (handover_start (from_closure (Fut := unit) 1 (Returned 7%Z)).2) s.
Proof.
  eexists. assert (R : rtc (handover_step (fun r => r) (fun _ f => (f, PollPending)) 0)
    (handover_start (from_closure (Fut := unit) 1 (Returned 7%Z)).2)
    (mk_Handover (mk_Mutex false (mk_TaskStatus (Some (Returned 7%Z)) (Some (UnparkThread 0)) false))
       true JoinParked (Consumed (Returned 7%Z)))).
  { eapply rtc_l; [apply ho_join|]. eapply rtc_l; [by eapply ho_run|].
    eapply rtc_l; [by eapply ho_complete|]. apply rtc_refl. }
  split; [|split]; [| |exact R]; [reflexivity|].
  exact (proj2 (join_gets_result _ _ _ _ _ R) _ eq_refl).
Defined.
