(* ===== verification/JobPool.v ===== *)
(** * The job pool: [crates/consensus/job_pool/src]

    [pool.rs], [worker.rs] and [builder.rs]: a queue of jobs, worker threads that are
    spawned up to a maximum and leave when idle, and the counters they share. The
    operations are functions; their interleaving is a labelled step relation. A step of
    a worker makes at most one access to a counter or to the queue of completion times,
    or takes one job; a section under the lock of the count of workers is one step. *)

From S2P Require Import Prelude JobTask.

(** ** The shared state *)

Record State := mk_State {
  min_jobs : Z;
  max_jobs : Z;
  jobs_count : Z;
  running_jobs_count : Z;
  keep_alive : Z;
  no_of_task_time_to_track : Z;
  tasks_completion_time : list Z;
}.

Definition with_jobs_count (n : Z) (s : State) : State :=
  mk_State (min_jobs s) (max_jobs s) n (running_jobs_count s) (keep_alive s)
    (no_of_task_time_to_track s) (tasks_completion_time s).

Definition with_running (n : Z) (s : State) : State :=
  mk_State (min_jobs s) (max_jobs s) (jobs_count s) n (keep_alive s)
    (no_of_task_time_to_track s) (tasks_completion_time s).

Definition with_times (l : list Z) (s : State) : State :=
  mk_State (min_jobs s) (max_jobs s) (jobs_count s) (running_jobs_count s) (keep_alive s)
    (no_of_task_time_to_track s) l.

(** The listener of a worker. [fetch_add] and [fetch_sub] wrap around. *)
Definition on_job_started (s : State) : State :=
  with_running (wrap Usize (running_jobs_count s + 1)) s.

(** Where a worker is in [on_job_finished], for a job that took [d]. The counter and the
    queue of times are shared, and there is no lock: the length is read twice, [n] times
    are still to be popped, and then one is pushed. *)
Inductive ReportPc :=
| RpDecrement (d : Z) (is_async is_error : bool)
| RpTest (d : Z)
| RpTruncate (d : Z)
| RpPop (n : nat) (d : Z)
| RpDone.

(** One access. Popping from the empty queue does nothing. *)
Definition on_job_finished (pc : ReportPc) (s : State) : ReportPc * State :=
  let len := Z.of_nat (length (tasks_completion_time s)) in
  match pc with
  | RpDecrement d is_async is_error =>
      (if negb is_async && negb is_error then RpTest d else RpDone,
       with_running (wrap Usize (running_jobs_count s - 1)) s)
  | RpTest d => (if (no_of_task_time_to_track s <? len)%Z then RpTruncate d else RpPop 0 d, s)
  | RpTruncate d => (RpPop (Z.to_nat (len - no_of_task_time_to_track s)) d, s)
  | RpPop (S n) d => (RpPop n d, with_times (tail (tasks_completion_time s)) s)
  | RpPop 0 d => (RpDone, with_times (tasks_completion_time s ++ [d]) s)
  | RpDone => (RpDone, s)
  end.

Definition on_idle (s : State) : bool := (min_jobs s <? jobs_count s)%Z.

(** [Drop for WorkerListener]. *)
Definition listener_drop (s : State) : State := with_jobs_count (Z.max 0 (jobs_count s - 1)) s.

(** ** Building a pool *)

Record PoolBuilder := mk_PoolBuilder {
  pb_size : option (Z * Z);
  pb_stack_size : option Z;
  pb_job_queue_size : option Z;
  pb_concurrent_jobs_limit : Z;
  pb_keep_alive : Z;
  pb_no_completed_tasks_to_track : Z;
}.

Definition PoolBuilder_default : PoolBuilder :=
  mk_PoolBuilder (Some (2, 4))%Z (Some (2 * 1024 * 1024)%Z) (Some 10000%Z) 10 120 0.

Definition with_workers_capacity (min_workers max_workers : Z) : result PoolError PoolBuilder :=
  if (max_workers <? min_workers)%Z then
    Err (InvalidPoolWorkerConfig "Job pool minimum size cannot be larger than maximum size")
  else if (max_workers =? 0)%Z then
    Err (InvalidPoolWorkerConfig "Job pool maximum size must be greater than zero")
  else Ok (mk_PoolBuilder (Some (min_workers, max_workers)) None None 16 60 100).

Definition pb_with_stack_size (size : Z) (b : PoolBuilder) : PoolBuilder :=
  mk_PoolBuilder (pb_size b) (Some size) (pb_job_queue_size b) (pb_concurrent_jobs_limit b)
    (pb_keep_alive b) (pb_no_completed_tasks_to_track b).

Definition pb_with_job_queue_size (limit : Z) (b : PoolBuilder) : PoolBuilder :=
  mk_PoolBuilder (pb_size b) (pb_stack_size b) (Some limit) (pb_concurrent_jobs_limit b)
    (pb_keep_alive b) (pb_no_completed_tasks_to_track b).

Definition pb_with_keep_alive (duration : Z) (b : PoolBuilder) : PoolBuilder :=
  mk_PoolBuilder (pb_size b) (pb_stack_size b) (pb_job_queue_size b) (pb_concurrent_jobs_limit b)
    duration (pb_no_completed_tasks_to_track b).

Definition pb_with_concurrent_jobs_limit (limit : Z) (b : PoolBuilder) : PoolBuilder :=
  mk_PoolBuilder (pb_size b) (pb_stack_size b) (pb_job_queue_size b) limit (pb_keep_alive b)
    (pb_no_completed_tasks_to_track b).

Definition pb_with_no_completed_tasks_to_track (num : Z) (b : PoolBuilder) : PoolBuilder :=
  mk_PoolBuilder (pb_size b) (pb_stack_size b) (pb_job_queue_size b) (pb_concurrent_jobs_limit b)
    (pb_keep_alive b) num.

Section pool.
Context {T F Fut : Type} (call : F -> ThreadResult T).
Context (poll : Waker -> Fut -> Fut * @FuturePoll T).

Abbreviation job := (Job T F Fut).

(** ** Workers *)

Record Worker := mk_Worker {
  wk_keep_alive : Z;
  wk_concurrency_limit : Z;
  initial_job : option job;
  pending_jobs : gmap Z job;
  notifications : list Z;
  active : bool;
}.

Definition Worker_new (initial_task : option job) (limit alive : Z) : Worker :=
  mk_Worker alive limit initial_task ∅ [] false.

Definition with_pending (m : gmap Z job) (w : Worker) : Worker :=
  mk_Worker (wk_keep_alive w) (wk_concurrency_limit w) (initial_job w) m (notifications w)
    (active w).

Definition with_notifications (l : list Z) (w : Worker) : Worker :=
  mk_Worker (wk_keep_alive w) (wk_concurrency_limit w) (initial_job w) (pending_jobs w) l
    (active w).

Definition with_active (b : bool) (w : Worker) : Worker :=
  mk_Worker (wk_keep_alive w) (wk_concurrency_limit w) (initial_job w) (pending_jobs w)
    (notifications w) b.

(** Where a worker's thread is. A job it resumes stays among the pending ones. *)
Inductive WorkerPc :=
| WkStart
| WkPoll
| WkReceived (j : job)
| WkRunning (j : job)
| WkReporting (j : job) (pc : ReportPc)
| WkResuming (id : Z)
| WkIdle
| WkExiting.

Record Thread := mk_Thread {
  th_worker : Worker;
  th_pc : WorkerPc;
}.

Inductive PollingStatus :=
| New (j : job)
| Unpark (id : Z)
| Timeout
| ShutDown
| Busy.

(** What the select of [poll_work] came to: a receive, which fails on a closed
    channel, or nothing in time. *)
Inductive Selected :=
| SelQueue (r : option job)
| SelImmediate (r : option job)
| SelPending (r : option Z)
| SelTimeout.

(** Whether the worker listens to the two queues. *)
Definition polls_new (w : Worker) : bool :=
  active w && (Z.of_nat (size (pending_jobs w)) <? wk_concurrency_limit w)%Z.

Definition polls_pending (w : Worker) : bool := bool_decide (pending_jobs w <> ∅).

Definition poll_work (sel : Selected) : PollingStatus :=
  match sel with
  | SelQueue (Some j) | SelImmediate (Some j) => New j
  | SelQueue None | SelImmediate None => ShutDown
  | SelPending (Some id) => Unpark id
  | SelPending None => Busy
  | SelTimeout => Timeout
  end.

(** [Worker::execute_job]: up to the count of running jobs, the count, the run of the job,
    and the report of its end with [Job::complete] as the last step. *)
Definition execute_begin (j : job) (w : Worker) : Thread :=
  mk_Thread w (WkReceived (if is_future j then set_waker (NotifyWorker (job_addr j)) j else j)).

Definition execute_started (j : job) (w : Worker) (s : State) : Thread * State :=
  (mk_Thread w (WkRunning j), on_job_started s).

Definition execute_end (elapsed : Z) (j : job) (w : Worker) : Thread :=
  let '(j', status) := job_run call poll j in
  match status with
  | Complete is_err => mk_Thread w (WkReporting j' (RpDecrement elapsed (is_future j') is_err))
  | _ => mk_Thread (with_pending (<[job_addr j' := j']> (pending_jobs w)) w) WkPoll
  end.

Definition execute_report (j : job) (pc : ReportPc) (w : Worker) (s : State)
    : Thread * State * option job :=
  match pc with
  | RpDone => (mk_Thread w WkPoll, s, Some j)
  | _ => let '(pc', s') := on_job_finished pc s in (mk_Thread w (WkReporting j pc'), s', None)
  end.

(** [Worker::finish_pending_job], with the job it completes. *)
Definition finish_pending_job (id : Z) (w : Worker) : Worker * option job :=
  match pending_jobs w !! id with
  | Some j =>
      let '(j', status) := job_run call poll j in
      match status with
      | Complete _ => (with_pending (delete id (pending_jobs w)) w, Some j')
      | _ => (with_pending (<[id := j']> (pending_jobs w)) w, None)
      end
  | None => (w, None)
  end.

(** [Worker::run_job]: the entry, the test of its loop and the body, in which an idle
    worker looks at the count of workers. *)
Definition worker_start (w : Worker) : Thread :=
  let w' := mk_Worker (wk_keep_alive w) (wk_concurrency_limit w) None (pending_jobs w)
              (notifications w) true in
  match initial_job w with
  | Some j => execute_begin j w'
  | None => mk_Thread w' WkPoll
  end.

Definition keeps_running (w : Worker) : bool :=
  active w || negb (bool_decide (pending_jobs w = ∅)).

Definition worker_body (status : PollingStatus) (w : Worker) : Thread :=
  match status with
  | New j => execute_begin j w
  | Unpark id => mk_Thread w (WkResuming id)
  | ShutDown => mk_Thread (with_active false w) WkPoll
  | Timeout => mk_Thread w (if bool_decide (pending_jobs w = ∅) then WkIdle else WkPoll)
  | Busy => mk_Thread w WkPoll
  end.

Definition worker_idle (w : Worker) (s : State) : Thread :=
  mk_Thread (if on_idle s then with_active false w else w) WkPoll.

(** ** The pool *)

(** A caller of [join] or [join_timeout], which consume the pool. *)
Inductive PoolJoin :=
| NotJoined
| Joining (deadline : option Z)
| Joined (deadline : option Z) (complete : bool).

Record JobPool := mk_JobPool {
  jp_name : string;
  jp_stack_size : option Z;
  jp_concurrency_limit : Z;
  jp_queue_size : option Z;
  jp_waiting : list job;
  jp_open : bool;
  (* jobs whose submitter waits for room in the queue *)
  jp_blocked : list job;
  jp_state : State;
  jp_threads : list Thread;
  jp_join : PoolJoin;
}.

Definition jp_with (waiting blocked : list job) (s : State) (threads : list Thread) (p : JobPool)
    : JobPool :=
  mk_JobPool (jp_name p) (jp_stack_size p) (jp_concurrency_limit p) (jp_queue_size p) waiting
    (jp_open p) blocked s threads (jp_join p).

Definition jp_joining (pj : PoolJoin) (p : JobPool) : JobPool :=
  mk_JobPool (jp_name p) (jp_stack_size p) (jp_concurrency_limit p) (jp_queue_size p)
    (jp_waiting p) false (jp_blocked p) (jp_state p) (jp_threads p) pj.

Definition jobs (p : JobPool) : Z := jobs_count (jp_state p).
Definition queued_tasks (p : JobPool) : Z := Z.of_nat (length (jp_waiting p)).
Definition running_tasks (p : JobPool) : Z := running_jobs_count (jp_state p).

(** The section of [spawn_job] under the lock, for whether the thread can be created. A
    worker whose thread cannot be is dropped, its job with it, and leaves as others do. *)
Definition spawn_begin (created : bool) (task : option job) (p : JobPool)
    : JobPool * result (option job) unit :=
  let s := jp_state p in
  if (max_jobs s <=? jobs_count s)%Z then (p, Err task)
  else
    let worker := Worker_new (if created then task else None) (jp_concurrency_limit p)
                    (keep_alive s) in
    (jp_with (jp_waiting p) (jp_blocked p) (with_jobs_count (jobs_count s + 1) s)
       (jp_threads p ++ [mk_Thread worker (if created then WkStart else WkExiting)]) p, Ok tt).

(** Without interruption. *)
Definition spawn_job (created : bool) (task : option job) (p : JobPool)
    : JobPool * result (option job) unit :=
  match spawn_begin created task p with
  | (p', Ok _) =>
      (if created then p'
       else jp_with (jp_waiting p) (jp_blocked p) (listener_drop (jp_state p')) (jp_threads p) p,
       Ok tt)
  | (p', r) => (p', r)
  end.

Definition has_room (p : JobPool) : bool :=
  match jp_queue_size p with
  | Some limit => (queued_tasks p <? limit)%Z
  | None => true
  end.

(** [JobPool::execute_job] after its hand-off to an idle worker and its spawn failed:
    the job is queued, or its submitter blocks. *)
Definition queue_job (j : job) (p : JobPool) : JobPool :=
  if has_room p
  then jp_with (jp_waiting p ++ [j]) (jp_blocked p) (jp_state p) (jp_threads p) p
  else jp_with (jp_waiting p) (jp_blocked p ++ [j]) (jp_state p) (jp_threads p) p.

(** Handing a job to the thread at [i], when it listens. *)
Definition hand_off (i : nat) (j : job) (p : JobPool) : option JobPool :=
  match jp_threads p !! i with
  | Some (mk_Thread w WkPoll) =>
      if polls_new w then
        let t := worker_body (poll_work (SelImmediate (Some j))) w in
        Some (jp_with (jp_waiting p) (jp_blocked p) (jp_state p) (<[i := t]> (jp_threads p)) p)
      else None
  | _ => None
  end.

(** [try_execute_job] and [execute_job] without interruption, for the worker that
    happens to listen. *)
Definition execute_job (idle : option nat) (created : bool) (j : job) (p : JobPool) : JobPool :=
  match idle ≫= fun i => hand_off i j p with
  | Some p' => p'
  | None =>
      match spawn_job created (Some j) p with
      | (p', Err _) => queue_job j p'
      | (p', _) => p'
      end
  end.

Definition run_sync_job (addr : Z) (closure : F) (idle : option nat) (created : bool)
    (p : JobPool) : JobPool * Mutex (TaskStatus T) :=
  let '(task, j) := from_closure addr closure in (execute_job idle created j p, task).

Definition run_async_job (addr : Z) (future : Fut) (idle : option nat) (created : bool)
    (p : JobPool) : JobPool * Mutex (TaskStatus T) :=
  let '(task, j) := from_future addr future in (execute_job idle created j p, task).

(** What the workers' notification does to a caller of [join_deadline]: without a
    deadline it returns, with one it looks at the count again. *)
Definition notified (count : Z) (pj : PoolJoin) : PoolJoin :=
  match pj with
  | Joining None => Joined None true
  | Joining (Some d) => if (0 <? count)%Z then Joining (Some d) else Joined (Some d) true
  | _ => pj
  end.

Definition join_deadline (deadline : option Z) (p : JobPool) : JobPool :=
  jp_joining
    match deadline with
    | None => Joining None
    | Some d => if (0 <? jobs p)%Z then Joining (Some d) else Joined (Some d) true
    end p.

(** The minimum of workers is spawned at once. *)
Fixpoint spawn_minimum (created : nat -> bool) (n : nat) (p : JobPool) : JobPool :=
  match n with
  | O => p
  | S n' => spawn_minimum created n' (spawn_job (created n') None p).1
  end.

Definition empty_pool (name : string) (b : PoolBuilder) : JobPool :=
  let size := default (1, 4)%Z (pb_size b) in
  mk_JobPool name (pb_stack_size b) (pb_concurrent_jobs_limit b) (pb_job_queue_size b) [] true []
    (mk_State size.1 size.2 0 0 (pb_keep_alive b) (pb_no_completed_tasks_to_track b) []) []
    NotJoined.

Definition pool_build (name : string) (created : nat -> bool) (b : PoolBuilder) : JobPool :=
  spawn_minimum created (Z.to_nat (default (1, 4)%Z (pb_size b)).1) (empty_pool name b).
End pool.
Arguments Worker : clear implicits.
Arguments WorkerPc : clear implicits.
Arguments Thread : clear implicits.
Arguments JobPool : clear implicits.

(** ** Interleavings *)

(** What happens to jobs, by their addresses. A job is late when it finishes after
    it was pending. *)
Inductive pool_event :=
| Submitted (a : Z)
| Finished (a : Z)
| FinishedLate (a : Z)
| Dropped (a : Z).

Section steps.
Context {T F Fut : Type} (call : F -> ThreadResult T).
Context (poll : Waker -> Fut -> Fut * @FuturePoll T).

Abbreviation job := (Job T F Fut).
Abbreviation thread := (Thread T F Fut).
Abbreviation pool := (JobPool T F Fut).

Definition keys (m : gmap Z job) : list Z := (map_to_list m).*1.

(** The job a worker executes. *)
Definition pc_job (pc : WorkerPc T F Fut) : option job :=
  match pc with
  | WkReceived j | WkRunning j | WkReporting j _ => Some j
  | _ => None
  end.

(** The addresses of the jobs a thread holds, and of all that are in the pool. *)
Definition thread_addrs (t : thread) : list Z :=
  (job_addr <$> option_list (initial_job (th_worker t))) ++
  (job_addr <$> option_list (pc_job (th_pc t))) ++
  keys (pending_jobs (th_worker t)).

Definition live (p : pool) : list Z :=
  (job_addr <$> jp_waiting p) ++ (job_addr <$> jp_blocked p) ++ (jp_threads p ≫= thread_addrs).

(** Nobody holds the pool itself any more. *)
Definition gone (p : pool) : bool :=
  negb (jp_open p) && match jp_join p with Joining _ => false | _ => true end.

(** A step of one thread on the queue and the shared state, for whether the queue and
    the channel to idle workers are open. A timeout needs that nothing it listens to is
    ready; of several channels that are, the select takes any. *)
Inductive worker_step (open : bool) (immediate : bool)
    : list job * thread * State -> list pool_event -> list job * thread * State -> Prop :=
| ws_start q w s :
    worker_step open immediate (q, mk_Thread w WkStart, s) [] (q, worker_start w, s)
| ws_leave q w s :
    keeps_running w = false ->
    worker_step open immediate (q, mk_Thread w WkPoll, s) [] (q, mk_Thread w WkExiting, s)
| ws_queue j q w s :
    polls_new w = true ->
    worker_step open immediate (j :: q, mk_Thread w WkPoll, s) []
      (q, worker_body (poll_work (SelQueue (Some j))) w, s)
| ws_closed w s :
    polls_new w = true -> open = false ->
    worker_step open immediate ([], mk_Thread w WkPoll, s) []
      ([], worker_body (poll_work (SelQueue None)) w, s)
| ws_gone q w s :
    polls_new w = true -> immediate = false ->
    worker_step open immediate (q, mk_Thread w WkPoll, s) []
      (q, worker_body (poll_work (SelImmediate None)) w, s)
| ws_woken id l q w s :
    polls_pending w = true -> notifications w = id :: l ->
    worker_step open immediate (q, mk_Thread w WkPoll, s) []
      (q, worker_body (poll_work (SelPending (Some id))) (with_notifications l w), s)
| ws_timeout q w s :
    keeps_running w = true -> (polls_new w = true -> q = [] /\ open = true) ->
    (polls_pending w = true -> notifications w = []) ->
    worker_step open immediate (q, mk_Thread w WkPoll, s) []
      (q, worker_body (poll_work SelTimeout) w, s)
| ws_idle q w s :
    worker_step open immediate (q, mk_Thread w WkIdle, s) [] (q, worker_idle w s, s)
| ws_begin q w j s t s' :
    execute_started j w s = (t, s') ->
    worker_step open immediate (q, mk_Thread w (WkReceived j), s) [] (q, t, s')
| ws_end q w j s elapsed :
    worker_step open immediate (q, mk_Thread w (WkRunning j), s) []
      (q, execute_end call poll elapsed j w, s)
| ws_report q w j pc s t s' done :
    execute_report j pc w s = (t, s', done) ->
    worker_step open immediate (q, mk_Thread w (WkReporting j pc), s)
      ((Finished ∘ job_addr) <$> option_list done) (q, t, s')
| ws_resumed q w id s w' done :
    finish_pending_job call poll id w = (w', done) ->
    worker_step open immediate (q, mk_Thread w (WkResuming id), s)
      ((fun _ => FinishedLate id) <$> option_list done) (q, mk_Thread w' WkPoll, s)
| ws_notify a q w pc s :
    worker_step open immediate (q, mk_Thread w pc, s) []
      (q, mk_Thread (with_notifications (notifications w ++ [a]) w) pc, s).

(** A submission tries a listening worker, then a new one, then waits for room in the
    queue. Boxes that live at the same time have different addresses. The queue is
    dropped, with what is in it, when neither the pool nor a worker holds it. *)
Inductive pool_step : pool -> list pool_event -> pool -> Prop :=
| ps_hand_off i j p p' :
    jp_open p = true -> job_addr j ∉ live p -> hand_off i j p = Some p' ->
    pool_step p [Submitted (job_addr j)] p'
| ps_spawn created j p p' :
    jp_open p = true -> job_addr j ∉ live p -> spawn_begin created (Some j) p = (p', Ok tt) ->
    pool_step p (Submitted (job_addr j) :: if created then [] else [Dropped (job_addr j)]) p'
| ps_refused created j p e :
    jp_open p = true -> job_addr j ∉ live p -> spawn_begin created (Some j) p = (p, Err e) ->
    pool_step p [Submitted (job_addr j)]
      (jp_with (jp_waiting p) (jp_blocked p ++ [j]) (jp_state p) (jp_threads p) p)
| ps_queued j l1 l2 p :
    jp_blocked p = l1 ++ j :: l2 -> has_room p = true ->
    pool_step p [] (jp_with (jp_waiting p ++ [j]) (l1 ++ l2) (jp_state p) (jp_threads p) p)
| ps_rendezvous i j l1 l2 p p' :
    jp_blocked p = l1 ++ j :: l2 -> jp_queue_size p = Some 0%Z ->
    hand_off i j (jp_with (jp_waiting p) (l1 ++ l2) (jp_state p) (jp_threads p) p) = Some p' ->
    pool_step p [] p'
| ps_worker l1 l2 t p evs q' t' s' :
    jp_threads p = l1 ++ t :: l2 ->
    worker_step (jp_open p) (negb (gone p)) (jp_waiting p, t, jp_state p) evs (q', t', s') ->
    pool_step p evs (jp_with q' (jp_blocked p) s' (l1 ++ t' :: l2) p)
| ps_exit l1 l2 w p :
    jp_threads p = l1 ++ mk_Thread w WkExiting :: l2 ->
    let s := listener_drop (jp_state p) in
    pool_step p []
      (mk_JobPool (jp_name p) (jp_stack_size p) (jp_concurrency_limit p) (jp_queue_size p)
         (jp_waiting p) (jp_open p) (jp_blocked p) s (l1 ++ l2)
         (notified (jobs_count s) (jp_join p)))
| ps_join deadline p :
    jp_open p = true -> jp_blocked p = [] -> pool_step p [] (join_deadline deadline p)
| ps_drop p : jp_open p = true -> jp_blocked p = [] -> pool_step p [] (jp_joining NotJoined p)
| ps_discard p :
    gone p = true -> jp_threads p = [] ->
    pool_step p ((Dropped ∘ job_addr) <$> jp_waiting p)
      (jp_with [] (jp_blocked p) (jp_state p) [] p)
| ps_spurious p :
    jp_open p = false -> pool_step p [] (jp_joining (notified (jobs p) (jp_join p)) p)
| ps_out_of_time d p :
    jp_join p = Joining (Some d) -> pool_step p [] (jp_joining (Joined (Some d) false) p).

(** Runs of a pool, with what happened so far. *)
Inductive pool_run (p0 : pool) : list pool_event -> pool -> Prop :=
| run_nil : pool_run p0 [] p0
| run_snoc evs evs' p p' :
    pool_run p0 evs p -> pool_step p evs' p' -> pool_run p0 (evs ++ evs') p'.

(** ** Counting *)

Definition occ (a : Z) (l : list Z) : nat := count_occ Z.eq_dec l a.
#[local] Arguments occ : simpl never.

Lemma occ_app a l1 l2 : occ a (l1 ++ l2) = occ a l1 + occ a l2.
Proof. apply count_occ_app. Qed.

Lemma occ_cons a x l : occ a (x :: l) = occ a [x] + occ a l.
Proof. apply (count_occ_app Z.eq_dec [x] l). Qed.

Lemma occ_nil a : occ a [] = 0.
Proof. done. Qed.

Lemma occ_self a : occ a [a] = 1.
Proof. unfold occ. by rewrite count_occ_cons_eq. Qed.

Lemma occ_other a b : a <> b -> occ a [b] = 0.
Proof. intros N. unfold occ. by rewrite count_occ_cons_neq. Qed.

Lemma occ_jobs_nil a : occ a (job_addr <$> ([] : list job)) = 0.
Proof. done. Qed.

Lemma occ_jobs_cons a (j : job) l :
  occ a (job_addr <$> j :: l) = occ a [job_addr j] + occ a (job_addr <$> l).
Proof. apply (occ_cons a (job_addr j)). Qed.

Lemma occ_zero a l : a ∉ l -> occ a l = 0.
Proof. rewrite list_elem_of_In. apply count_occ_not_In. Qed.

Lemma occ_keys a (m : gmap Z job) : occ a (keys m) = if decide (is_Some (m !! a)) then 1 else 0.
Proof.
  unfold keys. case_decide as D.
  - apply NoDup_count_occ'; [by rewrite <-NoDup_ListNoDup; apply NoDup_fst_map_to_list|].
    destruct D as [j E%elem_of_map_to_list]. apply list_elem_of_In.
    by apply (list_elem_of_fmap_2 fst) in E.
  - apply occ_zero. intros ([k j] & -> & E%elem_of_map_to_list)%list_elem_of_fmap_1.
    apply D. by exists j.
Qed.

(** The addresses in a run: submitted, finished in time, finished late, dropped. *)
Definition submitted (evs : list pool_event) : list Z :=
  omap (fun e => match e with Submitted a => Some a | _ => None end) evs.
Definition finished (evs : list pool_event) : list Z :=
  omap (fun e => match e with Finished a | FinishedLate a => Some a | _ => None end) evs.
Definition finished_late (evs : list pool_event) : list Z :=
  omap (fun e => match e with FinishedLate a => Some a | _ => None end) evs.
Definition dropped (evs : list pool_event) : list Z :=
  omap (fun e => match e with Dropped a => Some a | _ => None end) evs.

(** Jobs a thread counts as running: the one it runs, until its report has lowered the
    count, and those it has pending. *)
Definition load (t : thread) : nat :=
  match th_pc t with
  | WkRunning _ | WkReporting _ (RpDecrement _ _ _) => 1
  | _ => 0
  end + size (pending_jobs (th_worker t)).

(** Whether a thread is about to push a completion time. *)
Definition pushing (t : thread) : nat :=
  match th_pc t with WkReporting _ (RpPop 0 _) => 1 | _ => 0 end.

Lemma wrap_usize z : wrap Usize z = (z mod 2 ^ 64)%Z.
Proof. done. Qed.

Lemma wrap_started n s :
  running_jobs_count s = wrap Usize n ->
  running_jobs_count (on_job_started s) = wrap Usize (n + 1).
Proof. simpl. intros ->. rewrite !wrap_usize. apply Zplus_mod_idemp_l. Qed.

Lemma wrap_finished n s :
  running_jobs_count s = wrap Usize n ->
  wrap Usize (running_jobs_count s - 1) = wrap Usize (n - 1).
Proof. intros ->. rewrite !wrap_usize. apply Zminus_mod_idemp_l. Qed.

Lemma job_run_addr j j' st : job_run call poll j = (j', st) -> job_addr j' = job_addr j.
Proof. unfold job_run. destruct (run_job _ _ _ _). by intros [= <- _]. Qed.

Lemma execute_begin_spec (j : job) w :
  exists j', execute_begin j w = mk_Thread w (WkReceived j') /\ job_addr j' = job_addr j.
Proof. unfold execute_begin. eexists. split; [done|]. by destruct (is_future j). Qed.

(** A worker past its start has taken its first job, and one that leaves has none. *)
Definition thread_wf (t : thread) : Prop :=
  (th_pc t <> WkStart -> initial_job (th_worker t) = None) /\
  (th_pc t = WkStart \/ th_pc t = WkExiting -> pending_jobs (th_worker t) = ∅).

(** What a step of a thread leaves alone. *)
Definition same_limits (s s' : State) : Prop :=
  jobs_count s' = jobs_count s /\ max_jobs s' = max_jobs s /\ min_jobs s' = min_jobs s /\
  no_of_task_time_to_track s' = no_of_task_time_to_track s.

Lemma same_limits_finished pc s : same_limits s (on_job_finished pc s).2.
Proof. by destruct pc as [d [] []|d|d|[] d|]. Qed.

(** The account of one step of a thread: how the counter of running jobs follows the
    load, and where the jobs go. *)
Definition accounted (n : Z) (c : list job * thread * State) (evs : list pool_event)
    (c' : list job * thread * State) : Prop :=
  let '(q, t, s) := c in
  let '(q', t', s') := c' in
  thread_wf t' /\ same_limits s s' /\
  running_jobs_count s' =
    wrap Usize (n + Z.of_nat (load t') + Z.of_nat (length (finished_late evs)) - Z.of_nat (load t))
  /\
  (forall a, occ a (job_addr <$> q) + occ a (thread_addrs t) =
     occ a (job_addr <$> q') + occ a (thread_addrs t') + occ a (finished evs)) /\
  submitted evs = [] /\ dropped evs = [].

(** A step that leaves the counters alone. *)
Lemma accounted_same n q q' t t' s evs :
  running_jobs_count s = wrap Usize n -> thread_wf t' ->
  load t' + length (finished_late evs) = load t ->
  (forall a, occ a (job_addr <$> q) + occ a (thread_addrs t) =
     occ a (job_addr <$> q') + occ a (thread_addrs t') + occ a (finished evs)) ->
  submitted evs = [] -> dropped evs = [] ->
  accounted n (q, t, s) evs (q', t', s).
Proof. intros R Wf L O Su D. split_and!; try done. rewrite R. f_equal. lia. Qed.

Lemma accounted_begin n q q' w pc (j : job) s :
  running_jobs_count s = wrap Usize n -> initial_job w = None ->
  pc_job pc = None -> load (mk_Thread w pc) = size (pending_jobs w) ->
  (forall a, occ a (job_addr <$> q) = occ a [job_addr j] + occ a (job_addr <$> q')) ->
  accounted n (q, mk_Thread w pc, s) [] (q', execute_begin j w, s).
Proof.
  intros R I P Lo Q. destruct (execute_begin_spec j w) as (j' & -> & Ea).
  apply accounted_same; [done| | | |done|done].
  - by split; [|intros [|]].
  - rewrite Lo. unfold load. simpl. lia.
  - intros a. unfold thread_addrs. simpl. rewrite I, P, Q, Ea. simpl.
    rewrite (occ_cons a (job_addr j) (keys (pending_jobs w))), occ_nil. lia.
Qed.

(** A step that moves no job. *)
Lemma accounted_idle n q w w' pc pc' s :
  running_jobs_count s = wrap Usize n ->
  initial_job w' = initial_job w -> pending_jobs w' = pending_jobs w ->
  pc_job pc' = pc_job pc -> load (mk_Thread w' pc') = load (mk_Thread w pc) ->
  thread_wf (mk_Thread w' pc') ->
  accounted n (q, mk_Thread w pc, s) [] (q, mk_Thread w' pc', s).
Proof.
  intros R I P J Lo Wf. apply accounted_same; [done|done| | |done|done].
  - rewrite Lo. simpl. lia.
  - intros a. unfold thread_addrs. simpl. rewrite I, P, J, occ_nil. lia.
Qed.

Lemma accounted_started n q w (j : job) t s s' :
  running_jobs_count s = wrap Usize n -> initial_job w = None ->
  execute_started j w s = (t, s') ->
  accounted n (q, mk_Thread w (WkReceived j), s) [] (q, t, s').
Proof.
  intros R I [= <- <-]. split; [by split; [|intros [|]]|]. split; [done|]. split; [|split; [|done]].
  - etrans; [by apply (wrap_started n)|]. f_equal. unfold load. simpl. lia.
  - intros a. unfold thread_addrs. simpl. rewrite occ_nil. lia.
Qed.

Lemma accounted_end n q w (j : job) s elapsed :
  running_jobs_count s = wrap Usize n -> initial_job w = None ->
  pending_jobs w !! job_addr j = None ->
  accounted n (q, mk_Thread w (WkRunning j), s) [] (q, execute_end call poll elapsed j w, s).
Proof.
  intros R I P. unfold execute_end. destruct (job_run call poll j) as [j' st] eqn:E.
  apply job_run_addr in E. assert (forall b, thread_wf (mk_Thread (with_pending b w) WkPoll)) as Wf.
  { intros b. by split; [|intros [|]]. }
  destruct st as [|is_err|].
  2: { apply accounted_same; [done|by split; [|intros [|]]|unfold load; simpl; lia| |done|done].
    intros a. unfold thread_addrs. simpl. rewrite I, E, occ_nil. lia. }
  all: apply accounted_same;
    [done|apply Wf|unfold load; simpl; rewrite E, map_size_insert_None by done; lia| |done|done].
  all: intros a; unfold thread_addrs; simpl; rewrite I, E; simpl;
    rewrite (occ_cons a (job_addr j) (keys _)), !occ_keys, occ_nil;
    destruct (decide (a = job_addr j)) as [->|Na];
    [rewrite lookup_insert_eq, P, occ_self, decide_False, decide_True by (done || by intros []); lia
    |rewrite lookup_insert_ne, (occ_other a) by done; lia].
Qed.

Lemma accounted_report n q w (j : job) pc s t s' fin :
  running_jobs_count s = wrap Usize n -> initial_job w = None ->
  execute_report j pc w s = (t, s', fin) ->
  accounted n (q, mk_Thread w (WkReporting j pc), s)
    ((Finished ∘ job_addr) <$> option_list fin) (q, t, s').
Proof.
  intros R I. assert (forall pc', thread_wf (mk_Thread w pc') \/ pc' = WkStart \/ pc' = WkExiting) as Wf.
  { intros []; auto; left; (split; [done|by intros [|]]). }
  assert (forall pc', thread_wf (mk_Thread w (WkReporting j pc'))) as Wr
    by (intros pc'; by destruct (Wf (WkReporting j pc')) as [|[|]]).
  destruct pc as [d b1 b2|d|d|[|k] d|]; intros [= <- <- <-].
  1: { split; [apply Wr|]. split; [done|]. split; [|split; [|done]].
    - simpl. rewrite (wrap_finished n) by done. f_equal. unfold load. simpl.
      destruct (_ && _); simpl; lia.
    - intros a. unfold thread_addrs. simpl. rewrite occ_nil. lia. }
  5: { apply accounted_same; [done|by destruct (Wf WkPoll) as [|[|]]|unfold load; simpl; lia| |done|done].
    intros a. unfold thread_addrs. simpl. rewrite I. simpl.
    rewrite (occ_cons a (job_addr j) (keys _)). lia. }
  all: split; [apply Wr|]; split; [done|]; split; [|split; [|done]];
    [simpl; rewrite R; f_equal; unfold load; simpl; try (destruct (_ <? _)%Z); simpl; lia|];
    intros a; unfold thread_addrs; simpl; rewrite occ_nil; lia.
Qed.

Lemma accounted_resumed n q w id s w' fin :
  running_jobs_count s = wrap Usize n -> initial_job w = None ->
  finish_pending_job call poll id w = (w', fin) ->
  accounted n (q, mk_Thread w (WkResuming id), s)
    ((fun _ => FinishedLate id) <$> option_list fin) (q, mk_Thread w' WkPoll, s).
Proof.
  intros R I. unfold finish_pending_job. destruct (pending_jobs w !! id) as [j|] eqn:P.
  2: { intros [= <- <-]. apply accounted_idle; try done. by split; [|intros [|]]. }
  destruct (job_run call poll j) as [j' st]. destruct st as [|is_err|]; intros [= <- <-].
  2: { apply accounted_same; [done|by split; [|intros [|]]| | |done|done].
    - unfold load. simpl.
      pose proof (map_size_delete_Some id (pending_jobs w) ltac:(by exists j)) as D.
      assert (size (pending_jobs w) <> 0) by (intros Z0%map_size_empty_inv; by rewrite Z0 in P).
      lia.
    - intros a. unfold thread_addrs. simpl. rewrite I. simpl. rewrite !occ_keys.
      destruct (decide (a = id)) as [->|Na].
      + rewrite lookup_delete_eq, P, occ_self, decide_True, decide_False by (done || by intros []).
        lia.
      + rewrite lookup_delete_ne, (occ_other a) by done. lia. }
  all: apply accounted_same; [done|by split; [|intros [|]]| | |done|done].
  1, 3: unfold load; simpl; rewrite map_size_insert_Some by (by exists j); lia.
  all: intros a; unfold thread_addrs; simpl; rewrite I; simpl; rewrite !occ_keys;
    destruct (decide (a = id)) as [->|Na];
    [rewrite lookup_insert_eq, P, occ_nil, !decide_True by done; lia
    |rewrite lookup_insert_ne, occ_nil by done; lia].
Qed.

Lemma worker_step_accounted open imm n q t s evs q' t' s' :
  worker_step open imm (q, t, s) evs (q', t', s') ->
  thread_wf t -> (forall a, occ a (thread_addrs t) <= 1) ->
  running_jobs_count s = wrap Usize n -> accounted n (q, t, s) evs (q', t', s').
Proof.
  intros St [I E] U R. inversion St as
    [q0 w s0|q0 w s0 K|j q0 w s0 P|w s0 P C|q0 w s0 P C|id l q0 w s0 P N
    |q0 w s0 K P N|q0 w s0|q0 w j s0 t0 s1 W|q0 w j s0 el|q0 w j pc s0 t0 s1 d W
    |q0 w id s0 w1 d W|a q0 w pc s0]; subst;
    cbn [th_pc th_worker] in *.
  - unfold worker_start. specialize (E (or_introl eq_refl)).
    destruct (initial_job w) as [j|] eqn:Hi; [|by apply accounted_idle].
    match goal with |- context [execute_begin j ?w] =>
      destruct (execute_begin_spec j w) as (j' & -> & Ea) end.
    apply accounted_same; [done|by split; [|intros [|]]|unfold load; simpl; lia| |done|done].
    intros a. unfold thread_addrs. simpl. rewrite Hi. simpl. rewrite Ea, !occ_nil. lia.
  - apply accounted_idle; try done. split; [by auto|]. intros _. simpl.
    apply orb_false_iff in K as [_ K%negb_false_iff%bool_decide_eq_true]. done.
  - apply accounted_begin; [done|by apply I|done|done|]. intros a. apply occ_jobs_cons.
  - apply accounted_idle; try done; (split; [by auto | by intros [|]]).
  - apply accounted_idle; try done; (split; [by auto | by intros [|]]).
  - apply accounted_idle; try done; (split; [by auto | by intros [|]]).
  - apply accounted_idle; try done; destruct (bool_decide _); try done;
      (split; [by auto | by intros [|]]).
  - apply accounted_idle; try done; destruct (on_idle _); try done;
      (split; [by auto | by intros [|]]).
  - apply accounted_started; [done|by apply I|done].
  - apply accounted_end; [done|by apply I|].
    specialize (U (job_addr j)). unfold thread_addrs in U. simpl in U.
    rewrite !occ_app, occ_cons, occ_self, occ_keys in U.
    case_decide as D; [simpl in U; lia|]. by apply eq_None_not_Some.
  - apply accounted_report; [done|by apply I|done].
  - apply accounted_resumed; [done|by apply I|done].
  - split; [by split|]. split; [done|]. split; [rewrite R; f_equal; unfold load; simpl; lia|].
    split; [|done]. intros x. rewrite occ_nil. unfold thread_addrs. simpl. lia.
Qed.

(** ** The completion times *)

Abbreviation times s := (length (tasks_completion_time s)).

(** The times kept and about to be pushed stay within the number to track and one for
    every worker there may be. *)
Definition times_bounded (s : State) (ths : list thread) : Prop :=
  (0 <= no_of_task_time_to_track s)%Z ->
  (Z.of_nat (times s + sum_list_with pushing ths) <= no_of_task_time_to_track s + max_jobs s)%Z.

Lemma pushing_le_one t : pushing t <= 1.
Proof. unfold pushing. repeat case_match; lia. Qed.

Lemma pushing_sum ths : sum_list_with pushing ths <= length ths.
Proof.
  induction ths as [|t ths IH]; simpl; [lia|]. pose proof (pushing_le_one t). lia.
Qed.

(** A step of one thread adds no time to those kept and about to be pushed, unless it
    found no more than are to be tracked. *)
Definition times_step (s s' : State) (t t' : thread) : Prop :=
  times s' + pushing t' <= times s + pushing t \/
  (Z.of_nat (times s') <= no_of_task_time_to_track s)%Z.

Lemma times_step_report j pc w s t s' fin :
  (0 <= no_of_task_time_to_track s)%Z ->
  @execute_report T F Fut j pc w s = (t, s', fin) ->
  times_step s s' (mk_Thread w (WkReporting j pc)) t.
Proof.
  intros P. unfold times_step.
  destruct pc as [d b1 b2|d|d|[|k] d|]; intros [= <- <- <-]; cbn -[Z.of_nat Z.to_nat].
  - left. unfold pushing. simpl. destruct (_ && _); simpl; lia.
  - destruct (Z.ltb_spec (no_of_task_time_to_track s) (Z.of_nat (times s))); [|by right].
    left. unfold pushing. simpl. lia.
  - destruct (Z.to_nat _) as [|k] eqn:K; [right; lia|]. left. unfold pushing. simpl. lia.
  - left. unfold pushing. simpl. rewrite length_app. simpl. lia.
  - destruct (tasks_completion_time s) as [|x l] eqn:L; simpl; [right; lia|].
    left. unfold pushing. simpl. destruct k; lia.
  - left. unfold pushing. simpl. lia.
Qed.

Lemma worker_step_times open imm q t s evs q' t' s' :
  (0 <= no_of_task_time_to_track s)%Z ->
  worker_step open imm (q, t, s) evs (q', t', s') -> times_step s s' t t'.
Proof.
  intros P St. inversion St; subst;
    try (by eapply times_step_report); left; try done;
    try (match goal with H : execute_started _ _ _ = _ |- _ => injection H as <- <- end);
    unfold worker_start, worker_body, worker_idle, poll_work, execute_begin, execute_end;
    repeat case_match; unfold pushing; simpl; lia.
Qed.

Lemma times_bounded_thread s s' l1 t t' l2 :
  no_of_task_time_to_track s' = no_of_task_time_to_track s -> max_jobs s' = max_jobs s ->
  (Z.of_nat (length (l1 ++ t :: l2)) <= max_jobs s)%Z ->
  ((0 <= no_of_task_time_to_track s)%Z -> times_step s s' t t') ->
  times_bounded s (l1 ++ t :: l2) -> times_bounded s' (l1 ++ t' :: l2).
Proof.
  intros Tr Mx L St B P. rewrite Tr in P |- *. rewrite Mx. specialize (B P).
  pose proof (pushing_sum (l1 ++ t' :: l2)) as Su. rewrite length_app in L, Su. simpl in L, Su.
  rewrite sum_list_with_app in B, Su |- *. simpl in B, Su |- *. destruct (St P); lia.
Qed.

(** ** The invariant of the pool *)

Definition held (ths : list thread) : list Z := ths ≫= thread_addrs.

Definition loads (ths : list thread) : nat := sum_list_with load ths.

(** The counters say what the threads do, and every job is in one place. *)
Definition pool_inv (evs : list pool_event) (q b : list job) (s : State) (ths : list thread)
    : Prop :=
  Forall thread_wf ths /\
  jobs_count s = Z.of_nat (length ths) /\ (jobs_count s <= max_jobs s)%Z /\
  running_jobs_count s =
    wrap Usize (Z.of_nat (loads ths) + Z.of_nat (length (finished_late evs))) /\
  (forall a, occ a (submitted evs) = occ a (finished evs) + occ a (dropped evs) +
     (occ a (job_addr <$> q) + occ a (job_addr <$> b) + occ a (held ths))) /\
  (forall a, occ a (job_addr <$> q) + occ a (job_addr <$> b) + occ a (held ths) <= 1) /\
  times_bounded s ths.

Lemma occ_live a (p : pool) :
  occ a (live p) =
  occ a (job_addr <$> jp_waiting p) + occ a (job_addr <$> jp_blocked p) + occ a (held (jp_threads p)).
Proof. unfold live, held. rewrite !occ_app. lia. Qed.

Lemma held_mid a l1 t l2 :
  occ a (held (l1 ++ t :: l2)) = occ a (held l1) + occ a (thread_addrs t) + occ a (held l2).
Proof. unfold held. rewrite bind_app, bind_cons, !occ_app. lia. Qed.

Lemma held_out a l1 l2 : occ a (held (l1 ++ l2)) = occ a (held l1) + occ a (held l2).
Proof. unfold held. rewrite bind_app, occ_app. done. Qed.

Lemma loads_mid l1 t l2 : loads (l1 ++ t :: l2) = loads l1 + load t + loads l2.
Proof. unfold loads. rewrite sum_list_with_app. simpl. lia. Qed.

(** The jobs outside the threads may be arranged otherwise. *)
Lemma pool_inv_rearranged evs q b q' b' s ths :
  (forall a, occ a (job_addr <$> q) + occ a (job_addr <$> b) =
     occ a (job_addr <$> q') + occ a (job_addr <$> b')) ->
  pool_inv evs q b s ths -> pool_inv evs q' b' s ths.
Proof.
  intros E (Wf & C & M & R & O & U & Ti). split_and!; try done; intros a;
    specialize (O a); specialize (U a); specialize (E a); lia.
Qed.

Lemma pool_inv_submitted evs q b s ths (j : job) :
  occ (job_addr j) (job_addr <$> q) + occ (job_addr j) (job_addr <$> b) +
    occ (job_addr j) (held ths) = 0 ->
  pool_inv evs q b s ths -> pool_inv (evs ++ [Submitted (job_addr j)]) (j :: q) b s ths.
Proof.
  intros Fr (Wf & C & M & R & O & U & Ti).
  unfold pool_inv, submitted, finished, finished_late, dropped. rewrite !omap_app.
  cbn [omap list_omap]. rewrite !app_nil_r. split_and!; [done|done|done|exact R| | |done]; intros a;
    rewrite occ_jobs_cons.
  - rewrite occ_app. specialize (O a). unfold submitted, finished, dropped in O. lia.
  - specialize (U a). destruct (decide (a = job_addr j)) as [->|N].
    + rewrite occ_self. lia.
    + rewrite occ_other by done. lia.
Qed.

Lemma pool_inv_thread evs evs' q q' b s s' l1 t t' l2 :
  pool_inv evs q b s (l1 ++ t :: l2) ->
  (forall n, running_jobs_count s = wrap Usize n -> accounted n (q, t, s) evs' (q', t', s')) ->
  ((0 <= no_of_task_time_to_track s)%Z -> times_step s s' t t') ->
  pool_inv (evs ++ evs') q' b s' (l1 ++ t' :: l2).
Proof.
  intros (Wf & C & M & R & O & U & Ti) A Ts.
  destruct (A _ R) as (Wf' & (C' & M' & _ & Tr) & R' & O' & S & D).
  unfold pool_inv, submitted, finished, finished_late, dropped. rewrite !omap_app.
  unfold submitted, dropped in S, D. rewrite S, D, !app_nil_r. split_and!; try done.
  - apply Forall_app in Wf as [W1 W2]. apply Forall_app. split; [done|].
    apply Forall_cons in W2 as [_ W2]. by apply Forall_cons.
  - rewrite C', C, !length_app. done.
  - by rewrite C', M'.
  - rewrite R'. f_equal. rewrite !loads_mid, length_app. unfold finished_late. lia.
  - intros a. specialize (O a). specialize (O' a). rewrite held_mid in O |- *.
    rewrite occ_app. unfold submitted, finished, dropped in *. lia.
  - intros a. specialize (U a). specialize (O' a). rewrite held_mid in U |- *.
    unfold finished in O'. lia.
  - eapply times_bounded_thread; [exact Tr|exact M'| |exact Ts|exact Ti]. by rewrite <-C.
Qed.

Lemma hand_off_spec i (j : job) (p p' : pool) :
  hand_off i j p = Some p' ->
  exists l1 w l2, jp_threads p = l1 ++ mk_Thread w WkPoll :: l2 /\
    p' = jp_with (jp_waiting p) (jp_blocked p) (jp_state p) (l1 ++ execute_begin j w :: l2) p.
Proof.
  unfold hand_off. destruct (jp_threads p !! i) as [[w []]|] eqn:L; try done.
  destruct (polls_new w); [|done]. intros [= <-].
  apply list_elem_of_split_length in L as (l1 & l2 & -> & ->).
  exists l1, w, l2. split; [done|]. by rewrite insert_app_r_alt, Nat.sub_diag.
Qed.

(** A worker that was spawned, with the job it is to start with. *)
Lemma pool_inv_spawned evs q b s ths (task : option job) limit alive pc :
  (jobs_count s < max_jobs s)%Z -> pc = WkStart \/ (pc = WkExiting /\ task = None) ->
  pool_inv evs (option_list task ++ q) b s ths ->
  pool_inv evs q b (with_jobs_count (jobs_count s + 1) s)
    (ths ++ [mk_Thread (Worker_new task limit alive) pc]).
Proof.
  intros L Hpc (Wf & C & M & R & O & U & Ti).
  set (t := mk_Thread (Worker_new task limit alive) pc).
  assert (thread_wf t /\ load t = 0 /\ pushing t = 0 /\ pc_job pc = None) as (Wt & Lt & Pt & Jt).
  { unfold load, pushing. destruct Hpc as [->|[-> ->]]; simpl; rewrite map_size_empty; done. }
  assert (forall a, occ a (held (ths ++ [t])) =
    occ a (held ths) + occ a (job_addr <$> option_list task)) as Hh.
  { intros a. rewrite held_mid. unfold thread_addrs, keys. simpl.
    rewrite Jt, map_to_list_empty. simpl. rewrite app_nil_r. unfold held. simpl. rewrite occ_nil. lia. }
  split_and!; simpl; try done.
  - apply Forall_app. split; [done|]. by apply Forall_singleton.
  - rewrite C, length_app. simpl. lia.
  - lia.
  - rewrite R. f_equal. rewrite loads_mid, Lt. unfold loads. simpl. lia.
  - intros a. specialize (O a). rewrite fmap_app, occ_app in O. rewrite Hh. lia.
  - intros a. specialize (U a). rewrite fmap_app, occ_app in U. rewrite Hh. lia.
  - unfold times_bounded. simpl. rewrite sum_list_with_app. simpl. rewrite Pt, !Nat.add_0_r. exact Ti.
Qed.

Lemma pool_inv_dropped evs q q' b s ths :
  pool_inv evs (q ++ q') b s ths ->
  pool_inv (evs ++ ((Dropped ∘ job_addr) <$> q)) q' b s ths.
Proof.
  intros (Wf & C & M & R & O & U & Ti).
  assert (forall l : list job, let e := (Dropped ∘ job_addr) <$> l in
    submitted e = [] /\ finished e = [] /\ finished_late e = [] /\ dropped e = job_addr <$> l) as Hd.
  { intros l. induction l as [|j l (I1 & I2 & I3 & I4)]; [done|].
    split_and!; [exact I1|exact I2|exact I3|exact (f_equal (cons (job_addr j)) I4)]. }
  destruct (Hd q) as (D1 & D2 & D3 & D4). unfold pool_inv.
  unfold submitted, finished, finished_late, dropped in *. rewrite !omap_app, D1, D2, D3, D4, !app_nil_r.
  split_and!; try done; intros a.
  - specialize (O a). rewrite fmap_app, occ_app in O. rewrite occ_app. lia.
  - specialize (U a). rewrite fmap_app, occ_app in U. lia.
Qed.

Lemma pool_inv_exited evs q b s l1 w l2 :
  pool_inv evs q b s (l1 ++ mk_Thread w WkExiting :: l2) ->
  pool_inv evs q b (listener_drop s) (l1 ++ l2).
Proof.
  intros (Wf & C & M & R & O & U & Ti).
  apply Forall_app in Wf as [W1 [[Wi We] W2]%Forall_cons]; simpl in Wi, We.
  assert (thread_addrs (mk_Thread w WkExiting) = []) as A.
  { unfold thread_addrs, keys. simpl. rewrite Wi, We by auto. by rewrite map_to_list_empty. }
  assert (load (mk_Thread w WkExiting) = 0) as Lo.
  { unfold load. simpl. rewrite We by auto. apply map_size_empty. }
  rewrite length_app in C. simpl in C. split_and!; simpl; try done.
  - by apply Forall_app.
  - rewrite length_app. lia.
  - lia.
  - rewrite R. f_equal. rewrite loads_mid, Lo. unfold loads. rewrite sum_list_with_app. lia.
  - intros a. specialize (O a). rewrite held_mid, A, occ_nil in O. rewrite held_out. lia.
  - intros a. specialize (U a). rewrite held_mid, A, occ_nil in U. rewrite held_out. lia.
  - unfold times_bounded in *. simpl. rewrite sum_list_with_app in Ti |- *. exact Ti.
Qed.

(** A caller that waited for a deadline and was told so has outlived every worker. *)
Definition pool_ok (evs : list pool_event) (p : pool) : Prop :=
  pool_inv evs (jp_waiting p) (jp_blocked p) (jp_state p) (jp_threads p) /\
  (jp_join p <> NotJoined -> jp_open p = false) /\
  (forall d, jp_join p = Joined (Some d) true -> jp_threads p = []).

Lemma fresh_occ (j : job) (p : pool) :
  job_addr j ∉ live p ->
  occ (job_addr j) (job_addr <$> jp_waiting p) + occ (job_addr j) (job_addr <$> jp_blocked p) +
    occ (job_addr j) (held (jp_threads p)) = 0.
Proof. intros F0. by rewrite <-occ_live, occ_zero. Qed.

(** A job handed to a listening worker is as good as taken from the queue. *)
Lemma pool_inv_handed evs (j : job) q b s l1 w l2 :
  pool_inv evs (j :: q) b s (l1 ++ mk_Thread w WkPoll :: l2) ->
  pool_inv evs q b s (l1 ++ execute_begin j w :: l2).
Proof.
  intros I. rewrite <-(app_nil_r evs). eapply pool_inv_thread; [exact I| |by intros _; left].
  intros n R. apply accounted_begin; [done| |done|done|].
  - destruct I as ([_ [[Wi _] _]%Forall_cons]%Forall_app & _). by apply Wi.
  - intros a. apply occ_jobs_cons.
Qed.

Lemma spawn_begin_cases created (task : option job) (p p' : pool) r :
  spawn_begin created task p = (p', r) ->
  (p' = p /\ r = Err task) \/
  ((jobs_count (jp_state p) < max_jobs (jp_state p))%Z /\ r = Ok tt /\
   p' = jp_with (jp_waiting p) (jp_blocked p)
          (with_jobs_count (jobs_count (jp_state p) + 1) (jp_state p))
          (jp_threads p ++ [mk_Thread (Worker_new (if created then task else None)
             (jp_concurrency_limit p) (keep_alive (jp_state p)))
             (if created then WkStart else WkExiting)]) p).
Proof.
  unfold spawn_begin. destruct (Z.leb_spec (max_jobs (jp_state p)) (jobs_count (jp_state p)));
    intros [= <- <-]; [by left|by right].
Qed.

(** While a pool is open nobody has joined it. *)
Lemma pool_ok_open evs p : pool_ok evs p -> jp_open p = true -> jp_join p = NotJoined.
Proof. intros (_ & J & _) O. destruct (jp_join p); [done|..]; by rewrite J in O. Qed.

Lemma pool_ok_submit evs (j : job) p :
  pool_ok evs p -> job_addr j ∉ live p ->
  pool_inv (evs ++ [Submitted (job_addr j)]) (j :: jp_waiting p) (jp_blocked p) (jp_state p)
    (jp_threads p).
Proof. intros (I & _) Fr%fresh_occ. by apply pool_inv_submitted. Qed.

Lemma pool_ok_spawn evs created (j : job) p p' :
  pool_ok evs p -> jp_open p = true -> job_addr j ∉ live p ->
  spawn_begin created (Some j) p = (p', Ok tt) ->
  pool_ok (evs ++ Submitted (job_addr j) :: if created then [] else [Dropped (job_addr j)]) p'.
Proof.
  intros K O Fr. pose proof (pool_ok_open _ _ K O) as N.
  pose proof (pool_ok_submit _ _ _ K Fr) as S.
  intros [[_ E]|(L & _ & ->)]%spawn_begin_cases; [done|].
  split; [|split; simpl; by rewrite N]. destruct created.
  - apply pool_inv_spawned; [done|by left|done].
  - change (Submitted (job_addr j) :: [Dropped (job_addr j)])
      with ([Submitted (job_addr j)] ++ ((Dropped ∘ job_addr) <$> [j])).
    rewrite app_assoc. apply pool_inv_spawned; [done|by right|]. by apply pool_inv_dropped.
Qed.

Lemma pool_ok_hand_off evs i (j : job) p p' b :
  pool_inv evs (j :: jp_waiting p) b (jp_state p) (jp_threads p) ->
  jp_blocked p = b -> hand_off i j p = Some p' ->
  pool_inv evs (jp_waiting p') (jp_blocked p') (jp_state p') (jp_threads p') /\
  jp_open p' = jp_open p /\ jp_join p' = jp_join p /\ jp_threads p <> [].
Proof.
  intros I <- (l1 & w & l2 & E & ->)%hand_off_spec. simpl.
  rewrite E in I |- *. split_and!; [by eapply pool_inv_handed|done|done|].
  by intros [_ ?]%app_eq_nil.
Qed.

Lemma notified_joined c pj d : notified c pj = Joined (Some d) true ->
  pj = Joined (Some d) true \/ (c <= 0)%Z.
Proof.
  destruct pj as [|[d'|]|]; simpl; try done; [|by left].
  destruct (Z.ltb_spec 0 c); [done|]. by right.
Qed.

Lemma notified_started c pj : notified c pj <> NotJoined <-> pj <> NotJoined.
Proof. destruct pj as [|[d'|]|]; simpl; try done. by destruct (0 <? c)%Z. Qed.

Lemma inv_no_threads evs q b s ths : pool_inv evs q b s ths -> (jobs_count s <= 0)%Z -> ths = [].
Proof. intros (_ & C & _) L. apply length_zero_iff_nil. lia. Qed.

Lemma pool_step_ok evs evs' p p' :
  pool_ok evs p -> pool_step p evs' p' -> pool_ok (evs ++ evs') p'.
Proof.
  intros K St. pose proof K as (I & Jo & Jt). inversion St as
    [i j p0 p1 O Fr H|cr j p0 p1 O Fr H|cr j p0 e O Fr H|j l1 l2 p0 B R|i j l1 l2 p0 p1 B Q H
    |l1 l2 t p0 ev q' t' s' E W|l1 l2 w p0 E s|dl p0 O B|p0 O B|p0 G Th|p0 O|d p0 J]; subst;
    rewrite ?app_nil_r.
  - pose proof (pool_ok_submit _ _ _ K Fr) as S.
    destruct (pool_ok_hand_off _ _ _ _ _ _ S eq_refl H) as (I' & E1 & E2 & _).
    split; [done|]. rewrite E1, E2. split; [done|]. rewrite (pool_ok_open _ _ K O). done.
  - by eapply pool_ok_spawn.
  - pose proof (pool_ok_submit _ _ _ K Fr) as S. split; [|done].
    eapply pool_inv_rearranged; [|exact S]. intros a. cbn [jp_with jp_waiting jp_blocked].
    rewrite fmap_app, occ_app, !occ_jobs_cons, occ_jobs_nil. lia.
  - split; [|done]. eapply pool_inv_rearranged; [|exact I]. intros a.
    cbn [jp_with jp_waiting jp_blocked].
    rewrite B, !fmap_app, !occ_app, !occ_jobs_cons, occ_jobs_nil. lia.
  - assert (pool_inv evs (j :: jp_waiting p) (l1 ++ l2) (jp_state p) (jp_threads p)) as I2.
    { eapply pool_inv_rearranged; [|exact I]. intros a. rewrite B, !fmap_app, !occ_app, !occ_jobs_cons.
      lia. }
    set (p2 := jp_with _ _ _ _ _) in H.
    destruct (pool_ok_hand_off evs i j p2 p' (l1 ++ l2) I2 eq_refl H) as (I' & E1 & E2 & Ne).
    split; [done|]. rewrite E1, E2. split; [done|]. intros d Jd. by destruct (Ne (Jt d Jd)).
  - split; [|split; [done|]]; simpl.
    + rewrite E in I. eapply pool_inv_thread; [exact I| |].
      * intros n R. eapply worker_step_accounted; [exact W| | |exact R].
        -- destruct I as ([_ [Wf _]%Forall_cons]%Forall_app & _). done.
        -- intros a. destruct I as (_ & _ & _ & _ & _ & U & _). specialize (U a).
           rewrite held_mid in U. lia.
      * intros P. by eapply worker_step_times.
    + intros d Jd. specialize (Jt d Jd). rewrite E in Jt. by apply app_eq_nil in Jt as [_ ?].
  - rewrite E in I. pose proof (pool_inv_exited _ _ _ _ _ _ _ I) as I'.
    split; [exact I'|]. split; simpl; [by rewrite notified_started|].
    intros d [Jd|L]%notified_joined; [|by eapply inv_no_threads].
    specialize (Jt d Jd). rewrite E in Jt. by apply app_eq_nil in Jt as [_ ?].
  - split; [done|]. split; [done|]. unfold join_deadline. simpl. intros d.
    destruct dl as [d'|]; [|done]. unfold jobs. destruct (Z.ltb_spec 0 (jobs_count (jp_state p)));
      [done|]. intros _. by eapply inv_no_threads.
  - by split_and!.
  - split; [|done]. simpl. rewrite Th in I. apply pool_inv_dropped. by rewrite app_nil_r.
  - split; [done|]. split; [done|]. simpl.
    intros d [Jd|L]%notified_joined; [by apply (Jt d)|by eapply inv_no_threads].
  - by split_and!.
Qed.

Lemma pool_run_ok p0 evs p : pool_ok [] p0 -> pool_run p0 evs p -> pool_ok evs p.
Proof. intros K R. induction R; [done|]. by eapply pool_step_ok. Qed.

Lemma pool_ok_minimum created n p :
  pool_ok [] p -> jp_join p = NotJoined -> pool_ok [] (spawn_minimum created n p).
Proof.
  revert p. induction n as [|n IH]; simpl; intros p K N; [done|]. unfold spawn_job.
  destruct (spawn_begin (created n) None p) as [p' r] eqn:E.
  apply spawn_begin_cases in E as [[-> ->]|(L & -> & ->)]; [by apply IH|]. simpl.
  apply IH; [|by destruct (created n)]. destruct K as (I & Jo & Jt).
  destruct (created n); (split; [|split; simpl; by rewrite N]).
  - by apply (pool_inv_spawned _ _ _ _ _ None); [|left|].
  - destruct I as (Wf & C & M & R & O & U & Ti). split_and!; simpl; (done || lia).
Qed.

Lemma build_ok name created b :
  (0 <= (default (1, 4) (pb_size b)).2)%Z -> pool_ok [] (pool_build name created b).
Proof.
  intros M. apply pool_ok_minimum; [|done]. split; [|done].
  split_and!; simpl; try done; unfold times_bounded; simpl; try lia.
  intros a. unfold occ. simpl. lia.
Qed.

Lemma run_trans p0 evs1 p1 evs2 p2 :
  pool_run p0 evs1 p1 -> pool_run p1 evs2 p2 -> pool_run p0 (evs1 ++ evs2) p2.
Proof.
  intros R1 R2. induction R2 as [|evs evs' p p' R2 IH St]; [by rewrite app_nil_r|].
  rewrite app_assoc. by eapply run_snoc.
Qed.

Lemma run_step p evs p' : pool_step p evs p' -> pool_run p evs p'.
Proof. apply (run_snoc p []). apply run_nil. Qed.

Lemma run_cons p evs1 p1 q evs2 p2 :
  pool_step p evs1 p1 -> p1 = q -> pool_run q evs2 p2 -> pool_run p (evs1 ++ evs2) p2.
Proof. intros St <-. apply run_trans, run_step, St. Qed.

(** A step of the [i]-th thread. *)
Lemma ps_worker_at i t p evs q' t' s' :
  jp_threads p !! i = Some t ->
  worker_step (jp_open p) (negb (gone p)) (jp_waiting p, t, jp_state p) evs (q', t', s') ->
  pool_step p evs (jp_with q' (jp_blocked p) s' (<[i := t']> (jp_threads p)) p).
Proof.
  intros E W. rewrite insert_take_drop by (by eapply lookup_lt_Some).
  eapply ps_worker; [|exact W]. by rewrite take_drop_middle.
Qed.

(** A worker with nothing to do asks whether it may leave. *)
Lemma ws_timeout_idle imm w s :
  active w = true -> pending_jobs w = ∅ ->
  worker_step true imm ([], mk_Thread w WkPoll, s) [] ([], mk_Thread w WkIdle, s).
Proof.
  intros A E. assert (worker_body Timeout w = mk_Thread w WkIdle) as <-.
  { simpl. by rewrite bool_decide_eq_true_2. }
  apply (ws_timeout true imm); [unfold keeps_running; by rewrite A|by split|].
  unfold polls_pending. rewrite bool_decide_eq_false_2; [done|by intros []].
Qed.

(** A run, one step at a time: the pool is computed after each. *)
Ltac step tac := eapply run_cons; [tac|lazy; reflexivity|].
Ltac thread n tac := step ltac:(eapply ps_worker_at with (i := n); [done|tac]).

(** What a pool was configured with stays. *)
Definition same_config (p p' : pool) : Prop :=
  no_of_task_time_to_track (jp_state p') = no_of_task_time_to_track (jp_state p) /\
  max_jobs (jp_state p') = max_jobs (jp_state p).

Lemma spawn_begin_config created (task : option job) (p : pool) :
  same_config p (spawn_begin created task p).1.
Proof. unfold spawn_begin. by destruct (_ <=? _)%Z. Qed.

Lemma worker_step_config open imm q t s evs q' t' s' :
  worker_step open imm (q, t, s) evs (q', t', s') ->
  no_of_task_time_to_track s' = no_of_task_time_to_track s /\ max_jobs s' = max_jobs s.
Proof.
  intros St. inversion St as [| | | | | | | |q0 w j s0 t0 s1 W| |q0 w j pc s0 t0 s1 d W| |]; subst;
    try done.
  - by injection W as <- <-.
  - by destruct pc as [d0 [] []|d0|d0|[] d0|]; injection W as <- <- <-.
Qed.

Lemma pool_step_config p evs p' : pool_step p evs p' -> same_config p p'.
Proof.
  intros St. inversion St as
    [i j p0 p1 O Fr H|cr j p0 p1 O Fr H|cr j p0 e O Fr H|j l1 l2 p0 B R|i j l1 l2 p0 p1 B Q H
    |l1 l2 t p0 ev q' t' s' E W|l1 l2 w p0 E s|dl p0 O B|p0 O B|p0 G Th|p0 O|d p0 J]; subst;
    try done.
  - by apply hand_off_spec in H as (l1 & w & l2 & _ & ->).
  - pose proof (spawn_begin_config cr (Some j) p) as C. by rewrite H in C.
  - by apply hand_off_spec in H as (l1' & w & l2' & _ & ->).
  - by eapply worker_step_config.
Qed.

Lemma run_config p0 evs p : pool_run p0 evs p -> same_config p0 p.
Proof.
  induction 1 as [|evs evs' p p' _ [E1 E2] [F1 F2]%pool_step_config]; [done|].
  split; congruence.
Qed.

Lemma build_config name created b :
  no_of_task_time_to_track (jp_state (pool_build name created b : pool)) =
    pb_no_completed_tasks_to_track b /\
  max_jobs (jp_state (pool_build name created b : pool)) = (default (1, 4) (pb_size b)).2%Z.
Proof.
  unfold pool_build. set (p := empty_pool name b).
  assert (forall n (p : pool), same_config p (spawn_minimum created n p)) as Hm.
  { intros n. induction n as [|n IH]; intros p'; simpl; [done|].
    destruct (IH (spawn_job (created n) None p').1) as [E1 E2]. unfold same_config.
    rewrite E1, E2. unfold spawn_job, spawn_begin. destruct (_ <=? _)%Z; [done|].
    by destruct (created n). }
  apply (Hm _ p).
Qed.

(** The function that submits a job makes only steps of the relation. *)
Lemma execute_job_run idle created (j : job) p :
  jp_open p = true -> jp_join p = NotJoined -> job_addr j ∉ live p ->
  exists evs, pool_run p evs (execute_job idle created j p) /\ submitted evs = [job_addr j].
Proof.
  intros O J Fr. unfold execute_job.
  destruct (idle ≫= fun i => hand_off i j p) as [p'|] eqn:E.
  { destruct idle as [i|]; [|done]. eexists. split; [by eapply run_step, ps_hand_off|done]. }
  unfold spawn_job. destruct (spawn_begin created (Some j) p) as [p' r] eqn:Sp.
  pose proof (spawn_begin_cases _ _ _ _ _ Sp) as [[-> ->]|(_ & -> & Ep)].
  - pose proof (ps_refused created j p _ O Fr Sp) as St.
    unfold queue_job. destruct (has_room p) eqn:R; [|by eexists; split; [by apply run_step|]].
    pose proof (ps_queued j (jp_blocked p) []
      (jp_with (jp_waiting p) (jp_blocked p ++ [j]) (jp_state p) (jp_threads p) p) eq_refl R) as Q.
    rewrite app_nil_r in Q. eexists. split; [eapply run_snoc; [by apply run_step|exact Q]|done].
  - pose proof (ps_spawn created j p p' O Fr Sp) as St. destruct created.
    { eexists. split; [by apply run_step|done]. }
    exists ([Submitted (job_addr j); Dropped (job_addr j)] ++ []).
    split; [eapply run_snoc; [apply run_step, St|]|done].
    pose proof (ps_exit (jp_threads p) [] _ p' ltac:(by rewrite Ep)) as Ex. rewrite app_nil_r in Ex.
    subst p'. cbn [jp_with jp_name jp_stack_size jp_concurrency_limit jp_queue_size jp_waiting
      jp_open jp_blocked jp_state jp_join] in Ex |- *. unfold jp_with in *. by rewrite J in *.
Qed.

(** ** Correctness *)

(** C18. The counters of a pool, along every interleaving of submitters, workers and a
    caller that joins it. The count of jobs is the number of its workers and never
    above the maximum; the count of running jobs is, modulo [2 ^ 64], what the workers
    run or have pending plus one for every job that ever finished after it was
    pending; and the completion times kept are at most as many as are to be tracked
    plus the maximum of workers, since each worker reads their number before it pushes
    its own. *)
Theorem pool_counters_exact name created b evs (p : pool) :
  (0 <= (default (1, 4) (pb_size b)).2)%Z -> (0 <= pb_no_completed_tasks_to_track b)%Z ->
  pool_run (pool_build name created b) evs p ->
  jobs p = Z.of_nat (length (jp_threads p)) /\ (jobs p <= max_jobs (jp_state p))%Z /\
  running_tasks p =
    wrap Usize (Z.of_nat (loads (jp_threads p)) + Z.of_nat (length (finished_late evs))) /\
  (Z.of_nat (length (tasks_completion_time (jp_state p))) <=
     pb_no_completed_tasks_to_track b + (default (1, 4) (pb_size b)).2)%Z.
Proof.
  intros M P R. destruct (pool_run_ok _ _ _ (build_ok name created b M) R)
    as ((_ & C & L & Ru & _ & _ & Ti) & _).
  split_and!; [done..|]. destruct (run_config _ _ _ R) as [Et Em].
  destruct (build_config name created b) as [Et' Em']. unfold times_bounded in Ti.
  rewrite Et, Em, Et', Em' in Ti. specialize (Ti P). lia.
Qed.

(** C17. Jobs are neither lost nor run twice: those submitted are those that finished,
    those dropped, because their thread could not be created or with the queue of a
    pool nobody holds any more, and those that are in the pool, each in one place. *)
Theorem pool_conserves_jobs name created b evs (p : pool) :
  (0 <= (default (1, 4) (pb_size b)).2)%Z -> pool_run (pool_build name created b) evs p ->
  submitted evs ≡ₚ finished evs ++ dropped evs ++ live p /\ NoDup (live p).
Proof.
  intros M R. destruct (pool_run_ok _ _ _ (build_ok name created b M) R)
    as ((_ & _ & _ & _ & O & U & _) & _). split.
  - apply (Permutation_count_occ Z.eq_dec). intros a. specialize (O a).
    rewrite <-occ_live in O. change (occ a (submitted evs) = occ a (finished evs ++ dropped evs ++ live p)).
    rewrite !occ_app. lia.
  - apply NoDup_ListNoDup, (NoDup_count_occ Z.eq_dec). intros a. specialize (U a).
    by rewrite <-occ_live in U.
Qed.

(** C28. A pool that was joined with a deadline and reports a full shutdown has no
    worker left. Without a deadline the same does not hold: there is a run in which
    [join] has returned while a worker still runs a job. *)
Theorem join_waits_for_workers name created b (f : F) :
  (0 <= (default (1, 4) (pb_size b)).2)%Z ->
  (forall evs (p : pool) d, pool_run (pool_build name created b) evs p ->
     jp_join p = Joined (Some d) true -> jp_threads p = []) /\
  exists evs (p : pool) w j,
    pool_run (pool_build name (fun _ => true) (mk_PoolBuilder (Some (2, 2)%Z) None None 16 60 100)) evs p
    /\ jp_join p = Joined None true /\ jp_threads p = [mk_Thread w (WkRunning j)].
Proof.
  intros M. split.
  - intros evs p d R.
    destruct (pool_run_ok _ _ _ (build_ok name created b M) R) as (_ & _ & J). apply J.
  - eexists _, _, _, _. split; [|split].
    + thread 0 ltac:(by apply ws_start). thread 1 ltac:(by apply ws_start).
      step ltac:(eapply (ps_hand_off 1 (from_closure 7 f).2); [done|by apply not_elem_of_nil|done]).
      thread 1 ltac:(by apply ws_begin). step ltac:(by apply (ps_join None)).
      thread 0 ltac:(by apply ws_closed). thread 0 ltac:(by apply ws_leave).
      step ltac:(by eapply (ps_exit [] [_])). apply run_nil.
    + done.
    + done.
Qed.

(** A pool without workers does nothing on its own. *)
Lemma no_workers_stuck p evs p' :
  jp_threads p = [] -> jp_open p = true -> jp_blocked p = [] -> pool_step p evs p' ->
  submitted evs = [] -> jp_threads p' = [] /\ jp_waiting p' = jp_waiting p.
Proof.
  intros Th O B St. inversion St; subst; simpl; try done;
    try (by unfold gone in *; rewrite O in *);
    try (by destruct (app_cons_not_nil l1 l2 j); congruence);
    destruct (app_cons_not_nil l1 l2 t) || destruct (app_cons_not_nil l1 l2 (mk_Thread w WkExiting));
    congruence.
Qed.

(** The pool and the states of the run below. *)
#[local] Abbreviation race_pool name q b s ths :=
  (mk_JobPool name None 16%Z None q true b s ths NotJoined).
#[local] Abbreviation race_state n r l := (mk_State 1 2 n r 60 100 l).
#[local] Abbreviation race_worker a := (mk_Worker 60%Z 16%Z None (∅ : gmap Z job) [] a).

(** Both workers are idle and have found two of them. *)
Lemma race_both_idle name (f : F) : exists evs l,
  pool_run (pool_build name (fun _ => true) (mk_PoolBuilder (Some (1, 2)%Z) None None 16 60 100)) evs
    (race_pool name [] [] (race_state 2 0 l)
       [mk_Thread (race_worker true) WkIdle; mk_Thread (race_worker true) WkIdle]).
Proof.
  set (p0 := pool_build _ _ _).
  assert (exists evs j, pool_run p0 evs (race_pool name [] [] (race_state 2 1 [])
    [mk_Thread (race_worker true) WkPoll;
     mk_Thread (race_worker true) (WkReporting j (RpDecrement 0 false (is_panic (call f))))]))
    as (evs & j & R).
  { eexists _, _. thread 0 ltac:(by apply ws_start).
    step ltac:(eapply (ps_spawn true (from_closure 7 f).2); [done|by apply not_elem_of_nil|done]).
    thread 1 ltac:(by apply ws_start). thread 1 ltac:(by apply ws_begin).
    thread 1 ltac:(apply (ws_end _ _ _ _ _ _ 0)). apply run_nil. }
  assert (exists evs l, pool_run p0 evs (race_pool name [] [] (race_state 2 0 l)
    [mk_Thread (race_worker true) WkPoll; mk_Thread (race_worker true) (WkReporting j RpDone)]))
    as (evs' & l & R').
  { destruct (is_panic (call f)).
    - eexists _, _. eapply run_trans; [exact R|].
      thread 1 ltac:(by apply ws_report). apply run_nil.
    - eexists _, _. eapply run_trans; [exact R|].
      do 3 thread 1 ltac:(by apply ws_report). apply run_nil. }
  eexists. exists l. eapply run_trans; [exact R'|].
  thread 1 ltac:(by apply ws_report). thread 0 ltac:(by apply ws_timeout_idle).
  thread 1 ltac:(by apply ws_timeout_idle). apply run_nil.
Qed.

(** Idle workers look at the count of workers before they leave, and only lower it
    when they are gone. So in a pool of one to two workers both can leave, and a job
    submitted meanwhile is queued, because the count still says two: the open pool
    is below its minimum, and nothing but another submission will run the job. *)
Lemma idle_workers_strand_job name (f g : F) :
  exists evs (p : pool),
    pool_run (pool_build name (fun _ => true) (mk_PoolBuilder (Some (1, 2)%Z) None None 16 60 100)) evs p
    /\ jp_open p = true /\ (jobs p < min_jobs (jp_state p))%Z /\
    job_addr <$> jp_waiting p = [8%Z] /\
    forall evs' p', pool_step p evs' p' -> submitted evs' = [] ->
      jp_threads p' = [] /\ jp_waiting p' = jp_waiting p.
Proof.
  destruct (race_both_idle name f) as (evs & l & R). eexists _, _.
  split; [eapply run_trans; [exact R|]|].
  - thread 0 ltac:(by apply ws_idle). thread 1 ltac:(by apply ws_idle).
    thread 0 ltac:(by apply ws_leave). thread 1 ltac:(by apply ws_leave).
    step ltac:(by eapply (ps_refused true (from_closure 8 g).2); [|apply not_elem_of_nil|]).
    step ltac:(by apply (ps_queued (from_closure 8 g).2 [] [])).
    step ltac:(by eapply (ps_exit [] [_])). step ltac:(by eapply (ps_exit [] [])). apply run_nil.
  - split_and!; [done|done|done|]. intros evs' p' St. by eapply no_workers_stuck.
Qed.
End steps.

(** ** A pool with one worker and a future that is pending once *)

Module ToyPool.
Definition call (r : ThreadResult Z) : ThreadResult Z := r.

Definition poll (_ : Waker) (n : nat) : nat * FuturePoll :=
  match n with
  | O => (O, PollReady 1%Z)
  | S m => (m, PollPending)
  end.

Definition one_worker : PoolBuilder := mk_PoolBuilder (Some (1, 1)%Z) None None 16 60 100.

Abbreviation fresh_pool := (@pool_build Z (ThreadResult Z) nat "pool" (fun _ => true) one_worker).

(** Steps as above, which ended with the section. *)
Ltac step tac := eapply run_cons; [tac|lazy; reflexivity|].
Ltac thread n tac := step ltac:(eapply ps_worker_at with (i := n); [done|tac]).

(** The future is polled, waits, is woken and finishes; nothing runs any more. *)
Lemma late_run : exists evs p,
  pool_run call poll fresh_pool evs p /\ finished_late evs = [7%Z] /\
  submitted evs = [7%Z] /\ loads (jp_threads p) = 0.
Proof.
  eexists _, _. split.
  { thread 0 ltac:(by apply ws_start).
    step ltac:(eapply (ps_hand_off _ _ 0 (from_future 7 1).2);
      [done|by apply not_elem_of_nil|done]).
    thread 0 ltac:(by apply ws_begin). thread 0 ltac:(apply (ws_end _ _ _ _ _ _ _ _ 0)).
    thread 0 ltac:(apply (ws_notify _ _ _ _ 7)). thread 0 ltac:(by eapply ws_woken).
    thread 0 ltac:(by eapply ws_resumed). step ltac:(by apply ps_drop). apply run_nil. }
  by vm_compute.
Qed.

(** Two workers, and no completion time is to be kept. *)
Definition two_workers : PoolBuilder := mk_PoolBuilder (Some (2, 2)%Z) None None 16 60 0.

Abbreviation busy_pool := (@pool_build Z (ThreadResult Z) nat "pool" (fun _ => true) two_workers).

(** Both find the queue of times empty before either pushes. *)
Lemma both_push : exists evs p,
  pool_run call poll busy_pool evs p /\ length (tasks_completion_time (jp_state p)) = 2.
Proof.
  eexists _, _. split.
  { thread 0 ltac:(by apply ws_start). thread 1 ltac:(by apply ws_start).
    step ltac:(eapply (ps_hand_off _ _ 0 (from_closure 7 (Returned 1%Z)).2);
      [done|by apply not_elem_of_nil|done]).
    step ltac:(eapply (ps_hand_off _ _ 1 (from_closure 8 (Returned 2%Z)).2);
      [done|by apply (bool_decide_unpack _); vm_compute|done]).
    thread 0 ltac:(by apply ws_begin). thread 1 ltac:(by apply ws_begin).
    thread 0 ltac:(apply (ws_end _ _ _ _ _ _ _ _ 5)).
    thread 1 ltac:(apply (ws_end _ _ _ _ _ _ _ _ 6)).
    do 3 (thread 0 ltac:(by apply ws_report); thread 1 ltac:(by apply ws_report)).
    apply run_nil. }
  done.
Qed.

(** A late job is counted as running for ever; and the bound on the times is reached. *)
Lemma pool_counters_exact_witness :
  (exists evs p, pool_run call poll fresh_pool evs p /\ loads (jp_threads p) = 0 /\
     running_tasks p = 1%Z) /\
  exists evs p, pool_run call poll busy_pool evs p /\
    length (tasks_completion_time (jp_state p)) = 2 /\
    (Z.of_nat (length (tasks_completion_time (jp_state p))) <= 0 + 2)%Z.
Proof.
  split.
  - destruct late_run as (evs & p & R & L & S & Z0). exists evs, p. split; [exact R|].
    split; [exact Z0|].
    destruct (pool_counters_exact call poll "pool" (fun _ => true) one_worker evs p
      ltac:(done) ltac:(done) R) as (_ & _ & E & _).
    rewrite E, Z0, L. reflexivity.
  - destruct both_push as (evs & p & R & L). exists evs, p. split; [exact R|]. split; [exact L|].
    exact (proj2 (proj2 (proj2 (pool_counters_exact call poll "pool" (fun _ => true) two_workers
      evs p ltac:(done) ltac:(done) R)))).
Defined.

Lemma pool_conserves_jobs_witness : exists evs p,
  pool_run call poll fresh_pool evs p /\ [7%Z] ≡ₚ finished evs ++ dropped evs ++ live p.
Proof.
  destruct late_run as (evs & p & R & L & S & Z0). exists evs, p. split; [exact R|].
  rewrite <- S.
  exact (proj1 (pool_conserves_jobs call poll "pool" (fun _ => true) one_worker evs p ltac:(done) R)).
Defined.

Lemma join_waits_for_workers_witness : exists evs (p : JobPool Z (ThreadResult Z) nat),
  pool_run call poll
    (pool_build "pool" (fun _ => true) (mk_PoolBuilder (Some (2, 2)%Z) None None 16 60 100)) evs p /\
  jp_join p = Joined None true /\ length (jp_threads p) = 1.
Proof.
  destruct (join_waits_for_workers call poll "pool" (fun _ => true) one_worker (Returned 1%Z)
    ltac:(done)) as (_ & evs & p & w & j & R & J & Th).
  exists evs, p. rewrite Th. by split_and!.
Defined.
End ToyPool.
