(* ===== verification/JobScheduler.v ===== *)
(** * The job scheduler: [crates/consensus/job_scheduler/src/lib.rs]

    Three job pools and the back pressure a node computes from their load and from
    what its peers report. The logarithm of the platform is a parameter, and so is
    the sign of a NaN, on which the total order of floats depends. *)

From S2P Require Import Prelude Floats ToyModel Consensus JobTask JobPool.

(** [f32::log10]. *)
Class Log10 := log10 : spec_float -> spec_float.

(** The logarithm of zero. *)
Class Log10Laws `{!Log10} := log10_zero : log10 (S754_zero false) = S754_infinity true.

(** The entries of a cache in the order they are walked. *)
Class LruIter `{!LruCaches} := lru_iter : forall {K V}, LruCache K V -> list (K * V).

(** Whether NaNs carry the sign bit. *)
Class NanSign := nan_negative : bool.

Record BackPressure := mk_BackPressure {
  bp_peer_id : bytes;
  back_pressure : spec_float;
}.

Section back_pressure.
Context `{!NanSign}.

(** [f32::total_cmp] is not [Greater]. *)
Definition total_le (x y : spec_float) : bool :=
  match x, y with
  | S754_nan, S754_nan => true
  | S754_nan, _ => nan_negative
  | _, S754_nan => negb nan_negative
  | S754_zero s1, S754_zero s2 => s1 || negb s2
  | _, _ => match SFcompare x y with Some Gt => false | _ => true end
  end.

(** [a.partial_cmp(b)], a missing answer read as equal, is not [Greater]. *)
Definition partial_le (x y : spec_float) : bool :=
  match SFcompare x y with
  | Some Gt => false
  | _ => true
  end.

Definition positive (x : spec_float) : bool := SFltb (S754_zero false) x.

Definition log_normalized_backpressure (data : list BackPressure) : list BackPressure :=
  let data := stable_sort (fun a b => total_le (back_pressure a) (back_pressure b)) data in
  if bool_decide (2 < length data) then
    let minimum := default (S754_zero false) (back_pressure <$> head data) in
    let maximum := default (S754_zero false) (back_pressure <$> last data) in
    if positive maximum && positive minimum then
      map (fun p => mk_BackPressure (bp_peer_id p)
                      (fdiv F32 (fsub F32 (back_pressure p) minimum)
                         (fsub F32 maximum minimum))) data
    else []
  else [].
End back_pressure.

Section scheduler.
Context `{!Profile, !NanSign, !Log10, !LruCaches, !LruIter}.
Context {T F Fut : Type}.

Record JobScheduler := mk_JobScheduler {
  local_peer_id : bytes;
  local_pool : JobPool T F Fut;
  remote_pool : JobPool T F Fut;
  forwarding_pool : JobPool T F Fut;
  peers_back_pressure : LruCache bytes spec_float;
}.

Definition add_peer_back_pressure (peer_id : bytes) (p : spec_float) (s : JobScheduler)
    : JobScheduler :=
  mk_JobScheduler (local_peer_id s) (local_pool s) (remote_pool s) (forwarding_pool s)
    (Cache_push peer_id p (peers_back_pressure s)).

(** The share [tenths] of the cores, rounded up. *)
Definition cores_allocation (cores tenths : Z) : Z :=
  float_ceil_to_int Usize (fmul F32 (float_of_Z F32 cores) (flit F32 tenths 10)).

Definition scheduler_pool (name : string) (created : nat -> bool) (cores extra : Z)
    : result PoolError (JobPool T F Fut) :=
  max_workers ← arith Usize (cores + extra);
  let b := match with_workers_capacity cores max_workers with
           | Ok b => b
           | _ => PoolBuilder_default
           end in
  Ok (pool_build name created (pb_with_stack_size (2 * 1024 * 1024) b)).

(** For the number of processors, the names of the pools and the threads that can be
    created. *)
Definition JobScheduler_new (num_cpus : Z) (name : nat -> string) (created : nat -> bool)
    (peer_id : bytes) : result PoolError JobScheduler :=
  let cores := Z.max num_cpus 32 in
  local ← scheduler_pool (name 0) created (cores_allocation cores 4) 4;
  remote ← scheduler_pool (name 1) created (cores_allocation cores 4) 4;
  forwarding ← scheduler_pool (name 2) created (cores_allocation cores 2) 2;
  Ok (mk_JobScheduler peer_id local remote forwarding (Cache_new 1000 50000)).

(** [iter().sum::<u128>()]. *)
Definition sum_times (l : list Z) : result PoolError Z :=
  fold_left (fun acc t => total ← acc; arith U128 (total + t)) l (Ok 0%Z).

(** The times are taken out of the queue of the pool. *)
Definition get_avg_job_completion_time (s : State) : State * result PoolError spec_float :=
  let completion_times := tasks_completion_time s in
  (with_times [] s,
   match completion_times with
   | [] => Ok (flit F32 1 1)
   | _ =>
       total ← sum_times completion_times;
       Ok (fdiv F32 (float_of_Z F32 total)
             (float_of_Z F32 (Z.of_nat (length completion_times))))
   end).

Definition drained (p : JobPool T F Fut) : JobPool T F Fut :=
  jp_with (jp_waiting p) (jp_blocked p) (get_avg_job_completion_time (jp_state p)).1
    (jp_threads p) p.

Definition avg_time (p : JobPool T F Fut) : result PoolError spec_float :=
  (get_avg_job_completion_time (jp_state p)).2.

(** What a pool adds to the pressure. *)
Definition pool_pressure (p : JobPool T F Fut) (time : spec_float) : result PoolError spec_float :=
  tasks ← arith Usize (queued_tasks p + running_tasks p);
  Ok (fmul F32 (float_of_Z F32 tasks) time).

Definition local_backpressure (s : JobScheduler) : result PoolError spec_float :=
  local_time ← avg_time (local_pool s);
  remote_time ← avg_time (remote_pool s);
  forwarding_time ← avg_time (forwarding_pool s);
  local ← pool_pressure (local_pool s) local_time;
  remote ← pool_pressure (remote_pool s) remote_time;
  forwarding ← pool_pressure (forwarding_pool s) forwarding_time;
  Ok (fadd F32 (fadd F32 local remote) forwarding).

Definition log_pressure (x : spec_float) : spec_float := fadd F32 (flit F32 1 1) (log10 x).

(** The queues of completion times are emptied on the way. The second sort is by a
    partial order; where it does not relate two values they keep their order. *)
Definition calculate_back_pressure (s : JobScheduler)
    : JobScheduler * result PoolError (BackPressure * list BackPressure) :=
  (mk_JobScheduler (local_peer_id s) (drained (local_pool s)) (drained (remote_pool s))
     (drained (forwarding_pool s)) (peers_back_pressure s),
   local ← local_backpressure s;
   let own := mk_BackPressure (local_peer_id s) (log_pressure local) in
   let peers := map (fun p => mk_BackPressure p.1 (log_pressure p.2))
                  (lru_iter (peers_back_pressure s)) in
   Ok (mk_BackPressure [Byte.x01] (log_pressure local),
       stable_sort (fun a b => partial_le (back_pressure a) (back_pressure b))
         (log_normalized_backpressure (own :: peers)))).

Definition set_local_pool (p : JobPool T F Fut) (s : JobScheduler) : JobScheduler :=
  mk_JobScheduler (local_peer_id s) p (remote_pool s) (forwarding_pool s) (peers_back_pressure s).

Definition set_remote_pool (p : JobPool T F Fut) (s : JobScheduler) : JobScheduler :=
  mk_JobScheduler (local_peer_id s) (local_pool s) p (forwarding_pool s) (peers_back_pressure s).
End scheduler.

Arguments JobScheduler {_} T F Fut.

(** ** What the normalisation gives *)

Section normalisation.
Context `{!NanSign}.

Abbreviation by_pressure := (fun a b => total_le (back_pressure a) (back_pressure b)).

(** Values that sort before every number. *)
Definition bottom (x : spec_float) : bool :=
  match x with
  | S754_infinity true => true
  | S754_nan => nan_negative
  | _ => false
  end.

Lemma bottom_not_positive x : bottom x = true -> positive x = false.
Proof. by destruct x as [|[]| |]. Qed.

Lemma total_le_bottom x y : bottom y = true -> total_le x y = true -> bottom x = true.
Proof.
  unfold total_le, bottom.
  destruct y as [|[]| |]; try done; destruct x as [|[]| |]; try done; by destruct nan_negative.
Qed.

Lemma sort_bottom l :
  Exists (fun p => bottom (back_pressure p) = true) l ->
  exists h, head (stable_sort by_pressure l) = Some h /\ bottom (back_pressure h) = true.
Proof.
  induction l as [|p l IH]; [by intros ?%Exists_nil|]. rewrite Exists_cons. simpl.
  generalize dependent (stable_sort by_pressure l). intros l' IH [B|E].
  - destruct l' as [|q l']; simpl; [by exists p|]. destruct (total_le _ _) eqn:L; [by exists p|].
    exists q. split; [done|]. revert L. unfold total_le, bottom in *.
    by destruct (back_pressure p) as [|[]| |], (back_pressure q) as [|[]| |]; destruct nan_negative.
  - destruct (IH E) as (h & Hh & B). destruct l' as [|q l']; [done|]. injection Hh as ->. simpl.
    destruct (total_le _ _) eqn:L; [|by exists h].
    exists p. split; [done|]. by eapply total_le_bottom.
Qed.

(** One value below every number, and nothing is reported. *)
Lemma normalised_bottom l :
  Exists (fun p => bottom (back_pressure p) = true) l -> log_normalized_backpressure l = [].
Proof.
  intros (h & Hh & B)%sort_bottom. unfold log_normalized_backpressure. rewrite Hh. simpl.
  rewrite (bottom_not_positive _ B), andb_false_r. by case_bool_decide.
Qed.

Lemma stable_sort_related {A} (le : A -> A -> bool) l :
  (forall x y, x ∈ l -> y ∈ l -> le x y = true) -> stable_sort le l = l.
Proof.
  induction l as [|x l IH]; simpl; intros E; [done|]. rewrite IH.
  - destruct l as [|y l]; [done|]. simpl. rewrite E; [done|set_solver..].
  - intros y z Hy Hz. apply E; set_solver.
Qed.

Lemma fsub_self s m e : fsub F32 (S754_finite s m e) (S754_finite s m e) = S754_zero false.
Proof. unfold fsub, SFsub. rewrite Z.sub_diag. by destruct s. Qed.

Lemma SFcompare_self s m e : SFcompare (S754_finite s m e) (S754_finite s m e) = Some Eq.
Proof.
  simpl. rewrite Z.compare_refl. destruct s; by rewrite Pos.compare_cont_refl.
Qed.

(** More than two peers under the same positive pressure are all given an undefined
    one: the normalisation divides zero by zero. *)
Lemma equal_pressures_undefined (ids : list bytes) m e :
  (2 < length ids)%nat ->
  log_normalized_backpressure (map (fun id => mk_BackPressure id (S754_finite false m e)) ids) =
  map (fun id => mk_BackPressure id S754_nan) ids.
Proof.
  intros L. set (x := S754_finite false m e). unfold log_normalized_backpressure.
  rewrite stable_sort_related.
  - rewrite bool_decide_true by (by rewrite length_map). destruct ids as [|i ids]; [simpl in L; lia|].
    assert (back_pressure <$> last (map (fun id => mk_BackPressure id x) (i :: ids)) = Some x) as ->.
    { destruct (last _) as [q|] eqn:Q.
      - apply last_Some_elem_of, list_elem_of_In, in_map_iff in Q as (? & <- & _). done.
      - by apply last_None in Q. }
    simpl head. cbn [fmap option_fmap option_map default]. change (positive x) with true.
    cbv beta iota delta [andb]. rewrite map_map. apply map_ext. intros id.
    cbn [bp_peer_id back_pressure]. f_equal.
    change (fdiv F32 (fsub F32 x x) (fsub F32 x x) = S754_nan). unfold x. by rewrite fsub_self.
  - intros p q (? & <- & _)%list_elem_of_In%in_map_iff (? & <- & _)%list_elem_of_In%in_map_iff.
    unfold total_le, x. simpl back_pressure. cbv iota beta. by rewrite SFcompare_self.
Qed.
End normalisation.

(** ** A scheduler without jobs *)

Section idle.
Context `{!Profile, !NanSign, !Log10, !Log10Laws, !LruCaches, !LruIter}.
Context {T F Fut : Type}.

Definition idle (p : JobPool T F Fut) : Prop :=
  jp_waiting p = [] /\ running_tasks p = 0%Z /\ tasks_completion_time (jp_state p) = [].

Lemma idle_minimum created n (p : JobPool T F Fut) : idle p -> idle (spawn_minimum created n p).
Proof.
  revert p. induction n as [|n IH]; simpl; intros p I; [done|]. apply IH.
  unfold spawn_job, spawn_begin. destruct (_ <=? _)%Z; [done|]. by destruct (created n).
Qed.

Lemma idle_scheduler_pool name created cores extra p :
  scheduler_pool name created cores extra = Ok p -> idle p.
Proof.
  unfold scheduler_pool. destruct (arith _ _); simpl; [|done..]. intros [= <-].
  by apply idle_minimum.
Qed.

Lemma idle_pressure p : idle p ->
  avg_time p = Ok (flit F32 1 1) /\ pool_pressure p (flit F32 1 1) = Ok (S754_zero false).
Proof.
  intros (W & R & Ti). unfold avg_time, get_avg_job_completion_time, pool_pressure, queued_tasks.
  by rewrite Ti, W, R.
Qed.

Definition add_peers (peers : list (bytes * spec_float)) (s : JobScheduler T F Fut)
    : JobScheduler T F Fut :=
  fold_left (fun s p => add_peer_back_pressure p.1 p.2 s) peers s.

Definition idle_scheduler (s : JobScheduler T F Fut) : Prop :=
  idle (local_pool s) /\ idle (remote_pool s) /\ idle (forwarding_pool s).

Lemma idle_new num_cpus name created peer_id s :
  JobScheduler_new num_cpus name created peer_id = Ok s -> idle_scheduler s.
Proof.
  unfold JobScheduler_new. intros E.
  destruct (scheduler_pool (name 0) _ _ _) eqn:E0; simpl in E; [|done..].
  destruct (scheduler_pool (name 1) _ _ _) eqn:E1; simpl in E; [|done..].
  destruct (scheduler_pool (name 2) _ _ _) eqn:E2; simpl in E; [|done..].
  injection E as <-. split_and!; by eapply idle_scheduler_pool.
Qed.

Lemma idle_add_peers peers s :
  idle_scheduler s -> idle_scheduler (add_peers peers s).
Proof. revert s. induction peers as [|p peers IH]; simpl; [done|]. intros s I. by apply IH. Qed.

(** A node whose pools have run nothing reports no back pressure, whatever its peers
    told it: its own load is zero, the logarithm of which is below every number, and
    the normalisation gives up on a value that is not positive. *)
Lemma idle_node_reports_nothing num_cpus name created peer_id peers (s : JobScheduler T F Fut) :
  JobScheduler_new num_cpus name created peer_id = Ok s ->
  (calculate_back_pressure (add_peers peers s)).2 =
  Ok (mk_BackPressure [Byte.x01] (S754_infinity true), []).
Proof.
  intros I%idle_new. apply (idle_add_peers peers) in I.
  set (s' := add_peers peers s) in *. destruct I as (I0 & I1 & I2).
  apply idle_pressure in I0 as [A0 P0], I1 as [A1 P1], I2 as [A2 P2].
  assert (local_backpressure s' = Ok (S754_zero false)) as L.
  { unfold local_backpressure. rewrite A0, A1, A2. simpl. by rewrite P0, P1, P2. }
  assert (log_pressure (S754_zero false) = S754_infinity true) as E.
  { unfold log_pressure. by rewrite log10_zero. }
  unfold calculate_back_pressure. simpl snd. rewrite L. simpl. rewrite E.
  by rewrite normalised_bottom by (by apply Exists_cons_hd).
Qed.
End idle.

(** ** An instance *)

Module ToyScheduler.
#[export] Instance toy_log10 : Log10 := fun x =>
  match x with S754_zero _ => S754_infinity true | _ => x end.
#[export] Instance toy_log10_laws : Log10Laws := eq_refl.
End ToyScheduler.
