(* ===== verification/FileSystem.v ===== *)
(** * Files: what the sources use of [std::fs] and [std::path], and
    [crates/vrrb_core/src/storage_utils.rs]

    A file system is its files and directories, with what the operating system
    refuses and how much it accepts. A path is the list of its components, so that two
    texts of one path name one file; links and [..] are not resolved. *)

From S2P Require Import Prelude TrieBackend.
From Stdlib Require Import Strings.Ascii DecimalString DecimalN.
From stdpp Require Import strings.

(** A method with its error converted. *)
Definition with_error {E F A} (f : E -> F) {S} (m : method S E A) : method S F A := fun s =>
  let '(s', r) := m s in (s', map_err f r).

(** [serde_json::to_string] and [from_str]; an error is its text. *)
Class JsonText (A : Type) := json_to_string : A -> result string string.
Class FromJson (A : Type) := from_json : string -> result string A.

(** ** Texts *)

Abbreviation chars := String.list_ascii_of_string.

(** [str::split] at a character. *)
Fixpoint split_on (c : Ascii.ascii) (s : string) : list string :=
  match s with
  | EmptyString => [EmptyString]
  | String a s' =>
      if Ascii.eqb a c then EmptyString :: split_on c s'
      else match split_on c s' with
           | [] => []
           | p :: ps => String a p :: ps
           end
  end.

(** [str::split_once]. *)
Fixpoint split_once (c : Ascii.ascii) (s : string) : option (string * string) :=
  match s with
  | EmptyString => None
  | String a s' =>
      if Ascii.eqb a c then Some (EmptyString, s')
      else match split_once c s' with
           | Some (l, r) => Some (String a l, r)
           | None => None
           end
  end.

Abbreviation between lo hi a := ((lo <=? a) && (a <=? hi))%N.

(** The ranges of the bytes that follow the first byte of an encoded character. *)
Definition utf8_tail (a : N) : option (list (N * N)) :=
  let cont := (128, 191)%N in
  if (a <=? 127)%N then Some []
  else if between 194 223 a then Some [cont]
  else if (a =? 224)%N then Some [(160, 191)%N; cont]
  else if between 225 236 a then Some [cont; cont]
  else if (a =? 237)%N then Some [(128, 159)%N; cont]
  else if between 238 239 a then Some [cont; cont]
  else if (a =? 240)%N then Some [(144, 191)%N; cont; cont]
  else if between 241 243 a then Some [cont; cont; cont]
  else if (a =? 244)%N then Some [(128, 143)%N; cont; cont]
  else None.

Fixpoint utf8_valid (need : list (N * N)) (l : list N) : bool :=
  match l, need with
  | [], [] => true
  | [], _ :: _ => false
  | a :: l', (lo, hi) :: need' => between lo hi a && utf8_valid need' l'
  | a :: l', [] =>
      match utf8_tail a with
      | Some need' => utf8_valid need' l'
      | None => false
      end
  end.

(** [str::from_utf8] accepts the bytes. *)
Definition is_utf8 (s : string) : bool := utf8_valid [] (Ascii.N_of_ascii <$> chars s).

(** [parse] into an unsigned type and [Display] of its values. *)
Definition parse_uint (t : int_ty) (s : string) : option Z :=
  let digits := match s with
                | String "+"%char s' => s'
                | _ => s
                end in
  d ← (if bool_decide (digits = EmptyString) then None else NilEmpty.uint_of_string digits);
  let z := Z.of_N (N.of_uint d) in
  if in_range t z then Some z else None.

Definition uint_to_string (z : Z) : string := NilZero.string_of_uint (N.to_uint (Z.to_N z)).

(** ** Paths *)

Definition Path := list string.

Definition is_absolute (s : string) : bool :=
  match s with
  | String "/"%char _ => true
  | _ => false
  end.

Definition components (s : string) : Path :=
  let names := filter (fun p => p <> EmptyString /\ p <> ".") (split_on "/"%char s) in
  if is_absolute s then "/" :: names else names.

(** [Path::join]. *)
Definition path_join (p : Path) (s : string) : Path :=
  if is_absolute s then components s else p ++ components s.

(** [Path::parent]. *)
Definition parent (p : Path) : option Path :=
  if bool_decide (p = [] \/ p = ["/"]) then None else Some (removelast p).

(** ** The file system *)

Inductive IoError :=
| NotFound
| PermissionDenied
| AlreadyExists
| IsADirectory
| InvalidData
| StorageFull.

(** [Display] of an error of the operating system. *)
Class IoErrorText := io_error_text : IoError -> string.

(** What the operating system can refuse. *)
Inductive FsOp :=
| FsCreateDir (p : Path)
| FsOpen (p : Path)
| FsCreate (p : Path)
| FsReadDir (p : Path).

Record FileSystem := mk_FileSystem {
  files : gmap Path string;
  dirs : gset Path;
  denied : FsOp -> bool;
  (* the longest contents it takes for a file *)
  limit : Path -> option nat;
}.

Abbreviation fs A := (method FileSystem IoError A).

Definition with_files (m : gmap Path string) (s : FileSystem) : FileSystem :=
  mk_FileSystem m (dirs s) (denied s) (limit s).

Definition with_dirs (d : gset Path) (s : FileSystem) : FileSystem :=
  mk_FileSystem (files s) d (denied s) (limit s).

(** The current directory and the root are always there. *)
Definition is_dir (s : FileSystem) (p : Path) : bool :=
  bool_decide (p = [] \/ p = ["/"] \/ p ∈ dirs s).

Definition make_dir (p : Path) : fs unit := fun s =>
  if is_dir s p then (s, Ok tt)
  else match files s !! p with
       | Some _ => (s, Err AlreadyExists)
       | None =>
           if denied s (FsCreateDir p) then (s, Err PermissionDenied)
           else (with_dirs ({[p]} ∪ dirs s) s, Ok tt)
       end.

Fixpoint make_dirs (ps : list Path) : fs unit :=
  match ps with
  | [] => mret tt
  | p :: ps' => _ ← make_dir p; make_dirs ps'
  end.

(** [fs::create_dir_all]: the missing directories from the outermost on. *)
Definition create_dir_all (p : Path) : fs unit :=
  make_dirs (map (fun n => take n p) (seq 1 (length p))).

(** [File::open], which does not fail for a directory. *)
Definition open_file (p : Path) (s : FileSystem) : result IoError unit :=
  if is_dir s p then Ok tt
  else match files s !! p with
       | Some _ => if denied s (FsOpen p) then Err PermissionDenied else Ok tt
       | None => Err NotFound
       end.

(** [Read::read_to_string] of an open file. *)
Definition read_to_string (p : Path) (s : FileSystem) : result IoError string :=
  match files s !! p with
  | Some contents => if is_utf8 contents then Ok contents else Err InvalidData
  | None => Err IsADirectory
  end.

(** Opening to write, with [create] and [truncate]. *)
Definition open_truncate (p : Path) : fs unit := fun s =>
  if is_dir s p then (s, Err IsADirectory)
  else if negb (is_dir s (default [] (parent p))) then (s, Err NotFound)
  else if denied s (FsCreate p) then (s, Err PermissionDenied)
  else (with_files (<[p := EmptyString]> (files s)) s, Ok tt).

(** What is left of a text of which a device takes [n] bytes. *)
Definition clip (n : option nat) (s : string) : string :=
  match n with
  | Some n => String.substring 0 n s
  | None => s
  end.

Definition fits (n : option nat) (s : string) : bool :=
  match n with
  | Some n => bool_decide (String.length s <= n)%nat
  | None => true
  end.

(** [Write::write_all]: what the device takes of the bytes is written. *)
Definition write_all (p : Path) (buf : string) : fs unit := fun s =>
  let contents := default EmptyString (files s !! p) +:+ buf in
  (with_files (<[p := clip (limit s p) contents]> (files s)) s,
   if fits (limit s p) contents then Ok tt else Err StorageFull).

(** [fs::write]. *)
Definition fs_write (p : Path) (contents : string) : fs unit :=
  _ ← open_truncate p; write_all p contents.

(** [fs::read_to_string]. *)
Definition fs_read_to_string (p : Path) (s : FileSystem) : result IoError string :=
  _ ← open_file p s; read_to_string p s.

(** [fs::read]. *)
Definition fs_read (p : Path) (s : FileSystem) : result IoError bytes :=
  _ ← open_file p s;
  match files s !! p with
  | Some contents => Ok (str_bytes contents)
  | None => Err IsADirectory
  end.

(** The order in which a directory is listed. *)
Class DirOrder := dir_order : list string -> list string.

Class DirOrderLaws `{!DirOrder} := dir_order_perm : forall l, dir_order l ≡ₚ l.

(** [fs::read_dir]: the names of the entries. *)
Definition entry_name (dir : Path) (p : Path) : option string :=
  match last p with
  | Some name => if bool_decide (p = dir ++ [name]) then Some name else None
  | None => None
  end.

Definition entries (dir : Path) (s : FileSystem) : list string :=
  omap (entry_name dir) (elements (dirs s ∪ dom (files s))).

Definition read_dir `{!DirOrder} (dir : Path) (s : FileSystem) : result IoError (list string) :=
  if negb (is_dir s dir) then Err NotFound
  else if denied s (FsReadDir dir) then Err PermissionDenied
  else Ok (dir_order (entries dir s)).

(** ** Lemmas on texts *)

Lemma split_on_none c s : c ∉ chars s -> split_on c s = [s].
Proof.
  induction s as [|a s IH]; simpl; [done|]. rewrite not_elem_of_cons. intros [N M].
  destruct (Ascii.eqb_spec a c) as [->|]; [done|]. by rewrite IH.
Qed.

Lemma split_on_cons c s t : c ∉ chars s -> split_on c (s +:+ String c t) = s :: split_on c t.
Proof.
  induction s as [|a s IH]; simpl; [by rewrite Ascii.eqb_refl|].
  rewrite not_elem_of_cons. intros [N M].
  destruct (Ascii.eqb_spec a c) as [->|]; [done|]. by rewrite IH.
Qed.

Lemma split_once_cons c s t : c ∉ chars s -> split_once c (s +:+ String c t) = Some (s, t).
Proof.
  induction s as [|a s IH]; simpl; [by rewrite Ascii.eqb_refl|].
  rewrite not_elem_of_cons. intros [N M].
  destruct (Ascii.eqb_spec a c) as [->|]; [done|]. by rewrite IH.
Qed.

Lemma chars_app s t : chars (s +:+ t) = chars s ++ chars t.
Proof. induction s as [|a s IH]; simpl; [done|]. by rewrite IH. Qed.

Lemma chars_length s : length (chars s) = String.length s.
Proof. induction s; simpl; auto. Qed.

#[export] Instance chars_inj : Inj (=) (=) String.list_ascii_of_string.
Proof.
  intros s t E. by rewrite <-(String.string_of_list_ascii_of_string s), E, String.string_of_list_ascii_of_string.
Qed.

Lemma chars_substring n s : chars (String.substring 0 n s) = take n (chars s).
Proof. revert n. induction s as [|a s IH]; intros [|n]; simpl; [done..|]. by rewrite IH. Qed.

Lemma is_utf8_ascii s : Forall (fun c => (N_of_ascii c <= 127)%N) (chars s) -> is_utf8 s = true.
Proof.
  unfold is_utf8. induction (chars s) as [|c l IH]; simpl; [done|]. intros [L F]%Forall_cons.
  unfold utf8_tail. apply N.leb_le in L as ->. by apply IH.
Qed.

Lemma clip_all n s : fits n s = true -> clip n s = s.
Proof.
  destruct n as [n|]; simpl; [|done]. intros L%bool_decide_eq_true. apply (inj chars).
  rewrite chars_substring, take_ge; [done|]. by rewrite chars_length.
Qed.

Lemma clip_clip n s t : clip n (clip n s +:+ t) = clip n (s +:+ t).
Proof.
  destruct n as [n|]; simpl; [|done]. apply (inj chars).
  rewrite !chars_substring, !chars_app, chars_substring, !take_app, take_take, length_take.
  rewrite Nat.min_id. do 2 f_equal. lia.
Qed.

Lemma parse_uint_to_string t z :
  in_range t z = true -> (0 <= z)%Z -> parse_uint t (uint_to_string z) = Some z.
Proof.
  intros R N. unfold parse_uint, uint_to_string.
  set (d := N.to_uint (Z.to_N z)). set (s := NilZero.string_of_uint d).
  assert (s = NilEmpty.string_of_uint d /\ d <> Decimal.Nil) as [E D].
  { unfold s, NilZero.string_of_uint. destruct d eqn:D; try done.
    exfalso. apply (f_equal N.of_uint) in D as D'. unfold d in D', D.
    rewrite Unsigned.of_to in D'. rewrite D' in D. done. }
  assert (NilEmpty.uint_of_string s = Some d) as P by (rewrite E; apply NilEmpty.usu).
  assert (N.of_uint d = Z.to_N z) as V by apply Unsigned.of_to.
  destruct s as [|c s'] eqn:S; [by destruct d|].
  assert (match String c s' with String "+"%char s'' => s'' | _ => String c s' end = String c s') as ->.
  { rewrite <-S in E. destruct d; simpl in E; rewrite S in E; try done; by injection E as -> ->. }
  rewrite bool_decide_false by done. rewrite P. simpl. rewrite V, Z2N.id by done. by rewrite R.
Qed.

(** ** Lemmas on the file system *)

(** Files and directories are in directories, and no path is both. *)
Definition fs_wf (s : FileSystem) : Prop :=
  (forall p, p ∈ dirs s -> is_dir s (default [] (parent p)) = true) /\
  (forall p, is_Some (files s !! p) ->
     is_dir s p = false /\ is_dir s (default [] (parent p)) = true).

(** The operating system grants and refuses the same. *)
Definition same_os (s s' : FileSystem) : Prop := denied s' = denied s /\ limit s' = limit s.

(** What creating directories does not touch. *)
Definition dirs_added (s s' : FileSystem) : Prop :=
  files s' = files s /\ dirs s ⊆ dirs s' /\ same_os s s'.

#[export] Instance dirs_added_preorder : PreOrder dirs_added.
Proof.
  split; [done|]. intros s1 s2 s3 (F & D & A & B) (F' & D' & A' & B').
  split; [by rewrite F'|]. split; [set_solver|]. split; congruence.
Qed.

Lemma is_dir_mono s s' p : dirs s ⊆ dirs s' -> is_dir s p = true -> is_dir s' p = true.
Proof. unfold is_dir. rewrite !bool_decide_eq_true. set_solver. Qed.

Lemma make_dir_added p s s' r : make_dir p s = (s', r) -> dirs_added s s'.
Proof.
  unfold make_dir. destruct (is_dir s p); [by intros [= <- <-]|].
  destruct (files s !! p); [by intros [= <- <-]|].
  destruct (denied s _); intros [= <- <-]; [done|]. split_and!; [done|set_solver|done].
Qed.

Lemma make_dir_ok p s s' : make_dir p s = (s', Ok tt) -> is_dir s' p = true.
Proof.
  unfold make_dir. destruct (is_dir s p) eqn:D; [by intros [= <-]|].
  destruct (files s !! p); [done|]. destruct (denied s _); intros [= <-].
  apply bool_decide_eq_true. set_solver.
Qed.

Lemma make_dir_wf p s s' r :
  fs_wf s -> is_dir s (default [] (parent p)) = true -> make_dir p s = (s', r) -> fs_wf s'.
Proof.
  unfold make_dir. intros W P. destruct (is_dir s p) eqn:D; [by intros [= <- _]|].
  destruct (files s !! p) eqn:Fp; [by intros [= <- _]|].
  destruct (denied s _); intros [= <- _]; [done|]. destruct W as [Wd Wf].
  assert (dirs s ⊆ dirs (with_dirs ({[p]} ∪ dirs s) s)) as I by set_solver.
  split; simpl.
  - intros q [->%elem_of_singleton|Hq]%elem_of_union; eauto using is_dir_mono.
  - intros q Fq. destruct (Wf q Fq) as [N Q]. split; [|by eapply is_dir_mono].
    apply bool_decide_eq_false in N. apply bool_decide_eq_false. simpl.
    assert (q <> p) by (intros ->; rewrite Fp in Fq; by destruct Fq). set_solver.
Qed.

Lemma make_dirs_added ps s s' r : make_dirs ps s = (s', r) -> dirs_added s s'.
Proof.
  revert s. induction ps as [|p ps IH]; intros s; simpl; [by intros [= <- <-]|].
  unfold mbind, method_bind. destruct (make_dir p s) as [s1 [[]| |]] eqn:M; simpl.
  - intros E. etrans; [by eapply make_dir_added|]. by eapply IH.
  - intros [= <- _]. by eapply make_dir_added.
  - intros [= <- _]. by eapply make_dir_added.
Qed.

Lemma create_dir_all_added p s s' r : create_dir_all p s = (s', r) -> dirs_added s s'.
Proof. apply make_dirs_added. Qed.

Lemma is_dir_parent_take n (p : Path) s :
  (n < length p)%nat -> is_dir s (take n p) = true ->
  is_dir s (default [] (parent (take (S n) p))) = true.
Proof.
  intros L D. unfold parent. case_bool_decide; [by apply bool_decide_eq_true; left|].
  simpl default. by rewrite removelast_firstn.
Qed.

Lemma make_dirs_wf (p : Path) n k s s' r :
  (k + n <= length p)%nat -> fs_wf s -> is_dir s (take k p) = true ->
  make_dirs (map (fun n => take n p) (seq (S k) n)) s = (s', r) ->
  fs_wf s' /\ (r = Ok tt -> is_dir s' (take (k + n) p) = true).
Proof.
  revert k s. induction n as [|n IH]; intros k s L W D; simpl.
  { intros [= <- <-]. by rewrite Nat.add_0_r. }
  unfold mbind, method_bind. destruct (make_dir (take (S k) p) s) as [s1 r1] eqn:M.
  assert (fs_wf s1) as W1.
  { eapply make_dir_wf; [exact W| |exact M]. apply is_dir_parent_take; [lia|done]. }
  destruct r1 as [[]| |]; [|by intros [= <- <-]..]. intros E.
  replace (k + S n) with (S k + n) by lia.
  eapply (IH (S k)); [lia|exact W1|by eapply make_dir_ok|exact E].
Qed.

Lemma create_dir_all_wf p s s' r :
  fs_wf s -> create_dir_all p s = (s', r) -> fs_wf s' /\ (r = Ok tt -> is_dir s' p = true).
Proof.
  intros W E. destruct (make_dirs_wf p (length p) 0 s s' r) as [W' D];
    [done|done|by apply bool_decide_eq_true; left|exact E|].
  split; [done|]. intros R. specialize (D R). simpl in D. by rewrite firstn_all in D.
Qed.

Lemma parent_snoc (p : Path) x : x <> "/" -> parent (p ++ [x]) = Some p.
Proof.
  intros N. unfold parent. rewrite bool_decide_false; [by rewrite removelast_last|].
  intros [E|E]; apply (f_equal last) in E; rewrite last_snoc in E; naive_solver.
Qed.

(** All directories on the way to a directory are there. *)
Lemma is_dir_prefix s p n : fs_wf s -> is_dir s p = true -> is_dir s (take n p) = true.
Proof.
  intros [Wd _]. revert n. induction p as [|x p IH] using rev_ind; intros n D.
  { by rewrite take_nil. }
  destruct (decide (n <= length p)%nat) as [L|L].
  - rewrite take_app_le by done. destruct (decide (p = [])) as [->|Np]; [by rewrite take_nil; apply bool_decide_eq_true; left|].
    apply IH. assert (p ++ [x] <> ["/"]) by (destruct p as [|? []]; naive_solver).
    assert (p ++ [x] <> []) by (by destruct p).
    unfold is_dir in D. rewrite bool_decide_eq_true in D. destruct D as [?|[?|D]]; [done..|].
    specialize (Wd _ D). unfold parent in Wd. rewrite bool_decide_false in Wd by naive_solver.
    simpl in Wd. by rewrite removelast_last in Wd.
  - rewrite take_ge; [done|]. rewrite length_app. simpl. lia.
Qed.

(** Creating a directory that is there changes nothing. *)
Lemma create_dir_all_id p s : fs_wf s -> is_dir s p = true -> create_dir_all p s = (s, Ok tt).
Proof.
  intros W D. unfold create_dir_all.
  induction (seq 1 (length p)) as [|n l IH]; simpl; [done|].
  unfold mbind, method_bind, make_dir at 1. by rewrite is_dir_prefix.
Qed.

(** The file system with what the device takes of a text in a file. *)
Definition store (p : Path) (text : string) (s : FileSystem) : FileSystem :=
  with_files (<[p := clip (limit s p) text]> (files s)) s.

(** A file can be created or replaced. *)
Definition can_create (p : Path) (s : FileSystem) : Prop :=
  is_dir s p = false /\ is_dir s (default [] (parent p)) = true /\ denied s (FsCreate p) = false.

Lemma open_truncate_ok p s : can_create p s -> open_truncate p s = (store p EmptyString s, Ok tt).
Proof.
  intros (N & D & A). unfold open_truncate, store. rewrite N, D, A. simpl.
  by destruct (limit s p) as [[]|].
Qed.

Lemma open_truncate_inv p s s' :
  open_truncate p s = (s', Ok tt) -> can_create p s /\ s' = store p EmptyString s.
Proof.
  intros E. assert (can_create p s) as C.
  { revert E. unfold open_truncate, can_create. destruct (is_dir s p); [done|].
    destruct (is_dir s _); [|done]. simpl. by destruct (denied s _). }
  split; [done|]. rewrite (open_truncate_ok _ _ C) in E. by injection E as <-.
Qed.

Lemma open_truncate_not_panic p s s' : open_truncate p s <> (s', Panic).
Proof.
  unfold open_truncate. destruct (is_dir s p); [done|]. destruct (negb _); [done|].
  by destruct (denied s _).
Qed.

Lemma write_all_store p text buf s :
  write_all p buf (store p text s) =
  (store p (text +:+ buf) s,
   if fits (limit s p) (clip (limit s p) text +:+ buf) then Ok tt else Err StorageFull).
Proof.
  unfold write_all, store. simpl. rewrite lookup_insert_eq. simpl. f_equal.
  unfold with_files. simpl. by rewrite insert_insert_eq, clip_clip.
Qed.

Lemma store_wf p text s : fs_wf s -> can_create p s -> fs_wf (store p text s).
Proof.
  intros [Wd Wf] (N & D & _). split; [exact Wd|]. intros q. simpl.
  destruct (decide (p = q)) as [<-|Ne]; [done|]. rewrite lookup_insert_ne by done. apply Wf.
Qed.

Lemma fs_write_ok p text s :
  can_create p s -> fits (limit s p) text = true -> fs_write p text s = (store p text s, Ok tt).
Proof.
  intros C L. unfold fs_write, mbind, method_bind. rewrite open_truncate_ok by done.
  rewrite write_all_store. assert (clip (limit s p) EmptyString = EmptyString) as ->.
  { by destruct (limit s p) as [[]|]. }
  change (EmptyString +:+ text) with text. by rewrite L.
Qed.

Lemma fs_write_inv p text s s' :
  fs_write p text s = (s', Ok tt) ->
  can_create p s /\ fits (limit s p) text = true /\ s' = store p text s.
Proof.
  unfold fs_write, mbind, method_bind.
  destruct (open_truncate p s) as [s1 [[]| |]] eqn:O; [|done..].
  apply open_truncate_inv in O as [C ->]. rewrite write_all_store.
  assert (clip (limit s p) EmptyString = EmptyString) as ->.
  { by destruct (limit s p) as [[]|]. }
  change (EmptyString +:+ text) with text. destruct (fits _ _) eqn:F; [|done]. by intros [= <-].
Qed.

Lemma fs_write_cases p text s :
  (fs_write p text s).1 = s \/ (can_create p s /\ (fs_write p text s).1 = store p text s).
Proof.
  unfold fs_write, mbind, method_bind. destruct (open_truncate p s) as [s1 [[]|e1|]] eqn:O.
  - apply open_truncate_inv in O as [C ->]. rewrite write_all_store. by right.
  - revert O. unfold open_truncate. repeat case_match; intros [= <-]; by left.
  - by apply open_truncate_not_panic in O.
Qed.

Lemma read_contents p text s :
  fs_wf s -> files s !! p = Some text -> denied s (FsOpen p) = false -> is_utf8 text = true ->
  open_file p s = Ok tt /\ read_to_string p s = Ok text.
Proof.
  intros [_ Wf] F D U. unfold open_file, read_to_string.
  destruct (Wf p) as [-> _]; [by rewrite F|]. by rewrite F, D, U.
Qed.

Lemma elem_of_entries dir name s :
  name ∈ entries dir s <-> dir ++ [name] ∈ dirs s ∪ dom (files s).
Proof.
  unfold entries. rewrite list_elem_of_omap. setoid_rewrite elem_of_elements. split.
  - intros (p & Hp & E). unfold entry_name in E. destruct (last p) as [n|]; [|done].
    case_bool_decide; [|done]. injection E as ->. by subst.
  - intros H. exists (dir ++ [name]). split; [done|]. unfold entry_name.
    rewrite last_snoc. by rewrite bool_decide_true.
Qed.

(** ** [crates/vrrb_core/src/storage_utils.rs] *)

Inductive FileError :=
| FileIo (e : IoError)
| FileOther (msg : string).

Definition file_error_to_string `{!IoErrorText} (e : FileError) : string :=
  match e with
  | FileIo e => io_error_text e
  | FileOther msg => msg
  end.

Definition read_file (p : Path) (s : FileSystem) : result FileError unit :=
  map_err FileIo (open_file p s).

Definition create_dir (p : Path) : method FileSystem FileError unit := fun s =>
  let '(s', r) := create_dir_all p s in (s', map_err FileIo r).

(** For the value of [VRRB_DATA_DIR_PATH]. *)
Definition vrrb_data_dir (var : option string) : Path :=
  components (default DEFAULT_VRRB_DATA_DIR_PATH var).

Definition node_data_dir (var : option string) : Path := path_join (vrrb_data_dir var) "node".
Definition wallet_data_dir (var : option string) : Path := path_join (vrrb_data_dir var) "wallet".

(** ** Names made of digits *)

Lemma uint_digits d :
  Forall (fun c => between 48 57 (N_of_ascii c) = true) (chars (NilEmpty.string_of_uint d)).
Proof. induction d; simpl; constructor; auto. Qed.

Lemma uint_to_string_digits z :
  Forall (fun c => between 48 57 (N_of_ascii c) = true) (chars (uint_to_string z)) /\
  uint_to_string z <> EmptyString.
Proof.
  unfold uint_to_string, NilZero.string_of_uint. pose proof (uint_digits (N.to_uint (Z.to_N z))) as F.
  destruct (N.to_uint (Z.to_N z)); (split; [|done]); try exact F. by constructor.
Qed.

Lemma uint_to_string_utf8 z : is_utf8 (uint_to_string z) = true.
Proof.
  apply is_utf8_ascii. destruct (uint_to_string_digits z) as [F _].
  eapply Forall_impl; [exact F|]. intros c [_ L%N.leb_le]%andb_true_iff. lia.
Qed.

Lemma path_join_uint p z : path_join p (uint_to_string z) = p ++ [uint_to_string z].
Proof.
  destruct (uint_to_string_digits z) as [F N]. set (t := uint_to_string z) in *.
  assert ("/"%char ∉ chars t) as S.
  { intros E. rewrite Forall_forall in F. by specialize (F _ E). }
  assert (is_absolute t = false) as A.
  { destruct t as [|c t']; [done|]. simpl. destruct (decide (c = "/"%char)) as [->|Ne].
    - destruct S. by left.
    - by repeat (match goal with b : bool |- _ => destruct b | c : ascii |- _ => destruct c end). }
  unfold path_join, components. rewrite A, split_on_none by done. f_equal.
  rewrite filter_cons_True; [done|]. split; [done|]. intros E. rewrite E in F.
  apply Forall_cons in F as [F _]. done.
Qed.

Lemma is_dir_uint s (p : Path) z :
  is_dir s (p ++ [uint_to_string z]) = true -> p ++ [uint_to_string z] ∈ dirs s.
Proof.
  intros [D|[D|D]]%bool_decide_eq_true; [by destruct p| |done].
  apply (f_equal last) in D. rewrite last_snoc in D. injection D as D.
  destruct (uint_to_string_digits z) as [Dg _]. rewrite D in Dg.
  by apply Forall_cons in Dg as [Dg _].
Qed.
