(* ===== verification/KeyFiles.v ===== *)
(** * Key files: [crates/vrrb_core/src/keypair.rs] and [helpers.rs]

    The two formats in which secret keys are kept on disk: the two secrets of a node,
    and the key pair of a wallet. *)

From S2P Require Import Prelude Primitives Keypair Transactions ToyModel Storage TrieBackend FileSystem.
From Stdlib Require Import Strings.Ascii Strings.Byte.

(** The digits [hex] writes, and the length of a secret. *)
Class KeyTextLaws `{!Hashing, !Secp256k1} := {
  hex_encode_digits : forall b c, c ∈ chars (hex_encode b) ->
    between 48 57 (N_of_ascii c) || between 97 102 (N_of_ascii c) = true;
  sk_from_slice_length : forall b k, sk_from_slice b = Some k -> length b = 32;
}.

(** The secret of a validator takes some bytes. *)
Class ValidatorTextLaws `{!ValidatorKeys} :=
  vsk_serialize_nonempty : forall k b, vsk_serialize k = Some b -> b <> [].

(** [bs58]. *)
Class Base58 := base58_encode : bytes -> string.

(** [bincode] of the keys of a wallet; an error is its text. *)
Class KeyCodec `{!Secp256k1} := {
  sk_encode : SecretKey -> result string bytes;
  sk_decode : bytes -> result string SecretKey;
  pk_encode : PublicKey -> result string bytes;
  pk_decode : bytes -> result string PublicKey;
}.

Class KeyCodecLaws `{!Secp256k1, !KeyCodec} := {
  sk_decode_encode : forall k b, sk_encode k = Ok b -> sk_decode b = Ok k;
  pk_decode_encode : forall k b, pk_encode k = Ok b -> pk_decode b = Ok k;
  sk_decode_not_panic : forall b, sk_decode b <> Panic;
  pk_decode_not_panic : forall b, pk_decode b <> Panic;
}.

Definition line_feed : ascii := ascii_of_N 10.

Abbreviation lines s := (split_on line_feed s).

Section node_keys.
Context `{!Hashing, !Secp256k1, !ValidatorKeys, !IoErrorText, !Base58}.

(** [KeyPair::random], for the secrets it draws. *)
Definition KeyPair_random (validator_sk : ValidatorSecretKey) (miner_sk : SecretKey) : KeyPair :=
  {| miner_kp := (miner_sk, pk_of_sk miner_sk);
     validator_kp := (validator_sk, vsk_public_key validator_sk) |}.

Definition get_peer_id (kp : KeyPair) : string :=
  base58_encode (take 20 (sha256 (pk_serialize (miner_kp kp).2))).

Definition get_key_bytes (miner_sk_content : string) : bytes :=
  default [] (hex_decode miner_sk_content).

(** A line of the file: bytes, of which there must be some. *)
Definition key_line (content : option string) : result KeyPairError bytes :=
  match content with
  | Some content =>
      let bytes := get_key_bytes content in
      if bool_decide (bytes = []) then Err InvalidHex else Ok bytes
  | None => Ok []
  end.

(** For what reading the whole of the reader gives. *)
Definition read_keypair (contents : result IoError string) : result KeyPairError KeyPair :=
  match contents with
  | Ok contents =>
      let key_contents := lines contents in
      validator_bytes ← key_line (key_contents !! 0);
      miner_bytes ← key_line (key_contents !! 1);
      KeyPair_from_bytes validator_bytes miner_bytes
  | Err e => Err (FailedToReadFromFile (io_error_text e))
  | Panic => Panic
  end.

Definition read_keypair_file (p : Path) (s : FileSystem) : result KeyPairError KeyPair :=
  match read_file p s with
  | Ok _ => read_keypair (read_to_string p s)
  | Err e => Err (FailedToReadFromFile (file_error_to_string e))
  | Panic => Panic
  end.

(** [let _ = ...] of a result. *)
Definition ignore {S E A} (m : method S E A) : method S KeyPairError unit := fun s =>
  let '(s', _) := m s in (s', Ok tt).

(** Into the file at [p], which is open. *)
Definition write_keypair (kp : KeyPair) (p : Path)
    : method FileSystem KeyPairError (string * string) :=
  keypair_bytes ← lift (KeyPair_to_bytes kp);
  let serialized_validator_sk := hex_encode keypair_bytes.1 in
  let serialized_miner_sk := hex_encode keypair_bytes.2 in
  _ ← ignore (write_all p serialized_validator_sk);
  _ ← ignore (write_all p (String line_feed EmptyString));
  _ ← ignore (write_all p serialized_miner_sk);
  mret (serialized_validator_sk, serialized_miner_sk).

Definition create_parent (p : Path) : method FileSystem KeyPairError unit :=
  match parent p with
  | Some outdir =>
      with_error (fun _ => KeyIOError "Failed to create directory for storage of  secret key")
        (create_dir outdir)
  | None => mret tt
  end.

Definition write_keypair_file (kp : KeyPair) (p : Path)
    : method FileSystem KeyPairError (string * string) :=
  _ ← create_parent p;
  _ ← with_error (fun _ => KeyIOError "Failed to open directory for storage of  secret key")
        (open_truncate p);
  write_keypair kp p.
End node_keys.

Section wallet_keys.
Context `{!Hashing, !Secp256k1, !IoErrorText, !KeyCodec}.

Abbreviation other prefix := (fun err : string => CoreOther (prefix +:+ err)).

(** [hex::decode], an error with its text. *)
Definition decode_line (what : string) (line : string) : result CoreError bytes :=
  match hex_decode line with
  | Some b => Ok b
  | None => Err (CoreOther ("failed to decode " +:+ what +:+ ": " +:+ hex_decode_error line))
  end.

(** [helpers::read_keypair]; indexing a missing line panics. *)
Definition helpers_read_keypair (contents : result IoError string)
    : result CoreError (SecretKey * PublicKey) :=
  contents ← map_err (fun e => CoreIo (io_error_text e)) contents;
  let key_contents := lines contents in
  line0 ← unwrap (ok_or (key_contents !! 0) tt);
  decoded_sk ← decode_line "secret key" line0;
  line1 ← unwrap (ok_or (key_contents !! 1) tt);
  decoded_pk ← decode_line "public key" line1;
  sk ← map_err (other "failed to deserialize secret key: ") (sk_decode decoded_sk);
  pk ← map_err (other "failed to deserialize public key: ") (pk_decode decoded_pk);
  Ok (sk, pk).

Definition helpers_read_keypair_file (p : Path) (s : FileSystem)
    : result CoreError (SecretKey * PublicKey) :=
  match read_file p s with
  | Ok _ => helpers_read_keypair (read_to_string p s)
  | Err e => Err (CoreOther (file_error_to_string e))
  | Panic => Panic
  end.

Definition helpers_write_keypair_file (p : Path) (keypair : SecretKey * PublicKey)
    : method FileSystem CoreError unit :=
  sk_ser ← lift (map_err (other "failed to serialize secret key: ") (sk_encode keypair.1));
  pk_ser ← lift (map_err (other "failed to serialize public key: ") (pk_encode keypair.2));
  with_error (fun e => CoreOther ("failed to write keypair file: " +:+ io_error_text e))
    (fs_write p (hex_encode sk_ser +:+ String line_feed (hex_encode pk_ser))).

(** For the secret key it draws when the file cannot be read. *)
Definition read_or_generate_keypair_file (drawn : SecretKey) (p : Path)
    : method FileSystem CoreError (SecretKey * PublicKey) := fun s =>
  match helpers_read_keypair_file p s with
  | Ok keypair => (s, Ok keypair)
  | Err _ =>
      let keypair := (drawn, pk_of_sk drawn) in
      (_ ← with_error (fun err =>
              CoreOther ("failed to write keypair file: " +:+ core_error_to_string err))
            (helpers_write_keypair_file p keypair);
       mret keypair) s
  | Panic => (s, Panic)
  end.
End wallet_keys.

(** ** Correctness *)

Section texts.
Context `{!Hashing, !HashingLaws, !Secp256k1, !KeyTextLaws}.

Lemma hex_no_line_feed b : line_feed ∉ chars (hex_encode b).
Proof. intros E. by apply hex_encode_digits in E. Qed.

Lemma hex_ascii b : Forall (fun c => (N_of_ascii c <= 127)%N) (chars (hex_encode b)).
Proof.
  apply Forall_forall. intros c E. apply hex_encode_digits in E.
  apply orb_true_iff in E as [E|E]; apply andb_true_iff in E as [_ E%N.leb_le]; lia.
Qed.

(** The text of a key file. *)
Definition key_text (a b : bytes) : string := hex_encode a +:+ String line_feed (hex_encode b).

Lemma key_text_lines a b : lines (key_text a b) = [hex_encode a; hex_encode b].
Proof.
  unfold key_text. rewrite split_on_cons by apply hex_no_line_feed.
  by rewrite split_on_none by apply hex_no_line_feed.
Qed.

Lemma clip_key_text_utf8 n a b : is_utf8 (clip n (key_text a b)) = true.
Proof.
  apply is_utf8_ascii. destruct n as [n|]; simpl; [rewrite chars_substring; apply Forall_take|];
    (unfold key_text; rewrite chars_app; apply Forall_app; split; [apply hex_ascii|];
     constructor; [done|apply hex_ascii]).
Qed.

(** A text that is cut off has one line, or a second one that is too short. *)
Lemma cut_lines n a b :
  fits (Some n) (key_text a b) = false ->
  exists l0, lines (clip (Some n) (key_text a b)) = [l0] \/
    exists l1, lines (clip (Some n) (key_text a b)) = [l0; l1] /\
      String.length l1 < String.length (hex_encode b).
Proof.
  intros F%bool_decide_eq_false. simpl. set (t := String.substring 0 n (key_text a b)).
  assert (chars t = take n (chars (hex_encode a) ++ line_feed :: chars (hex_encode b))) as T.
  { unfold t, key_text. by rewrite chars_substring, chars_app. }
  rewrite <-chars_length in F. unfold key_text in F. rewrite chars_app, length_app in F. simpl in F.
  rewrite take_app in T.
  destruct (n - length (chars (hex_encode a))) as [|k] eqn:K; simpl in T.
  - exists t. left. apply split_on_none. rewrite T, app_nil_r.
    intros E%elem_of_take. destruct E as (? & E & _). apply list_elem_of_lookup_2 in E.
    by apply hex_no_line_feed in E.
  - rewrite take_ge in T by lia.
    set (l1 := String.string_of_list_ascii (take k (chars (hex_encode b)))).
    assert (chars l1 = take k (chars (hex_encode b))) as L1
      by apply String.list_ascii_of_string_of_list_ascii.
    assert (t = hex_encode a +:+ String line_feed l1) as ->.
    { apply (inj chars). rewrite T, chars_app. simpl. by rewrite L1. }
    exists (hex_encode a). right. exists l1. rewrite split_on_cons by apply hex_no_line_feed.
    split.
    + f_equal. apply split_on_none. rewrite L1. intros E%elem_of_take. destruct E as (? & E & _).
      apply list_elem_of_lookup_2 in E. by apply hex_no_line_feed in E.
    + rewrite <-!chars_length, L1, length_take. lia.
Qed.
End texts.

(** Reading back a file of a file system. *)
Lemma read_stored p text s :
  can_create p s -> denied s (FsOpen p) = false -> is_utf8 (clip (limit s p) text) = true ->
  open_file p (store p text s) = Ok tt /\
  read_to_string p (store p text s) = Ok (clip (limit s p) text).
Proof.
  intros (N & _) O U. unfold open_file, read_to_string. simpl. rewrite lookup_insert_eq.
  change (is_dir (store p text s) p) with (is_dir s p). by rewrite N, O, U.
Qed.

Section node_files.
Context `{!Hashing, !HashingLaws, !Secp256k1, !Secp256k1Laws, !ValidatorKeys, !ValidatorKeysLaws}.
Context `{!KeyTextLaws, !ValidatorTextLaws, !IoErrorText}.

Lemma to_bytes_ok kp v m : KeyPair_to_bytes kp = Ok (v, m) -> v <> [] /\ length m = 32.
Proof.
  unfold KeyPair_to_bytes. destruct (vsk_serialize _) as [b|] eqn:S; [|done]. intros [= <- <-].
  split; [by eapply vsk_serialize_nonempty|]. eapply sk_from_slice_length, sk_from_slice_bytes.
Qed.

Lemma write_keypair_store kp p v m s :
  KeyPair_to_bytes kp = Ok (v, m) ->
  write_keypair kp p (store p EmptyString s) =
    (store p (key_text v m) s, Ok (hex_encode v, hex_encode m)).
Proof.
  intros B. unfold write_keypair, mbind, method_bind, lift, ignore. rewrite B. cbn [fst snd].
  rewrite !write_all_store. unfold mret, method_ret. f_equal. f_equal.
  apply (inj chars). unfold key_text. by rewrite !chars_app, <-app_assoc.
Qed.

Lemma read_key_text v m kp :
  v <> [] -> m <> [] -> KeyPair_from_bytes v m = Ok kp -> read_keypair (Ok (key_text v m)) = Ok kp.
Proof.
  intros V M E. unfold read_keypair. rewrite key_text_lines. simpl. unfold get_key_bytes.
  rewrite !hex_decode_encode. simpl. rewrite !bool_decide_false by done. exact E.
Qed.

Lemma from_bytes_short v m : length m <> 32 -> KeyPair_from_bytes v m = Err InvalidKeyPair.
Proof.
  intros L. unfold KeyPair_from_bytes. destruct (sk_from_slice m) eqn:S; [|done].
  by apply sk_from_slice_length in S.
Qed.

Lemma read_cut_text n v m :
  length m = 32 -> fits (Some n) (key_text v m) = false ->
  is_err (read_keypair (Ok (clip (Some n) (key_text v m)))) = true.
Proof.
  intros L F. unfold read_keypair.
  destruct (cut_lines n v m F) as (l0 & [-> | (l1 & -> & L1)]); cbn [lookup list_lookup key_line];
    unfold mbind, result_bind; (case_bool_decide; [done|]).
  - by rewrite from_bytes_short.
  - case_bool_decide; [done|]. rewrite from_bytes_short; [done|]. unfold get_key_bytes in *.
    destruct (hex_decode l1) as [b|] eqn:D; [|done]. apply hex_decode_length in D.
    rewrite hex_encode_length in L1. simpl. lia.
Qed.

(** Reading back gives the pair exactly when the device took all of its text. *)
Lemma read_stored_key kp p v m s :
  KeyPair_wf kp -> KeyPair_to_bytes kp = Ok (v, m) ->
  can_create p s -> denied s (FsOpen p) = false ->
  (fits (limit s p) (key_text v m) = true ->
     read_keypair_file p (store p (key_text v m) s) = Ok kp) /\
  (fits (limit s p) (key_text v m) = false ->
     is_err (read_keypair_file p (store p (key_text v m) s)) = true).
Proof.
  intros W B O D. destruct (to_bytes_ok _ _ _ B) as [V L]. unfold read_keypair_file, read_file.
  destruct (read_stored p (key_text v m) s O D) as [-> ->]; [apply clip_key_text_utf8|]. simpl.
  split; intros F.
  - rewrite clip_all by done. apply read_key_text; [done|by destruct m|].
    by apply KeyPair_bytes_roundtrip.
  - destruct (limit s p) as [n|]; [|done]. by apply read_cut_text.
Qed.

(** C32. Writing the key pair of a node: once its directory is there and the file can be
    opened the call reports success with the two encoded secrets, whatever becomes of
    the writes; the file of the path, and no other, is replaced by what the device
    took. Reading the file gives the pair back exactly when the device took all. *)
Theorem node_key_file_spec kp p s s1 v m :
  KeyPair_wf kp -> KeyPair_to_bytes kp = Ok (v, m) ->
  create_parent p s = (s1, Ok tt) -> can_create p s1 -> denied s1 (FsOpen p) = false ->
  exists s', write_keypair_file kp p s = (s', Ok (hex_encode v, hex_encode m)) /\
    files s' = <[p := clip (limit s1 p) (key_text v m)]> (files s1) /\
    (fits (limit s1 p) (key_text v m) = true -> read_keypair_file p s' = Ok kp) /\
    (fits (limit s1 p) (key_text v m) = false -> is_err (read_keypair_file p s') = true).
Proof.
  intros W B C O D. exists (store p (key_text v m) s1).
  split; [|split; [done|by apply read_stored_key]].
  unfold write_keypair_file, mbind, method_bind. rewrite C. unfold with_error.
  rewrite open_truncate_ok by done. simpl. by apply write_keypair_store.
Qed.
End node_files.

Section wallet_files.
Context `{!Hashing, !HashingLaws, !Secp256k1, !KeyTextLaws, !IoErrorText}.
Context `{!KeyCodec, !KeyCodecLaws}.

Lemma read_wallet_text keypair a b :
  sk_encode keypair.1 = Ok a -> pk_encode keypair.2 = Ok b ->
  helpers_read_keypair (Ok (key_text a b)) = Ok keypair.
Proof.
  intros A B. unfold helpers_read_keypair. cbn [map_err]. unfold mbind, result_bind.
  rewrite key_text_lines. simpl. unfold decode_line. rewrite !hex_decode_encode.
  rewrite (sk_decode_encode _ _ A), (pk_decode_encode _ _ B). simpl. by destruct keypair.
Qed.

Lemma helpers_write_ok p keypair s s' :
  helpers_write_keypair_file p keypair s = (s', Ok tt) ->
  exists a b, sk_encode keypair.1 = Ok a /\ pk_encode keypair.2 = Ok b /\
    can_create p s /\ fits (limit s p) (key_text a b) = true /\ s' = store p (key_text a b) s.
Proof.
  unfold helpers_write_keypair_file, mbind, method_bind, lift.
  destruct (sk_encode keypair.1) as [a| |], (pk_encode keypair.2) as [b| |]; try done.
  simpl. unfold with_error. change (hex_encode a +:+ String line_feed (hex_encode b)) with (key_text a b).
  destruct (fs_write p _ s) as [s1 [[]| |]] eqn:F; [|done..]. intros [= <-].
  apply fs_write_inv in F as (? & ? & ->). eauto 10.
Qed.

(** The key pair of a wallet, once [read_or_generate_keypair_file] has returned it,
    is the one every later call returns, whether it was read or drawn, and later calls
    leave the disk as it is. *)
Lemma wallet_key_stable p drawn s s' keypair :
  denied s (FsOpen p) = false -> read_or_generate_keypair_file drawn p s = (s', Ok keypair) ->
  forall drawn', read_or_generate_keypair_file drawn' p s' = (s', Ok keypair).
Proof.
  intros D E drawn'. unfold read_or_generate_keypair_file in E |- *.
  destruct (helpers_read_keypair_file p s) as [kp|err|] eqn:R; [by injection E as <- <-; rewrite R| |done].
  unfold mbind, method_bind, with_error in E.
  destruct (helpers_write_keypair_file p _ s) as [s1 [[]| |]] eqn:Wr; simpl in E; [|done..].
  injection E as <- <-. apply helpers_write_ok in Wr as (a & b & A & B & C & F & ->).
  unfold helpers_read_keypair_file, read_file.
  destruct (read_stored p (key_text a b) s C D) as [-> ->]; [apply clip_key_text_utf8|].
  rewrite clip_all by done. cbn [map_err]. by rewrite (read_wallet_text _ _ _ A B).
Qed.

(** A readable file whose only line is hexadecimal panics every later call; an empty
    file is such a file. *)
Lemma wallet_key_one_line p drawn s text b :
  open_file p s = Ok tt -> read_to_string p s = Ok text ->
  line_feed ∉ chars text -> hex_decode text = Some b ->
  read_or_generate_keypair_file drawn p s = (s, Panic).
Proof.
  intros O R N X. unfold read_or_generate_keypair_file, helpers_read_keypair_file, read_file.
  rewrite O, R. cbn [map_err]. unfold helpers_read_keypair. cbn [map_err].
  unfold mbind, result_bind. rewrite split_on_none by done. simpl. unfold decode_line. by rewrite X.
Qed.
End wallet_files.

(** ** An instance *)

Module ToyFiles.
Import Toy Sample.

#[export] Instance key_text_laws : KeyTextLaws.
Proof.
  split.
  - intros b c. simpl. induction b as [|x b IH]; simpl; [by intros ?%elem_of_nil|].
    rewrite !elem_of_cons. intros [->|[->|E]]; [by destruct x..|by apply IH].
  - intros b k. simpl. unfold secret_of_bytes. destruct (drop 31 b) as [|? [|]] eqn:D; [done| |done].
    intros _. apply (f_equal length) in D. rewrite length_drop in D. simpl in D. lia.
Qed.

#[export] Instance validator_text_laws : ValidatorTextLaws.
Proof. by intros k b [= <-]. Qed.

#[export] Instance io_text : IoErrorText := fun _ => "io error".

#[export] Instance key_codec : KeyCodec := {|
  sk_encode := fun k => Ok (secret_bytes k);
  sk_decode := fun b => ok_or (secret_of_bytes b) "secret";
  pk_encode := fun k => Ok (key_bytes k);
  pk_decode := fun b => ok_or (key_of_bytes b) "public";
|}.

#[export] Instance key_codec_laws : KeyCodecLaws.
Proof.
  split; simpl.
  - intros k b [= <-]. by destruct k.
  - intros k b [= <-]. by destruct k.
  - intros b. by destruct (secret_of_bytes b).
  - intros b. by destruct (key_of_bytes b).
Qed.

Definition empty_disk : FileSystem := mk_FileSystem ∅ ∅ (fun _ => false) (fun _ => None).

Lemma empty_disk_wf : fs_wf empty_disk.
Proof. split; [set_solver|]. intros p [? F]. simpl in F. by rewrite lookup_empty in F. Qed.

Definition alice_keys : KeyPair := KeyPair_new (x07 : ValidatorSecretKey) alice_sk.

Lemma node_key_file_spec_witness : exists s',
  write_keypair_file alice_keys ["node"; "keypair"] empty_disk =
    (s', Ok (hex_encode [x07], hex_encode (secret_bytes alice_sk))) /\
  read_keypair_file ["node"; "keypair"] s' = Ok alice_keys.
Proof.
  destruct (node_key_file_spec alice_keys ["node"; "keypair"] empty_disk
    (with_dirs {[ ["node"] ]} empty_disk) [x07] (secret_bytes alice_sk)) as (s' & E & _ & R & _).
  - apply KeyPair_new_wf.
  - reflexivity.
  - vm_compute. reflexivity.
  - by vm_compute.
  - reflexivity.
  - exists s'. split; [exact E|]. by apply R.
Defined.

End ToyFiles.
