(* ===== verification/Cli.v ===== *)
(** * The command line: [crates/cli/src/commands]

    The start of a node ([node/run.rs]) up to the point where its configuration is
    handed over, and the wallet commands ([wallet/mod.rs], [wallet/new.rs] and the
    others), over the file system and a remote node. *)

From S2P Require Import Prelude Floats Primitives Keypair Transactions Account Claim Threshold.
From S2P Require Import Storage TrieBackend Quorum Config Events Network Rpc FileSystem KeyFiles.
From S2P Require Import ToyModel BlockProofs StorageProofs Consensus.

Inductive CliError :=
| CliInvalidCommand (cmd : string)
| CliNoSubcommand
| CliOptsError (err : string)
| CliTelemetry (err : string)
| CliNode (err : string)
| CliStorage (err : FileError)
| CliPrimitive (err : NodeError)
| CliIo (err : IoError)
| CliWalletError (err : WalletError)
| CliCoreError (err : CoreError)
| CliOther (err : string).

(** ** Starting a node *)

Section node.
Context `{!Hashing, !Secp256k1, !ValidatorKeys, !SocketAddrs, !Kademlia, !IoErrorText}.

Record RunOpts := mk_RunOpts {
  ro_dettached : bool;
  ro_debug_config : bool;
  ro_id : option string;
  ro_idx : option Z;
  ro_node_type : string;
  ro_data_dir : string;
  ro_db_path : string;
  ro_udp_gossip_address : SocketAddr;
  ro_raptorq_gossip_address : SocketAddr;
  ro_http_api_address : SocketAddr;
  ro_jsonrpc_api_address : SocketAddr;
  ro_grpc_server_address : SocketAddr;
  ro_bootstrap : bool;
  ro_bootstrap_node_addresses : option (list SocketAddr);
  ro_http_api_title : string;
  ro_http_api_version : string;
  ro_gui : bool;
  ro_disable_networking : bool;
  ro_rendezvous_local_address : SocketAddr;
  ro_rendezvous_server_address : SocketAddr;
  ro_public_ip_address : SocketAddr;
}.

(** For the default configuration, which is drawn afresh. *)
Definition NodeConfig_from_opts (default_node_config : NodeConfig) (opts : RunOpts)
    : NodeConfig := {|
  nc_id := default (nc_id default_node_config) (ro_id opts);
  nc_data_dir := ro_data_dir opts;
  nc_db_path := ro_db_path opts;
  nc_node_type :=
    match NodeType_from_str (ro_node_type opts) with
    | Ok node_type => node_type
    | _ => nc_node_type default_node_config
    end;
  nc_raptorq_gossip_address := ro_raptorq_gossip_address opts;
  nc_udp_gossip_address := ro_udp_gossip_address opts;
  nc_rendezvous_local_address := ro_rendezvous_local_address opts;
  nc_http_api_address := ro_http_api_address opts;
  nc_http_api_title :=
    if bool_decide (ro_http_api_title opts = EmptyString)
    then nc_http_api_title default_node_config else ro_http_api_title opts;
  nc_http_api_version := ro_http_api_version opts;
  nc_http_api_shutdown_timeout := nc_http_api_shutdown_timeout default_node_config;
  nc_jsonrpc_server_address := ro_jsonrpc_api_address opts;
  nc_preload_mock_state := nc_preload_mock_state default_node_config;
  nc_bootstrap_config := nc_bootstrap_config default_node_config;
  nc_kademlia_liveness_address := nc_kademlia_liveness_address default_node_config;
  nc_kademlia_peer_id := nc_kademlia_peer_id default_node_config;
  nc_keypair := nc_keypair default_node_config;
  nc_disable_networking := ro_disable_networking opts;
  nc_gui := ro_gui opts;
  nc_rendezvous_server_address := ro_rendezvous_server_address opts;
  nc_public_ip_address := ro_raptorq_gossip_address opts;
  nc_bootstrap_quorum_config := nc_bootstrap_quorum_config default_node_config;
  nc_quorum_config := nc_quorum_config default_node_config;
  nc_enable_block_indexing := nc_enable_block_indexing default_node_config;
  nc_threshold_config := nc_threshold_config default_node_config;
|}.

(** For the local address with a random port. *)
Definition RunOpts_default (localhost : SocketAddr) : RunOpts := {|
  ro_dettached := false; ro_debug_config := false; ro_id := None; ro_idx := None;
  ro_node_type := EmptyString; ro_data_dir := EmptyString; ro_db_path := EmptyString;
  ro_udp_gossip_address := localhost; ro_raptorq_gossip_address := localhost;
  ro_http_api_address := localhost; ro_jsonrpc_api_address := localhost;
  ro_grpc_server_address := localhost; ro_bootstrap := false;
  ro_bootstrap_node_addresses := None; ro_http_api_title := EmptyString;
  ro_http_api_version := EmptyString; ro_gui := false; ro_disable_networking := false;
  ro_rendezvous_local_address := localhost; ro_rendezvous_server_address := localhost;
  ro_public_ip_address := localhost;
|}.

(** The own text unless it is empty; a path that is not UTF-8 counts as empty. *)
Definition own_text (own other : string) : string :=
  if bool_decide (own = EmptyString) then other else own.

Definition own_path (own other : string) : string :=
  if is_utf8 own then own_text own other else other.

Definition RunOpts_merge (self other : RunOpts) : RunOpts := {|
  ro_dettached := ro_dettached other;
  ro_debug_config := ro_debug_config other;
  ro_id := match ro_id self with Some id => Some id | None => ro_id other end;
  ro_idx := match ro_idx self with Some idx => Some idx | None => ro_idx other end;
  ro_node_type :=
    match NodeType_from_str (ro_node_type self) with
    | Ok _ => ro_node_type self
    | _ => ro_node_type other
    end;
  ro_data_dir := own_path (ro_data_dir self) (ro_data_dir other);
  ro_db_path := own_path (ro_db_path self) (ro_db_path other);
  ro_udp_gossip_address := ro_udp_gossip_address other;
  ro_raptorq_gossip_address := ro_raptorq_gossip_address other;
  ro_jsonrpc_api_address := ro_jsonrpc_api_address other;
  ro_grpc_server_address := ro_grpc_server_address other;
  ro_bootstrap := ro_bootstrap other;
  ro_bootstrap_node_addresses :=
    match ro_bootstrap_node_addresses other with
    | None => ro_bootstrap_node_addresses self
    | Some addresses => Some addresses
    end;
  ro_http_api_address := ro_http_api_address other;
  ro_http_api_title := own_text (ro_http_api_title self) (ro_http_api_title other);
  ro_http_api_version := own_text (ro_http_api_version self) (ro_http_api_version other);
  ro_gui := false;
  ro_disable_networking := false;
  ro_rendezvous_local_address := ro_rendezvous_local_address other;
  ro_rendezvous_server_address := ro_rendezvous_server_address other;
  ro_public_ip_address := ro_public_ip_address other;
|}.

Definition key_pair_error_to_string (e : KeyPairError) : string :=
  match e with
  | InvalidKeyPair => "Failed to deserialize the secret key from bytes"
  | SerializeKeyError what _ => "Failed to serialize the  key to bytes: " +:+ what
  | FailedToReadFromFile err => "Failed to read key from file: " +:+ err
  | InvalidHex => "Invalid Hex represenation of secret key"
  | KeyIOError err => "Failed to create directory for storage of secret key: " +:+ err
  | InvalidPublicKey => "Failed to deserialize the public key from bytes"
  | InvalidSignature err => "Invalid signature: " +:+ err
  | SignatureVerificationFailed err => "ECDSA Signature Verification failed: " +:+ err
  | InvalidKey what => "Failed to deserialize " +:+ what +:+ " key "
  end.

(** What is started; the detached mode starts nothing. *)
Inductive Launch :=
| RunBlocking (node_config : NodeConfig)
| RunDettached (node_config : NodeConfig).

Definition launch_config (l : Launch) : NodeConfig :=
  match l with
  | RunBlocking c => c
  | RunDettached c => c
  end.

(** The key pair in the file of the node, or the drawn one, which is written to it. *)
Definition node_keypair (drawn : KeyPair) (p : Path) : method FileSystem CliError KeyPair := fun s =>
  match read_keypair_file p s with
  | Ok keypair => (s, Ok keypair)
  | Err _ =>
      (_ ← with_error (fun err =>
              CliOther ("failed to write keypair file: " +:+ key_pair_error_to_string err))
            (write_keypair_file drawn p);
       mret drawn) s
  | Panic => (s, Panic)
  end.

Definition with_keypair (keypair : KeyPair) (c : NodeConfig) : NodeConfig := {|
  nc_id := nc_id c; nc_data_dir := nc_data_dir c; nc_db_path := nc_db_path c;
  nc_public_ip_address := nc_public_ip_address c; nc_kademlia_peer_id := nc_kademlia_peer_id c;
  nc_kademlia_liveness_address := nc_kademlia_liveness_address c;
  nc_udp_gossip_address := nc_udp_gossip_address c;
  nc_raptorq_gossip_address := nc_raptorq_gossip_address c;
  nc_rendezvous_local_address := nc_rendezvous_local_address c;
  nc_rendezvous_server_address := nc_rendezvous_server_address c;
  nc_node_type := nc_node_type c; nc_http_api_address := nc_http_api_address c;
  nc_http_api_title := nc_http_api_title c; nc_http_api_version := nc_http_api_version c;
  nc_http_api_shutdown_timeout := nc_http_api_shutdown_timeout c;
  nc_jsonrpc_server_address := nc_jsonrpc_server_address c;
  nc_preload_mock_state := nc_preload_mock_state c; nc_bootstrap_config := nc_bootstrap_config c;
  nc_quorum_config := nc_quorum_config c;
  nc_bootstrap_quorum_config := nc_bootstrap_quorum_config c;
  nc_keypair := keypair; nc_gui := nc_gui c; nc_disable_networking := nc_disable_networking c;
  nc_enable_block_indexing := nc_enable_block_indexing c;
  nc_threshold_config := nc_threshold_config c;
|}.

(** For the value of [VRRB_DATA_DIR_PATH], the key pair and the default configuration
    that are drawn. *)
Definition run (var : option string) (drawn : KeyPair) (default_node_config : NodeConfig)
    (args : RunOpts) : method FileSystem CliError Launch :=
  let data_dir := node_data_dir var in
  _ ← with_error CliIo (create_dir_all data_dir);
  keypair ← node_keypair drawn (path_join data_dir "keypair");
  let node_config := with_keypair keypair (NodeConfig_from_opts default_node_config args) in
  mret (if ro_dettached args then RunDettached node_config else RunBlocking node_config).
End node.

(** ** The wallet commands *)

(** [serde_json::to_string_pretty]; an error is its text. *)
Class PrettyJson (A : Type) := to_string_pretty : A -> result string string.

Class AccountJsonLaws `{!Secp256k1, !PrettyJson Account, !FromJson Account} := {
  from_json_pretty : forall (a : Account) t, to_string_pretty a = Ok t -> from_json t = Ok a;
  (* it is a [String] *)
  pretty_utf8 : forall (a : Account) t, to_string_pretty a = Ok t -> is_utf8 t = true;
}.

(** [Display] of the error of parsing a number. *)
Class ParseIntErrorText := parse_int_error : string -> string.

Section wallet_cli.
Context `{!Hashing, !Secp256k1, !SecretKeyParse, !KeyDebug, !ValidatorKeys, !StrDebug}.
Context `{!ToJson Address, !ToJson PublicKey, !ToJson Token, !ToJson Z, !ToJson string}.
Context `{!SocketAddrs, !HashOrder, !IoErrorText, !KeyCodec, !DirOrder, !ParseIntErrorText}.
Context `{!PrettyJson Account, !FromJson Account, !PrettyJson WalletInfo}.
Context `{!PrettyJson (list RpcTransactionRecord)}.
Context {W : Type} (client : RpcClient W).

Inductive WalletCmd :=
| CmdInfo
| CmdTransfer (from : Z) (to : Address) (amount : Z) (token : option Token)
| CmdNew (alias : Z)
| CmdGet (address : string)
| CmdGetMempool (limit : option Z).

Record WalletOpts := mk_WalletOpts {
  wo_rpc_server_address : SocketAddr;
  wo_identity : string;
  wo_subcommand : WalletCmd;
}.

Definition wallet_error_to_string (e : WalletError) : string :=
  match e with
  | WalletRpcError msg => "RPC error: " +:+ msg
  | WalletApiError msg => "API error: " +:+ msg
  | WalletCustom _ => "custom error"
  end.

Abbreviation cli A := (method (FileSystem * W) CliError A).

Definition on_disk {E A} (f : E -> CliError) (m : method FileSystem E A) : cli A := fun s =>
  let '(disk, r) := m s.1 in ((disk, s.2), map_err f r).

(** A call on a wallet, which is kept or dropped afterwards. *)
Definition on_wallet {A} (f : WalletError -> CliError) (w : Wallet)
    (m : method (Wallet * W) WalletError A) : cli A := fun s =>
  let '((_, remote_state), r) := m (w, s.2) in ((s.1, remote_state), map_err f r).

Definition other_error (err : string) : CliError := CliOther err.

(** One entry of the directory of accounts. *)
Definition restore_entry (drawn : Path -> SecretKey) (dir : Path) (name : string)
    : method FileSystem CliError (Z * Address * Account) := fun s =>
  let path := dir ++ [name] in
  (alias ← lift (if is_utf8 name then ok_or (parse_uint U32 name) (CliOther (parse_int_error name))
                 else Err (CliOther "unable to get file name"));
   account_string ← lift (map_err (fun e => CliOther (io_error_text e))
                            (fs_read_to_string (path_join path "account.json") s));
   account ← lift (map_err other_error (from_json account_string));
   keypair ← with_error (fun e => CliOther (core_error_to_string e))
               (read_or_generate_keypair_file (drawn (path_join path "keys")) (path_join path "keys"));
   mret (alias, Address_new keypair.2, account)) s.

Fixpoint restore_entries (drawn : Path -> SecretKey) (dir : Path) (names : list string)
    (accounts : gmap Address Account) (addresses : gmap Z Address)
    : method FileSystem CliError (gmap Address Account * gmap Z Address) :=
  match names with
  | [] => mret (accounts, addresses)
  | name :: names' =>
      e ← restore_entry drawn dir name;
      let '(alias, address, account) := e in
      restore_entries drawn dir names' (<[address := account]> accounts)
        (<[alias := address]> addresses)
  end.

Definition restore_accounts_and_addresses (drawn : Path -> SecretKey) (dir : Path)
    : method FileSystem CliError (gmap Address Account * gmap Z Address) := fun s =>
  match read_dir dir s with
  | Ok names => restore_entries drawn dir names ∅ ∅ s
  | Err e => (s, Err (CliOther (io_error_text e)))
  | Panic => (s, Panic)
  end.

(** [new::exec], for the secret key it draws. *)
Definition new_exec (drawn : SecretKey) (now : Z) (dir : Path) (alias : Z) (w : Wallet) : cli unit :=
  let keypair := (drawn, pk_of_sk drawn) in
  let account_data_dir := path_join dir (uint_to_string alias) in
  _ ← on_disk CliIo (create_dir_all account_data_dir);
  created ← on_wallet (fun err => CliOther ("unable to create account in state: "
                                            +:+ wallet_error_to_string err))
              w (wallet_create_account client now alias keypair.2);
  _ ← on_disk (fun err => CliOther ("unable to write keypair file: " +:+ core_error_to_string err))
        (helpers_write_keypair_file (path_join account_data_dir "keys") keypair);
  account_ser ← lift (map_err (fun err => CliOther ("unable to serialize account data: " +:+ err))
                        (to_string_pretty created.2));
  on_disk (fun err => CliOther ("unable to write account file: " +:+ io_error_text err))
    (fs_write (path_join account_data_dir "account.json") account_ser).

(** The command itself, with what it prints; for the time. *)
Definition wallet_command (drawn : Path -> SecretKey) (now : Z) (dir : Path) (w : Wallet)
    (cmd : WalletCmd) : cli (list string) :=
  match cmd with
  | CmdInfo =>
      info ← lift (map_err (fun err => CliOther ("unable to serialize wallet information: " +:+ err))
                     (to_string_pretty (wallet_info w)));
      mret [info]
  | CmdTransfer from to amount token =>
      digest ← on_wallet (fun err => CliOther (wallet_error_to_string err)) w
                 (send_transaction client from to amount (default Token_default token) now);
      mret [digest]
  | CmdNew alias =>
      _ ← new_exec (drawn (path_join (path_join dir (uint_to_string alias)) "keys")) now dir alias w;
      mret []
  | CmdGet address => fun s =>
      match Address_from_str address with
      | Ok address =>
          match on_wallet (fun err => CliOther (wallet_error_to_string err)) w
                  (wallet_get_account client address) s with
          | (s', Ok account) =>
              (s', account_info ← map_err other_error (to_string_pretty account); Ok [account_info])
          | (s', Err _) => (s', Ok [])
          | (s', Panic) => (s', Panic)
          end
      | Err e => (s, Err (CliPrimitive e))
      | Panic => (s, Panic)
      end
  | CmdGetMempool limit =>
      records ← on_wallet CliWalletError w (get_mempool client);
      text ← lift (map_err other_error (to_string_pretty records));
      mret [text; uint_to_string (default 0%Z limit)]
  end.

Definition wallet_keys_dir (var : option string) : Path := path_join (wallet_data_dir var) "keys".
Definition wallet_accounts_dir (var : option string) : Path :=
  path_join (wallet_keys_dir var) "accounts".

(** [wallet::exec]. *)
Definition wallet_exec (var : option string) (drawn : Path -> SecretKey) (now : Z)
    (connected : SocketAddr -> result string unit) (args : WalletOpts) : cli (list string) :=
  _ ← on_disk CliIo (create_dir_all (wallet_keys_dir var));
  _ ← on_disk CliIo (create_dir_all (wallet_accounts_dir var));
  let keypair_file_path := path_join (wallet_keys_dir var) (wo_identity args) in
  keypair ← on_disk CliCoreError
              (read_or_generate_keypair_file (drawn keypair_file_path) keypair_file_path);
  restored ← on_disk id (restore_accounts_and_addresses drawn (wallet_accounts_dir var));
  w ← lift (map_err (fun err => CliOther ("unable to create wallet: " +:+ wallet_error_to_string err))
              (Wallet_new connected
                 (mk_WalletConfig (wo_rpc_server_address args) keypair.1 keypair.2
                    restored.1 restored.2)));
  wallet_command drawn now (wallet_accounts_dir var) w (wo_subcommand args).
End wallet_cli.

(** ** The identity of a node *)

Section identity.
Context `{!Hashing, !HashingLaws, !Secp256k1, !Secp256k1Laws, !ValidatorKeys, !ValidatorKeysLaws}.
Context `{!KeyTextLaws, !ValidatorTextLaws, !SocketAddrs, !Kademlia, !IoErrorText}.

Abbreviation key_file var := (path_join (node_data_dir var) "keypair").

Lemma key_file_parent var : parent (key_file var) = Some (node_data_dir var).
Proof. by apply parent_snoc. Qed.

(** One start of a node: what it draws, its default configuration and its options. *)
Record Start := mk_Start {
  sta_drawn : KeyPair;
  sta_default : NodeConfig;
  sta_args : RunOpts;
}.

(** Starts one after the other on one disk, with their results. *)
Fixpoint starts (var : option string) (l : list Start) (s : FileSystem)
    : FileSystem * list (result CliError Launch) :=
  match l with
  | [] => (s, [])
  | st :: l' =>
      let '(s1, r) := run var (sta_drawn st) (sta_default st) (sta_args st) s in
      let '(s2, rs) := starts var l' s1 in (s2, r :: rs)
  end.

(** What a start hands over under the key pair [kp]. *)
Definition launched (kp : KeyPair) (st : Start) : Launch :=
  let c := with_keypair kp (NodeConfig_from_opts (sta_default st) (sta_args st)) in
  if ro_dettached (sta_args st) then RunDettached c else RunBlocking c.

(** A key pair with the bytes that are written for it. *)
Definition drawable (kp : KeyPair) (v m : bytes) : Prop :=
  KeyPair_wf kp /\ KeyPair_to_bytes kp = Ok (v, m).

(** The directory of the node is there, and its key file can be written and read. *)
Definition key_file_usable (var : option string) (s : FileSystem) : Prop :=
  fs_wf s /\ is_dir s (node_data_dir var) = true /\ can_create (key_file var) s /\
  denied s (FsOpen (key_file var)) = false.

Lemma usable_store var text s :
  key_file_usable var s -> key_file_usable var (store (key_file var) text s).
Proof. intros (W & D & C & O). split_and!; [by apply store_wf|done..]. Qed.

Lemma run_in_dir var st s s' kp :
  key_file_usable var s -> node_keypair (sta_drawn st) (key_file var) s = (s', Ok kp) ->
  run var (sta_drawn st) (sta_default st) (sta_args st) s = (s', Ok (launched kp st)).
Proof.
  intros (W & D & _) K. unfold run, mbind, method_bind, with_error.
  rewrite create_dir_all_id by done. simpl. by rewrite K.
Qed.

(** A key file that can be read is read. *)
Lemma run_reads var st s kp :
  key_file_usable var s -> read_keypair_file (key_file var) s = Ok kp ->
  run var (sta_drawn st) (sta_default st) (sta_args st) s = (s, Ok (launched kp st)).
Proof. intros U R. apply run_in_dir; [done|]. unfold node_keypair. by rewrite R. Qed.

(** Otherwise the drawn pair is written to it, and what the device takes decides on how
    it is read later. *)
Lemma run_writes var st s v m :
  key_file_usable var s -> is_err (read_keypair_file (key_file var) s) = true ->
  drawable (sta_drawn st) v m ->
  let s' := store (key_file var) (key_text v m) s in
  run var (sta_drawn st) (sta_default st) (sta_args st) s = (s', Ok (launched (sta_drawn st) st)) /\
  key_file_usable var s' /\ limit s' = limit s /\
  (fits (limit s (key_file var)) (key_text v m) = true ->
     read_keypair_file (key_file var) s' = Ok (sta_drawn st)) /\
  (fits (limit s (key_file var)) (key_text v m) = false ->
     is_err (read_keypair_file (key_file var) s') = true).
Proof.
  intros U R [K B] s'. pose proof U as (W & D & C & O).
  split; [|split; [by apply usable_store|split; [done|by apply read_stored_key]]].
  apply run_in_dir; [done|]. unfold node_keypair.
  destruct (read_keypair_file _ s) as [kp'|e|]; [done| |done].
  unfold write_keypair_file, create_parent. rewrite key_file_parent.
  unfold mbind, method_bind, with_error, create_dir. rewrite create_dir_all_id by done. simpl.
  rewrite open_truncate_ok by done. simpl. by rewrite (write_keypair_store _ _ _ _ _ B).
Qed.

Lemma starts_read var l s kp :
  key_file_usable var s -> read_keypair_file (key_file var) s = Ok kp ->
  starts var l s = (s, (fun st => Ok (launched kp st)) <$> l).
Proof.
  intros U R. induction l as [|st l IH]; [done|]. simpl.
  by rewrite (run_reads _ _ _ _ U R), IH.
Qed.

Lemma short_device_full n v m :
  length m = 32 -> (n < 65)%nat -> fits (Some n) (key_text v m) = false.
Proof.
  intros L N. apply bool_decide_eq_false. rewrite <-chars_length. unfold key_text.
  rewrite chars_app, length_app. simpl. rewrite !chars_length, !hex_encode_length. lia.
Qed.

Lemma starts_draw var l s n :
  key_file_usable var s -> is_err (read_keypair_file (key_file var) s) = true ->
  Forall (fun st => exists v m, drawable (sta_drawn st) v m) l ->
  limit s (key_file var) = Some n -> (n < 65)%nat ->
  (starts var l s).2 = (fun st => Ok (launched (sta_drawn st) st)) <$> l.
Proof.
  intros U R F. revert s U R. induction F as [|st l (v & m & Dr) _ IH]; intros s U R L N; [done|].
  destruct (run_writes var st s v m U R Dr) as (E & U' & L' & _ & Cut).
  assert (fits (limit s (key_file var)) (key_text v m) = false) as Fu.
  { rewrite L. apply short_device_full; [|done]. by eapply to_bytes_ok, Dr. }
  simpl. rewrite E. specialize (IH _ U' (Cut Fu)). rewrite L' in IH. specialize (IH L N).
  destruct (starts var l _) as [s2 rs]. simpl in *. by rewrite IH.
Qed.

(** A start creates the directory first, which does nothing once it is there. *)
Lemma starts_in_dir var st l s s0 :
  create_dir_all (node_data_dir var) s = (s0, Ok tt) -> key_file_usable var s0 ->
  starts var (st :: l) s = starts var (st :: l) s0.
Proof.
  intros Cr (W & D & _). simpl. unfold run, mbind, method_bind, with_error.
  by rewrite Cr, create_dir_all_id by done.
Qed.

(** C29. The identity of a node across any number of starts, with whatever options, in a
    directory that is there or can be created, and whose key file can be written and
    read. All of them succeed. If there is a key pair in the file at first, all run
    under it and nothing but the directory is written. If there
    is none but the device takes all of the text of the pair the first start draws,
    all run under that pair. If there is none and the device takes fewer than 65 bytes, the failed
    writes go unnoticed, and every start runs under a fresh pair of its own. *)
Theorem node_identity var first rest s s0 v m :
  create_dir_all (node_data_dir var) s = (s0, Ok tt) -> key_file_usable var s0 -> drawable (sta_drawn first) v m ->
  Forall (fun st => exists v m, drawable (sta_drawn st) v m) rest ->
  (forall kp, read_keypair_file (key_file var) s0 = Ok kp ->
     starts var (first :: rest) s = (s0, (fun st => Ok (launched kp st)) <$> first :: rest)) /\
  (is_err (read_keypair_file (key_file var) s0) = true ->
     fits (limit s0 (key_file var)) (key_text v m) = true ->
     (starts var (first :: rest) s).2 =
       (fun st => Ok (launched (sta_drawn first) st)) <$> first :: rest) /\
  (is_err (read_keypair_file (key_file var) s0) = true ->
     forall n, limit s0 (key_file var) = Some n -> (n < 65)%nat ->
     (starts var (first :: rest) s).2 =
       (fun st => Ok (launched (sta_drawn st) st)) <$> first :: rest).
Proof.
  intros Cr U Dr F. rewrite (starts_in_dir _ _ _ _ _ Cr U). split_and!.
  - intros kp R. by apply starts_read.
  - intros R Fi. destruct (run_writes var first s0 v m U R Dr) as (E & U' & _ & Rd & _).
    simpl. rewrite E. by rewrite (starts_read _ _ _ _ U' (Rd Fi)).
  - intros R n L N. apply (starts_draw _ _ _ n); [done|done|constructor; by eauto|done|done].
Qed.
End identity.

(** ** The accounts of a wallet *)

Section accounts.
Context `{!Hashing, !HashingLaws, !Secp256k1, !SecretKeyParse, !KeyDebug, !ValidatorKeys, !StrDebug}.
Context `{!ToJson Address, !ToJson PublicKey, !ToJson Token, !ToJson Z, !ToJson string}.
Context `{!SocketAddrs, !HashOrder, !IoErrorText, !KeyTextLaws, !KeyCodec, !KeyCodecLaws}.
Context `{!DirOrder, !DirOrderLaws, !ParseIntErrorText}.
Context `{!PrettyJson Account, !FromJson Account, !AccountJsonLaws, !PrettyJson WalletInfo}.
Context `{!PrettyJson (list RpcTransactionRecord)}.
Context {W : Type} (client : RpcClient W).

(** A key file that is written changes no other file and no directory. *)
Definition only_file (p : Path) (s s' : FileSystem) : Prop :=
  dirs s' = dirs s /\ same_os s s' /\ forall q, q <> p -> files s' !! q = files s !! q.

Lemma only_file_store p text s : only_file p s (store p text s).
Proof. split; [done|]. split; [done|]. intros q N. simpl. by rewrite lookup_insert_ne. Qed.

Lemma helpers_write_only p keypair s :
  only_file p s (helpers_write_keypair_file p keypair s).1.
Proof.
  unfold helpers_write_keypair_file, mbind, method_bind, lift.
  destruct (sk_encode keypair.1) as [a| |], (pk_encode keypair.2) as [b| |]; try done.
  simpl. unfold with_error. pose proof (fs_write_cases p (key_text a b) s) as C.
  change (hex_encode a +:+ String line_feed (hex_encode b)) with (key_text a b).
  destruct (fs_write p _ s) as [s1 r]. simpl in *. destruct C as [->|[_ ->]]; [done|].
  apply only_file_store.
Qed.

Lemma read_or_generate_only drawn p s :
  only_file p s (read_or_generate_keypair_file drawn p s).1.
Proof.
  unfold read_or_generate_keypair_file. destruct (helpers_read_keypair_file p s); [done| |done].
  unfold mbind, method_bind, with_error.
  pose proof (helpers_write_only p (drawn, pk_of_sk drawn) s) as O.
  by destruct (helpers_write_keypair_file _ _ s) as [s1 [[]| |]].
Qed.

Abbreviation account_file dir name := (path_join (dir ++ [name]) "account.json").
Abbreviation keys_file dir name := (path_join (dir ++ [name]) "keys").

Lemma read_absent_file p s : files s !! p = None -> is_ok (fs_read_to_string p s) = false.
Proof.
  intros N. unfold fs_read_to_string, open_file, read_to_string. rewrite N. by destruct (is_dir s p).
Qed.

(** Restoring an entry writes at most its key file, and needs its account file. *)
Lemma restore_entry_only drawn dir name s :
  only_file (keys_file dir name) s (restore_entry drawn dir name s).1.
Proof.
  unfold restore_entry, mbind, method_bind, lift.
  destruct (if is_utf8 name then _ else _); [|done..].
  destruct (map_err _ (fs_read_to_string _ s)); [|done..]. destruct (map_err _ (from_json _)); [|done..].
  unfold with_error.
  pose proof (read_or_generate_only (drawn (keys_file dir name)) (keys_file dir name) s) as O.
  by destruct (read_or_generate_keypair_file _ _ s) as [s1 []].
Qed.

Lemma restore_entry_missing drawn dir name s :
  files s !! account_file dir name = None -> is_ok (restore_entry drawn dir name s).2 = false.
Proof.
  intros N%read_absent_file. unfold restore_entry, mbind, method_bind, lift.
  destruct (if is_utf8 name then _ else _); [|done..].
  by destruct (fs_read_to_string _ s).
Qed.

Lemma account_file_not_keys dir name name' : account_file dir name <> keys_file dir name'.
Proof.
  change ((dir ++ [name]) ++ ["account.json"] <> (dir ++ [name']) ++ ["keys"]).
  intros E%(f_equal last). by rewrite !last_snoc in E.
Qed.

(** What a restoration leaves alone: all but key files. *)
Lemma restore_entries_files drawn dir name names accounts addresses s :
  files (restore_entries drawn dir names accounts addresses s).1 !! account_file dir name =
  files s !! account_file dir name /\
  dirs (restore_entries drawn dir names accounts addresses s).1 = dirs s.
Proof.
  revert accounts addresses s. induction names as [|n names IH]; intros accounts addresses s; [done|].
  simpl. unfold mbind, method_bind. pose proof (restore_entry_only drawn dir n s) as (D & _ & F).
  destruct (restore_entry drawn dir n s) as [s1 [[[alias address] account]| |]]; simpl in *;
    rewrite <-(F (account_file dir name)) by apply account_file_not_keys; [|done..].
  rewrite <-D. apply IH.
Qed.

Lemma restore_entries_missing drawn dir name names accounts addresses s :
  name ∈ names -> files s !! account_file dir name = None ->
  is_ok (restore_entries drawn dir names accounts addresses s).2 = false.
Proof.
  revert accounts addresses s. induction names as [|n names IH]; intros accounts addresses s;
    [by intros ?%elem_of_nil|].
  intros [<-|I]%elem_of_cons N; simpl; unfold mbind, method_bind.
  - apply (restore_entry_missing drawn) in N.
    by destruct (restore_entry drawn dir name s) as [s1 []].
  - pose proof (restore_entry_only drawn dir n s) as (_ & _ & F).
    destruct (restore_entry drawn dir n s) as [s1 [[[alias address] account]| |]]; [|done..].
    apply IH; [done|]. simpl in F. rewrite F; [done|apply account_file_not_keys].
Qed.

(** *** An account that was not created *)

(** An alias has its directory and no account in it. *)
Definition account_missing (var : option string) (alias : Z) (s : FileSystem) : Prop :=
  let dir := wallet_accounts_dir var in
  dir ++ [uint_to_string alias] ∈ dirs s /\
  files s !! account_file dir (uint_to_string alias) = None.

Lemma account_missing_mono var alias s s' :
  account_missing var alias s -> dirs s ⊆ dirs s' ->
  files s' !! account_file (wallet_accounts_dir var) (uint_to_string alias) =
  files s !! account_file (wallet_accounts_dir var) (uint_to_string alias) ->
  account_missing var alias s'.
Proof. intros [D F] I E. split; [set_solver|]. by rewrite E. Qed.

Lemma restore_missing var alias drawn s :
  account_missing var alias s ->
  let r := restore_accounts_and_addresses drawn (wallet_accounts_dir var) s in
  is_ok r.2 = false /\ account_missing var alias r.1.
Proof.
  intros M. unfold restore_accounts_and_addresses.
  destruct (read_dir _ s) as [names| |] eqn:R; [|done..]. split.
  - eapply restore_entries_missing; [|apply M]. revert R. unfold read_dir.
    destruct (negb _); [done|]. destruct (denied _ _); [done|]. intros [= <-].
    rewrite dir_order_perm. apply elem_of_entries. destruct M. set_solver.
  - destruct (restore_entries_files drawn (wallet_accounts_dir var) (uint_to_string alias) names ∅ ∅ s)
      as [F D]. eapply account_missing_mono; [exact M|by rewrite D|exact F].
Qed.

(** A later call of the command line, whose identity is not the account file. *)
Record WalletCall := mk_WalletCall {
  wl_drawn : Path -> SecretKey;
  wl_now : Z;
  wl_connected : SocketAddr -> result string unit;
  wl_opts : WalletOpts;
}.

Definition exec_call (var : option string) (c : WalletCall)
    : method (FileSystem * W) CliError (list string) :=
  wallet_exec client var (wl_drawn c) (wl_now c) (wl_connected c) (wl_opts c).

Definition ordinary (var : option string) (alias : Z) (c : WalletCall) : Prop :=
  path_join (wallet_keys_dir var) (wo_identity (wl_opts c)) <>
  account_file (wallet_accounts_dir var) (uint_to_string alias).

Definition later (var : option string) (alias : Z) (s s' : FileSystem * W) : Prop :=
  exists c, ordinary var alias c /\ s' = (exec_call var c s).1.

Lemma exec_call_missing var alias c s :
  account_missing var alias s.1 -> ordinary var alias c ->
  is_ok (exec_call var c s).2 = false /\ account_missing var alias (exec_call var c s).1.1.
Proof.
  intros M O. unfold exec_call, wallet_exec, mbind, method_bind, on_disk. destruct s as [s r]. simpl in M.
  simpl fst. destruct (create_dir_all (wallet_keys_dir var) s) as [s1 r1] eqn:C1.
  apply create_dir_all_added in C1 as (F1 & D1 & _).
  assert (account_missing var alias s1) as M1 by (eapply account_missing_mono; [done..|by rewrite F1]).
  destruct r1; [|done..]. simpl.
  destruct (create_dir_all (wallet_accounts_dir var) s1) as [s2 r2] eqn:C2.
  apply create_dir_all_added in C2 as (F2 & D2 & _).
  assert (account_missing var alias s2) as M2 by (eapply account_missing_mono; [done..|by rewrite F2]).
  destruct r2; [|done..]. simpl. set (p := path_join (wallet_keys_dir var) _).
  pose proof (read_or_generate_only (wl_drawn c p) p s2) as (D3 & _ & F3).
  destruct (read_or_generate_keypair_file _ p s2) as [s3 r3]. simpl in D3, F3.
  assert (account_missing var alias s3) as M3.
  { eapply account_missing_mono; [exact M2|by rewrite D3|]. apply F3, not_eq_sym, O. }
  destruct r3; [|done..]. simpl.
  destruct (restore_missing var alias (wl_drawn c) s3 M3) as [N M4].
  by destruct (restore_accounts_and_addresses _ _ s3) as [s4 []].
Qed.

(** C36. A [wallet new] that the node refuses has made the directory of the account by
    then and leaves it empty; from then on no call of the wallet command line, of
    whatever command and however many came before it, succeeds again. *)
Theorem refused_account_locks_wallet var drawn now alias w s s1 (r r1 : W) msg :
  fs_wf s -> files s !! account_file (wallet_accounts_dir var) (uint_to_string alias) = None ->
  create_dir_all (path_join (wallet_accounts_dir var) (uint_to_string alias)) s = (s1, Ok tt) ->
  cl_create_account W client (Address_new (pk_of_sk drawn)) (Account_new now (pk_of_sk drawn)) r
    = (r1, Err msg) ->
  new_exec client drawn now (wallet_accounts_dir var) alias w (s, r)
    = ((s1, r1), Err (CliOther "unable to create account in state: custom error")) /\
  forall t c, rtc (later var alias) (s1, r1) t -> ordinary var alias c ->
    is_ok (exec_call var c t).2 = false.
Proof.
  intros Wf N C E. split.
  - unfold new_exec, mbind, method_bind, on_disk. simpl fst. rewrite C. simpl.
    unfold on_wallet, wallet_create_account, mbind, method_bind, remote. simpl. by rewrite E.
  - intros t c R O. assert (account_missing var alias t.1) as M;
      [|by eapply exec_call_missing].
    assert (account_missing var alias (s1, r1).1) as M1.
    { destruct (create_dir_all_wf _ _ _ _ Wf C) as [_ D]. specialize (D eq_refl).
      apply create_dir_all_added in C as (F & _). rewrite path_join_uint in D. split.
      - by apply is_dir_uint.
      - simpl. by rewrite F. }
    induction R as [|t1 t2 t3 (c' & O' & ->) R IH]; [done|]. apply IH.
    by apply exec_call_missing.
Qed.

(** *** An account that was created *)

Lemma new_exec_inv drawn now dir alias w s r s' r' :
  new_exec client drawn now dir alias w (s, r) = ((s', r'), Ok tt) ->
  let name := uint_to_string alias in
  exists s1 a b text,
    create_dir_all (dir ++ [name]) s = (s1, Ok tt) /\
    sk_encode drawn = Ok a /\ pk_encode (pk_of_sk drawn) = Ok b /\
    to_string_pretty (Account_new now (pk_of_sk drawn)) = Ok text /\
    can_create (keys_file dir name) s1 /\ fits (limit s1 (keys_file dir name)) (key_text a b) = true /\
    let s2 := store (keys_file dir name) (key_text a b) s1 in
    can_create (account_file dir name) s2 /\ fits (limit s2 (account_file dir name)) text = true /\
    s' = store (account_file dir name) text s2.
Proof.
  unfold new_exec. rewrite path_join_uint. set (name := uint_to_string alias).
  unfold mbind, method_bind, on_disk. simpl fst.
  destruct (create_dir_all _ s) as [s1 [[]| |]] eqn:C; simpl; [|done..].
  unfold on_wallet, wallet_create_account, mbind, method_bind, remote. simpl.
  destruct (cl_create_account _ _ _ _ _) as [r1 [[]| |]]; simpl; [|done..].
  destruct (helpers_write_keypair_file _ _ s1) as [s2 [[]| |]] eqn:K; simpl; [|done..].
  apply helpers_write_ok in K as (a & b & A & B & C1 & F1 & ->). unfold lift.
  destruct (to_string_pretty _) as [text| |] eqn:T; simpl; [|done..].
  destruct (fs_write _ _ _) as [s3 [[]| |]] eqn:Wr; simpl; [|done..]. intros [= <- _].
  apply fs_write_inv in Wr as (C2 & F2 & ->). exists s1, a, b, text. done.
Qed.

(** C30. An account made by [wallet new] is found again: once the command has succeeded,
    the directory of accounts lists its alias, restoring that entry gives the alias, the
    address of the drawn key and the account that was created, and changes nothing on
    the disk; no file but the two of the account was touched. *)
Theorem created_account_restored drawn now dir alias w s r s' r' :
  fs_wf s -> in_range U32 alias = true -> (forall q, denied s (FsOpen q) = false) ->
  new_exec client drawn now dir alias w (s, r) = ((s', r'), Ok tt) ->
  let name := uint_to_string alias in
  name ∈ entries dir s' /\
  (forall drawn', restore_entry drawn' dir name s' =
     (s', Ok (alias, Address_new (pk_of_sk drawn), Account_new now (pk_of_sk drawn)))) /\
  (forall q, q <> keys_file dir name -> q <> account_file dir name -> files s' !! q = files s !! q).
Proof.
  intros Wf A O (s1 & a & b & text & C & Sa & Sb & T & C1 & F1 & C2 & F2 & ->)%new_exec_inv.
  cbv zeta in *. set (name := uint_to_string alias) in *.
  destruct (create_dir_all_wf _ _ _ _ Wf C) as [W1 D]. specialize (D eq_refl).
  apply create_dir_all_added in C as (Fs & _ & Dn & _).
  set (s2 := store (keys_file dir name) (key_text a b) s1).
  set (s3 := store (account_file dir name) text s2).
  assert (fs_wf s3) as W3 by (apply store_wf; [by apply store_wf|done]).
  assert (files s3 !! account_file dir name = Some text) as Fa.
  { simpl. rewrite lookup_insert_eq. f_equal. by apply clip_all. }
  assert (files s3 !! keys_file dir name = Some (key_text a b)) as Fk.
  { simpl. rewrite lookup_insert_ne by apply account_file_not_keys. rewrite lookup_insert_eq.
    f_equal. by apply clip_all. }
  assert (forall q, denied s3 (FsOpen q) = false) as O3 by (intros q; simpl; by rewrite Dn).
  split_and!.
  - apply elem_of_entries, elem_of_union_l. by apply is_dir_uint in D.
  - intros drawn'. unfold restore_entry, mbind, method_bind, lift.
    rewrite (uint_to_string_utf8 alias : is_utf8 name = true).
    assert (parse_uint U32 name = Some alias) as ->.
    { apply parse_uint_to_string; [done|]. by apply andb_true_iff in A as [A%Z.leb_le _]. }
    simpl ok_or. cbv beta iota. unfold fs_read_to_string.
    destruct (read_contents _ _ _ W3 Fa (O3 _)) as [-> ->]; [by eapply pretty_utf8|].
    cbn [mbind result_bind map_err]. rewrite (from_json_pretty _ _ T). cbn [map_err].
    unfold with_error, read_or_generate_keypair_file, helpers_read_keypair_file, read_file.
    destruct (read_contents _ _ _ W3 Fk (O3 _)) as [-> ->]; [apply (clip_key_text_utf8 None)|].
    cbn [map_err]. by rewrite (read_wallet_text (drawn, pk_of_sk drawn) _ _ Sa Sb).
  - intros q N1 N2. simpl. rewrite !lookup_insert_ne by done. by rewrite Fs.
Qed.
End accounts.

(** ** An instance *)

Lemma is_ok_run {S E A} (m : method S E A) s :
  is_ok (m s).2 = true -> exists s' a, m s = (s', Ok a).
Proof. destruct (m s) as [s' [a| |]]; [by eexists _, _|done..]. Qed.

Module ToyCli.
Import Toy Sample ToyBlocks ToyGroup ToyNet ToyFiles.

Definition options : RunOpts := RunOpts_default ip_alice.
Definition config_of (kp : KeyPair) : NodeConfig := NodeConfig_default "node" ip_alice kp.
Definition other_keys : KeyPair := KeyPair_random (Byte.x08 : ValidatorSecretKey) (Byte.x09 : SecretKey).

(** An empty disk that takes [n] bytes per file, and then with the directory of the
    node. *)
Definition bare_disk (n : option nat) : FileSystem :=
  mk_FileSystem ∅ ∅ (fun _ => false) (fun _ => n).
Definition node_disk (n : option nat) : FileSystem :=
  (create_dir_all (node_data_dir None) (bare_disk n)).1.

Lemma node_disk_usable n : key_file_usable None (node_disk n).
Proof.
  split_and!; [|by vm_compute..].
  eapply (create_dir_all_wf (node_data_dir None) (bare_disk n)); [apply empty_disk_wf|].
  apply surjective_pairing.
Qed.

Definition start_with (kp : KeyPair) : Start := mk_Start kp (config_of kp) options.

Lemma start_drawable kp : KeyPair_wf kp -> exists v m, drawable kp v m.
Proof. intros W. eexists _, _. by split. Qed.

Lemma node_identity_witness :
  (starts None [start_with alice_keys; start_with other_keys] (bare_disk None)).2 =
    [Ok (launched alice_keys (start_with alice_keys));
     Ok (launched alice_keys (start_with other_keys))] /\
  (starts None [start_with alice_keys; start_with other_keys] (bare_disk (Some 10))).2 =
    [Ok (launched alice_keys (start_with alice_keys));
     Ok (launched other_keys (start_with other_keys))].
Proof.
  assert (F : Forall (fun st => exists v m, drawable (sta_drawn st) v m) [start_with other_keys]).
  { constructor; [|constructor]. apply start_drawable, KeyPair_new_wf. }
  destruct (start_drawable alice_keys) as (v & m & Dr); [apply KeyPair_new_wf|].
  split.
  - destruct (node_identity None (start_with alice_keys) [start_with other_keys] (bare_disk None)
      (node_disk None) v m eq_refl (node_disk_usable None) Dr F) as (_ & H & _).
    apply H; reflexivity.
  - destruct (node_identity None (start_with alice_keys) [start_with other_keys]
      (bare_disk (Some 10)) (node_disk (Some 10)) v m eq_refl (node_disk_usable (Some 10)) Dr F) as (_ & _ & H).
    apply (H eq_refl 10); [reflexivity|lia].
Defined.

#[local] Instance sk_parse : SecretKeyParse := fun _ => None.
#[local] Instance key_debug : KeyDebug := {| sk_debug _ := "sk"; pk_debug _ := "pk" |}.
#[local] Instance listing : DirOrder := fun l => l.
#[local] Instance listing_laws : DirOrderLaws := fun l => Permutation_refl l.
#[local] Instance parse_text : ParseIntErrorText := fun s => s.

Definition sample_account : Account := Account_new 1700000000 (pk_of_sk alice_sk).

#[local] Instance account_text : PrettyJson Account := fun a =>
  if decide (a = sample_account) then Ok "account" else Err "account".
#[local] Instance account_parse : FromJson Account := fun t =>
  if decide (t = "account") then Ok sample_account else Err "account".
#[local] Instance account_json_laws : AccountJsonLaws.
Proof.
  split; intros a t; unfold to_string_pretty, account_text; (case_decide; [|done]); intros [= <-];
    [by subst|done].
Qed.
#[local] Instance info_text : PrettyJson WalletInfo := fun _ => Ok "info".
#[local] Instance records_text : PrettyJson (list RpcTransactionRecord) := fun _ => Ok "records".

(** A node that answers nothing but the creation of accounts. *)
Definition node_client (answer : result string unit) : RpcClient unit := {|
  cl_get_full_mempool := throw "unavailable";
  cl_create_txn := fun _ => throw "unavailable";
  cl_get_transaction := fun _ => throw "unavailable";
  cl_list_transactions := fun _ => throw "unavailable";
  cl_create_account := fun _ _ => lift answer;
  cl_get_account := fun _ => throw "unavailable";
|}.

Lemma sample_wallet : exists w,
  Wallet_new (fun _ => Ok tt) (mk_WalletConfig ip_alice alice_sk (pk_of_sk alice_sk) ∅ ∅) = Ok w.
Proof. by eexists. Qed.

Definition sample_call : WalletCall :=
  mk_WalletCall (fun _ => alice_sk) 1700000000 (fun _ => Ok tt) (mk_WalletOpts ip_alice "default" CmdInfo).

Lemma refused_account_locks_wallet_witness : exists s1,
  create_dir_all (path_join (wallet_accounts_dir None) (uint_to_string 1)) empty_disk = (s1, Ok tt) /\
  is_ok (exec_call (node_client (Err "refused")) None sample_call (s1, tt)).2 = false.
Proof.
  destruct sample_wallet as [w _].
  destruct (is_ok_run (create_dir_all (path_join (wallet_accounts_dir None) (uint_to_string 1)))
    empty_disk) as (s1 & [] & C); [by vm_compute|].
  exists s1. split; [exact C|].
  refine (proj2 (refused_account_locks_wallet (node_client (Err "refused")) None alice_sk 1700000000 1 w
    empty_disk s1 tt tt "refused" empty_disk_wf eq_refl C eq_refl) (s1, tt) sample_call
    (rtc_refl _ _) _).
  by vm_compute.
Defined.

Lemma created_account_restored_witness : exists s',
  new_exec (node_client (Ok tt)) alice_sk 1700000000 ["accounts"] 1
    (mk_Wallet alice_sk EmptyString (pk_of_sk alice_sk) ∅ ∅ 0) (empty_disk, tt) = ((s', tt), Ok tt) /\
  restore_entry (fun _ => alice_sk) ["accounts"] (uint_to_string 1) s' =
    (s', Ok (1%Z, Address_new (pk_of_sk alice_sk), sample_account)).
Proof.
  destruct (is_ok_run (new_exec (node_client (Ok tt)) alice_sk 1700000000 ["accounts"] 1
    (mk_Wallet alice_sk EmptyString (pk_of_sk alice_sk) ∅ ∅ 0)) (empty_disk, tt))
    as ([s' []] & [] & E); [by vm_compute|].
  exists s'. split; [exact E|].
  exact (proj1 (proj2 (created_account_restored (node_client (Ok tt)) alice_sk 1700000000 ["accounts"] 1
    (mk_Wallet alice_sk EmptyString (pk_of_sk alice_sk) ∅ ∅ 0) empty_disk tt s' tt
    empty_disk_wf eq_refl (fun _ => eq_refl) E)) (fun _ => alice_sk)).
Defined.
End ToyCli.
