(* ===== verification/Wasm.v ===== *)
(** * WebAssembly modules: [crates/wasm_loader], [crates/wasm_runtime] and the commands
    of [crates/wasm_cli]

    The loader that inspects a module, the verdict the command line gives on it, and
    the runtime that executes it. The parser, the assembler and the engine are
    third-party: a parsed module is the list of its sections. *)

From S2P Require Import Prelude FileSystem ToyModel.

(** What the loader looks at of [wasmparser]. *)
Inductive Payload :=
| VersionPayload
| ExportSection (exports : list (result string string))
| ImportSection (imports : list (result string (string * string)))
| OtherPayload.

(** Errors are their texts. *)
Class WasmTools := {
  parse_all : Z -> bytes -> list (result string Payload);
  wat2wasm : bytes -> result string bytes;
}.

(** ** [wasm_loader/src/constants.rs] *)

Definition WASI_NAMESPACE_UNSTABLE : string := "wasi_unstable".
Definition WASI_NAMESPACE_PREVIEW1 : string := "wasi_snapshot_preview1".
Definition WASIX_NAMESPACE_32V1 : string := "wasix_32v1".
Definition WASIX_NAMESPACE_64V1 : string := "wasix_64v1".
Definition JAVY_NAMESPACE_QUICKJS : string := "javy_quickjs_provider_v1".
Definition WASM_MAGIC : bytes := [Byte.x00; Byte.x61; Byte.x73; Byte.x6d].
Definition WASM_PARSE_OFFSET : Z := 0.
Definition WASI_ENTRY_POINT : string := "_start".
Definition VRRB_WASM_MAGIC : string := "_vrrb_abi_magic".
Definition VRRB_WASM_VERSION : string := "_vrrb_abi_version".

(** ** The loader *)

Record WasmLoader := mk_WasmLoader {
  wasm_bytes : bytes;
  wasm_size : Z;
  is_wasi : bool;
  is_wasix : bool;
  needs_javy : bool;
  wat_text : bytes;
  from_wat : bool;
  has_start : bool;
  has_vrrb : bool;
  imports : gmap string (list string);
}.

(** The derived builder: a field is set or not. *)
Record WasmLoaderBuilder := mk_WasmLoaderBuilder {
  b_wasm_bytes : option bytes;
  b_wasm_size : option Z;
  b_is_wasi : option bool;
  b_is_wasix : option bool;
  b_needs_javy : option bool;
  b_wat_text : option bytes;
  b_from_wat : option bool;
  b_has_start : option bool;
  b_has_vrrb : option bool;
  b_imports : option (gmap string (list string));
}.

Definition WasmLoaderBuilder_default : WasmLoaderBuilder :=
  mk_WasmLoaderBuilder None None None None None None None None None None.

Definition set_wasm_bytes (v : bytes) (b : WasmLoaderBuilder) : WasmLoaderBuilder :=
  mk_WasmLoaderBuilder (Some v) (b_wasm_size b) (b_is_wasi b) (b_is_wasix b) (b_needs_javy b)
    (b_wat_text b) (b_from_wat b) (b_has_start b) (b_has_vrrb b) (b_imports b).

Definition set_wat_text (v : bytes) (b : WasmLoaderBuilder) : WasmLoaderBuilder :=
  mk_WasmLoaderBuilder (b_wasm_bytes b) (b_wasm_size b) (b_is_wasi b) (b_is_wasix b)
    (b_needs_javy b) (Some v) (b_from_wat b) (b_has_start b) (b_has_vrrb b) (b_imports b).

Definition set_assembled (v : bytes) (b : WasmLoaderBuilder) : WasmLoaderBuilder :=
  mk_WasmLoaderBuilder (Some v) (b_wasm_size b) (b_is_wasi b) (b_is_wasix b) (b_needs_javy b)
    (b_wat_text b) (Some true) (b_has_start b) (b_has_vrrb b) (b_imports b).

Definition set_imports (v : gmap string (list string)) (b : WasmLoaderBuilder) : WasmLoaderBuilder :=
  mk_WasmLoaderBuilder (b_wasm_bytes b) (b_wasm_size b) (b_is_wasi b) (b_is_wasix b)
    (b_needs_javy b) (b_wat_text b) (b_from_wat b) (b_has_start b) (b_has_vrrb b) (Some v).

(** Flags that the name of an export turns on. *)
Definition see_export (name : string) (b : WasmLoaderBuilder) : WasmLoaderBuilder :=
  mk_WasmLoaderBuilder (b_wasm_bytes b) (b_wasm_size b) (b_is_wasi b) (b_is_wasix b)
    (b_needs_javy b) (b_wat_text b) (b_from_wat b)
    (if bool_decide (name = WASI_ENTRY_POINT) then Some true else b_has_start b)
    (if bool_decide (name = VRRB_WASM_MAGIC \/ name = VRRB_WASM_VERSION) then Some true
     else b_has_vrrb b)
    (b_imports b).

Definition wasi_namespace (m : string) : bool :=
  bool_decide (m = WASI_NAMESPACE_PREVIEW1 \/ m = WASI_NAMESPACE_UNSTABLE).
Definition wasix_namespace (m : string) : bool :=
  bool_decide (m = WASIX_NAMESPACE_32V1 \/ m = WASIX_NAMESPACE_64V1).

(** Flags that the namespace of an import turns on. *)
Definition see_import (m : string) (b : WasmLoaderBuilder) : WasmLoaderBuilder :=
  mk_WasmLoaderBuilder (b_wasm_bytes b) (b_wasm_size b)
    (if wasi_namespace m || wasix_namespace m then Some true else b_is_wasi b)
    (if wasix_namespace m then Some true else b_is_wasix b)
    (if bool_decide (m = JAVY_NAMESPACE_QUICKJS) then Some true else b_needs_javy b)
    (b_wat_text b) (b_from_wat b) (b_has_start b) (b_has_vrrb b) (b_imports b).

Abbreviation scan := (WasmLoaderBuilder * gmap string (list string))%type.

(** A malformed export is an error of the parse; a malformed import panics. *)
Fixpoint scan_exports (exports : list (result string string)) (b : WasmLoaderBuilder)
    : result string WasmLoaderBuilder :=
  match exports with
  | [] => Ok b
  | e :: exports' => name ← e; scan_exports exports' (see_export name b)
  end.

Definition push_import (m name : string) (imports : gmap string (list string))
    : gmap string (list string) :=
  <[m := default [] (imports !! m) ++ [name]]> imports.

Fixpoint scan_imports (l : list (result string (string * string))) (acc : scan)
    : result string scan :=
  match l with
  | [] => Ok acc
  | i :: l' =>
      import ← unwrap i;
      scan_imports l' (see_import import.1 acc.1, push_import import.1 import.2 acc.2)
  end.

Fixpoint scan_payloads (payloads : list (result string Payload)) (acc : scan)
    : result string scan :=
  match payloads with
  | [] => Ok acc
  | p :: payloads' =>
      payload ← p;
      acc' ← match payload with
             | ExportSection s => b ← scan_exports s acc.1; Ok (b, acc.2)
             | ImportSection s => scan_imports s acc
             | _ => Ok acc
             end;
      scan_payloads payloads' acc'
  end.

(** [UninitializedField] and [ValidationError] of the derived builder. *)
Inductive BuildError :=
| UninitializedField (name : string)
| ValidationError (msg : string).

(** Slicing four bytes off a shorter array panics. *)
Definition contains_magic (bytes : bytes) : result BuildError bool :=
  if bool_decide (length bytes < 4)%nat then Panic
  else Ok (bool_decide (take 4 bytes = WASM_MAGIC)).

Definition validate (b : WasmLoaderBuilder) : result BuildError unit :=
  match b_wasm_bytes b with
  | Some bytes =>
      magic ← contains_magic bytes;
      if (magic : bool) then Ok tt else Err (ValidationError "WASM Magic header invalid")
  | None => Err (ValidationError "WASM Magic header not found")
  end.

Definition build_loader (b : WasmLoaderBuilder) : result BuildError WasmLoader :=
  _ ← validate b;
  bytes ← ok_or (b_wasm_bytes b) (UninitializedField "wasm_bytes");
  imports ← ok_or (b_imports b) (UninitializedField "imports");
  Ok {| wasm_bytes := bytes; wasm_size := default 0%Z (b_wasm_size b);
        is_wasi := default false (b_is_wasi b); is_wasix := default false (b_is_wasix b);
        needs_javy := default false (b_needs_javy b); wat_text := default [] (b_wat_text b);
        from_wat := default false (b_from_wat b); has_start := default false (b_has_start b);
        has_vrrb := default false (b_has_vrrb b); imports := imports |}.

Section loader.
Context `{!WasmTools}.

(** The sections are those of the bytes the builder had before the text was assembled. *)
Definition parse (b : WasmLoaderBuilder) : result string WasmLoaderBuilder :=
  new ← match b_wat_text b with
        | Some wat => bytes ← wat2wasm wat; Ok (set_assembled bytes b)
        | None => Ok b
        end;
  scanned ← match b_wasm_bytes b with
            | Some wasm => scan_payloads (parse_all WASM_PARSE_OFFSET wasm) (new, ∅)
            | None => Ok (new, ∅)
            end;
  Ok (set_imports scanned.2 scanned.1).

Inductive LoadError :=
| LoadIo (e : IoError)
| LoadParse (err : string)
| LoadBuild (e : BuildError).

Definition from_filename (p : Path) (s : FileSystem) : result LoadError WasmLoader :=
  bytes ← map_err LoadIo (fs_read p s);
  b ← map_err LoadParse (parse (set_wasm_bytes bytes WasmLoaderBuilder_default));
  map_err LoadBuild (build_loader b).

(** ** The commands *)

Definition SUPPORTED_NAMESPACES : list string := ["env"; "wasi_snapshot_preview1"].

(** What [validate::run] prints after the name of the file. *)
Inductive Message :=
| NotWasi
| NoEntryPoint
| NoExtensions
| UnexpectedNamespaces (l : list string)
| ExpectedToRun (b : bool).

Definition extra_namespaces `{!HashOrder} (w : WasmLoader) : list string :=
  filter (fun m => m ∉ SUPPORTED_NAMESPACES) (hash_iter (imports w)).*1.

Definition expected_to_run `{!HashOrder} (w : WasmLoader) : bool :=
  (is_wasi w || is_wasix w) && has_start w && bool_decide (extra_namespaces w = []).

Definition report `{!HashOrder} (w : WasmLoader) : list Message :=
  (if is_wasi w || is_wasix w then [] else [NotWasi]) ++
  (if has_start w then [] else [NoEntryPoint]) ++
  (if has_vrrb w then [] else [NoExtensions]) ++
  (if bool_decide (extra_namespaces w = []) then [] else [UnexpectedNamespaces (extra_namespaces w)])
  ++ [ExpectedToRun (expected_to_run w)].

(** Reading and parsing are unwrapped. *)
Definition validate_run `{!HashOrder} (p : Path) (s : FileSystem)
    : result BuildError (list Message) :=
  bytes ← unwrap (fs_read p s);
  b ← unwrap (parse (set_wasm_bytes bytes WasmLoaderBuilder_default));
  w ← build_loader b;
  Ok (report w).

(** [describe::run]: the flags and the namespaces it prints after the name of the file. *)
Definition describe_run `{!HashOrder} (p : Path) (s : FileSystem)
    : result LoadError (list (string * bool) * list string) :=
  w ← from_filename p s;
  Ok ([("WASM?", from_wat w); ("WASI?", is_wasi w); ("WASIX?", is_wasix w);
       ("Javy?", needs_javy w); ("Start?", has_start w); ("VRRB?", has_vrrb w)],
      (hash_iter (imports w)).*1).
End loader.

(** ** The runtime *)

(** The engine: compiling, and running a module in a store with its arguments,
    environment and input, which gives what it wrote to its two outputs. *)
Class WasmEngine := {
  WasmStore : Type;
  WasmModule : Type;
  store_default : WasmStore;
  compile : bytes -> result string WasmModule;
  run_with_store : WasmModule -> string -> list string -> list (string * string) -> bytes ->
    WasmStore -> WasmStore * result string (string * string);
}.

Section runtime.
Context `{!WasmEngine, !HashOrder}.

Definition MODULE_ARGV0 : string := "vrrb-contract".

Record WasmRuntime := mk_WasmRuntime {
  wr_store : WasmStore;
  wr_module : WasmModule;
  wr_stdin : bytes;
  wr_stdout : string;
  wr_stderr : string;
  wr_args : list string;
  wr_env : gmap string string;
}.

Definition WasmRuntime_new (wasm_bytes : bytes) : result string WasmRuntime :=
  m ← compile wasm_bytes;
  Ok (mk_WasmRuntime store_default m [] EmptyString EmptyString [] ∅).

Definition wr_with_args (args : list string) (w : WasmRuntime) : result string WasmRuntime :=
  Ok (mk_WasmRuntime (wr_store w) (wr_module w) (wr_stdin w) (wr_stdout w) (wr_stderr w) args
        (wr_env w)).
Definition wr_with_env (env : gmap string string) (w : WasmRuntime) : result string WasmRuntime :=
  Ok (mk_WasmRuntime (wr_store w) (wr_module w) (wr_stdin w) (wr_stdout w) (wr_stderr w) (wr_args w)
        env).
Definition wr_with_stdin (input : bytes) (w : WasmRuntime) : result string WasmRuntime :=
  Ok (mk_WasmRuntime (wr_store w) (wr_module w) input (wr_stdout w) (wr_stderr w) (wr_args w)
        (wr_env w)).

(** [read_to_string] appends to the text it is given, unless what is read is not UTF-8. *)
Definition append_output (text out : string) : string * result string unit :=
  if is_utf8 out then (text +:+ out, Ok tt)
  else (text, Err "stream did not contain valid UTF-8").

Definition execute : method WasmRuntime string unit := fun w =>
  let '(store, r) := run_with_store (wr_module w) MODULE_ARGV0 (wr_args w) (hash_iter (wr_env w))
                       (wr_stdin w) (wr_store w) in
  match r with
  | Ok (out, err) =>
      let '(stdout, r1) := append_output (wr_stdout w) out in
      let w1 := mk_WasmRuntime store (wr_module w) (wr_stdin w) stdout (wr_stderr w) (wr_args w)
                  (wr_env w) in
      match r1 with
      | Ok _ =>
          let '(stderr, r2) := append_output (wr_stderr w) err in
          (mk_WasmRuntime store (wr_module w) (wr_stdin w) stdout stderr (wr_args w) (wr_env w), r2)
      | Err e => (w1, Err e)
      | Panic => (w1, Panic)
      end
  | Err e => (mk_WasmRuntime store (wr_module w) (wr_stdin w) (wr_stdout w) (wr_stderr w)
                (wr_args w) (wr_env w), Err e)
  | Panic => (w, Panic)
  end.

(** An option without an equals sign is dropped, and the last value of a variable counts. *)
Definition env_vars (env : list string) : gmap string string :=
  fold_left (fun m var =>
    match split_once (Ascii.ascii_of_N 61) var with
    | Some (key, value) => <[key := value]> m
    | None => m
    end) env ∅.

(** [execute::run] of the command line: the texts it prints. *)
Inductive ExecuteError :=
| ExecuteIo (e : IoError)
| ExecuteRuntime (err : string).

Definition execute_run (wasm json : Path) (env args : list string) (s : FileSystem)
    : result ExecuteError (string * string) :=
  wasm_bytes ← map_err ExecuteIo (fs_read wasm s);
  json_data ← map_err ExecuteIo (fs_read json s);
  w ← map_err ExecuteRuntime
        (w ← WasmRuntime_new wasm_bytes;
         w ← wr_with_stdin json_data w;
         w ← wr_with_env (env_vars env) w;
         wr_with_args args w);
  let '(w', r) := execute w in
  _ ← map_err ExecuteRuntime r;
  Ok (wr_stdout w', wr_stderr w').
End runtime.

(** ** What the loader finds *)

Definition ok_list {E A} (l : list (result E A)) : option (list A) :=
  mapM (fun r => match r with Ok a => Some a | _ => None end) l.

Arguments ok_list : simpl never.

Definition payload_exports (p : Payload) : option (list string) :=
  match p with
  | ExportSection s => ok_list s
  | _ => Some []
  end.

Definition payload_imports (p : Payload) : option (list (string * string)) :=
  match p with
  | ImportSection s => ok_list s
  | _ => Some []
  end.

(** The exports and the imports of a module whose sections are well-formed. *)
Definition module_exports (ps : list (result string Payload)) : option (list string) :=
  l ← ok_list ps; mjoin <$> mapM payload_exports l.

Definition module_imports (ps : list (result string Payload)) : option (list (string * string)) :=
  l ← ok_list ps; mjoin <$> mapM payload_imports l.

(** The names imported from a namespace, in order. *)
Definition names_of (m : string) (ims : list (string * string)) : list string :=
  (filter (fun i => i.1 = m) ims).*2.

Definition pushed (ims : list (string * string)) (g : gmap string (list string)) :=
  fold_left (fun g i => push_import i.1 i.2 g) ims g.

Definition seen (es : list string) (ims : list (string * string)) (b : WasmLoaderBuilder) :=
  fold_left (fun b i => see_import i.1 b) ims (fold_left (fun b e => see_export e b) es b).

Lemma ok_list_cons {E A} (r : result E A) l l' :
  ok_list (r :: l) = Some l' -> exists a l'', r = Ok a /\ ok_list l = Some l'' /\ l' = a :: l''.
Proof.
  unfold ok_list. simpl. destruct r as [a| |]; simpl; [|done..].
  destruct (mapM _ l) as [l''|]; simpl; [|done]. intros [= <-]. eauto.
Qed.

Lemma see_export_import e m b : see_export e (see_import m b) = see_import m (see_export e b).
Proof. done. Qed.

Lemma seen_export es ims e b : see_export e (seen es ims b) = seen (es ++ [e]) ims b.
Proof.
  unfold seen. rewrite fold_left_app. simpl. generalize (fold_left (fun b e => see_export e b) es b).
  induction ims as [|i ims IH]; intros b'; simpl; [done|]. by rewrite IH, see_export_import.
Qed.

Lemma seen_import es ims i b : see_import i.1 (seen es ims b) = seen es (ims ++ [i]) b.
Proof. unfold seen. by rewrite fold_left_app. Qed.

Lemma scan_exports_seen l es' es ims b :
  ok_list l = Some es' -> scan_exports l (seen es ims b) = Ok (seen (es ++ es') ims b).
Proof.
  revert es es'. induction l as [|r l IH]; intros es es'.
  { intros [= <-]. by rewrite app_nil_r. }
  intros (e & es'' & -> & L & ->)%ok_list_cons. cbn [scan_exports].
  unfold mbind, result_bind. rewrite seen_export, (IH _ es'' L). by rewrite <-app_assoc.
Qed.

Lemma scan_imports_seen l is' es ims b g :
  ok_list l = Some is' ->
  scan_imports l (seen es ims b, pushed ims g) = Ok (seen es (ims ++ is') b, pushed (ims ++ is') g).
Proof.
  revert ims is'. induction l as [|r l IH]; intros ims is'.
  { intros [= <-]. by rewrite app_nil_r. }
  intros (i & is'' & -> & L & ->)%ok_list_cons. cbn [scan_imports unwrap].
  unfold mbind, result_bind. cbn [fst snd]. rewrite seen_import.
  assert (push_import i.1 i.2 (pushed ims g) = pushed (ims ++ [i]) g) as ->.
  { unfold pushed. by rewrite fold_left_app. }
  rewrite (IH _ is'' L). by rewrite <-app_assoc.
Qed.

Lemma scan_payloads_seen ps es' is' es ims b g :
  module_exports ps = Some es' -> module_imports ps = Some is' ->
  scan_payloads ps (seen es ims b, pushed ims g) =
    Ok (seen (es ++ es') (ims ++ is') b, pushed (ims ++ is') g).
Proof.
  revert es ims es' is'. induction ps as [|r ps IH]; intros es ims es' is'.
  { intros [= <-] [= <-]. by rewrite !app_nil_r. }
  unfold module_exports, module_imports.
  destruct (ok_list (r :: ps)) as [l|] eqn:O; simpl; [|done].
  apply ok_list_cons in O as (p & l' & -> & O & ->). simpl.
  destruct (payload_exports p) as [es1|] eqn:E1; simpl; [|done].
  destruct (mapM payload_exports l') as [ess|] eqn:Es; simpl; [|done]. intros [= <-].
  destruct (payload_imports p) as [is1|] eqn:I1; simpl; [|done].
  destruct (mapM payload_imports l') as [iss|] eqn:Is; simpl; [|done]. intros [= <-].
  rewrite !app_assoc.
  assert (module_exports ps = Some (mjoin ess) /\ module_imports ps = Some (mjoin iss)) as [ME MI].
  { unfold module_exports, module_imports. rewrite O. simpl. by rewrite Es, Is. }
  destruct p; simpl in E1, I1; unfold mbind, result_bind.
  - injection E1 as <-. injection I1 as <-. rewrite !app_nil_r. by apply IH.
  - injection I1 as <-. rewrite app_nil_r. cbn [fst]. rewrite (scan_exports_seen _ _ _ _ _ E1). by apply IH.
  - injection E1 as <-. rewrite app_nil_r. rewrite (scan_imports_seen _ _ _ _ _ _ I1). by apply IH.
  - injection E1 as <-. injection I1 as <-. rewrite !app_nil_r. by apply IH.
Qed.

Lemma seen_exports_fields es b :
  let b' := fold_left (fun b e => see_export e b) es b in
  b_wasm_bytes b' = b_wasm_bytes b /\ b_wasm_size b' = b_wasm_size b /\ b_is_wasi b' = b_is_wasi b /\
  b_is_wasix b' = b_is_wasix b /\ b_needs_javy b' = b_needs_javy b /\ b_from_wat b' = b_from_wat b /\
  b_has_start b' = (if existsb (fun e => bool_decide (e = WASI_ENTRY_POINT)) es then Some true
                    else b_has_start b) /\
  b_has_vrrb b' = (if existsb (fun e => bool_decide (e = VRRB_WASM_MAGIC \/ e = VRRB_WASM_VERSION)) es
                   then Some true else b_has_vrrb b).
Proof.
  simpl. induction es as [|e es IH] using rev_ind; [done|].
  rewrite fold_left_app, !existsb_app. simpl.
  destruct IH as (-> & -> & -> & -> & -> & -> & -> & ->). rewrite !orb_false_r.
  split_and!; try done; by repeat destruct (existsb _ es); repeat case_bool_decide.
Qed.

Lemma seen_fields es ims b :
  let b' := seen es ims b in
  b_wasm_bytes b' = b_wasm_bytes b /\ b_wasm_size b' = b_wasm_size b /\ b_from_wat b' = b_from_wat b /\
  b_is_wasi b' = (if existsb (fun i => wasi_namespace i.1 || wasix_namespace i.1) ims then Some true
                  else b_is_wasi b) /\
  b_is_wasix b' = (if existsb (fun i => wasix_namespace i.1) ims then Some true else b_is_wasix b) /\
  b_needs_javy b' = (if existsb (fun i => bool_decide (i.1 = JAVY_NAMESPACE_QUICKJS)) ims
                     then Some true else b_needs_javy b) /\
  b_has_start b' = (if existsb (fun e => bool_decide (e = WASI_ENTRY_POINT)) es then Some true
                    else b_has_start b) /\
  b_has_vrrb b' = (if existsb (fun e => bool_decide (e = VRRB_WASM_MAGIC \/ e = VRRB_WASM_VERSION)) es
                   then Some true else b_has_vrrb b).
Proof.
  simpl. induction ims as [|i ims IH] using rev_ind.
  { unfold seen. simpl. destruct (seen_exports_fields es b) as (? & ? & ? & ? & ? & ? & ? & ?). done. }
  rewrite <-seen_import, !existsb_app. simpl.
  destruct IH as (-> & -> & -> & -> & -> & -> & -> & ->). rewrite !orb_false_r.
  split_and!; try done; repeat destruct (existsb _ ims); try done;
    by destruct (wasi_namespace i.1), (wasix_namespace i.1); repeat case_bool_decide.
Qed.

Lemma names_of_snoc m ims i :
  names_of m (ims ++ [i]) = names_of m ims ++ (if bool_decide (i.1 = m) then [i.2] else []).
Proof.
  unfold names_of. rewrite filter_app, fmap_app. f_equal.
  case_bool_decide; [by rewrite filter_cons_True|by rewrite filter_cons_False].
Qed.

(** A namespace is there exactly when something is imported from it. *)
Lemma pushed_lookup ims m :
  pushed ims ∅ !! m = (if bool_decide (names_of m ims = []) then None else Some (names_of m ims)).
Proof.
  induction ims as [|i ims IH] using rev_ind; [done|].
  unfold pushed. rewrite fold_left_app, names_of_snoc. simpl. unfold push_import.
  change (fold_left _ ims ∅) with (pushed ims ∅).
  destruct (decide (i.1 = m)) as [<-|N].
  - rewrite lookup_insert_eq, IH. rewrite (bool_decide_true (i.1 = i.1)) by done.
    rewrite (bool_decide_false (_ ++ [_] = [])) by (by destruct (names_of i.1 ims)).
    case_bool_decide as E; [by rewrite E|done].
  - rewrite lookup_insert_ne, IH, (bool_decide_false (i.1 = m)) by done. by rewrite app_nil_r.
Qed.

Lemma names_of_nil m ims : names_of m ims = [] <-> m ∉ ims.*1.
Proof.
  unfold names_of. split.
  - intros E (i & -> & I)%list_elem_of_fmap. apply fmap_nil_inv in E.
    assert (i ∈ filter (fun j => j.1 = i.1) ims) as F by (by apply list_elem_of_filter).
    rewrite E in F. by apply elem_of_nil in F.
  - intros N. destruct (filter _ ims) as [|i l] eqn:E; [done|]. exfalso. apply N.
    assert (i ∈ filter (fun j => j.1 = m) ims) as [<- I]%list_elem_of_filter by (rewrite E; left).
    by apply list_elem_of_fmap_2.
Qed.

Section found.
Context `{!WasmTools, !HashOrder, !HashOrderLaws}.

(** What a loader says of a module with these exports and imports. *)
Definition describes (bytes : bytes) (es : list string) (ims : list (string * string))
    (w : WasmLoader) : Prop :=
  wasm_bytes w = bytes /\ wasm_size w = 0%Z /\ from_wat w = false /\
  (is_wasi w = true <-> exists i, i ∈ ims /\ wasi_namespace i.1 || wasix_namespace i.1 = true) /\
  (is_wasix w = true <-> exists i, i ∈ ims /\ wasix_namespace i.1 = true) /\
  (needs_javy w = true <-> JAVY_NAMESPACE_QUICKJS ∈ ims.*1) /\
  (has_start w = true <-> WASI_ENTRY_POINT ∈ es) /\
  (has_vrrb w = true <-> VRRB_WASM_MAGIC ∈ es \/ VRRB_WASM_VERSION ∈ es) /\
  (forall m, imports w !! m =
     if bool_decide (names_of m ims = []) then None else Some (names_of m ims)).

Lemma flag_exists {A} (f : A -> bool) l :
  default false (if existsb f l then Some true else None) = true <-> exists x, x ∈ l /\ f x = true.
Proof.
  destruct (existsb f l) eqn:E; simpl.
  - apply existsb_exists in E as (x & I & F). split; [|done]. intros _. exists x.
    by rewrite list_elem_of_In.
  - split; [done|]. intros (x & I & F). rewrite <-E. apply existsb_exists. exists x.
    by rewrite <-list_elem_of_In.
Qed.

Lemma load_describes bytes es ims :
  module_exports (parse_all WASM_PARSE_OFFSET bytes) = Some es ->
  module_imports (parse_all WASM_PARSE_OFFSET bytes) = Some ims ->
  take 4 bytes = WASM_MAGIC ->
  exists b w, parse (set_wasm_bytes bytes WasmLoaderBuilder_default) = Ok b /\
    build_loader b = Ok w /\ describes bytes es ims w.
Proof.
  intros E I M. set (b0 := set_wasm_bytes bytes WasmLoaderBuilder_default).
  exists (set_imports (pushed ims ∅) (seen es ims b0)).
  destruct (seen_fields es ims b0) as (Fb & Fs & Fw & Wi & Wx & Jv & St & Vr).
  eexists. split_and!.
  - unfold parse. simpl. pose proof (scan_payloads_seen _ es ims [] [] b0 ∅ E I) as S.
    change (seen [] [] b0) with b0 in S. change (pushed [] ∅) with (∅ : gmap string (list string)) in S.
    unfold mbind, result_bind. by rewrite S.
  - unfold build_loader, validate. simpl. rewrite Fb. simpl. unfold contains_magic.
    assert (length bytes < 4 -> False) as L.
    { intros L. apply (f_equal length) in M. rewrite length_take in M. change (length WASM_MAGIC) with 4 in M. lia. }
    rewrite bool_decide_false by done. simpl. rewrite bool_decide_true by done. simpl. reflexivity.
  - unfold describes. cbn [wasm_bytes wasm_size from_wat is_wasi is_wasix needs_javy has_start
      has_vrrb imports set_imports b_wasm_bytes b_wasm_size b_from_wat b_is_wasi b_is_wasix
      b_needs_javy b_has_start b_has_vrrb b_imports].
    rewrite Fs, Fw, Wi, Wx, Jv, St, Vr.
    cbn [b0 b_wasm_size b_from_wat b_is_wasi b_is_wasix b_needs_javy b_has_start b_has_vrrb
      set_wasm_bytes WasmLoaderBuilder_default].
    rewrite !flag_exists. split_and!; try done; [| | |apply pushed_lookup].
    + rewrite list_elem_of_fmap. split; [intros (i & ? & ?%bool_decide_eq_true); by exists i|].
      intros (i & ? & ?). exists i. by rewrite bool_decide_eq_true.
    + split; [by intros (? & ? & ->%bool_decide_eq_true)|]. intros ?. eexists. by rewrite bool_decide_eq_true.
    + split; [intros (? & ? & [->| ->]%bool_decide_eq_true); auto|].
      intros [?|?]; eexists; rewrite bool_decide_eq_true; split; eauto.
Qed.

Lemma extra_namespaces_nil bytes es ims w :
  describes bytes es ims w ->
  extra_namespaces w = [] <-> forall m, m ∈ ims.*1 -> m ∈ SUPPORTED_NAMESPACES.
Proof.
  intros (_ & _ & _ & _ & _ & _ & _ & _ & Im).
  assert (forall m, m ∈ (hash_iter (imports w)).*1 <-> m ∈ ims.*1) as K.
  { intros m. rewrite hash_iter_perm, list_elem_of_fmap. split.
    - intros ([m' l] & -> & E%elem_of_map_to_list). rewrite Im in E. simpl.
      case_bool_decide as N; [done|]. destruct (decide (m' ∈ ims.*1)) as [|O]; [done|].
      by apply names_of_nil in O.
    - intros I. exists (m, names_of m ims). split; [done|]. apply elem_of_map_to_list.
      rewrite Im, bool_decide_false; [done|]. by intros N%names_of_nil. }
  unfold extra_namespaces. split.
  - intros E m I%K. destruct (decide (m ∈ SUPPORTED_NAMESPACES)) as [|N]; [done|].
    assert (m ∈ filter (fun m => m ∉ SUPPORTED_NAMESPACES) (hash_iter (imports w)).*1) as F
      by (by apply list_elem_of_filter).
    rewrite E in F. by apply elem_of_nil in F.
  - intros A. destruct (filter _ _) as [|m l] eqn:E; [done|].
    assert (m ∈ filter (fun m => m ∉ SUPPORTED_NAMESPACES) (hash_iter (imports w)).*1)
      as [N I%K]%list_elem_of_filter by (rewrite E; left).
    by destruct N; apply A.
Qed.

(** C33. The verdict on a module. For a file with the magic number and well-formed
    sections the loader says exactly what the module exports and imports, and the
    command expects it to run exactly when it exports the entry point, imports
    something from the preview 1 interface and imports nothing from a namespace other
    than that one and [env]; so a module for WASIX or the unstable interface, which
    the loader counts as WASI, is not expected to run. *)
Theorem validate_verdict p s bytes es ims :
  fs_read p s = Ok bytes -> module_exports (parse_all WASM_PARSE_OFFSET bytes) = Some es ->
  module_imports (parse_all WASM_PARSE_OFFSET bytes) = Some ims -> take 4 bytes = WASM_MAGIC ->
  exists w l v, from_filename p s = Ok w /\ describes bytes es ims w /\
    validate_run p s = Ok (l ++ [ExpectedToRun v]) /\
    (v = true <-> WASI_ENTRY_POINT ∈ es /\ WASI_NAMESPACE_PREVIEW1 ∈ ims.*1 /\
       forall m, m ∈ ims.*1 -> m ∈ SUPPORTED_NAMESPACES).
Proof.
  intros R E I M. destruct (load_describes bytes es ims E I M) as (b & w & P & B & D).
  exists w. eexists _, (expected_to_run w). split_and!.
  - unfold from_filename. rewrite R. simpl. rewrite P. simpl. by rewrite B.
  - exact D.
  - unfold validate_run. rewrite R. simpl. rewrite P. simpl. rewrite B. simpl.
    unfold report. by rewrite !app_assoc.
  - pose proof (extra_namespaces_nil _ _ _ _ D) as X.
    destruct D as (_ & _ & _ & Wi & Wx & _ & St & _). unfold expected_to_run.
    rewrite !andb_true_iff, bool_decide_eq_true, orb_true_iff, X, St, Wi, Wx. split.
    + intros [[F S] A]. split_and!; [done| |done].
      assert (exists i, i ∈ ims /\ wasi_namespace i.1 || wasix_namespace i.1 = true) as (i & Hi & N).
      { destruct F as [F|(i & Hi & N)]; [done|]. exists i. by rewrite N, orb_true_r. }
      pose proof (A i.1 (list_elem_of_fmap_2 _ _ _ Hi)) as Q.
      apply list_elem_of_fmap. exists i. split; [|done]. revert N.
      unfold wasi_namespace, wasix_namespace.
      apply elem_of_cons in Q as [-> | ->%list_elem_of_singleton]; done.
    + intros (S & (i & Ei & Hi)%list_elem_of_fmap & A). split_and!; [|done..]. left. exists i.
      split; [done|]. by rewrite <-Ei.
Qed.

(** The sections of an assembled text are never looked at. *)
Lemma assembled_text_not_scanned wat bytes :
  wat2wasm wat = Ok bytes -> take 4 bytes = WASM_MAGIC ->
  exists b w, parse (set_wat_text wat WasmLoaderBuilder_default) = Ok b /\ build_loader b = Ok w /\
    from_wat w = true /\ wasm_bytes w = bytes /\ has_start w = false /\ is_wasi w = false /\
    imports w = ∅ /\ expected_to_run w = false.
Proof.
  intros A M. eexists _, _. split; [unfold parse; simpl; by rewrite A|].
  split.
  { unfold build_loader, validate, contains_magic. simpl.
    rewrite bool_decide_false.
    - simpl. rewrite bool_decide_true by done. reflexivity.
    - intros L. apply (f_equal length) in M. rewrite length_take in M.
      change (length WASM_MAGIC) with 4 in M. lia. }
  by split_and!.
Qed.
End found.

(** ** What the runtime keeps *)

Section executed.
Context `{!WasmEngine, !HashOrder}.

(** Executing again adds to the output of the earlier execution. *)
Lemma execute_appends w store out err :
  run_with_store (wr_module w) MODULE_ARGV0 (wr_args w) (hash_iter (wr_env w)) (wr_stdin w)
    (wr_store w) = (store, Ok (out, err)) ->
  is_utf8 out = true -> is_utf8 err = true ->
  (execute w).2 = Ok tt /\ wr_stdout (execute w).1 = wr_stdout w +:+ out /\
  wr_stderr (execute w).1 = wr_stderr w +:+ err.
Proof. intros R O E. unfold execute, append_output. by rewrite R, O, E. Qed.

Lemma env_vars_last env key value rest :
  split_once (Ascii.ascii_of_N 61) rest = Some (key, value) ->
  env_vars (env ++ [rest]) !! key = Some value.
Proof.
  intros S. unfold env_vars. rewrite fold_left_app. cbn [fold_left]. rewrite S. apply lookup_insert_eq.
Qed.
End executed.

(** ** An instance *)

Module ToyWasm.
Import Toy.

#[local] Instance tools : WasmTools := {|
  parse_all _ _ :=
    [Ok VersionPayload; Ok (ImportSection [Ok ("wasi_snapshot_preview1", "fd_write")]);
     Ok (ExportSection [Ok "_start"; Ok "_vrrb_abi_magic"])];
  wat2wasm _ := Err "assembler";
|}.

Definition disk : FileSystem :=
  mk_FileSystem {[ ["module.wasm"] := String (Ascii.ascii_of_N 0) "asm" ]} ∅ (fun _ => false)
    (fun _ => None).

Lemma validate_verdict_witness : exists w l,
  from_filename ["module.wasm"] disk = Ok w /\
  validate_run ["module.wasm"] disk = Ok (l ++ [ExpectedToRun true]).
Proof.
  destruct (validate_verdict ["module.wasm"] disk WASM_MAGIC ["_start"; "_vrrb_abi_magic"]
    [("wasi_snapshot_preview1", "fd_write")]) as (w & l & v & F & _ & V & E).
  - vm_compute. reflexivity.
  - reflexivity.
  - reflexivity.
  - reflexivity.
  - exists w, l. split; [exact F|]. rewrite V. destruct (proj2 E); [|done]. split_and!.
    + left.
    + left.
    + intros m ->%list_elem_of_singleton. right. left.
Defined.
End ToyWasm.
