(* ===== verification/Platform.v ===== *)
(** * Platform statistics and service configuration

    [crates/platform/src/platform_stats.rs]: the control group statistics a service
    exports, read from the files of the kernel.
    [crates/service_config/src/lib.rs]: looking up a service. *)

From S2P Require Import Prelude FileSystem.
From Stdlib Require Import Strings.Ascii.

(** ** Texts *)

(** [str::splitn] at a character. *)
Fixpoint splitn (n : nat) (c : ascii) (s : string) : list string :=
  match n with
  | 0 => []
  | 1 => [s]
  | S n' =>
      match split_once c s with
      | Some (l, r) => l :: splitn n' c r
      | None => [s]
      end
  end.

Definition carriage_return : ascii := ascii_of_N 13.
Definition newline : ascii := ascii_of_N 10.

(** A text without a final character [c], when it ends in it. *)
Definition strip_last (c : ascii) (s : string) : string :=
  match last (chars s) with
  | Some a => if Ascii.eqb a c then String.substring 0 (String.length s - 1) s else s
  | None => s
  end.

(** [str::lines]: a line ends with a line feed or with both, what follows the last line
    feed is a line as it is, unless it is empty. *)
Definition text_lines (s : string) : list string :=
  let ls := split_on newline s in
  map (strip_last carriage_return) (removelast ls) ++
    match last ls with
    | Some l => if bool_decide (l = EmptyString) then [] else [l]
    | None => []
    end.

(** ** [platform_stats.rs] *)

Record CgroupCpuStats := mk_CgroupCpuStats {
  cpu_total_usec : Z;
  cpu_system_usec : Z;
  cpu_user_usec : Z;
}.

Record CgroupMemStats := mk_CgroupMemStats {
  mem_anon_bytes : Z;
  mem_file_bytes : Z;
  mem_sock_bytes : Z;
}.

Record CgroupStats := mk_CgroupStats {
  cg_cpu : CgroupCpuStats;
  cg_mem : CgroupMemStats;
}.

Definition LINUX_CGROUP_PATH : string := "/sys/fs/cgroup".

Definition cgroup_file (pid : Z) : Path :=
  components ("/proc/" +:+ uint_to_string pid +:+ "/cgroup").
Definition stat_file (group file : string) : Path :=
  components (LINUX_CGROUP_PATH +:+ "/" +:+ group +:+ "/" +:+ file).

Inductive StatsError :=
| StatsIo (e : IoError)
| StatsUtf8
| StatsParseInt (s : string).

Definition file_to_string (p : Path) (s : FileSystem) : result StatsError string :=
  data ← map_err StatsIo (fs_read p s);
  let data_str := String.string_of_list_byte data in
  if is_utf8 data_str then Ok data_str else Err StatsUtf8.

(** The path of the control group of the process; indexing a missing field panics. *)
Definition cgroup (pid : Z) (s : FileSystem) : result StatsError string :=
  line ← file_to_string (cgroup_file pid) s;
  ret ← unwrap (ok_or (splitn 3 ":" line !! 2) tt);
  Ok (strip_last newline ret).

(** One of three counters, by its key. *)
Definition stat_line (keys : string * string * string) (line : string) (acc : Z * Z * Z)
    : result StatsError (Z * Z * Z) :=
  let '(k1, k2, k3) := keys in
  let '(v1, v2, v3) := acc in
  match split_once " " line with
  | Some (key, value) =>
      let parsed := ok_or (parse_uint U64 value) (StatsParseInt value) in
      if bool_decide (key = k1) then v ← parsed; Ok (v, v2, v3)
      else if bool_decide (key = k2) then v ← parsed; Ok (v1, v, v3)
      else if bool_decide (key = k3) then v ← parsed; Ok (v1, v2, v)
      else Ok acc
  | None => Ok acc
  end.

Fixpoint stat_lines (keys : string * string * string) (l : list string) (acc : Z * Z * Z)
    : result StatsError (Z * Z * Z) :=
  match l with
  | [] => Ok acc
  | line :: l' => acc' ← stat_line keys line acc; stat_lines keys l' acc'
  end.

Definition read_stats (pid : Z) (file : string) (keys : string * string * string) (s : FileSystem)
    : result StatsError (Z * Z * Z) :=
  group ← cgroup pid s;
  text ← map_err StatsIo (fs_read_to_string (stat_file group file) s);
  stat_lines keys (text_lines text) (0%Z, 0%Z, 0%Z).

Definition CgroupStats_new (pid : Z) (s : FileSystem) : result StatsError CgroupStats :=
  cpu ← read_stats pid "cpu.stat" ("usage_usec", "user_usec", "system_usec") s;
  mem ← read_stats pid "memory.stat" ("anon", "file", "sock") s;
  let '(total, user, system) := cpu in
  let '(anon, file, sock) := mem in
  Ok (mk_CgroupStats (mk_CgroupCpuStats total system user) (mk_CgroupMemStats anon file sock)).

(** ** [service_config/src/lib.rs] *)

Record ServiceConfig := mk_ServiceConfig {
  svc_name : string;
  svc_rpc_address : string;
  svc_rpc_port : Z;
  svc_pre_shared_key : string;
  svc_tls_private_key_file : string;
  svc_tls_public_cert_file : string;
  svc_tls_ca_cert_file : string;
  svc_exporter_address : string;
  svc_exporter_port : string;
}.

Record ServiceCollectionConfig := mk_ServiceCollectionConfig {
  compute : list ServiceConfig;
  storage : list ServiceConfig;
  blockchain : list ServiceConfig;
}.

Definition find_service (c : ServiceCollectionConfig) (service_name service_type : string)
    : result string ServiceConfig :=
  collection ←
    (if bool_decide (service_type = "compute") then Ok (compute c)
     else if bool_decide (service_type = "storage") then Ok (storage c)
     else if bool_decide (service_type = "blockchain") then Ok (blockchain c)
     else Err ("Invalid service type: " +:+ service_type));
  ok_or (head (filter (fun svc => svc_name svc = service_name) collection))
    ("Service " +:+ service_name +:+ " not found as a " +:+ service_type +:+ " service").

(** ** What is read *)

(** A file of counters as the kernel writes it. *)
Definition stat_text_line (kv : string * Z) : string := kv.1 +:+ String " " (uint_to_string kv.2).

Definition stat_text (kvs : list (string * Z)) : string :=
  foldr (fun kv t => stat_text_line kv +:+ String newline t) EmptyString kvs.

Definition stat_wf (kvs : list (string * Z)) : Prop :=
  Forall (fun kv => (" "%char ∉ chars kv.1) /\ (newline ∉ chars kv.1) /\ in_range U64 kv.2 = true)
    kvs.

(** The last value of a key. *)
Definition last_value (key : string) (kvs : list (string * Z)) : Z :=
  default 0%Z (last (filter (fun kv => kv.1 = key) kvs).*2).

Lemma uint_no_char z c : between 48 57 (N_of_ascii c) = false -> c ∉ chars (uint_to_string z).
Proof.
  intros N E. destruct (uint_to_string_digits z) as [F _]. rewrite Forall_forall in F.
  specialize (F _ E). simpl in F. congruence.
Qed.

Lemma strip_last_keeps c s a :
  last (chars s) = Some a -> a <> c -> strip_last c s = s.
Proof. intros L N. unfold strip_last. rewrite L. by destruct (Ascii.eqb_spec a c). Qed.

Lemma stat_line_last kv :
  exists a, last (chars (stat_text_line kv)) = Some a /\ between 48 57 (N_of_ascii a) = true.
Proof.
  unfold stat_text_line. destruct (uint_to_string_digits kv.2) as [F N].
  rewrite chars_app. change (chars (String " " ?t)) with (" "%char :: chars t).
  destruct (last (chars (uint_to_string kv.2))) as [a|] eqn:L.
  - exists a. split; [|rewrite Forall_forall in F; apply F; by apply last_Some_elem_of].
    apply last_Some in L as [l ->]. by rewrite app_comm_cons, app_assoc, last_snoc.
  - apply last_None in L. by destruct (uint_to_string kv.2).
Qed.

Lemma stat_text_lines kvs : stat_wf kvs -> text_lines (stat_text kvs) = map stat_text_line kvs.
Proof.
  intros W. unfold text_lines.
  assert (split_on newline (stat_text kvs) = map stat_text_line kvs ++ [EmptyString]) as ->.
  { induction W as [|kv kvs (_ & N & _) W IH]; simpl; [done|]. rewrite split_on_cons; [by rewrite IH|].
    unfold stat_text_line. rewrite chars_app. simpl. rewrite not_elem_of_app, not_elem_of_cons.
    split_and!; [done..|by apply uint_no_char]. }
  rewrite last_snoc, bool_decide_true, removelast_last, app_nil_r by done.
  rewrite map_map. apply map_ext. intros kv. destruct (stat_line_last kv) as (a & L & D).
  eapply strip_last_keeps; [exact L|]. by intros ->.
Qed.

Lemma last_value_snoc key kvs kv :
  last_value key (kvs ++ [kv]) = (if bool_decide (kv.1 = key) then kv.2 else last_value key kvs).
Proof.
  unfold last_value. rewrite filter_app, fmap_app. case_bool_decide.
  - rewrite filter_cons_True by done. by rewrite filter_nil, fmap_cons, fmap_nil, last_snoc.
  - rewrite filter_cons_False by done. by rewrite filter_nil, fmap_nil, app_nil_r.
Qed.

Lemma stat_lines_app keys l1 l2 acc :
  stat_lines keys (l1 ++ l2) acc = (acc' ← stat_lines keys l1 acc; stat_lines keys l2 acc').
Proof.
  revert acc. induction l1 as [|x l1 IH]; intros acc; simpl; [done|].
  destruct (stat_line keys x acc); simpl; [apply IH|done..].
Qed.

Lemma stat_lines_values k1 k2 k3 kvs :
  k1 <> k2 -> k1 <> k3 -> k2 <> k3 -> stat_wf kvs ->
  stat_lines (k1, k2, k3) (map stat_text_line kvs) (0%Z, 0%Z, 0%Z) =
    Ok (last_value k1 kvs, last_value k2 kvs, last_value k3 kvs).
Proof.
  intros N1 N2 N3. induction kvs as [|kv kvs IH] using rev_ind; intros W; [done|].
  apply Forall_app in W as [W (S & _ & R)%Forall_singleton].
  rewrite map_app, stat_lines_app, (IH W), !last_value_snoc. simpl.
  unfold stat_line, stat_text_line. rewrite split_once_cons by done.
  rewrite parse_uint_to_string; [|done|by apply andb_true_iff in R as [R%Z.leb_le _]]. simpl.
  by repeat case_bool_decide; simplify_eq.
Qed.

Lemma strip_last_snoc c s : strip_last c (s +:+ String c EmptyString) = s.
Proof.
  unfold strip_last. rewrite chars_app. simpl. rewrite last_snoc, Ascii.eqb_refl.
  apply (inj chars). rewrite chars_substring, <-!chars_length, chars_app, length_app. simpl.
  rewrite Nat.add_sub. by rewrite take_app_length.
Qed.

Lemma file_to_string_reads p s t : fs_read_to_string p s = Ok t -> file_to_string p s = Ok t.
Proof.
  unfold fs_read_to_string, file_to_string, fs_read, read_to_string, mbind, result_bind.
  destruct (open_file p s); [|done..]. destruct (files s !! p) as [c|]; [|done].
  destruct (is_utf8 c) eqn:U; [|done]. intros [= <-]. cbn [map_err].
  unfold str_bytes. by rewrite String.string_of_list_byte_of_string, U.
Qed.

Lemma cgroup_of_line pid s id controllers group :
  ":"%char ∉ chars id -> ":"%char ∉ chars controllers ->
  fs_read_to_string (cgroup_file pid) s =
    Ok (id +:+ String ":" (controllers +:+ String ":" (group +:+ String newline EmptyString))) ->
  cgroup pid s = Ok group.
Proof.
  intros N1 N2 R%file_to_string_reads. unfold cgroup. rewrite R. unfold mbind, result_bind.
  cbn [splitn]. rewrite split_once_cons by done. rewrite split_once_cons by done. simpl.
  by rewrite strip_last_snoc.
Qed.

(** C34. The statistics of a process whose control group file has the one line of the
    unified hierarchy: the path of the group is what follows the second colon, colons
    and all, and each counter is the value of the last line with its key in the file of
    the group, or zero when there is none; other lines do not matter. *)
Theorem cgroup_stats_exact pid s id controllers group cpu mem :
  ":"%char ∉ chars id -> ":"%char ∉ chars controllers -> stat_wf cpu -> stat_wf mem ->
  fs_read_to_string (cgroup_file pid) s =
    Ok (id +:+ String ":" (controllers +:+ String ":" (group +:+ String newline EmptyString))) ->
  fs_read_to_string (stat_file group "cpu.stat") s = Ok (stat_text cpu) ->
  fs_read_to_string (stat_file group "memory.stat") s = Ok (stat_text mem) ->
  CgroupStats_new pid s = Ok (mk_CgroupStats
    (mk_CgroupCpuStats (last_value "usage_usec" cpu) (last_value "system_usec" cpu)
       (last_value "user_usec" cpu))
    (mk_CgroupMemStats (last_value "anon" mem) (last_value "file" mem) (last_value "sock" mem))).
Proof.
  intros N1 N2 Wc Wm G C M. unfold CgroupStats_new, read_stats.
  rewrite (cgroup_of_line pid s id controllers group) by done. unfold mbind, result_bind.
  rewrite C, M. cbn [map_err].
  by rewrite !stat_text_lines, !stat_lines_values by done.
Qed.

(** ** An instance *)

Definition sample_cpu : list (string * Z) :=
  [("usage_usec", 1500); ("user_usec", 1000); ("system_usec", 500); ("nr_periods", 0)]%Z.
Definition sample_mem : list (string * Z) := [("anon", 4096); ("file", 8192); ("anon", 12288)]%Z.

Definition sample_disk : FileSystem :=
  mk_FileSystem
    (<[cgroup_file 7 := "0::/user.slice" +:+ String newline EmptyString]>
      (<[stat_file "/user.slice" "cpu.stat" := stat_text sample_cpu]>
        (<[stat_file "/user.slice" "memory.stat" := stat_text sample_mem]> ∅)))
    ∅ (fun _ => false) (fun _ => None).

Lemma cgroup_stats_exact_witness :
  CgroupStats_new 7 sample_disk =
    Ok (mk_CgroupStats (mk_CgroupCpuStats 1500 500 1000) (mk_CgroupMemStats 12288 8192 0)).
Proof.
  apply (cgroup_stats_exact 7 sample_disk "0" EmptyString "/user.slice" sample_cpu sample_mem).
  - by intros ?%list_elem_of_singleton.
  - by intros ?%elem_of_nil.
  - repeat constructor; by apply (bool_decide_unpack _).
  - repeat constructor; by apply (bool_decide_unpack _).
  - vm_compute. reflexivity.
  - vm_compute. reflexivity.
  - vm_compute. reflexivity.
Defined.
