(* ===== verification/Web3.v ===== *)
(** * Packages: [crates/web3_pkg] and [examples/web3-pkg.rs]

    The metadata of a package, the content-addressed store it is published to, and the
    program that defines, builds and retrieves packages. The store is a daemon behind
    a client of a third party. *)

From S2P Require Import Prelude Floats FileSystem.
From Stdlib Require Import Strings.Ascii.

(** ** [web3_pkg.rs] *)

Inductive Web3PackageType :=
| PackageNone
| SmartContractRuntime
| SmartContract.

Inductive Web3PackageArchitecture :=
| ArchitectureNone
| Amd64Linux
| Amd64Musl
| Aarch64Linux
| Aarch64Musl
| Wasm32Wasi.

Record Web3ContentId := mk_Web3ContentId { cid : string }.

Inductive Web3ObjectType :=
| ObjectNone
| Document
| Executable
| Image
| Malware.

Record Web3PackageObject := mk_Web3PackageObject {
  object_arch : Web3PackageArchitecture;
  object_path : string;
  object_type : Web3ObjectType;
  object_cid : Web3ContentId;
}.

Record Web3Package := mk_Web3Package {
  api_version : Z;
  pkg_version : Z;
  pkg_name : string;
  pkg_author : string;
  pkg_type : Web3PackageType;
  pkg_objects : list Web3PackageObject;
  pkg_replaces : list Web3ContentId;
}.

(** The derived builders: a field that was not set and has no default is an error, which
    names it. *)
Definition Web3PackageObject_build (arch : option Web3PackageArchitecture) (path : option string)
    (type : option Web3ObjectType) (c : option Web3ContentId) : result string Web3PackageObject :=
  arch ← ok_or arch "object_arch";
  path ← ok_or path "object_path";
  type ← ok_or type "object_type";
  c ← ok_or c "object_cid";
  Ok (mk_Web3PackageObject arch path type c).

Definition Web3Package_build (api version : option Z) (name author : option string)
    (type : option Web3PackageType) (objects : option (list Web3PackageObject))
    (replaces : option (list Web3ContentId)) : result string Web3Package :=
  version ← ok_or version "pkg_version";
  name ← ok_or name "pkg_name";
  author ← ok_or author "pkg_author";
  type ← ok_or type "pkg_type";
  objects ← ok_or objects "pkg_objects";
  replaces ← ok_or replaces "pkg_replaces";
  Ok (mk_Web3Package (default 2%Z api) version name author type objects replaces).

(** ** [web3_store.rs] *)

(** What the daemon says of itself. *)
Record IpfsRepoStats := mk_IpfsRepoStats {
  repo_num_objects : Z;
  repo_repo_size : Z;
  repo_repo_path : string;
}.

Record IpfsBandwidthStats := mk_IpfsBandwidthStats {
  bw_total_in : Z;
  bw_total_out : Z;
  bw_rate_in : spec_float;
  bw_rate_out : spec_float;
}.

Record IpfsBitswapStats := mk_IpfsBitswapStats {
  bs_blocks_received : Z;
  bs_blocks_sent : Z;
  bs_data_received : Z;
  bs_data_sent : Z;
}.

(** The client of the daemon, whose state is [W]. Data is read as a stream of chunks; an
    error is its text. *)
Class IpfsApi (W : Type) := {
  ipfs_add : bytes -> method W string string;
  ipfs_dag_put : bytes -> method W string string;
  ipfs_cat : string -> W -> list (result string bytes);
  ipfs_dag_get : string -> W -> list (result string bytes);
  ipfs_stats_repo : W -> result string IpfsRepoStats;
  ipfs_stats_bw : W -> result string IpfsBandwidthStats;
  ipfs_stats_bitswap : W -> result string IpfsBitswapStats;
}.

(** [TryStreamExt::try_concat]. *)
Fixpoint try_concat (chunks : list (result string bytes)) : result string bytes :=
  match chunks with
  | [] => Ok []
  | c :: chunks' => b ← c; bs ← try_concat chunks'; Ok (b ++ bs)
  end.

Record Web3StoreRepoStats := mk_Web3StoreRepoStats {
  num_objects : Z;
  repo_size : Z;
  repo_path : string;
}.

Record Web3StoreBandwidthStats := mk_Web3StoreBandwidthStats {
  total_in : Z;
  total_out : Z;
  rate_in : spec_float;
  rate_out : spec_float;
}.

Record Web3StoreBitswapStats := mk_Web3StoreBitswapStats {
  blocks_in : Z;
  data_in : Z;
  blocks_out : Z;
  data_out : Z;
}.

Record Web3StoreStats := mk_Web3StoreStats {
  ws_repo : Web3StoreRepoStats;
  ws_bandwidth : Web3StoreBandwidthStats;
  ws_bitswap : Web3StoreBitswapStats;
}.

Section store.
Context {W : Type} `{!IpfsApi W}.

Definition write_dag (data : bytes) : method W string string := ipfs_dag_put data.
Definition write_object (data : bytes) : method W string string := ipfs_add data.

Definition read_dag (c : string) (w : W) : result string bytes := try_concat (ipfs_dag_get c w).
Definition read_object (c : string) (w : W) : result string bytes := try_concat (ipfs_cat c w).

Definition store_stats (w : W) : result string Web3StoreStats :=
  repo ← ipfs_stats_repo w;
  bw ← ipfs_stats_bw w;
  bs ← ipfs_stats_bitswap w;
  Ok (mk_Web3StoreStats
        (mk_Web3StoreRepoStats (repo_num_objects repo) (repo_repo_size repo) (repo_repo_path repo))
        (mk_Web3StoreBandwidthStats (bw_total_in bw) (bw_total_out bw) (bw_rate_in bw) (bw_rate_out bw))
        {| blocks_in := bs_blocks_received bs; blocks_out := bs_blocks_sent bs;
           data_in := bs_data_received bs; data_out := bs_data_sent bs |}).
End store.

(** ** [examples/web3-pkg.rs] *)

Record InitOpts := mk_InitOpts {
  init_config : string;
  init_version : Z;
  init_name : string;
  init_author : string;
  init_type : Web3PackageType;
  init_annotations : list string;
}.

Record AddObjectOpts := mk_AddObjectOpts {
  add_config : string;
  add_architecture : Web3PackageArchitecture;
  add_type : Web3ObjectType;
  add_path : string;
  add_annotations : list string;
}.

Record PackageObject := mk_PackageObject {
  po_architecture : Web3PackageArchitecture;
  po_path : string;
  po_content_id : option string;
  po_type : Web3ObjectType;
  po_annotations : list (string * string);
}.

Record PackageMetadata := mk_PackageMetadata {
  md_version : Z;
  md_name : string;
  md_author : string;
  md_type : Web3PackageType;
  md_annotations : list (string * string);
  md_objects : list PackageObject;
}.

Inductive PackageCommands :=
| PkgInit (opts : InitOpts)
| PkgAddObject (opts : AddObjectOpts)
| PkgBuild (config : string)
| PkgRetrieve (c outdir : string).

Inductive PackageError :=
| PkgIo (e : IoError)
| PkgUtf8
| PkgJson (err : string)
| PkgAnnotation
| PkgBuilder (field : string)
| PkgStore (err : string).

(** [str::from_utf8]. *)
Definition from_utf8 (b : bytes) : result PackageError string :=
  let s := String.string_of_list_byte b in
  if is_utf8 s then Ok s else Err PkgUtf8.

(** The two fields before the second equals sign. *)
Definition parse_annotation (a : string) : result PackageError (string * string) :=
  let split := split_on (ascii_of_N 61) a in
  key ← ok_or (split !! 0) PkgAnnotation;
  value ← ok_or (split !! 1) PkgAnnotation;
  Ok (key, value).

Fixpoint parse_annotations (l : list string) : result PackageError (list (string * string)) :=
  match l with
  | [] => Ok []
  | a :: l' => kv ← parse_annotation a; kvs ← parse_annotations l'; Ok (kv :: kvs)
  end.

(** [Path::file_name]. *)
Definition file_name (path : string) : option string :=
  match last (components path) with
  | Some name => if bool_decide (name = "/" \/ name = "..") then None else Some name
  | None => None
  end.

(** The file of a name in the directory for what is retrieved. *)
Definition out_path (outdir name : string) : Path := components (outdir +:+ String "/" name).

Definition MANIFEST : string := "package-manifest.json".

Section program.
Context {W : Type} `{!IpfsApi W, !JsonText PackageMetadata, !FromJson PackageMetadata}.
Context `{!JsonText Web3Package, !FromJson Web3Package}.

Abbreviation pkg A := (method (FileSystem * W) PackageError A).

Definition pkg_disk {A} (m : method FileSystem IoError A) : pkg A := fun s =>
  let '(disk, r) := m s.1 in ((disk, s.2), map_err PkgIo r).
Definition pkg_remote {A} (m : method W string A) : pkg A := fun s =>
  let '(w, r) := m s.2 in ((s.1, w), map_err PkgStore r).
Definition pkg_asks {A} (f : FileSystem -> W -> result PackageError A) : pkg A := fun s =>
  (s, f s.1 s.2).

Definition PackageMetadata_from_file (filename : string) (s : FileSystem)
    : result PackageError PackageMetadata :=
  bytes ← map_err PkgIo (fs_read (components filename) s);
  json ← from_utf8 bytes;
  map_err PkgJson (from_json json).

Definition package_init (opts : InitOpts) : pkg unit :=
  annotations ← lift (parse_annotations (init_annotations opts));
  let p := mk_PackageMetadata (init_version opts) (init_name opts) (init_author opts)
             (init_type opts) annotations [] in
  json ← lift (map_err PkgJson (json_to_string p));
  pkg_disk (fs_write (components (init_config opts)) json).

Definition push_object (o : PackageObject) (p : PackageMetadata) : PackageMetadata :=
  mk_PackageMetadata (md_version p) (md_name p) (md_author p) (md_type p) (md_annotations p)
    (md_objects p ++ [o]).

Definition package_addobject (opts : AddObjectOpts) : pkg unit :=
  annotations ← lift (parse_annotations (add_annotations opts));
  let obj := mk_PackageObject (add_architecture opts) (add_path opts) None (add_type opts)
               annotations in
  p ← pkg_asks (fun disk _ => PackageMetadata_from_file (add_config opts) disk);
  json ← lift (map_err PkgJson (json_to_string (push_object obj p)));
  pkg_disk (fs_write (components (add_config opts)) json).

(** The objects in turn: each is added to the store. *)
Fixpoint build_objects (blobs : list PackageObject) : pkg (list Web3PackageObject) :=
  match blobs with
  | [] => mret []
  | blob :: blobs' =>
      contents ← pkg_asks (fun disk _ => map_err PkgIo (fs_read (components (po_path blob)) disk));
      c ← pkg_remote (write_object contents);
      obj ← lift (map_err PkgBuilder
                    (Web3PackageObject_build (Some (po_architecture blob))
                       (Some (default EmptyString (file_name (po_path blob))))
                       (Some (po_type blob)) (Some (mk_Web3ContentId c))));
      objects ← build_objects blobs';
      mret (obj :: objects)
  end.

(** The content id that is printed. *)
Definition package_build (config : string) : pkg string :=
  p ← pkg_asks (fun disk _ => PackageMetadata_from_file config disk);
  objects ← build_objects (md_objects p);
  pkg_meta ← lift (map_err PkgBuilder
                     (Web3Package_build None (Some (md_version p)) (Some (md_name p))
                        (Some (md_author p)) (Some (md_type p)) (Some objects) (Some [])));
  json ← lift (map_err PkgJson (json_to_string pkg_meta));
  pkg_remote (write_dag (str_bytes json)).

Fixpoint retrieve_objects (outdir : string) (objects : list Web3PackageObject) : pkg unit :=
  match objects with
  | [] => mret tt
  | obj :: objects' =>
      let c := cid (object_cid obj) in
      blob ← pkg_asks (fun _ w => map_err PkgStore (read_object c w));
      _ ← pkg_disk (fs_write (out_path outdir c) (String.string_of_list_byte blob));
      retrieve_objects outdir objects'
  end.

Definition package_retrieve (c outdir : string) : pkg unit :=
  obj ← pkg_asks (fun _ w => map_err PkgStore (read_dag c w));
  json ← lift (from_utf8 obj);
  _ ← pkg_disk (fs_write (out_path outdir MANIFEST) json);
  p ← lift (map_err PkgJson (from_json json));
  retrieve_objects outdir (pkg_objects (p : Web3Package)).

(** [main], with what it prints. *)
Definition package_main (cmd : PackageCommands) : pkg (list string) :=
  match cmd with
  | PkgInit opts => _ ← package_init opts; mret []
  | PkgAddObject opts => _ ← package_addobject opts; mret []
  | PkgBuild config => c ← package_build config; mret ["Content ID for Web3 Package is " +:+ c]
  | PkgRetrieve c outdir => _ ← package_retrieve c outdir; mret []
  end.
End program.

(** ** Publishing and retrieving *)

Definition alphanumeric (c : ascii) : bool :=
  let n := N_of_ascii c in between 48 57 n || between 65 90 n || between 97 122 n.

Definition JsonRoundTrip (A : Type) `{!JsonText A, !FromJson A} : Prop :=
  forall (a : A) t, json_to_string a = Ok t -> from_json t = Ok a /\ is_utf8 t = true.

(** The store is addressed by content: what was added is found under the text returned,
    which has letters and digits, and stays there; a node of the graph is JSON, which
    comes back with the same meaning. *)
Class IpfsLaws {W} `{!IpfsApi W, !FromJson Web3Package} := {
  add_cat : forall d w w' c, ipfs_add d w = (w', Ok c) -> try_concat (ipfs_cat c w') = Ok d;
  add_cid : forall d w w' c, ipfs_add d w = (w', Ok c) ->
    c <> EmptyString /\ Forall (fun a => alphanumeric a = true) (chars c);
  dag_put_get : forall t w w' c, ipfs_dag_put (str_bytes t) w = (w', Ok c) ->
    exists t', try_concat (ipfs_dag_get c w') = Ok (str_bytes t') /\ is_utf8 t' = true /\
      (from_json t' : result string Web3Package) = from_json t;
  add_keeps : forall d w c b,
    (try_concat (ipfs_cat c w) = Ok b -> try_concat (ipfs_cat c (ipfs_add d w).1) = Ok b) /\
    (try_concat (ipfs_dag_get c w) = Ok b -> try_concat (ipfs_dag_get c (ipfs_add d w).1) = Ok b);
  dag_put_keeps : forall d w c b,
    (try_concat (ipfs_cat c w) = Ok b -> try_concat (ipfs_cat c (ipfs_dag_put d w).1) = Ok b) /\
    (try_concat (ipfs_dag_get c w) = Ok b -> try_concat (ipfs_dag_get c (ipfs_dag_put d w).1) = Ok b);
}.

Lemma split_on_nonempty c s : split_on c s <> [].
Proof. induction s as [|a s IH]; simpl; [done|]. by destruct (Ascii.eqb a c), (split_on c s). Qed.

Lemma split_on_snoc c s t : c ∉ chars t -> split_on c (s +:+ String c t) = split_on c s ++ [t].
Proof.
  intros N. induction s as [|a s IH]; simpl.
  { by rewrite Ascii.eqb_refl, split_on_none. }
  destruct (Ascii.eqb a c); [by rewrite IH|]. rewrite IH.
  pose proof (split_on_nonempty c s). by destruct (split_on c s).
Qed.

(** A name that is one component of a path. *)
Definition plain_name (n : string) : Prop :=
  n <> EmptyString /\ n <> "." /\ "/"%char ∉ chars n.

Lemma out_path_last outdir n : plain_name n -> last (out_path outdir n) = Some n.
Proof.
  intros (N1 & N2 & N3). unfold out_path, components. rewrite split_on_snoc by done.
  rewrite filter_app, filter_cons_True, filter_nil by done.
  destruct (is_absolute _); [rewrite app_comm_cons|]; apply last_snoc.
Qed.

Lemma cid_plain c :
  c <> EmptyString -> Forall (fun a => alphanumeric a = true) (chars c) ->
  plain_name c /\ c <> MANIFEST.
Proof.
  intros NE F. rewrite Forall_forall in F. unfold plain_name. split_and!; [done| | |].
  - intros ->. by specialize (F "."%char ltac:(left)).
  - intros I. by specialize (F _ I).
  - intros ->. assert ("-"%char ∈ chars MANIFEST) as I by (by apply (bool_decide_unpack _)).
    by specialize (F _ I).
Qed.

Lemma bytes_text t : String.string_of_list_byte (str_bytes t) = t.
Proof. apply String.string_of_list_byte_of_string. Qed.

Lemma from_utf8_text t : is_utf8 t = true -> from_utf8 (str_bytes t) = Ok t.
Proof. intros U. unfold from_utf8. by rewrite bytes_text, U. Qed.

Section published.
Context {W : Type} `{!IpfsApi W, !JsonText PackageMetadata, !FromJson PackageMetadata}.
Context `{!JsonText Web3Package, !FromJson Web3Package, !IpfsLaws}.
Hypothesis metadata_json : JsonRoundTrip PackageMetadata.
Hypothesis package_json : JsonRoundTrip Web3Package.

Abbreviation state := (FileSystem * W)%type.

(** Others use the store meanwhile. *)
Inductive store_step (w : W) : W -> Prop :=
| step_add d : store_step w (ipfs_add d w).1
| step_dag_put d : store_step w (ipfs_dag_put d w).1.

Lemma store_keeps w w' c b :
  rtc store_step w w' ->
  (read_object c w = Ok b -> read_object c w' = Ok b) /\
  (read_dag c w = Ok b -> read_dag c w' = Ok b).
Proof.
  induction 1 as [|w1 w2 w3 S _ IH]; [done|].
  destruct S as [d|d]; [destruct (add_keeps d w1 c b) as [K1 K2]|destruct (dag_put_keeps d w1 c b) as [K1 K2]];
    (split; intros R; apply IH; [by apply K1|by apply K2]).
Qed.

Lemma add_reaches d w w' r : ipfs_add d w = (w', r) -> rtc store_step w w'.
Proof. intros E. apply rtc_once. replace w' with (ipfs_add d w).1 by (by rewrite E). constructor. Qed.

(** What the published object says of the blob. *)
Definition published (s : FileSystem) (w : W) (blob : PackageObject) (obj : Web3PackageObject) : Prop :=
  object_arch obj = po_architecture blob /\ object_type obj = po_type blob /\
  object_path obj = default EmptyString (file_name (po_path blob)) /\
  plain_name (cid (object_cid obj)) /\ cid (object_cid obj) <> MANIFEST /\
  exists contents, fs_read (components (po_path blob)) s = Ok contents /\
    read_object (cid (object_cid obj)) w = Ok contents.

Lemma published_later s w w' blob obj :
  rtc store_step w w' -> published s w blob obj -> published s w' blob obj.
Proof.
  intros R (A & B & C & D & E & b & F & G). split_and!; try done. exists b. split; [done|].
  by apply (proj1 (store_keeps w w' _ b R)).
Qed.

Lemma build_objects_ok blobs s w s' w' objects :
  build_objects blobs (s, w) = ((s', w'), Ok objects) ->
  s' = s /\ rtc store_step w w' /\ Forall2 (published s w') blobs objects.
Proof.
  revert w objects. induction blobs as [|blob blobs IH]; intros w objects; simpl.
  { intros [= <- <- <-]. done. }
  unfold mbind, method_bind, pkg_asks, pkg_remote, lift, write_object. simpl.
  destruct (fs_read _ s) as [contents|e|] eqn:F; simpl; [|done..].
  destruct (ipfs_add contents w) as [w1 [c|e|]] eqn:A; simpl; [|done..].
  destruct (build_objects blobs (s, w1)) as [[s2 w2] [objs|e|]] eqn:B; simpl; [|done..].
  intros [= <- <- <-]. destruct (IH _ _ B) as (-> & R & P). split; [done|].
  split; [etrans; [by eapply add_reaches|done]|]. constructor; [|done].
  eapply published_later; [exact R|].
  destruct (add_cid _ _ _ _ A) as [N L]. destruct (cid_plain c N L).
  split_and!; try done. exists contents. split; [done|]. by eapply add_cat.
Qed.
Lemma package_build_ok config s w s' w' c :
  package_build config (s, w) = ((s', w'), Ok c) ->
  s' = s /\ exists meta p, PackageMetadata_from_file config s = Ok meta /\
    p = mk_Web3Package 2 (md_version meta) (md_name meta) (md_author meta) (md_type meta)
          (pkg_objects p) [] /\
    Forall2 (published s w') (md_objects meta) (pkg_objects p) /\
    exists t, read_dag c w' = Ok (str_bytes t) /\ is_utf8 t = true /\ from_json t = Ok p.
Proof.
  unfold package_build, mbind, method_bind, pkg_asks, lift, pkg_remote, write_dag. simpl.
  destruct (PackageMetadata_from_file config s) as [meta|e|] eqn:M; simpl; [|done..].
  destruct (build_objects _ (s, w)) as [[s1 w1] [objs|e|]] eqn:B; simpl; [|done..].
  destruct (json_to_string _) as [t|e|] eqn:J; simpl; [|done..].
  destruct (ipfs_dag_put _ w1) as [w2 [c'|e|]] eqn:D; simpl; [|done..]. intros [= <- <- <-].
  destruct (build_objects_ok _ _ _ _ _ _ B) as (-> & _ & P). split; [done|].
  destruct (dag_put_get _ _ _ _ D) as (t' & G & U & E). destruct (package_json _ _ J) as [F _].
  exists meta, (mk_Web3Package 2 (md_version meta) (md_name meta) (md_author meta) (md_type meta) objs []).
  split_and!; [done|done| |exists t'; split_and!; [done..|by rewrite E]].
  eapply Forall2_impl; [exact P|]. intros blob obj. apply published_later.
  apply rtc_once. replace w2 with (ipfs_dag_put (str_bytes t) w1).1 by (by rewrite D). constructor.
Qed.

(** What is retrieved can be written to the directory. *)
Definition can_retrieve (outdir : string) (s : FileSystem) : Prop :=
  forall n, plain_name n -> can_create (out_path outdir n) s /\ limit s (out_path outdir n) = None.

Lemma can_retrieve_store outdir p t s : can_retrieve outdir s -> can_retrieve outdir (store p t s).
Proof. intros C n N. destruct (C n N) as [? L]. split; [done|exact L]. Qed.

Lemma write_retrieved outdir n t s :
  can_retrieve outdir s -> plain_name n ->
  fs_write (out_path outdir n) t s = (store (out_path outdir n) t s, Ok tt) /\
  files (store (out_path outdir n) t s) = <[out_path outdir n := t]> (files s).
Proof.
  intros C N. destruct (C n N) as [K L]. split; [apply fs_write_ok; [done|by rewrite L]|].
  unfold store. simpl. by rewrite L.
Qed.

(** The objects are written under their content ids; nothing else is touched. *)
Lemma retrieve_objects_ok outdir objects s w :
  can_retrieve outdir s ->
  Forall (fun o => plain_name (cid (object_cid o)) /\ cid (object_cid o) <> MANIFEST /\
            exists b, read_object (cid (object_cid o)) w = Ok b) objects ->
  exists s', retrieve_objects outdir objects (s, w) = ((s', w), Ok tt) /\
    (forall o b, o ∈ objects -> read_object (cid (object_cid o)) w = Ok b ->
       files s' !! out_path outdir (cid (object_cid o)) = Some (String.string_of_list_byte b)) /\
    (forall q, (forall o, o ∈ objects -> q <> out_path outdir (cid (object_cid o))) ->
       files s' !! q = files s !! q).
Proof.
  intros C F. revert s C. induction F as [|o objects (N & _ & b & R) F IH]; intros s C; simpl.
  { exists s. split_and!; [done|by intros o b ?%elem_of_nil|done]. }
  unfold mbind, method_bind, pkg_asks, pkg_disk. simpl. rewrite R. simpl.
  destruct (write_retrieved outdir _ (String.string_of_list_byte b) s C N) as [-> Fs]. simpl.
  destruct (IH _ (can_retrieve_store outdir (out_path outdir (cid (object_cid o)))
                    (String.string_of_list_byte b) s C)) as (s' & -> & I & K).
  exists s'. split_and!; [done| |].
  - intros o' b' [->|E]%elem_of_cons Rb; [|by apply I].
    destruct (decide (Exists (fun x => cid (object_cid x) = cid (object_cid o)) objects)) as [X|X].
    + apply Exists_exists in X as (x & Ex & Eq). rewrite <-Eq. apply I; [done|by rewrite Eq].
    + rewrite K, Fs, lookup_insert_eq; [congruence|]. intros x Ex Eq.
      apply X, Exists_exists. exists x. split; [done|].
      apply (f_equal last) in Eq. rewrite !out_path_last in Eq; [congruence| |done].
      rewrite Forall_forall in F. by destruct (F x Ex).
  - intros q Q. rewrite K by (intros x Ex; apply Q; by right).
    rewrite Fs, lookup_insert_ne; [done|]. intros <-. eapply Q; [by left|done].
Qed.
(** *** Defining a package *)

Definition add_all (adds : list AddObjectOpts) : method state PackageError unit :=
  foldr (fun o k => _ ← package_addobject o; k) (mret tt) adds.

(** The metadata after [init] and some [add-object]s. *)
Definition described (i : InitOpts) (adds : list AddObjectOpts) (meta : PackageMetadata) : Prop :=
  md_version meta = init_version i /\ md_name meta = init_name i /\
  md_author meta = init_author i /\ md_type meta = init_type i /\
  parse_annotations (init_annotations i) = Ok (md_annotations meta) /\
  Forall2 (fun o blob => po_architecture blob = add_architecture o /\ po_path blob = add_path o /\
             po_type blob = add_type o /\ po_content_id blob = None /\
             parse_annotations (add_annotations o) = Ok (po_annotations blob)) adds (md_objects meta).

(** The definition file holds the metadata. *)
Definition defined (config : string) (meta : PackageMetadata) (s : FileSystem) : Prop :=
  exists t, json_to_string meta = Ok t /\ files s !! components config = Some t.

Lemma defined_read config meta m s :
  defined config meta s -> PackageMetadata_from_file config s = Ok m -> m = meta.
Proof.
  intros (t & J & F). destruct (metadata_json _ _ J) as [R U].
  unfold PackageMetadata_from_file, fs_read, mbind, result_bind.
  destruct (open_file _ s); simpl; [|done..]. rewrite F. simpl. rewrite from_utf8_text by done.
  rewrite R. simpl. congruence.
Qed.

Lemma write_defined config meta t (s : state) s' :
  json_to_string meta = Ok t -> pkg_disk (fs_write (components config) t) s = (s', Ok tt) ->
  defined config meta s'.1.
Proof.
  unfold pkg_disk. intros J. destruct (fs_write _ _ s.1) as [d [[]|e|]] eqn:E; [|done..].
  simpl. intros [= <-]. apply fs_write_inv in E as (_ & Fi & ->). exists t. split; [done|].
  simpl. by rewrite lookup_insert_eq, clip_all.
Qed.

Lemma init_defines i (s s' : state) :
  package_init i s = (s', Ok tt) ->
  exists meta, described i [] meta /\ defined (init_config i) meta s'.1.
Proof.
  unfold package_init, mbind, method_bind, lift.
  destruct (parse_annotations _) as [a|e|] eqn:A; simpl; [|done..].
  destruct (json_to_string _) as [t|e|] eqn:J; simpl; [|done..]. intros E.
  eexists. split; [|by eapply write_defined]. by split_and!.
Qed.

Lemma add_defines i adds o meta (s s' : state) :
  described i adds meta -> defined (add_config o) meta s.1 ->
  package_addobject o s = (s', Ok tt) ->
  exists meta', described i (adds ++ [o]) meta' /\ defined (add_config o) meta' s'.1.
Proof.
  intros (D1 & D2 & D3 & D4 & D5 & D6) D. unfold package_addobject, mbind, method_bind, lift, pkg_asks.
  destruct (parse_annotations (add_annotations o)) as [a|e|] eqn:A; simpl; [|done..].
  destruct (PackageMetadata_from_file _ _) as [m|e|] eqn:M; simpl; [|done..].
  pose proof (defined_read _ _ _ _ D M) as ->.
  destruct (json_to_string _) as [t|e|] eqn:J; simpl; [|done..]. intros E.
  eexists. split; [|by eapply write_defined]. split_and!; try done. simpl.
  apply Forall2_app; [done|]. by repeat constructor.
Qed.

Lemma adds_define i adds0 adds meta config (s s' : state) :
  Forall (fun o => add_config o = config) adds ->
  described i adds0 meta -> defined config meta s.1 -> add_all adds s = (s', Ok tt) ->
  exists meta', described i (adds0 ++ adds) meta' /\ defined config meta' s'.1.
Proof.
  intros C. revert adds0 meta s. induction C as [|o adds Ec C IH]; intros adds0 meta s D F; simpl.
  { intros [= <-]. rewrite app_nil_r. eauto. }
  unfold mbind, method_bind. destruct (package_addobject o s) as [s1 [[]|e|]] eqn:A; [|done..].
  rewrite <-Ec in F. destruct (add_defines _ _ _ _ _ _ D F A) as (m1 & D1 & F1).
  rewrite Ec in F1. intros E. destruct (IH _ _ _ D1 F1 E) as (m2 & D2 & F2).
  rewrite <-app_assoc in D2. eauto.
Qed.

Lemma retrieve_ok c outdir s w p t :
  read_dag c w = Ok (str_bytes t) -> is_utf8 t = true -> from_json t = Ok p ->
  can_retrieve outdir s ->
  Forall (fun o => plain_name (cid (object_cid o)) /\ cid (object_cid o) <> MANIFEST /\
            exists b, read_object (cid (object_cid o)) w = Ok b) (pkg_objects p) ->
  exists s', package_retrieve c outdir (s, w) = ((s', w), Ok tt) /\
    files s' !! out_path outdir MANIFEST = Some t /\
    forall o b, o ∈ pkg_objects p -> read_object (cid (object_cid o)) w = Ok b ->
      files s' !! out_path outdir (cid (object_cid o)) = Some (String.string_of_list_byte b).
Proof.
  intros G U J K F. assert (plain_name MANIFEST) as PM by (by apply (bool_decide_unpack _)).
  destruct (write_retrieved outdir MANIFEST t s K PM) as [Wm Fm].
  destruct (retrieve_objects_ok outdir (pkg_objects p) (store (out_path outdir MANIFEST) t s) w
              (can_retrieve_store outdir _ t s K) F) as (s' & Ro & Oo & Oq).
  exists s'. split_and!; [| |done].
  - unfold package_retrieve, mbind, method_bind, pkg_asks, lift, pkg_disk. simpl. rewrite G. simpl.
    rewrite from_utf8_text by done. rewrite Wm. simpl. by rewrite J.
  - rewrite Oq, Fm, lookup_insert_eq; [done|]. intros o Eo Eq.
    apply (f_equal last) in Eq. rewrite out_path_last in Eq by done.
    rewrite Forall_forall in F. destruct (F o Eo) as (N & Nm & _).
    rewrite out_path_last in Eq by done. congruence.
Qed.

(** An object of the manifest, and the file retrieved for it, against the options it was
    added with and the disk the package was built from. *)
Definition retrieved (built disk : FileSystem) (outdir : string) (o : AddObjectOpts)
    (obj : Web3PackageObject) : Prop :=
  object_arch obj = add_architecture o /\ object_type obj = add_type o /\
  object_path obj = default EmptyString (file_name (add_path o)) /\
  exists contents, fs_read (components (add_path o)) built = Ok contents /\
    files disk !! out_path outdir (cid (object_cid obj)) =
      Some (String.string_of_list_byte contents).

(** C31. A package that was defined by [init] and any number of [add-object]s and then built
    is retrieved from its content id, however the store was used since and into any
    directory that can be written: the manifest says what the definition said, but for
    the annotations, and holds for each object the name of its file; under its content id
    there is a file with exactly the bytes the object had when the package was built. *)
Theorem package_published i adds (s0 s1 : state) s2 w2 c outdir s w :
  Forall (fun o => add_config o = init_config i) adds ->
  package_init i s0 = (s1, Ok tt) -> add_all adds s1 = ((s2, w2), Ok tt) ->
  forall w3 s3, package_build (init_config i) (s2, w2) = ((s3, w3), Ok c) ->
  rtc store_step w3 w -> can_retrieve outdir s ->
  exists s' p t, package_retrieve c outdir (s, w) = ((s', w), Ok tt) /\
    files s' !! out_path outdir MANIFEST = Some t /\ from_json t = Ok p /\
    pkg_version p = init_version i /\ pkg_name p = init_name i /\
    pkg_author p = init_author i /\ pkg_type p = init_type i /\ pkg_replaces p = [] /\
    Forall2 (retrieved s2 s' outdir) adds (pkg_objects p).
Proof.
  intros C I A w3 s3 B R K. destruct (init_defines _ _ _ I) as (m0 & D0 & F0).
  destruct (adds_define i [] adds m0 (init_config i) s1 (s2, w2) C D0 F0 A)
    as (meta & (D1 & D2 & D3 & D4 & _ & D6) & F). simpl in D6, F.
  destruct (package_build_ok _ _ _ _ _ _ B) as (_ & m & p & M & Ep & P & t & G & U & Jp).
  pose proof (defined_read _ _ _ _ F M) as ->.
  assert (Forall2 (published s2 w) (md_objects meta) (pkg_objects p)) as P'.
  { eapply Forall2_impl; [exact P|]. intros blob obj. by apply published_later. }
  destruct (retrieve_ok c outdir s w p t (proj2 (store_keeps w3 w c _ R) G) U Jp K)
    as (s' & E & Fm & Fo).
  { eapply Forall2_Forall_r; [exact P'|]. apply Forall_forall.
    intros blob _ obj (_ & _ & _ & N & Nm & b & _ & Rb). eauto. }
  exists s', p, t. do 3 (split; [done|]).
  assert (Forall2 (retrieved s2 s' outdir) adds (pkg_objects p)) as O; [|by rewrite Ep in O |- *].
  apply Forall2_same_length_lookup_2.
  { rewrite (Forall2_length _ _ _ D6). by eapply Forall2_length. }
  intros k o obj Ho Hobj. destruct (Forall2_lookup_l _ _ _ _ _ D6 Ho) as (blob & Hb & A1 & A2 & A3 & _).
  destruct (Forall2_lookup_lr _ _ _ _ _ _ P' Hb Hobj) as (B1 & B2 & B3 & _ & _ & b & B4 & B5).
  rewrite A2 in B3, B4. split_and!; [congruence..|].
  exists b. split; [done|]. apply Fo; [by eapply list_elem_of_lookup_2|done].
Qed.
End published.

(** What follows a second equals sign of an annotation is dropped. *)
Lemma annotation_value_cut k v rest :
  ascii_of_N 61 ∉ chars k -> ascii_of_N 61 ∉ chars v ->
  parse_annotation (k +:+ String (ascii_of_N 61) (v +:+ String (ascii_of_N 61) rest)) = Ok (k, v).
Proof. intros K V. unfold parse_annotation. by rewrite !split_on_cons by done. Qed.

(** ** An instance *)

Module ToyWeb3.

#[local] Instance package_type_eq : EqDecision Web3PackageType := ltac:(solve_decision).
#[local] Instance architecture_eq : EqDecision Web3PackageArchitecture := ltac:(solve_decision).
#[local] Instance object_type_eq : EqDecision Web3ObjectType := ltac:(solve_decision).
#[local] Instance content_id_eq : EqDecision Web3ContentId := ltac:(solve_decision).
#[local] Instance package_object_eq : EqDecision Web3PackageObject := ltac:(solve_decision).
#[local] Instance package_eq : EqDecision Web3Package := ltac:(solve_decision).
#[local] Instance blob_eq : EqDecision PackageObject := ltac:(solve_decision).
#[local] Instance metadata_eq : EqDecision PackageMetadata := ltac:(solve_decision).

(** JSON of the values of a table. *)
Section table.
Context {A : Type} `{!EqDecision A} (table : list (string * A)).

Definition table_to_string (a : A) : result string string :=
  ok_or (fst <$> head (filter (fun kv => kv.2 = a) table)) "not in the table".
Definition table_from_json (t : string) : result string A :=
  ok_or (snd <$> head (filter (fun kv => kv.1 = t) table)) "not in the table".

Lemma table_round_trip :
  NoDup table.*1 -> Forall (fun kv => is_utf8 kv.1 = true) table ->
  forall a t, table_to_string a = Ok t -> table_from_json t = Ok a /\ is_utf8 t = true.
Proof.
  unfold table_to_string, table_from_json. intros N U a t.
  destruct (head (filter (fun kv => kv.2 = a) table)) as [[k b]|] eqn:E; simpl; [|done].
  intros [= <-]. apply head_Some_elem_of in E as [Eb Ek]%list_elem_of_filter. simpl in Eb. subst b.
  split; [|rewrite Forall_forall in U; by apply (U _ Ek)].
  destruct (head (filter (fun kv => kv.1 = k) table)) as [[k' b]|] eqn:E.
  - apply head_Some_elem_of in E as [Eb Ek']%list_elem_of_filter. simpl in Eb. subst k'. simpl. f_equal.
    apply list_elem_of_lookup in Ek as [i Hi], Ek' as [j Hj].
    assert (i = j) as -> by (eapply (NoDup_lookup (table.*1)); [done| |];
      rewrite list_lookup_fmap; [by rewrite Hi|by rewrite Hj]). congruence.
  - apply head_None in E. assert ((k, a) ∈ filter (fun kv : string * A => kv.1 = k) table) as X
      by (by apply list_elem_of_filter). rewrite E in X. by apply elem_of_nil in X.
Qed.
End table.

(** A store that numbers what it is given. *)
Record Log := mk_Log { log_blobs : list bytes; log_nodes : list bytes }.

Definition log_read (l : list bytes) (c : string) : list (result string bytes) :=
  match parse_uint U64 c with
  | Some i => match l !! Z.to_nat i with
              | Some b => [Ok (take 1 b); Ok (drop 1 b)]
              | None => [Err "not found"]
              end
  | None => [Err "no content id"]
  end.

Definition log_add (l : list bytes) (d : bytes) : list bytes * result string string :=
  if in_range U64 (Z.of_nat (length l))
  then (l ++ [d], Ok (uint_to_string (Z.of_nat (length l))))
  else (l, Err "full").

#[local] Instance toy_ipfs : IpfsApi Log := {|
  ipfs_add d w := let '(l, r) := log_add (log_blobs w) d in (mk_Log l (log_nodes w), r);
  ipfs_dag_put d w :=
    if is_utf8 (String.string_of_list_byte d)
    then let '(l, r) := log_add (log_nodes w) d in (mk_Log (log_blobs w) l, r)
    else (w, Err "not JSON");
  ipfs_cat c w := log_read (log_blobs w) c;
  ipfs_dag_get c w := log_read (log_nodes w) c;
  ipfs_stats_repo _ := Err "no statistics";
  ipfs_stats_bw _ := Err "no statistics";
  ipfs_stats_bitswap _ := Err "no statistics";
|}.

Lemma log_add_read l d l' c : log_add l d = (l', Ok c) -> try_concat (log_read l' c) = Ok d.
Proof.
  unfold log_add. destruct (in_range U64 _) eqn:R; [|done]. intros [= <- <-].
  unfold log_read. rewrite parse_uint_to_string by (done || lia).
  rewrite Nat2Z.id, list_lookup_middle by done. simpl. by rewrite app_nil_r, take_drop.
Qed.

Lemma log_add_keeps l d c b :
  try_concat (log_read l c) = Ok b -> try_concat (log_read (log_add l d).1 c) = Ok b.
Proof.
  unfold log_add. destruct (in_range U64 _); [|done]. unfold log_read. simpl.
  destruct (parse_uint U64 c) as [i|]; [|done]. destruct (l !! Z.to_nat i) as [x|] eqn:E; [|done].
  by rewrite (lookup_app_l_Some _ _ _ _ E).
Qed.

#[local] Instance toy_ipfs_laws `{!FromJson Web3Package} : IpfsLaws (W:=Log).
Proof.
  split; unfold ipfs_add, ipfs_dag_put, ipfs_cat, ipfs_dag_get; cbn [toy_ipfs].
  - intros d w w' c E. destruct (log_add _ d) as [l r] eqn:A. injection E as <- ->. by eapply log_add_read.
  - intros d w w' c. unfold log_add. destruct (in_range U64 _); intros [= <- <-].
    destruct (uint_to_string_digits (Z.of_nat (length (log_blobs w)))) as [F N]. split.
    + intros E. by rewrite E in N.
    + eapply Forall_impl; [exact F|]. intros a. cbv beta. unfold alphanumeric. by intros ->.
  - intros t w w' c. rewrite bytes_text. destruct (is_utf8 t) eqn:U; [|done].
    destruct (log_add _ _) as [l r] eqn:A. intros [= <- ->]. exists t. split_and!; [by eapply log_add_read|done..].
  - intros d w c b. pose proof (log_add_keeps (log_blobs w) d c b). by destruct (log_add _ d).
  - intros d w c b. destruct (is_utf8 _); [|done].
    pose proof (log_add_keeps (log_nodes w) d c b). by destruct (log_add _ d).
Qed.

Definition init_opts : InitOpts :=
  mk_InitOpts "web3-pkg.json" 1 "contract" "someone" SmartContract ["licence=MIT"].
Definition add_opts : AddObjectOpts :=
  mk_AddObjectOpts "web3-pkg.json" Wasm32Wasi Executable "target/contract.wasm" [].
Definition metadata0 : PackageMetadata :=
  mk_PackageMetadata 1 "contract" "someone" SmartContract [("licence", "MIT")] [].
Definition metadata1 : PackageMetadata :=
  push_object (mk_PackageObject Wasm32Wasi "target/contract.wasm" None Executable []) metadata0.
Definition package1 : Web3Package :=
  mk_Web3Package 2 1 "contract" "someone" SmartContract
    [mk_Web3PackageObject Wasm32Wasi "contract.wasm" Executable (mk_Web3ContentId "0")] [].

Definition metadata_table : list (string * PackageMetadata) := [("m0", metadata0); ("m1", metadata1)].
Definition package_table : list (string * Web3Package) := [("p1", package1)].

#[local] Instance toy_metadata_text : JsonText PackageMetadata := table_to_string metadata_table.
#[local] Instance toy_metadata_json : FromJson PackageMetadata := table_from_json metadata_table.
#[local] Instance toy_package_text : JsonText Web3Package := table_to_string package_table.
#[local] Instance toy_package_json : FromJson Web3Package := table_from_json package_table.

Definition disk0 : FileSystem :=
  mk_FileSystem {[components "target/contract.wasm" := "code"]} {[["target"]; ["out"]]}
    (fun _ => false) (fun _ => None).
Definition store0 : Log := mk_Log [] [].

Definition defined1 := (package_init init_opts (disk0, store0)).1.
Definition defined2 := (add_all [add_opts] defined1).1.
Definition built := (package_build "web3-pkg.json" defined2).1.

Lemma out_can_retrieve : can_retrieve "out" disk0.
Proof.
  intros n (N1 & N2 & N3). split; [|done].
  assert (out_path "out" n = ["out"; n]) as ->.
  { unfold out_path, components. rewrite split_on_snoc by done. simpl.
    rewrite filter_cons_True by done. by rewrite filter_cons_True, filter_nil by done. }
  split_and!; [|by apply bool_decide_eq_true; vm_compute; right; right; apply (bool_decide_unpack _)|done].
  apply bool_decide_eq_false. simpl. intros [?|[?|E]]; [done..|].
  apply elem_of_union in E as [E%elem_of_singleton|E%elem_of_singleton]; done.
Qed.

Lemma package_published_witness : exists s' p t,
  package_retrieve "0" "out" (disk0, built.2) = ((s', built.2), Ok tt) /\
  files s' !! out_path "out" MANIFEST = Some t /\ from_json t = Ok p /\
  Forall2 (retrieved defined2.1 s' "out") [add_opts] (pkg_objects p).
Proof.
  destruct (package_published
              (table_round_trip metadata_table ltac:(by apply (bool_decide_unpack _))
                 ltac:(by repeat constructor))
              (table_round_trip package_table ltac:(by apply (bool_decide_unpack _))
                 ltac:(by repeat constructor))
              init_opts [add_opts] (disk0, store0) defined1 defined2.1 defined2.2 "0" "out" disk0 built.2
              ltac:(by repeat constructor) ltac:(vm_compute; reflexivity) ltac:(vm_compute; reflexivity)
              built.2 built.1 ltac:(vm_compute; reflexivity) (rtc_refl _ _) out_can_retrieve)
    as (s' & p & t & R & M & J & _ & _ & _ & _ & _ & O).
  exists s', p, t. auto.
Defined.
End ToyWeb3.
