(* ===== verification/Agent.v ===== *)
(** * The agents: [crates/compute_agent] and [crates/storage_agent]

    The choice of a service and the exporter of the compute agent, which answers each
    request by setting six global counters from the statistics of the control group and
    encoding them. Requests are served concurrently. *)

From S2P Require Import Prelude Floats Claim FileSystem Platform.

(** ** The command line *)

Inductive AgentCommand :=
| AgentDaemon
| AgentStatus.

Record AgentCli := mk_AgentCli {
  ac_config : string;
  ac_service : string;
  ac_service_type : option string;
  ac_cmd : option AgentCommand;
}.

Inductive AgentError :=
| AgentIo (e : IoError)
| AgentJson (err : string)
| AgentService (err : string).

(** [service_config::Config]. *)
Record ServicesConfig := mk_ServicesConfig { services : ServiceCollectionConfig }.

Section main.
Context `{!FromJson ServicesConfig}.

(** [Config::from_file]. *)
Definition Config_from_file (filename : string) (s : FileSystem)
    : result AgentError ServicesConfig :=
  bytes ← map_err AgentIo (fs_read (components filename) s);
  let json := String.string_of_list_byte bytes in
  if is_utf8 json then map_err AgentJson (from_json json)
  else Err (AgentJson "invalid unicode code point").

(** [main] of an agent, for the type of its services and its daemon. *)
Definition agent_main {A} (this_service_type : string) (daemon : ServiceConfig -> result AgentError A)
    (cli : AgentCli) (s : FileSystem) : result AgentError (option A) :=
  let service := default this_service_type (ac_service_type cli) in
  config ← Config_from_file (ac_config cli) s;
  config ← map_err AgentService (find_service (services config) (ac_service cli) service);
  match ac_cmd cli with
  | Some AgentDaemon => a ← daemon config; Ok (Some a)
  | Some AgentStatus => Ok None
  | None => Ok None
  end.

(** [daemon::run] of the compute agent: the address it serves on; an address that is not
    one panics. *)
Definition compute_daemon {Addr} (parse_addr : string -> option Addr) (config : ServiceConfig)
    : result AgentError Addr :=
  unwrap (ok_or (parse_addr (svc_exporter_address config +:+ ":" +:+ svc_exporter_port config)) tt).

Definition compute_main {Addr} (parse_addr : string -> option Addr) :=
  agent_main "compute" (compute_daemon parse_addr).

(** The daemon of the storage agent returns at once. *)
Definition storage_main := agent_main "storage" (fun _ => Ok tt).
End main.

(** ** The exporter *)

Inductive Metric :=
| CPU_TOTAL_USEC
| CPU_USER_USEC
| CPU_SYSTEM_USEC
| MEM_ANON_BYTES
| MEM_FILE_BYTES
| MEM_SOCK_BYTES.

#[export] Instance Metric_eq_dec : EqDecision Metric.
Proof. solve_decision. Defined.

Definition metric_name (m : Metric) : string :=
  match m with
  | CPU_TOTAL_USEC => "cpu_total_usec"
  | CPU_USER_USEC => "cpu_user_usec"
  | CPU_SYSTEM_USEC => "cpu_system_usec"
  | MEM_ANON_BYTES => "mem_anon_bytes"
  | MEM_FILE_BYTES => "mem_file_bytes"
  | MEM_SOCK_BYTES => "mem_sock_bytes"
  end.

Definition metric_help (m : Metric) : string :=
  match m with
  | CPU_TOTAL_USEC => "CPU time used in usec total"
  | CPU_USER_USEC => "CPU time used for userspace in usec"
  | CPU_SYSTEM_USEC => "CPU time used for kernel in usec"
  | MEM_ANON_BYTES => "Anonymous memory used in bytes"
  | MEM_FILE_BYTES => "File-backed memory used in bytes"
  | MEM_SOCK_BYTES => "Socket memory used in bytes"
  end.

(** A counter as it is gathered: its name, what it counts, its labels and its value. *)
Record MetricFamily := mk_MetricFamily {
  mf_name : string;
  mf_help : string;
  mf_labels : list (string * string);
  mf_value : spec_float;
}.

Definition metric_family (m : Metric) (v : spec_float) : MetricFamily :=
  mk_MetricFamily (metric_name m) (metric_help m)
    [("service", "compute"); ("source", "versatus")] v.

(** In the order in which they are set, and sorted by name as they are gathered. *)
Definition metrics : list Metric :=
  [CPU_TOTAL_USEC; CPU_USER_USEC; CPU_SYSTEM_USEC; MEM_ANON_BYTES; MEM_FILE_BYTES; MEM_SOCK_BYTES].

Definition metrics_by_name : list Metric :=
  [CPU_SYSTEM_USEC; CPU_TOTAL_USEC; CPU_USER_USEC; MEM_ANON_BYTES; MEM_FILE_BYTES; MEM_SOCK_BYTES].

Definition stat_of (m : Metric) (stats : CgroupStats) : Z :=
  match m with
  | CPU_TOTAL_USEC => cpu_total_usec (cg_cpu stats)
  | CPU_USER_USEC => cpu_user_usec (cg_cpu stats)
  | CPU_SYSTEM_USEC => cpu_system_usec (cg_cpu stats)
  | MEM_ANON_BYTES => mem_anon_bytes (cg_mem stats)
  | MEM_FILE_BYTES => mem_file_bytes (cg_mem stats)
  | MEM_SOCK_BYTES => mem_sock_bytes (cg_mem stats)
  end.

(** The metrics crate: a counter holds a float, and what is gathered is encoded. *)
Class Prometheus := {
  Counter : Type;
  counter_get : Counter -> spec_float;
  counter_reset : Counter -> Counter;
  counter_inc_by : spec_float -> Counter -> Counter;
  encode_text : list MetricFamily -> result string bytes;
  format_type : string;
}.

Class PrometheusLaws `{!Prometheus} := {
  get_reset : forall c, counter_get (counter_reset c) = S754_zero false;
  get_inc_by : forall v c, counter_get (counter_inc_by v c) = fadd F64 (counter_get c) v;
}.

Record Response := mk_Response {
  resp_status : Z;
  resp_content_type : string;
  resp_body : bytes;
}.

Inductive ScrapeError :=
| ScrapeStats (e : StatsError)
| ScrapeEncode (err : string).

Section exporter.
Context `{!Prometheus}.

Definition Registry := Metric -> Counter.

Definition update (m : Metric) (f : Counter -> Counter) (reg : Registry) : Registry := fun m' =>
  if decide (m' = m) then f (reg m') else reg m'.

(** One access to a counter, which is atomic. *)
Inductive Access :=
| ResetCounter (m : Metric)
| IncCounter (m : Metric) (v : spec_float).

Definition access (a : Access) (reg : Registry) : Registry :=
  match a with
  | ResetCounter m => update m counter_reset reg
  | IncCounter m v => update m (counter_inc_by v) reg
  end.

Definition accesses (l : list Access) (reg : Registry) : Registry :=
  fold_left (fun reg a => access a reg) l reg.

(** The accesses of a request, in order. *)
Definition request_accesses (stats : CgroupStats) : list Access :=
  metrics ≫= fun m => [ResetCounter m; IncCounter m (float_of_Z F64 (stat_of m stats))].

Definition families (f : Metric -> spec_float) : list MetricFamily :=
  (fun m => metric_family m (f m)) <$> metrics_by_name.

Definition gather (reg : Registry) : list MetricFamily := families (counter_get ∘ reg).

Definition respond (reg : Registry) : result ScrapeError Response :=
  buffer ← map_err ScrapeEncode (encode_text (gather reg));
  Ok (mk_Response 200 format_type buffer).

(** [serve_req], when no other request is served meanwhile. *)
Definition serve_req (pid : Z) (s : FileSystem) : method Registry ScrapeError Response := fun reg =>
  match CgroupStats_new pid s with
  | Ok stats => let reg' := accesses (request_accesses stats) reg in (reg', respond reg')
  | Err e => (reg, Err (ScrapeStats e))
  | Panic => (reg, Panic)
  end.

(** A request under way: the accesses it has left, and the counters it has read. *)
Record Scrape := mk_Scrape {
  sc_id : nat;
  sc_accesses : list Access;
  sc_read : Metric -> option spec_float;
}.

Definition read_counter (m : Metric) (v : spec_float) (rd : Metric -> option spec_float)
    : Metric -> option spec_float := fun m' =>
  if decide (m' = m) then Some v else rd m'.

(** Requests that are served together, and what was gathered for those that are done.
    Gathering reads the counters one after another, in any order. *)
Record Exporter := mk_Exporter {
  ex_registry : Registry;
  ex_running : list Scrape;
  ex_gathered : list (nat * list MetricFamily);
}.

Inductive exporter_step : Exporter -> Exporter -> Prop :=
| step_access reg l1 l2 id a rest rd g :
    exporter_step (mk_Exporter reg (l1 ++ mk_Scrape id (a :: rest) rd :: l2) g)
                  (mk_Exporter (access a reg) (l1 ++ mk_Scrape id rest rd :: l2) g)
| step_read reg l1 l2 id rd m g :
    rd m = None ->
    exporter_step (mk_Exporter reg (l1 ++ mk_Scrape id [] rd :: l2) g)
      (mk_Exporter reg
         (l1 ++ mk_Scrape id [] (read_counter m (counter_get (reg m)) rd) :: l2) g)
| step_gather reg l1 l2 id rd f g :
    (forall m, rd m = Some (f m)) ->
    exporter_step (mk_Exporter reg (l1 ++ mk_Scrape id [] rd :: l2) g)
                  (mk_Exporter reg (l1 ++ l2) (g ++ [(id, families f)])).
End exporter.

(** ** What is exported *)

Lemma round_not_minus_zero (t : float_ty) m e :
  binary_round_aux (f_prec t) (f_emax t) false m e loc_Exact <> S754_zero true.
Proof.
  unfold binary_round_aux. destruct (shr_fexp _ _ _ _ _) as [x e'].
  destruct (shr_fexp _ _ _ e' _) as [y e'']. destruct (shr_m y); [done| |done].
  by destruct (e'' <=? _)%Z.
Qed.

Lemma float_of_nat_not_minus_zero t z : (0 <= z)%Z -> float_of_Z t z <> S754_zero true.
Proof.
  intros N. unfold float_of_Z, binary_normalize. destruct z as [|q|q]; [done| |lia].
  unfold binary_round. destruct (shl_align _ _ _) as [m e]. apply round_not_minus_zero.
Qed.

Lemma fadd_zero_l t x : x <> S754_zero true -> fadd t (S754_zero false) x = x.
Proof. by destruct x as [[]| | |]. Qed.

(** An integer below [2 ^ 53] is exact. *)
Lemma float_of_Z_exact z : (0 <= z < 2 ^ 53)%Z -> ftrunc (float_of_Z F64 z) = Some z.
Proof.
  intros Hz. destruct z as [|q|q]; [done| |lia].
  destruct (float_of_pos_exact F64 ltac:(done) ltac:(done) q) as (m & e & -> & E & M); [apply Hz|].
  simpl. f_equal. destruct (Z.leb_spec 0 e).
  - replace e with 0%Z in * by lia. simpl in M. lia.
  - rewrite M, Z.div_mul; [done|]. pose proof (pow2_pos (- e) ltac:(lia)). lia.
Qed.

Section exported.
Context `{!Prometheus, !PrometheusLaws}.

Definition stats_wf (stats : CgroupStats) : Prop := forall m, (0 <= stat_of m stats)%Z.

Definition zeroed (reg : Registry) : Prop := forall m, counter_get (reg m) = S754_zero false.

(** The sum of floats in order. *)
Definition fsum (l : list spec_float) : spec_float := fold_left (fadd F64) l (S754_zero false).

(** The increments of a counter among some accesses. *)
Definition increments (m : Metric) : list Access -> list spec_float :=
  omap (fun a => match a with
                 | IncCounter m' v => if decide (m' = m) then Some v else None
                 | ResetCounter _ => None
                 end).

Lemma accesses_set stats reg m :
  stats_wf stats ->
  counter_get (accesses (request_accesses stats) reg m) = float_of_Z F64 (stat_of m stats).
Proof.
  intros Wf. specialize (Wf m). unfold accesses, request_accesses, access.
  assert (forall c, counter_get (counter_inc_by (float_of_Z F64 (stat_of m stats)) (counter_reset c)) =
            float_of_Z F64 (stat_of m stats)) as E.
  { intros c. rewrite get_inc_by, get_reset. apply fadd_zero_l. by apply float_of_nat_not_minus_zero. }
  destruct m; apply E.
Qed.

Lemma increments_request m stats :
  increments m (request_accesses stats) = [float_of_Z F64 (stat_of m stats)].
Proof. by destruct m. Qed.

Lemma fsum_snoc l v : fsum (l ++ [v]) = fadd F64 (fsum l) v.
Proof. unfold fsum. by rewrite fold_left_app. Qed.

(** A value that is the sum of some increments, each counted at most once. *)
Definition sums_some (vals : list spec_float) (v : spec_float) : Prop :=
  exists l, v = fsum l /\ l ⊆+ vals.

(** Along a run the value of a counter is the sum of the increments since it was last
    reset, which are those of distinct requests; and so were the values read. *)
Definition tracks (vals : Metric -> list spec_float) (x : Exporter) : Prop :=
  (forall m, exists l, counter_get (ex_registry x m) = fsum l /\
     l ++ (ex_running x ≫= fun r => increments m (sc_accesses r)) ⊆+ vals m) /\
  Forall (fun r => forall m v, sc_read r m = Some v -> sums_some (vals m) v) (ex_running x).

Definition reported (vals : Metric -> list spec_float) (g : list MetricFamily) : Prop :=
  exists f : Metric -> spec_float, (forall m, sums_some (vals m) (f m)) /\ g = families f.

Lemma tracks_counter vals x m : tracks vals x -> sums_some (vals m) (counter_get (ex_registry x m)).
Proof.
  intros [T _]. destruct (T m) as (l & E & I). exists l. split; [done|].
  etrans; [apply submseteq_inserts_r; reflexivity|exact I].
Qed.

Lemma access_tracks vals reg l1 l2 id a rest rd g :
  tracks vals (mk_Exporter reg (l1 ++ mk_Scrape id (a :: rest) rd :: l2) g) ->
  tracks vals (mk_Exporter (access a reg) (l1 ++ mk_Scrape id rest rd :: l2) g).
Proof.
  intros [T R]. split; [|by simpl in R |- *; rewrite Forall_app, Forall_cons in R |- *].
  intros m. destruct (T m) as (l & E & I). simpl in E, I |- *.
  rewrite bind_app, bind_cons in I |- *. simpl in I.
  destruct a as [m'|m' v]; simpl; unfold update.
  - destruct (decide (m = m')) as [->|N]; [|by exists l; destruct (decide (m = m'))].
    exists []. rewrite get_reset. split; [done|].
    etrans; [|exact I]. apply submseteq_inserts_l. reflexivity.
  - destruct (decide (m = m')) as [->|N].
    + exists (l ++ [v]). rewrite get_inc_by, fsum_snoc, E. split; [done|].
      destruct (decide (m' = m')); [|done]. etrans; [|exact I]. apply Permutation_submseteq. solve_Permutation.
    + exists l. by destruct (decide (m' = m)) as [->|].
Qed.

Lemma exporter_step_tracks vals x x' :
  exporter_step x x' -> tracks vals x ->
  tracks vals x' /\ exists g, ex_gathered x' = ex_gathered x ++ g /\ Forall (fun r => reported vals r.2) g.
Proof.
  intros S T. destruct S as [reg l1 l2 id a rest rd g|reg l1 l2 id rd m g N|reg l1 l2 id rd f g D].
  - split; [by eapply access_tracks|exists []; by rewrite app_nil_r].
  - split; [|exists []; by rewrite app_nil_r]. pose proof (tracks_counter _ _ m T) as V.
    destruct T as [T R]. split.
    + intros m'. specialize (T m'). simpl in T |- *. by rewrite bind_app, bind_cons in *.
    + simpl in V, R |- *. rewrite Forall_app, Forall_cons in R |- *. destruct R as (R1 & R & R2).
      split; [done|]. split; [|done]. simpl in R |- *. intros m' v. unfold read_counter.
      destruct (decide (m' = m)) as [->|]; [by intros [= <-]|apply R].
  - destruct T as [T R]. simpl in R. rewrite Forall_app, Forall_cons in R. destruct R as (R1 & R & R2).
    split; [split|].
    + intros m. destruct (T m) as (l & E & I). exists l. split; [exact E|]. simpl in I |- *.
      rewrite bind_app, bind_cons in I. by rewrite bind_app.
    + simpl. by rewrite Forall_app.
    + exists [(id, families f)]. split; [done|]. constructor; [|done]. exists f.
      split; [|done]. intros m. apply (R m). apply D.
Qed.

(** Requests that are to be served, with the statistics each finds. *)
Definition requests (l : list (nat * CgroupStats)) (reg : Registry) : Exporter :=
  mk_Exporter reg ((fun r => mk_Scrape r.1 (request_accesses r.2) (fun _ => None)) <$> l) [].

Definition request_values (l : list (nat * CgroupStats)) (m : Metric) : list spec_float :=
  (fun r => float_of_Z F64 (stat_of m r.2)) <$> l.

Lemma requests_tracked l reg : zeroed reg -> tracks (request_values l) (requests l reg).
Proof.
  intros Z. split.
  - intros m. exists []. split; [apply Z|]. simpl. unfold request_values.
    enough (forall l0 : list (nat * CgroupStats),
      (((fun r => mk_Scrape r.1 (request_accesses r.2) (fun _ => None)) <$> l0)
        ≫= fun r => increments m (sc_accesses r)) =
      (fun r => float_of_Z F64 (stat_of m r.2)) <$> l0) as E by (by rewrite E).
    intros l0. induction l0 as [|r l0 IH]; [done|].
    rewrite !fmap_cons, bind_cons, IH. cbn [sc_accesses]. by rewrite increments_request.
  - simpl. apply Forall_fmap, Forall_true. by intros r m v.
Qed.

Lemma run_reported l reg x :
  zeroed reg -> rtc exporter_step (requests l reg) x ->
  Forall (fun r => reported (request_values l) r.2) (ex_gathered x).
Proof.
  intros Z R. assert (tracks (request_values l) x /\
    Forall (fun r => reported (request_values l) r.2) (ex_gathered x)) as [_ G]; [|done].
  revert x R. apply (rtc_ind_r (fun x => tracks (request_values l) x /\ Forall _ (ex_gathered x))
    (requests l reg)); [by split; [apply requests_tracked|constructor]|].
  intros y z _ S [T G]. destruct (exporter_step_tracks _ _ _ S T) as (T' & g & -> & Fg).
  split; [done|]. by apply Forall_app.
Qed.

Lemma run_accesses reg l1 l2 id l rest rd g :
  rtc exporter_step (mk_Exporter reg (l1 ++ mk_Scrape id (l ++ rest) rd :: l2) g)
    (mk_Exporter (accesses l reg) (l1 ++ mk_Scrape id rest rd :: l2) g).
Proof.
  revert reg. induction l as [|a l IH]; intros reg; [done|].
  eapply rtc_l; [apply (step_access reg l1 l2 id a (l ++ rest) rd g)|]. apply IH.
Qed.

(** All counters are read and none changes meanwhile. *)
Lemma run_gather reg l1 l2 id g :
  rtc exporter_step (mk_Exporter reg (l1 ++ mk_Scrape id [] (fun _ => None) :: l2) g)
    (mk_Exporter reg (l1 ++ l2) (g ++ [(id, gather reg)])).
Proof.
  eapply rtc_l; [by apply (step_read reg l1 l2 id _ CPU_TOTAL_USEC)|].
  eapply rtc_l; [by apply (step_read reg l1 l2 id _ CPU_USER_USEC)|].
  eapply rtc_l; [by apply (step_read reg l1 l2 id _ CPU_SYSTEM_USEC)|].
  eapply rtc_l; [by apply (step_read reg l1 l2 id _ MEM_ANON_BYTES)|].
  eapply rtc_l; [by apply (step_read reg l1 l2 id _ MEM_FILE_BYTES)|].
  eapply rtc_l; [by apply (step_read reg l1 l2 id _ MEM_SOCK_BYTES)|].
  apply rtc_once, step_gather. by intros [].
Qed.

(** A request that is served alone makes the steps of [serve_req]. *)
Lemma serve_alone stats reg :
  let reg' := accesses (request_accesses stats) reg in
  rtc exporter_step (requests [(0, stats)] reg) (mk_Exporter reg' [] [(0, gather reg')]).
Proof.
  etrans; [|apply (run_gather _ [] [] 0 [])].
  pose proof (run_accesses reg [] [] 0 (request_accesses stats) [] (fun _ => None) []) as R.
  by rewrite app_nil_r in R.
Qed.

Lemma metrics_sorted :
  metrics_by_name ≡ₚ metrics /\
  Sorted (fun m m' => String.ltb (metric_name m) (metric_name m') = true) metrics_by_name.
Proof. split; [unfold metrics; solve_Permutation|repeat constructor]. Qed.

Lemma gather_elem reg m : metric_family m (counter_get (reg m)) ∈ gather reg.
Proof.
  apply (list_elem_of_fmap_2 (fun m => metric_family m (counter_get (reg m))) metrics_by_name).
  apply (bool_decide_unpack _). by destruct m.
Qed.

Lemma request_split stats :
  request_accesses stats = take 11 (request_accesses stats) ++
    [IncCounter MEM_SOCK_BYTES (float_of_Z F64 (stat_of MEM_SOCK_BYTES stats))].
Proof. done. Qed.

Lemma reset_sock stats reg :
  counter_get (accesses (take 11 (request_accesses stats)) reg MEM_SOCK_BYTES) = S754_zero false.
Proof. apply get_reset. Qed.

(** The first of two requests gathers while the second is between its two accesses. *)
Lemma scrape_reports_nothing stats reg : exists x,
  rtc exporter_step (requests [(0, stats); (1, stats)] reg) x /\
  exists g, ex_gathered x = [(0, g)] /\ metric_family MEM_SOCK_BYTES (S754_zero false) ∈ g.
Proof.
  set (A := request_accesses stats). set (reg2 := accesses (take 11 A) (accesses A reg)).
  eexists. split.
  - etrans; [|etrans]; [| |apply (run_gather reg2 [] [mk_Scrape 1 (drop 11 A) (fun _ => None)] 0 [])].
    + pose proof (run_accesses reg [] [mk_Scrape 1 A (fun _ => None)] 0 A [] (fun _ => None) []) as R.
      by rewrite app_nil_r in R.
    + apply (run_accesses (accesses A reg) [mk_Scrape 0 [] (fun _ => None)] [] 1
        (take 11 A) (drop 11 A) (fun _ => None) []).
  - eexists. split; [done|]. rewrite <-(reset_sock stats (accesses A reg)). apply gather_elem.
Qed.

(** Both reset before either adds. *)
Lemma scrape_reports_twice stats reg : stats_wf stats -> exists x,
  rtc exporter_step (requests [(0, stats); (1, stats)] reg) x /\
  exists g v, ex_gathered x = [(0, g)] /\ v = float_of_Z F64 (mem_sock_bytes (cg_mem stats)) /\
    metric_family MEM_SOCK_BYTES (fadd F64 v v) ∈ g.
Proof.
  intros Wf. set (A := request_accesses stats). set (v := float_of_Z F64 (mem_sock_bytes (cg_mem stats))).
  set (reg1 := accesses (take 11 A) reg). set (reg2 := access (IncCounter MEM_SOCK_BYTES v) (accesses A reg1)).
  eexists. split.
  - etrans; [|etrans; [|etrans]]; [| | |apply (run_gather reg2 [] [mk_Scrape 1 [] (fun _ => None)] 0 [])].
    + apply (run_accesses reg [] [mk_Scrape 1 A (fun _ => None)] 0 (take 11 A) (drop 11 A)
        (fun _ => None) []).
    + pose proof (run_accesses reg1 [mk_Scrape 0 (drop 11 A) (fun _ => None)] [] 1 A []
        (fun _ => None) []) as R. rewrite app_nil_r in R. exact R.
    + apply (run_accesses (accesses A reg1) [] [mk_Scrape 1 [] (fun _ => None)] 0
        [IncCounter MEM_SOCK_BYTES v] [] (fun _ => None) []).
  - eexists _, v. split; [done|]. split; [done|].
    assert (counter_get (reg2 MEM_SOCK_BYTES) = fadd F64 v v) as <-.
    { unfold reg2, access, update. rewrite decide_True by done.
      rewrite get_inc_by. f_equal. by apply accesses_set. }
    apply gather_elem.
Qed.

(** C35. What the exporter reports. A request that is served alone reports of each counter
    the statistics of the control group as a float, whatever was there before, which is
    the number itself below [2 ^ 53]. Of requests that are served together, each access
    and each reading of a counter a step of its own, each reports for a counter a sum of
    the statistics of some of them, each counted at most once; with two there are runs
    in which one reports nothing at all and in which one reports twice the value. *)
Theorem scrape_spec pid s stats reg :
  CgroupStats_new pid s = Ok stats -> stats_wf stats -> zeroed reg ->
  (forall reg0, exists reg', serve_req pid s reg0 = (reg', respond reg') /\
     rtc exporter_step (requests [(0, stats)] reg0) (mk_Exporter reg' [] [(0, gather reg')]) /\
     gather reg' = families (fun m => float_of_Z F64 (stat_of m stats)) /\
     forall m, (stat_of m stats < 2 ^ 53)%Z -> ftrunc (counter_get (reg' m)) = Some (stat_of m stats)) /\
  (forall l x, rtc exporter_step (requests l reg) x ->
     Forall (fun r => reported (request_values l) r.2) (ex_gathered x)) /\
  (exists x, rtc exporter_step (requests [(0, stats); (1, stats)] reg) x /\
     exists g, ex_gathered x = [(0, g)] /\ metric_family MEM_SOCK_BYTES (S754_zero false) ∈ g) /\
  (exists x, rtc exporter_step (requests [(0, stats); (1, stats)] reg) x /\
     exists g v, ex_gathered x = [(0, g)] /\ v = float_of_Z F64 (mem_sock_bytes (cg_mem stats)) /\
       metric_family MEM_SOCK_BYTES (fadd F64 v v) ∈ g).
Proof.
  intros E Wf Z. split_and!.
  - intros reg0. exists (accesses (request_accesses stats) reg0). split_and!.
    + unfold serve_req. by rewrite E.
    + apply serve_alone.
    + unfold gather, families. apply list_fmap_ext. intros i m _. f_equal. by apply accesses_set.
    + intros m L. rewrite accesses_set by done. apply float_of_Z_exact. split; [apply Wf|done].
  - intros l x. by apply run_reported.
  - apply scrape_reports_nothing.
  - by apply scrape_reports_twice.
Qed.
End exported.

(** ** An instance *)

Module ToyAgent.

#[local] Instance toy_prometheus : Prometheus := {|
  Counter := spec_float;
  counter_get c := c;
  counter_reset _ := S754_zero false;
  counter_inc_by v c := fadd F64 c v;
  encode_text _ := Ok [];
  format_type := "text/plain";
|}.

#[local] Instance toy_prometheus_laws : PrometheusLaws.
Proof. by split. Qed.

Definition sample_stats : CgroupStats :=
  mk_CgroupStats (mk_CgroupCpuStats 1500 500 1000) (mk_CgroupMemStats 12288 8192 0).

Definition fresh_registry : @Registry toy_prometheus := fun _ => S754_zero false.

Lemma scrape_spec_witness : exists reg',
  serve_req 7 sample_disk fresh_registry = (reg', respond reg') /\
  ftrunc (counter_get (reg' CPU_TOTAL_USEC)) = Some 1500%Z.
Proof.
  destruct (scrape_spec 7 sample_disk sample_stats fresh_registry) as [A _].
  - vm_compute. reflexivity.
  - by intros [].
  - done.
  - destruct (A fresh_registry) as (reg' & S & _ & _ & V). exists reg'. split; [exact S|]. by apply V.
Defined.
End ToyAgent.
