(* ===== verification/Indexer.v ===== *)
(** * The indexer client: [crates/vrrb_http] and [node/src/indexer_module.rs]

    The module that tells an external indexer of the transactions a node adds to its
    mempool, over the HTTP client. Sending a request is a parameter, as are addresses. *)

From S2P Require Import Prelude Floats Primitives Keypair Transactions ToyModel Account Mempool.
From S2P Require Import Staking Claim Reward Vrf Blocks BlockProofs Threshold Storage.
From S2P Require Import StorageProofs Dag Miner NodeErrors StateManager Quorum Config Events.
From S2P Require Import Network Consensus Runtime FileSystem.

(** ** [vrrb_http/src/http.rs] *)

Inductive HttpMethod :=
| GET
| POST.

(** Parsing an address, joining a path to it, and a request on its way to a server whose
    state is [W]; the answer is the status. An error is its text. *)
Class Reqwest (W : Type) := {
  Url : Type;
  url_parse : string -> result string Url;
  url_join : Url -> string -> result string Url;
  http_send : HttpMethod -> Url -> list (string * string) -> option string -> method W string Z;
}.

Inductive HttpError :=
| HttpRequestError (err : string)
| HttpSerdeJson (err : string)
| HttpUrlError (err : string)
| HttpOther (msg : string).

Section client.
Context {W : Type} `{!Reqwest W}.

Record HttpClient := mk_HttpClient {
  hc_base_url : Url;
  hc_headers : list (string * string);
}.

Definition HttpClientBuilder_new (base_url : string) : result HttpError HttpClient :=
  base_url ← map_err HttpUrlError (url_parse base_url);
  Ok (mk_HttpClient base_url []).

(** A header replaces the one of its name. *)
Definition default_headers (c : HttpClient) : HttpClient :=
  mk_HttpClient (hc_base_url c)
    (filter (fun h => h.1 <> "content-type") (hc_headers c) ++ [("content-type", "application/json")]).

(** A path that cannot be joined panics. *)
Definition http_request (m : HttpMethod) (path : string) (body : option string) (c : HttpClient)
    : method W HttpError Z := fun w =>
  match url_join (hc_base_url c) path with
  | Ok url => let '(w', r) := http_send m url (hc_headers c) body w in (w', map_err HttpRequestError r)
  | _ => (w, Panic)
  end.

Definition http_get (path : string) (c : HttpClient) : method W HttpError Z :=
  http_request GET path None c.

Definition http_post (path body : string) (c : HttpClient) : method W HttpError Z :=
  http_request POST path (Some body) c.

(** ** [vrrb_http/src/indexer.rs] *)

Definition INDEXER_URL : string := "http://localhost:3444".

Definition IndexerClient_new (base_url : string) : result HttpError HttpClient :=
  c ← HttpClientBuilder_new base_url;
  Ok (default_headers c).
End client.

Section indexer.
Context `{!Profile, !Hashing, !Secp256k1, !ValidatorKeys, !SocketAddrs, !Ecvrf, !StrDebug}.
Context `{!ToJson Address, !ToJson PublicKey, !ToJson Token, !ToJson Z, !ToJson string}.
Context `{!LinkedMap, !LeftRight, !ThresholdCrypto, !KeyGen, !Kademlia, !KeyShares}.
Context {W : Type} `{!Reqwest W, !JsonText TxnRecord}.

(** A record that cannot be serialised panics. *)
Definition post_tx (txn_record : TxnRecord) (c : HttpClient) : method W HttpError Z := fun w =>
  match json_to_string txn_record with
  | Ok req_json => http_post "/transactions" req_json c w
  | _ => (w, Panic)
  end.

(** ** [node/src/indexer_module.rs] *)

(** [IndexerModule::new]; an address of the indexer that is not one panics. *)
Definition IndexerModule_new : result string HttpClient :=
  unwrap (IndexerClient_new INDEXER_URL).

(** [IndexerModule::handle], for what the read handles of the mempool see; a failed
    request is only logged. *)
Definition indexer_handle (client : HttpClient) (mempool : LeftRightMempool) (event : Event)
    : method W string ActorState := fun w =>
  match event with
  | Stop => (w, Ok ActorStopped)
  | TxnAddedToMempool transaction_digest =>
      match factory_entries mempool !! transaction_digest with
      | Some txn_record =>
          match post_tx txn_record client w with
          | (w', Panic) => (w', Panic)
          | (w', _) => (w', Ok ActorRunning)
          end
      | None => (w, Ok ActorRunning)
      end
  | _ => (w, Ok ActorRunning)
  end.
End indexer.

(** ** Indexing what enters the mempool *)

(** A request returns, though it may fail. *)
Class ReqwestLaws {W} `{!Reqwest W} :=
  http_send_returns : forall m url hs body w, (http_send m url hs body w).2 <> Panic.

Section indexed.
Context `{!Profile, !Hashing, !Secp256k1, !ValidatorKeys, !SocketAddrs, !Ecvrf, !StrDebug}.
Context `{!ToJson Address, !ToJson PublicKey, !ToJson Token, !ToJson Z, !ToJson string}.
Context `{!ToJson (list string), !ToJson Reward, !ToJson (list (string * list TransactionDigest)),
  !ToJson (list (string * list Z)), !ToJson (list (string * QuorumCertifiedTxn)),
  !ToJson (list (Z * Claim)), !ToJson Claim}.
Context `{!ToDebug string, !ToDebug (list string), !ToDebug Z, !ToDebug Claim, !ToDebug Reward}.
Context `{!HashOrder, !TrieDb, !LinkedMap, !LeftRight, !ThresholdCrypto, !KeyGen}.
Context `{!BullDag Block, !Kademlia, !CuckooFilters, !LruCaches}.
Context `{!Bincode (list (Z * Claim)), !Bincode HeaderTuple, !KeyShares}.
Context `{!HashOrderLaws, !LinkedMapLaws, !LeftRightLaws, !BullDagLaws Block}.
Context {W : Type} `{!Reqwest W, !ReqwestLaws, !JsonText TxnRecord}.

Lemma factory_entries_abs mp id :
  mp_wf mp -> factory_entries mp !! id = mp_abs mp !! id.
Proof.
  intros [[N F] _]. unfold factory_entries, mp_abs.
  assert (map (fun r => (rec_txn_id r, r)) (map snd (mp_pool mp)) = mp_pool mp) as ->.
  { clear N. induction F as [|[k r] l E _ IH]; simpl in *; [done|]. by rewrite IH, <-E. }
  f_equal. apply list_to_map_proper; [|by rewrite reverse_Permutation].
  by rewrite fmap_reverse, reverse_Permutation.
Qed.

Lemma post_tx_sends record client (w : W) json url :
  json_to_string record = Ok json -> url_join (hc_base_url client) "/transactions" = Ok url ->
  exists r, r <> Panic /\
  post_tx record client w = ((http_send POST url (hc_headers client) (Some json) w).1, r).
Proof.
  intros J U. unfold post_tx, http_post, http_request. rewrite J, U.
  pose proof (http_send_returns POST url (hc_headers client) (Some json) w) as R.
  destruct (http_send _ _ _ _ _) as [w' [n|e|]]; simpl in *; [by eexists (Ok n)|by eexists (Err _)|done].
Qed.

Variable from_bytes_error : string.
Variable debug_graph : GraphError -> string.
Variable txn_set : list TransactionKind -> list TransactionKind.
Variable claim_set : list (Z * option Claim) -> list (Z * option Claim).
Variable maglev_new : list ValidatorPublicKey -> bool.

Abbreviation handles := (handle from_bytes_error debug_graph txn_set claim_set maglev_new).
Abbreviation steps := (runtime_step from_bytes_error debug_graph txn_set claim_set maglev_new).

Lemma new_txn_handled env txn rt o rt' o' :
  mp_wf (sm_mempool (rt_state_driver rt)) ->
  handles env (NewTxnCreated txn) (rt, o) = Some ((rt', o'), Ok ActorRunning) ->
  ob_events o' = ob_events o ++ [mk_EventMessage None (TxnAddedToMempool (txn_id txn))] /\
  mp_wf (sm_mempool (rt_state_driver rt')) /\
  mp_abs (sm_mempool (rt_state_driver rt')) !! txn_id txn = Some (TxnRecord_new (env_now env) txn).
Proof.
  intros Wf. unfold handle. intros [= E]. revert E. cbn [handle_event].
  rewrite !method_bind_unfold. unfold run_state, on_actor, on_state_driver, handle_new_txn_created.
  destruct (publish_all_spec [AddOp (TxnRecord_new (env_now env) txn)] _ Wf) as [Wf' A].
  unfold append_all in Wf', A. simpl in Wf', A. unfold mp_insert. cbn [fst snd].
  destruct (size_in_kilobytes _ _) as [n|e|]; simpl; [|done..].
  unfold emit. simpl. destruct (ob_closed o); simpl; [done|].
  intros [= <- <-]. simpl. split; [done|]. split; [exact Wf'|]. rewrite A. simpl. apply lookup_insert_eq.
Qed.

(** A transaction is refused only where the size of the pool overflows or nobody listens. *)
Lemma new_txn_taken env txn rt o n :
  (mp_insert (E := ManagerError) (env_txn_size env) (env_now env) txn (sm_mempool (rt_state_driver rt))).2
    = Ok n -> ob_closed o = false ->
  exists rt' o', handles env (NewTxnCreated txn) (rt, o) = Some ((rt', o'), Ok ActorRunning).
Proof.
  unfold handle. cbn [handle_event]. rewrite !method_bind_unfold.
  unfold run_state, on_actor, on_state_driver, handle_new_txn_created.
  destruct (mp_insert _ _ _ _) as [mp r]. simpl. intros -> Ho. simpl. unfold emit. simpl. rewrite Ho. simpl. eauto.
Qed.

(** C24. A transaction a node takes into its mempool is put on the bus, and when the
    indexer handles that event, however many other events the node has handled by then, it
    posts a record of the mempool with this identifier to the indexer, once, and goes
    on whatever the answer; when it is handled at once, the record is the new one. *)
Theorem new_transaction_indexed rng1 rng2 dag1 dag2 cfg rt0 rt rt' rt2 env txn o o' client (w : W) url :
  NodeRuntime_new rng1 rng2 dag1 dag2 cfg = Ok rt0 -> dag_blocks dag1 = ∅ -> rtc steps rt0 rt ->
  handles env (NewTxnCreated txn) (rt, o) = Some ((rt', o'), Ok ActorRunning) -> rtc steps rt' rt2 ->
  url_join (hc_base_url client) "/transactions" = Ok url ->
  ob_events o' = ob_events o ++ [mk_EventMessage None (TxnAddedToMempool (txn_id txn))] /\
  exists record, rec_txn_id record = txn_id txn /\
    (rt2 = rt' -> record = TxnRecord_new (env_now env) txn) /\
    forall json, json_to_string record = Ok json ->
      indexer_handle client (sm_mempool (rt_state_driver rt2)) (TxnAddedToMempool (txn_id txn)) w =
        ((http_send POST url (hc_headers client) (Some json) w).1, Ok ActorRunning).
Proof.
  intros Hnew Hd Hrt Hh Hrt2 Hu.
  pose proof (runtime_run_inv from_bytes_error debug_graph id txn_set claim_set maglev_new _ _ _ _ _ _ _
    Hnew Hd Hrt) as ((Hno & Hhd & _ & Hwf & _) & _).
  destruct (new_txn_handled _ _ _ _ _ _ Hwf Hh) as (Ho & Hwf' & Hin). split; [done|].
  assert (steps rt rt') as Hs by (by econstructor).
  pose proof (runtime_run_inv from_bytes_error debug_graph id txn_set claim_set maglev_new _ _ _ _ _ _ _
    Hnew Hd (rtc_r _ _ _ Hrt Hs)) as ((Hno' & Hhd' & _) & _).
  pose proof (runtime_runs_advance _ _ _ _ _ _ _ Hrt2) as (_ & _ & _ & Hm).
  destruct (manager_runs_frozen from_bytes_error debug_graph id txn_set claim_set (rt_state_driver rt')
    _ _ Hm) as (_ & _ & _ & Hwf2 & Hdom); [by split_and!|].
  assert (is_Some (mp_abs (sm_mempool (rt_state_driver rt2)) !! txn_id txn)) as [record Hrec].
  { apply elem_of_dom, Hdom, elem_of_dom. by rewrite Hin. }
  exists record. split_and!.
  - destruct Hwf2 as [[_ F] _]. unfold mp_abs in Hrec. apply elem_of_list_to_map_2 in Hrec.
    rewrite Forall_forall in F. symmetry. apply (F _ Hrec).
  - intros ->. congruence.
  - intros json Hj. cbn [indexer_handle]. rewrite factory_entries_abs, Hrec by done.
    destruct (post_tx_sends record client w json url Hj Hu) as (r & Hr & ->). by destruct r.
Qed.
End indexed.

Section indexer_witness.
Import Toy Sample ToyBlocks ToyGroup ToyDag ToyNet ToyNode.
#[local] Existing Instance ToyTrie.db_laws.
#[local] Existing Instance lazy_trie.
#[local] Existing Instance Mempool.ToyLeftRight.left_right.
#[local] Existing Instance Mempool.ToyLeftRight.left_right_laws.
#[local] Existing Instance json_txn_lists.
#[local] Existing Instance json_claim_lists.
#[local] Existing Instance json_reward.
#[local] Existing Instance bincode_claims.
#[local] Existing Instance bincode_header.

(** A server that keeps what it is sent and answers nothing. *)
#[local] Instance toy_reqwest : Reqwest (list string) := {|
  Url := string;
  url_parse s := Ok s;
  url_join s path := Ok (s +:+ path);
  http_send _ url _ body log := (log ++ [url; default EmptyString body], Err "no answer");
|}.

#[local] Instance toy_reqwest_laws : ReqwestLaws (W := list string).
Proof. by intros m url hs body w. Qed.

#[local] Instance toy_record_json : JsonText TxnRecord := fun _ => Ok "record".

#[local] Abbreviation toy_handle :=
  (handle EmptyString (fun _ => EmptyString) (fun l => l) (fun l => l) (fun _ => true) toy_env).

Definition toy_client : @HttpClient (list string) toy_reqwest :=
  default_headers (mk_HttpClient INDEXER_URL []).

Lemma new_transaction_indexed_witness : exists rt0 rt' o',
  toy_handle (NewTxnCreated pay_txn) (rt0, empty) = Some ((rt', o'), Ok ActorRunning) /\
  indexer_handle toy_client (sm_mempool (rt_state_driver rt')) (TxnAddedToMempool (txn_id pay_txn)) [] =
    (["http://localhost:3444/transactions"; "record"], Ok ActorRunning).
Proof.
  destruct (toy_new_ok "v1") as [rt0 Hnew].
  destruct (new_txn_taken EmptyString (fun _ => EmptyString) (fun l => l) (fun l => l) (fun _ => true)
    toy_env pay_txn rt0 empty 0) as (rt' & o' & Hh).
  { apply runtime_new_inv in Hnew as (_ & (claim & ->) & _). vm_compute. reflexivity. }
  { reflexivity. }
  exists rt0, rt', o'. split; [exact Hh|].
  destruct (new_transaction_indexed EmptyString (fun _ => EmptyString) (fun l => l) (fun l => l)
    (fun _ => true) (Ok entropy) (Ok entropy) empty_dag empty_dag (node_config "v1" Validator None)
    rt0 rt0 rt' rt' toy_env pay_txn empty o' toy_client [] "http://localhost:3444/transactions"
    Hnew eq_refl (rtc_refl _ _) Hh (rtc_refl _ _) eq_refl) as (_ & record & _ & _ & E).
  exact (E "record" eq_refl).
Defined.
End indexer_witness.
