(* ===== verification/Node.v ===== *)
(** * The life of a node: [crates/node/src/node.rs] and [runtime/mod.rs]

    How the components of a node are set up, what they share, and how the node is
    stopped ([runtime_component.rs], [runtime/component.rs], [api/mod.rs], [ui/mod.rs],
    [vrrb_rpc/src/rpc/server.rs]). Tasks are spawned and awaited; the loop that feeds an
    actor its events is that of a library, so how a task ends is a parameter. *)

From S2P Require Import Prelude Floats Primitives Keypair Transactions ToyModel Account Mempool.
From S2P Require Import Staking Claim Reward Vrf Blocks BlockProofs Threshold Storage.
From S2P Require Import StorageProofs Dag Miner NodeErrors StateManager Quorum Config Events.
From S2P Require Import Network Consensus Runtime Rpc FileSystem Indexer.
From Stdlib Require Import Strings.Byte.

(** [jsonrpsee]'s server: bound, asked for its address, started. *)
Class JsonRpSee `{!SocketAddrs} := {
  RpcServer : Type;
  server_build : SocketAddr -> result string RpcServer;
  local_addr : RpcServer -> result string SocketAddr;
  server_start : RpcServer -> result string unit;
}.

(** The variants of [NodeError] that the code below builds itself. *)
Inductive NodeError :=
| NodeComponent (e : ManagerError)
| NodeNetwork (msg : string)
| NodeMessr (msg : string)
| MpscSend
| TaskJoin (msg : string).

Abbreviation NodeOther msg := (NodeComponent (ManagerOther msg)).

Definition node_error_to_string (e : NodeError) : string :=
  match e with
  | NodeComponent e => manager_error_to_string e
  | NodeNetwork msg | NodeMessr msg | TaskJoin msg => msg
  | MpscSend => "channel closed"
  end.

Section node.
Context `{!Profile, !Hashing, !Secp256k1, !SecretKeyParse, !ValidatorKeys, !SocketAddrs, !Ecvrf, !StrDebug}.
Context `{!ToJson Address, !ToJson PublicKey, !ToJson Token, !ToJson Z, !ToJson string}.
Context `{!ToJson (list string), !ToJson Reward, !ToJson (list (string * list TransactionDigest)),
  !ToJson (list (string * list Z)), !ToJson (list (string * QuorumCertifiedTxn)),
  !ToJson (list (Z * Claim)), !ToJson Claim}.
Context `{!ToDebug string, !ToDebug (list string), !ToDebug Z, !ToDebug Claim, !ToDebug Reward}.
Context `{!HashOrder, !TrieDb, !LinkedMap, !LeftRight, !ThresholdCrypto, !KeyGen}.
Context `{!BullDag Block, !Kademlia, !KademliaDht, !Dyswarm, !CuckooFilters, !LruCaches}.
Context `{!Bincode (list (Z * Claim)), !Bincode HeaderTuple, !Bincode KademliaPeerId, !Bincode Account}.
Context `{!KeyShares, !JsonRpSee}.
Context {W : Type} `{!Reqwest W, !JsonText TxnRecord}.

(** A spawned task, with what it was given. *)
Inductive Task :=
| NodeRuntimeTask (node_runtime : NodeRuntime)
| NetworkTask (network_module : NetworkModule)
| ApiTask (server_impl : RpcServerImpl)
| IndexerTask (client : HttpClient) (mempool : LeftRightMempool)
| GuiTask
| RouterTask (topics : list (string * option Z)).

(** The process a node runs in: the tasks and the commands started so far, and what the
    node put on its bus and on the wire. *)
Record Process := mk_Process {
  ps_tasks : list Task;
  ps_commands : list (list string);
  ps_outbox : Outbox;
}.

(** What starting a node reads from outside. *)
Record Startup := mk_Startup {
  su_rng1 : result string OsRng;
  su_rng2 : result string OsRng;
  su_dag1 : Dag;
  su_dag2 : Dag;
  su_server : SocketAddr -> result string SocketAddr;
  su_actor_id : string;
  su_subscribe : list (string * option Z) -> option string -> result string unit;
  su_command : list string -> result string unit;
}.

Abbreviation node_op := (method Process NodeError).

Definition spawn (t : Task) : node_op Task := fun p =>
  (mk_Process (ps_tasks p ++ [t]) (ps_commands p) (ps_outbox p), Ok t).

Definition give {A} (r : result NodeError A) : node_op A := fun p => (p, r).

(** ** [runtime_component.rs] *)

Record RuntimeComponentHandle (D : Type) := mk_RuntimeComponentHandle {
  rch_task_handle : Task;
  rch_data : D;
  rch_label : string;
}.

Abbreviation RuntimeComponentManager := (gmap string Task).

Definition register_component (label : string) (handle : Task) (m : RuntimeComponentManager)
    : RuntimeComponentManager := <[label := handle]> m.

(** A task ends with a result or by a panic; [None] is one that does not end. *)
Definition Outcome : Type := Task -> option (result NodeError unit).

(** The two question marks of [handle.await??]. *)
Definition await (join_error : string) (r : result NodeError unit) : result NodeError unit :=
  match r with
  | Panic => Err (TaskJoin join_error)
  | r => r
  end.

Fixpoint stop_each (join_error : string) (outcome : Outcome) (l : list (string * Task))
    : option (result NodeError unit) :=
  match l with
  | [] => Some (Ok tt)
  | (label, handle) :: l' =>
      r ← outcome handle;
      match await join_error r with
      | Ok _ => stop_each join_error outcome l'
      | r => Some r
      end
  end.

Definition RuntimeComponentManager_stop (join_error : string) (outcome : Outcome)
    (m : RuntimeComponentManager) : option (result NodeError unit) :=
  stop_each join_error outcome (hash_iter m).

(** ** Setting components up *)

(** [NodeRuntime::setup]; the handles read what the runtime owns. *)
Definition runtime_setup (su : Startup) (config : NodeConfig)
    : node_op (RuntimeComponentHandle (NodeConfig * VrrbDb * LeftRightMempool)) :=
  rt ← give (map_err NodeComponent
         (NodeRuntime_new (su_rng1 su) (su_rng2 su) (su_dag1 su) (su_dag2 su) config));
  t ← spawn (NodeRuntimeTask rt);
  mret (mk_RuntimeComponentHandle _ t
    (config, sm_database (rt_state_driver rt), sm_mempool (rt_state_driver rt)) "NodeRuntime").

(** The rest of [NetworkModule::setup], whose beginning is [network_setup]. *)
Definition network_component_setup (su : Startup) (config : NodeConfig)
    : node_op (RuntimeComponentHandle (KademliaPeerId * SocketAddr * SocketAddr * SocketAddr)) := fun p =>
  match network_setup (su_server su (nc_udp_gossip_address config)) config (nc_quorum_config config)
          (validator_kp (nc_keypair config)).2 (ps_outbox p) with
  | Ok (nm, o) =>
      (t ← spawn (NetworkTask nm);
       mret (mk_RuntimeComponentHandle _ t
         (kademlia_peer_id nm, kademlia_liveness_addr nm, nm_udp_gossip_addr nm,
          nm_raptorq_gossip_addr nm) ("Network::" +:+ su_actor_id su)))
        (mk_Process (ps_tasks p) (ps_commands p) o)
  | Err e => (p, Err (NodeNetwork e))
  | Panic => (p, Panic)
  end.

(** [JsonRpcServer::run]. *)
Definition JsonRpcServer_run (address : SocketAddr) (server_impl : RpcServerImpl)
    : result string (RpcServerImpl * SocketAddr) :=
  server ← server_build address;
  addr ← local_addr server;
  _ ← server_start server;
  Ok (server_impl, addr).

Definition setup_rpc_api_server (config : NodeConfig) (db : VrrbDb) (mempool : LeftRightMempool)
    : node_op (Task * SocketAddr) :=
  p ← give (map_err (fun err => NodeOther ("unable to start JSON-RPC server: " +:+ err))
        (JsonRpcServer_run (nc_jsonrpc_server_address config)
           (mk_RpcServerImpl (nc_node_type config) db mempool)));
  t ← spawn (ApiTask p.1);
  mret (t, p.2).

(** The task of the server reads one event, or learns that there will be none; what it
    returns, and whether it stopped the server. *)
Definition api_task (received : option Event) (server_stop : result string unit)
    : bool * result NodeError unit :=
  match received with
  | Some Stop => (true, map_err (fun err => NodeOther ("JSON-RPC event has stopped: " +:+ err)) server_stop)
  | _ => (false, Ok tt)
  end.

Definition setup_indexer_module (mempool : LeftRightMempool) : node_op (option Task) :=
  client ← give (map_err (fun e => NodeOther e) IndexerModule_new);
  t ← spawn (IndexerTask client mempool);
  mret (Some t).

(** ** [ui/mod.rs] *)

(** [Command::status] and [output]: an error when the command cannot be run, and
    otherwise its exit code, which is not looked at. *)
Definition command (su : Startup) (args : list string) : method Process string unit := fun p =>
  (mk_Process (ps_tasks p) (ps_commands p ++ [args]) (ps_outbox p), su_command su args).

Definition ensure_yarn (su : Startup) : node_op unit := fun p =>
  match command su ["yarn"; "--version"] p with
  | (p', Err e) => with_error (fun _ => NodeOther ("Failed to install yarn: " +:+ e))
                     (command su ["npm"; "install"; "-g"; "yarn"]) p'
  | (p', r) => (p', map_err (fun e => NodeOther e) r)
  end.

Definition setup_node_gui (su : Startup) (config : NodeConfig) : node_op (option Task) :=
  if nc_gui config then
    _ ← with_error (fun e => NodeOther ("NodeJS is not installed: " +:+ e)) (command su ["npm"; "version"]);
    _ ← ensure_yarn su;
    _ ← with_error (fun e => NodeOther ("Failed to install dependencies: " +:+ e))
          (command su ["yarn"; "install"]);
    t ← spawn GuiTask;
    mret (Some t)
  else mret None.

(** ** [setup_runtime_components] *)

(** The fields the network module and the server resolve. *)
Definition resolved (peer_id : KademliaPeerId) (liveness udp raptorq jsonrpc : SocketAddr)
    (c : NodeConfig) : NodeConfig := {|
  nc_id := nc_id c; nc_data_dir := nc_data_dir c; nc_db_path := nc_db_path c;
  nc_public_ip_address := nc_public_ip_address c;
  nc_kademlia_peer_id := Some peer_id;
  nc_kademlia_liveness_address := liveness;
  nc_udp_gossip_address := udp;
  nc_raptorq_gossip_address := raptorq;
  nc_rendezvous_local_address := nc_rendezvous_local_address c;
  nc_rendezvous_server_address := nc_rendezvous_server_address c;
  nc_node_type := nc_node_type c;
  nc_http_api_address := nc_http_api_address c; nc_http_api_title := nc_http_api_title c;
  nc_http_api_version := nc_http_api_version c;
  nc_http_api_shutdown_timeout := nc_http_api_shutdown_timeout c;
  nc_jsonrpc_server_address := jsonrpc;
  nc_preload_mock_state := nc_preload_mock_state c;
  nc_bootstrap_config := nc_bootstrap_config c;
  nc_quorum_config := nc_quorum_config c;
  nc_bootstrap_quorum_config := nc_bootstrap_quorum_config c;
  nc_keypair := nc_keypair c; nc_gui := nc_gui c;
  nc_disable_networking := nc_disable_networking c;
  nc_enable_block_indexing := nc_enable_block_indexing c;
  nc_threshold_config := nc_threshold_config c;
|}.

Definition subscribe (su : Startup) (topics : list (string * option Z)) (topic : option string)
    : node_op unit := give (map_err NodeMessr (su_subscribe su topics topic)).

(** What follows the runtime: the network module, the server, the indexer and the GUI. *)
Definition setup_other_components (su : Startup) (manager : RuntimeComponentManager)
    (config : NodeConfig) (db : VrrbDb) (mempool : LeftRightMempool)
    : node_op (RuntimeComponentManager * NodeConfig) :=
  network ← network_component_setup su config;
  let '(peer_id, liveness, udp, raptorq) := rch_data _ network in
  let manager := register_component (rch_label _ network) (rch_task_handle _ network) manager in
  let config := resolved peer_id liveness udp raptorq (nc_jsonrpc_server_address config) config in
  api ← setup_rpc_api_server config db mempool;
  let config := resolved peer_id liveness udp raptorq api.2 config in
  let manager := register_component "API" api.1 manager in
  _ ← (if nc_enable_block_indexing config then setup_indexer_module mempool else mret None);
  _ ← (if nc_gui config then setup_node_gui su config else mret None);
  mret (manager, config).

Definition setup_runtime_components (su : Startup) (topics : list (string * option Z))
    (config : NodeConfig) : node_op (RuntimeComponentManager * NodeConfig) :=
  _ ← subscribe su topics (Some "runtime-events");
  _ ← subscribe su topics (Some "network-events");
  _ ← subscribe su topics (Some "json-rpc-api-control");
  _ ← subscribe su topics None;
  runtime ← runtime_setup su config;
  let '(config, db, mempool) := rch_data _ runtime in
  let manager := register_component (rch_label _ runtime) (rch_task_handle _ runtime) ∅ in
  setup_other_components su manager config db mempool.

(** ** [node.rs] *)

Record Node := mk_Node {
  n_config : NodeConfig;
  n_keypair : KeyPair;
  n_manager : RuntimeComponentManager;
  n_router : Task;
}.

Definition node_topics : list (string * option Z) :=
  [("json-rpc-api-control", Some 1%Z); ("network-events", Some 1000%Z); ("runtime-events", Some 1000%Z)].

(** [Node::start]. The main process owns the manager and the handle of the router. *)
Definition Node_start (su : Startup) (config : NodeConfig) : node_op Node :=
  p ← setup_runtime_components su node_topics config;
  router ← spawn (RouterTask node_topics);
  mret (mk_Node p.2 (nc_keypair config) p.1 router).

(** [run_node_main_process] from the cancellation on. *)
Definition run_node_main_process (join_error : string) (outcome : Outbox -> Outcome) (n : Node)
    (o : Outbox) : Outbox * option (result NodeError unit) :=
  match emit (mk_EventMessage None Stop) (tt, o) with
  | ((_, o'), Ok _) =>
      (o', r ← RuntimeComponentManager_stop join_error (outcome o') (n_manager n);
           match r with
           | Ok _ => r ← outcome o' (n_router n); Some (await join_error r)
           | r => Some r
           end)
  | ((_, o'), _) => (o', Some (Err MpscSend))
  end.

(** [Node::stop]; the token is cancelled when it is asked. *)
Definition Node_stop (join_error : string) (outcome : Outbox -> Outcome) (n : Node) (o : Outbox)
    : Outbox * option (result NodeError bool) :=
  let '(o', control) := run_node_main_process join_error outcome n o in
  (o', r ← control;
       Some (_ ← await join_error (map_err (fun err => NodeOther (node_error_to_string err)) r);
             Ok true)).

(** ** What is awaited *)

(** Whether a task of a started node is one its main process waits for. *)
Definition awaited (t : Task) : bool :=
  match t with
  | IndexerTask _ _ | GuiTask => false
  | _ => true
  end.

Lemma stop_each_ok join_error outcome l :
  stop_each join_error outcome l = Some (Ok tt) <-> Forall (fun p => outcome p.2 = Some (Ok tt)) l.
Proof.
  induction l as [|[label t] l IH]; simpl; [by split|]. rewrite Forall_cons, <-IH. simpl.
  destruct (outcome t) as [[[]|e|]|]; simpl; naive_solver.
Qed.

Lemma manager_stop_ok `{!HashOrderLaws} join_error outcome m :
  RuntimeComponentManager_stop join_error outcome m = Some (Ok tt) <->
  map_Forall (fun _ t => outcome t = Some (Ok tt)) m.
Proof.
  unfold RuntimeComponentManager_stop. rewrite stop_each_ok, map_Forall_to_list, hash_iter_perm.
  apply Forall_iff. by intros [].
Qed.

(** Nothing that setting up does takes a task back or puts an event on the bus. *)
Definition grows (p p' : Process) : Prop :=
  ps_tasks p `prefix_of` ps_tasks p' /\ ob_events (ps_outbox p') = ob_events (ps_outbox p).

Lemma spawn_grows p0 t : preserves (grows p0) (spawn t).
Proof. intros p [? ?]. split; simpl; [by apply prefix_app_r|done]. Qed.

Lemma command_grows p0 {E} f su args : preserves (grows p0) (with_error (F := E) f (command su args)).
Proof. by intros p. Qed.

Lemma yarn_grows p0 su : preserves (grows p0) (ensure_yarn su).
Proof. intros p. unfold ensure_yarn, command. by destruct (su_command su _). Qed.

Lemma network_grows p0 su config : preserves (grows p0) (network_component_setup su config).
Proof.
  intros p [? ?]. unfold network_component_setup, network_setup.
  assert (forall x o, ob_events o = ob_events (ps_outbox p0) ->
    grows p0 (mk_Process (ps_tasks p ++ [x]) (ps_commands p) o)).
  { intros x o ?. split; simpl; [by apply prefix_app_r|done]. }
  destruct (NetworkModule_new _ _) as [nm|e|]; simpl; [|done..].
  destruct (nm_is_bootstrap nm); simpl; [auto|].
  unfold broadcast_join_intent, add_closest. rewrite method_bind_unfold. simpl.
  destruct (add_peers _ _) as [c [u|e|]]; simpl; [|done..].
  unfold logged, broadcast. rewrite method_bind_unfold. simpl.
  destruct (client_broadcast _ _ _ _); simpl; auto. done.
Qed.

Lemma gui_grows p0 su config : preserves (grows p0) (setup_node_gui su config).
Proof.
  unfold setup_node_gui. destruct (nc_gui config); [|by intros p].
  repeat (apply preserves_bind; [|intros]); auto using spawn_grows, command_grows, yarn_grows.
  by intros p.
Qed.

Lemma setup_other_grows p0 su manager config db mempool :
  preserves (grows p0) (setup_other_components su manager config db mempool).
Proof.
  assert (forall A (r : result NodeError A), preserves (grows p0) (give r)) as Hg by by intros A r p.
  assert (forall A (a : A), preserves (grows p0) (mret a : node_op A)) as Hr by by intros A a p.
  apply preserves_bind; [apply network_grows|]. intros [t [[[peer live] udp] rapt] label].
  apply preserves_bind. { repeat (apply preserves_bind; [|intros]); auto using spawn_grows. }
  intros [api addr]. apply preserves_bind.
  { destruct (nc_enable_block_indexing _); [|auto].
    repeat (apply preserves_bind; [|intros]); auto using spawn_grows. }
  intros _. apply preserves_bind; [|auto]. destruct (nc_gui _); auto using gui_grows.
Qed.

(** What the optional components add is not awaited. *)
Lemma indexer_setup_ok mempool p p' (t : option Task) (b : bool) :
  (if b then setup_indexer_module mempool else mret None) p = (p', Ok t) ->
  exists l, ps_tasks p' = ps_tasks p ++ l /\ Forall (fun t => awaited t = false) l /\
    ps_outbox p' = ps_outbox p.
Proof.
  destruct b; [|intros [= <- _]; exists []; by rewrite app_nil_r].
  unfold setup_indexer_module. rewrite method_bind_unfold. unfold give.
  destruct (map_err _ IndexerModule_new) as [client|e|]; [|done..].
  intros [= <- _]. exists [IndexerTask client mempool]. simpl. auto.
Qed.

Lemma gui_setup_ok su config p p' (t : option Task) (b : bool) :
  (if b then setup_node_gui su config else mret None) p = (p', Ok t) ->
  exists l, ps_tasks p' = ps_tasks p ++ l /\ Forall (fun t => awaited t = false) l /\
    ps_outbox p' = ps_outbox p.
Proof.
  assert (exists l : list Task, ps_tasks p = ps_tasks p ++ l /\ Forall (fun t => awaited t = false) l /\
    ps_outbox p = ps_outbox p) as Hnil by (exists []; by rewrite app_nil_r).
  destruct b; [|by intros [= <- _]]. unfold setup_node_gui.
  destruct (nc_gui config); [|by intros [= <- _]].
  rewrite method_bind_Ok. intros (p1 & [] & [= <- _] & G1).
  rewrite method_bind_Ok in G1. destruct G1 as (p2 & [] & Hy & G2).
  assert (ps_tasks p2 = ps_tasks p /\ ps_outbox p2 = ps_outbox p) as [E1 E2].
  { revert Hy. unfold ensure_yarn, with_error, command.
    destruct (su_command su ["yarn"; "--version"]); intros [= <- _]; done. }
  rewrite method_bind_Ok in G2. destruct G2 as (p3 & [] & [= <- _] & [= <- _]).
  exists [GuiTask]. simpl. rewrite E1, E2. auto.
Qed.

(** The module that was set up, and what it told its peers. *)
Lemma network_setup_inv server config pk mc o nm o' :
  network_setup server config mc pk o = Ok (nm, o') ->
  ob_events o' = ob_events o /\ nm_raptorq_gossip_addr nm = nc_raptorq_gossip_address config /\
  ob_wire o' = ob_wire o ++
    match nc_bootstrap_config config with
    | None => []
    | Some _ => [Broadcast false 100 (NetPeerJoined (nc_id config) (nc_node_type config)
        (kademlia_peer_id nm) (nm_udp_gossip_addr nm) (nm_raptorq_gossip_addr nm)
        (kademlia_liveness_addr nm) pk)]
    end.
Proof.
  unfold network_setup. rewrite result_bind_Ok. intros (n & Hn & Hr). revert Hn.
  unfold NetworkModule_new. simpl. rewrite result_bind_Ok. intros (udp & _ & Hn).
  rewrite result_bind_Ok in Hn. destruct Hn as (c & _ & Hn).
  rewrite result_bind_Ok in Hn. destruct Hn as (k & _ & [= <-]). revert Hr. simpl.
  destruct (nc_bootstrap_config config); [|by intros [= <- <-]; rewrite app_nil_r].
  unfold broadcast_join_intent, add_closest. rewrite method_bind_unfold. simpl.
  destruct (add_peers _ _) as [c' [u|e|]]; simpl; [|done..].
  unfold logged, broadcast. rewrite method_bind_unfold. simpl.
  destruct (client_broadcast _ _ _ _); simpl; [intros [= <- <-]..|done]; done.
Qed.

Definition server_of (config : NodeConfig) : RpcServerImpl :=
  mk_RpcServerImpl (nc_node_type config) (VrrbDb_new (nc_db_path config)) LeftRightMempool_new.

Lemma node_start_inv su config p p' n :
  Node_start su config p = (p', Ok n) ->
  exists rt nm addr extra,
    NodeRuntime_new (su_rng1 su) (su_rng2 su) (su_dag1 su) (su_dag2 su) config = Ok rt /\
    network_setup (su_server su (nc_udp_gossip_address config)) config (nc_quorum_config config)
      (validator_kp (nc_keypair config)).2 (ps_outbox p) = Ok (nm, ps_outbox p') /\
    n_config n = resolved (kademlia_peer_id nm) (kademlia_liveness_addr nm) (nm_udp_gossip_addr nm)
      (nm_raptorq_gossip_addr nm) addr config /\
    n_manager n = <["API" := ApiTask (server_of config)]>
      (<["Network::" +:+ su_actor_id su := NetworkTask nm]> {[ "NodeRuntime" := NodeRuntimeTask rt ]}) /\
    n_router n = RouterTask node_topics /\
    ps_tasks p' = ps_tasks p ++ [NodeRuntimeTask rt; NetworkTask nm; ApiTask (server_of config)] ++
      extra ++ [RouterTask node_topics] /\
    Forall (fun t => awaited t = false) extra.
Proof.
  unfold Node_start. rewrite method_bind_Ok. intros (p1 & [m c] & Hs & [= <- <-]).
  unfold setup_runtime_components in Hs.
  do 4 (rewrite method_bind_Ok in Hs; destruct Hs as (? & [] & [= <- _] & Hs)).
  rewrite method_bind_Ok in Hs. destruct Hs as (p2 & h & Hrt & Hs). unfold runtime_setup in Hrt.
  rewrite method_bind_Ok in Hrt. destruct Hrt as (? & rt & Hrt & [= <- <-]).
  unfold give in Hrt. injection Hrt as <- Hrt. simpl in Hs.
  destruct (NodeRuntime_new _ _ _ _ _) as [rt'|e|] eqn:Hnew; simplify_eq/=.
  pose proof Hnew as (_ & (claim & Esm) & _)%runtime_new_inv. rewrite Esm in Hs. simpl in Hs.
  unfold setup_other_components in Hs. rewrite method_bind_Ok in Hs.
  destruct Hs as (p3 & h & Hnet & Hs). unfold network_component_setup in Hnet. simpl in Hnet.
  destruct (network_setup _ _ _ _ _) as [[nm o]|e|] eqn:Hnm; [|done..].
  injection Hnet as <- <-. cbn [rch_data rch_label rch_task_handle] in Hs.
  rewrite method_bind_Ok in Hs. destruct Hs as (p4 & [t addr] & Hapi & Hs).
  unfold setup_rpc_api_server in Hapi. rewrite method_bind_Ok in Hapi.
  destruct Hapi as (? & [srv a] & Hrun & [= <- <- <-]). unfold give in Hrun. injection Hrun as <- Hrun.
  unfold JsonRpcServer_run in Hrun. simpl in Hrun.
  destruct (server_build _) as [sv|e|]; simpl in Hrun; [|done..].
  destruct (local_addr sv) as [la|e|]; simpl in Hrun; [|done..].
  destruct (server_start sv); simpl in Hrun; [|done..]. injection Hrun as <- <-.
  rewrite method_bind_Ok in Hs. destruct Hs as (p5 & ti & (l1 & T1 & F1 & O1)%indexer_setup_ok & Hs).
  rewrite method_bind_Ok in Hs. destruct Hs as (p6 & tg & (l2 & T2 & F2 & O2)%gui_setup_ok & [= <- <- <-]).
  exists rt, nm, la, (l1 ++ l2). simpl in *. rewrite O2, O1, T2, T1, <-!(assoc_L (++)). simpl.
  split_and!; try done; by apply Forall_app.
Qed.

(** What is left of the start once the subscriptions and the runtime are there. *)
Lemma node_start_subscribed su config p rt :
  (forall topic, su_subscribe su node_topics topic = Ok tt) ->
  NodeRuntime_new (su_rng1 su) (su_rng2 su) (su_dag1 su) (su_dag2 su) config = Ok rt ->
  Node_start su config p =
  (q ← setup_other_components su (register_component "NodeRuntime" (NodeRuntimeTask rt) ∅) config
         (sm_database (rt_state_driver rt)) (sm_mempool (rt_state_driver rt));
   router ← spawn (RouterTask node_topics);
   mret (mk_Node q.2 (nc_keypair config) q.1 router))
    (mk_Process (ps_tasks p ++ [NodeRuntimeTask rt]) (ps_commands p) (ps_outbox p)).
Proof.
  intros Hsub Hrt.
  assert (forall m : node_op (RuntimeComponentManager * NodeConfig), forall topic q,
    (subscribe su node_topics topic ≫= fun _ => m) q = m q) as Hs.
  { intros m topic q. unfold subscribe, give. by rewrite method_bind_unfold, Hsub. }
  unfold Node_start. rewrite !method_bind_unfold. unfold setup_runtime_components.
  rewrite !Hs, method_bind_unfold. unfold runtime_setup. rewrite method_bind_unfold.
  unfold give. by rewrite Hrt.
Qed.

Lemma node_start_ok su config p rt nm o addr :
  (forall topic, su_subscribe su node_topics topic = Ok tt) ->
  NodeRuntime_new (su_rng1 su) (su_rng2 su) (su_dag1 su) (su_dag2 su) config = Ok rt ->
  network_setup (su_server su (nc_udp_gossip_address config)) config (nc_quorum_config config)
    (validator_kp (nc_keypair config)).2 (ps_outbox p) = Ok (nm, o) ->
  (forall s, JsonRpcServer_run (nc_jsonrpc_server_address config) s = Ok (s, addr)) ->
  nc_enable_block_indexing config = false -> nc_gui config = false ->
  exists p' n, Node_start su config p = (p', Ok n).
Proof.
  intros Hsub Hrt Hnet Hapi Hi Hg. rewrite (node_start_subscribed _ _ _ _ Hsub Hrt).
  do 2 eexists. apply method_bind_Ok. eexists _, _. split; [|reflexivity].
  apply method_bind_Ok. eexists _, _. split.
  { unfold network_component_setup. cbn [ps_outbox rch_data]. rewrite Hnet. reflexivity. }
  cbn [rch_data]. apply method_bind_Ok. eexists _, (_, _). split.
  { unfold setup_rpc_api_server. rewrite method_bind_unfold. unfold give.
    cbn [resolved nc_jsonrpc_server_address]. rewrite Hapi. reflexivity. }
  cbn [resolved nc_enable_block_indexing nc_gui]. rewrite Hi, Hg. reflexivity.
Qed.

(** C22. A node that starts keeps its configuration but for its kademlia identifier and the
    four addresses that were resolved, and these are the ones it announces, in one join
    message sent when it has a bootstrap node and not otherwise. It runs a runtime, the
    network module and an RPC server of its node type over the runtime's own stores,
    empty at first, and nothing is on its bus. *)
Theorem node_started `{!LeftRightLaws} su config p p' n :
  Node_start su config p = (p', Ok n) ->
  exists rt nm peer liveness udp addr,
    NodeRuntime_new (su_rng1 su) (su_rng2 su) (su_dag1 su) (su_dag2 su) config = Ok rt /\
    n_config n = resolved peer liveness udp (nc_raptorq_gossip_address config) addr config /\
    ob_events (ps_outbox p') = ob_events (ps_outbox p) /\
    ob_wire (ps_outbox p') = ob_wire (ps_outbox p) ++
      match nc_bootstrap_config config with
      | None => []
      | Some _ => [Broadcast false 100 (NetPeerJoined (nc_id config) (nc_node_type config) peer udp
          (nc_raptorq_gossip_address config) liveness (validator_kp (nc_keypair config)).2)]
      end /\
    exists server, NodeRuntimeTask rt ∈ ps_tasks p' /\ NetworkTask nm ∈ ps_tasks p' /\
      ApiTask server ∈ ps_tasks p' /\ rs_node_type server = nc_node_type config /\
      rs_vrrbdb server = sm_database (rt_state_driver rt) /\
      rs_mempool server = sm_mempool (rt_state_driver rt) /\ get_full_mempool server = [].
Proof.
  intros (rt & nm & addr & extra & Hrt & Hnet & Hc & _ & _ & Ht & _)%node_start_inv.
  pose proof Hrt as (_ & (claim & Esm) & _)%runtime_new_inv.
  apply network_setup_inv in Hnet as (Ho & Hra & Hw).
  eexists rt, nm, _, _, _, addr. rewrite <-Hra. split_and!; [done..|].
  exists (server_of config). rewrite Ht, Esm. split_and!; [set_solver..|done|done|done|].
  change (map RpcTransactionRecord_from (factory_values LeftRightMempool_new) = []).
  unfold factory_values, mp_pool, LeftRightMempool_new. by rewrite lr_read_new.
Qed.

Lemma node_stop_ok `{!HashOrderLaws} join_error outcome n o b :
  let o' := mk_Outbox (ob_closed o) (ob_events o ++ [mk_EventMessage None Stop]) (ob_wire o) in
  (Node_stop join_error outcome n o).2 = Some (Ok b) <->
    b = true /\ ob_closed o = false /\
    map_Forall (fun _ t => outcome o' t = Some (Ok tt)) (n_manager n) /\
    outcome o' (n_router n) = Some (Ok tt).
Proof.
  intros o'. unfold Node_stop, run_node_main_process, emit. simpl.
  destruct (ob_closed o) eqn:Ho; simpl; [naive_solver|]. rewrite <-(manager_stop_ok join_error).
  unfold o'. clear o'. rewrite ?Ho.
  destruct (RuntimeComponentManager_stop _ _ _) as [[[]|e|]|]; simpl; [|naive_solver..].
  destruct (outcome _ (n_router n)) as [[[]|e|]|]; simpl; naive_solver.
Qed.

(** C23. [Node::stop] never answers [false]: on a node that was started it answers [true]
    exactly if the bus takes the stop event and every task the start spawned, but for the
    indexer's and the GUI's, then ends without an error or a panic; otherwise it returns
    an error or, if a task does not end, may not return. The order in which the manager's
    map is walked makes no difference to a success. *)
Theorem started_node_stops `{!HashOrderLaws} su config p p' n join_error outcome o :
  Node_start su config p = (p', Ok n) ->
  let o' := mk_Outbox (ob_closed o) (ob_events o ++ [mk_EventMessage None Stop]) (ob_wire o) in
  exists spawned, ps_tasks p' = ps_tasks p ++ spawned /\
  forall b, (Node_stop join_error outcome n o).2 = Some (Ok b) <->
    b = true /\ ob_closed o = false /\
    Forall (fun t => awaited t = true -> outcome o' t = Some (Ok tt)) spawned.
Proof.
  intros (rt & nm & addr & extra & _ & _ & _ & Hm & Hr & Ht & Hex)%node_start_inv o'.
  eexists. split; [exact Ht|]. intros b.
  assert (Forall (fun t => awaited t = true -> outcome o' t = Some (Ok tt)) extra) as Hex'.
  { eapply Forall_impl; [exact Hex|]. simpl. congruence. }
  assert (("Network::" +:+ su_actor_id su) <> "NodeRuntime" /\
    ("Network::" +:+ su_actor_id su) <> "API") as [N1 N2] by done.
  rewrite !Forall_app, !Forall_cons, !Forall_nil. simpl.
  rewrite (node_stop_ok join_error outcome n o b), Hm, Hr. fold o'.
  rewrite !map_Forall_insert, map_Forall_singleton.
  - naive_solver.
  - by rewrite lookup_singleton_ne.
  - by rewrite lookup_insert_ne, lookup_singleton_ne.
Qed.

(** A start that fails once the runtime's task runs leaves that task behind: it goes on
    with nothing to stop it, for no node is returned and no stop event is on the bus. *)
Lemma failed_start_leaves_runtime su config p p' e rt :
  (forall topic, su_subscribe su node_topics topic = Ok tt) ->
  NodeRuntime_new (su_rng1 su) (su_rng2 su) (su_dag1 su) (su_dag2 su) config = Ok rt ->
  Node_start su config p = (p', Err e) ->
  NodeRuntimeTask rt ∈ ps_tasks p' /\ ob_events (ps_outbox p') = ob_events (ps_outbox p).
Proof.
  intros Hsub Hrt Hs.
  set (p1 := mk_Process (ps_tasks p ++ [NodeRuntimeTask rt]) (ps_commands p) (ps_outbox p)).
  assert (grows p1 p') as [[l ->] Ho]; [|split; [simpl; set_solver|exact Ho]].
  rewrite (node_start_subscribed _ _ _ _ Hsub Hrt) in Hs. fold p1 in Hs.
  replace p' with (p', @Err NodeError Node e).1 by done. rewrite <-Hs.
  apply (preserves_bind (grows p1)); [apply setup_other_grows| |done].
  intros [m c]. apply preserves_bind; [apply spawn_grows|by intros t q].
Qed.

Lemma bind_running {S} (m : method S string unit) (w : S) :
  ((m ≫= fun _ => mret ActorRunning) w).2 <> Ok ActorStopped.
Proof. rewrite method_bind_unfold. by destruct (m w) as [? [?|?|]]. Qed.

Variable from_bytes_error : string.
Variable debug_graph : GraphError -> string.
Variable txn_set : list TransactionKind -> list TransactionKind.
Variable claim_set : list (Z * option Claim) -> list (Z * option Claim).
Variable maglev_new : list ValidatorPublicKey -> bool.

(** The network module and the indexer leave their loops at the stop event and at no
    other, and the runtime at none: it answers that event, like every one it has no case
    for, by going on, so that its task ends only if the loop around it sees to that. *)
Lemma only_stop_stops env e rt n o client mempool (w : W) :
  ((network_handle e (n, o)).2 = Ok ActorStopped <-> e = Stop) /\
  ((indexer_handle client mempool e w).2 = Ok ActorStopped <-> e = Stop) /\
  (forall x, handle from_bytes_error debug_graph txn_set claim_set maglev_new env e (rt, o)
     <> Some (x, Ok ActorStopped)) /\
  handle from_bytes_error debug_graph txn_set claim_set maglev_new env Stop (rt, o)
    = Some ((rt, o), Ok ActorRunning).
Proof.
  split_and!; [| | |done].
  - split; [|by intros ->]. destruct e; cbn [network_handle]; try done;
      intros Hx; by apply bind_running in Hx.
  - split; [|by intros ->]. destruct e; simpl; try done. destruct (factory_entries _ !! _); simpl; [|done].
    by destruct (post_tx _ _ _) as [? [?|?|]].
  - intros x. unfold handle. destruct e;
      try (intros Hx; apply Some_inj, (f_equal snd) in Hx; by apply bind_running in Hx).
    destruct (handle_miner_election_started _ _ _); simpl; [|done].
    intros Hx. apply Some_inj, (f_equal snd) in Hx. by apply bind_running in Hx.
Qed.
End node.

Section witnesses.
Import Toy Sample ToyBlocks ToyGroup ToyDag ToyNet ToyNode.
#[local] Existing Instance ToyTrie.db_laws.
#[local] Existing Instance lazy_trie.
#[local] Existing Instance Mempool.ToyLeftRight.left_right.
#[local] Existing Instance Mempool.ToyLeftRight.left_right_laws.
#[local] Existing Instance json_txn_lists.
#[local] Existing Instance json_claim_lists.
#[local] Existing Instance json_reward.
#[local] Existing Instance bincode_claims.
#[local] Existing Instance bincode_header.
#[local] Existing Instance toy_reqwest.
#[local] Existing Instance sk_parse.
#[local] Existing Instance bincode_account.

(** A server that listens where it is asked to. *)
#[local] Instance toy_jsonrpsee : JsonRpSee := {|
  RpcServer := SocketAddr;
  server_build a := Ok a;
  local_addr a := Ok a;
  server_start _ := Ok tt;
|}.

Definition toy_startup (server : result string SocketAddr) : Startup :=
  mk_Startup (Ok entropy) (Ok entropy) empty_dag empty_dag (fun _ => server) "0" (fun _ _ => Ok tt)
    (fun _ => Ok tt).

Definition fresh_process : Process (W := list string) := mk_Process [] [] empty_outbox.

(** A validator whose bootstrap node is at Alice's address. *)
Definition joining_config : NodeConfig :=
  let c := node_config "v1" Validator None in {|
  nc_id := nc_id c; nc_data_dir := nc_data_dir c; nc_db_path := nc_db_path c;
  nc_public_ip_address := ip_alice; nc_kademlia_peer_id := nc_kademlia_peer_id c;
  nc_kademlia_liveness_address := ip_alice; nc_udp_gossip_address := ip_alice;
  nc_raptorq_gossip_address := ip_alice; nc_rendezvous_local_address := ip_alice;
  nc_rendezvous_server_address := ip_alice; nc_node_type := nc_node_type c;
  nc_http_api_address := ip_alice; nc_http_api_title := "node"; nc_http_api_version := "1";
  nc_http_api_shutdown_timeout := None; nc_jsonrpc_server_address := ip_alice;
  nc_preload_mock_state := false;
  nc_bootstrap_config := Some (mk_BootstrapConfig [x01] ip_alice ip_alice ip_alice);
  nc_quorum_config := None; nc_bootstrap_quorum_config := None; nc_keypair := keypair;
  nc_gui := false; nc_disable_networking := false; nc_enable_block_indexing := false;
  nc_threshold_config := nc_threshold_config c |}.

Lemma toy_runtime cfg : nc_keypair cfg = keypair -> nc_threshold_config cfg = config ->
  exists rt, NodeRuntime_new (Ok entropy) (Ok entropy) empty_dag empty_dag cfg = Ok rt.
Proof.
  intros Hk Ht. apply (runtime_new_ok entropy entropy empty_dag empty_dag cfg (true, Some tt) (true, Some tt));
    rewrite Hk; rewrite ?Ht; reflexivity.
Qed.

Lemma toy_node_starts : exists p' n,
  Node_start (toy_startup (Ok ip_alice)) joining_config fresh_process = (p', Ok n).
Proof.
  destruct (toy_runtime joining_config eq_refl eq_refl) as [rt Hrt].
  eapply (node_start_ok _ _ _ rt); [reflexivity|exact Hrt|reflexivity..].
Qed.

Lemma node_started_witness : exists p' n rt peer,
  Node_start (toy_startup (Ok ip_alice)) joining_config fresh_process = (p', Ok n) /\
  nc_kademlia_peer_id (n_config n) = Some peer /\
  ob_wire (ps_outbox p') = [Broadcast false 100 (NetPeerJoined "v1" Validator peer
    (nc_udp_gossip_address (n_config n)) ip_alice (nc_kademlia_liveness_address (n_config n))
    (validator_kp keypair).2)] /\
  NodeRuntimeTask rt ∈ ps_tasks p'.
Proof.
  destruct toy_node_starts as (p' & n & Hs). exists p', n.
  destruct (node_started _ _ _ _ _ Hs)
    as (rt & nm & peer & live & udp & addr & _ & Hc & _ & Hw & server & Ht & _).
  exists rt, peer. rewrite Hc. split_and!; [exact Hs|reflexivity|exact Hw|exact Ht].
Defined.

(** Every task of the sample node ends when it is told to. *)
Lemma started_node_stops_witness : exists p' n,
  Node_start (toy_startup (Ok ip_alice)) joining_config fresh_process = (p', Ok n) /\
  (Node_stop "panicked" (fun _ _ => Some (Ok tt)) n empty_outbox).2 = Some (Ok true).
Proof.
  destruct toy_node_starts as (p' & n & Hs). exists p', n. split; [exact Hs|].
  destruct (started_node_stops _ _ _ _ _ "panicked" (fun _ _ => Some (Ok tt)) empty_outbox Hs)
    as (spawned & _ & E).
  apply E. split_and!; [reflexivity..|]. apply Forall_forall. reflexivity.
Defined.

(** The gossip port of the sample node is taken. *)
End witnesses.
