(* ===== verification/Validators.v ===== *)
(** * Validators: [crates/validator]

    The checks a transaction and a claim pass before they are voted on. The
    clock is an argument. hbbft's single keys and signatures, with which stake
    certificates are checked, are the fields of [CertificateKeys]. *)

From S2P Require Import Prelude Primitives Keypair Transactions ToyModel Account Staking Claim.
From Stdlib Require Import Strings.Byte.

(** ** Transactions: [txn_validator.rs] *)

Definition ADDRESS_PREFIX : string := "0x192".

Inductive TxnValidatorError :=
| InvalidSender
| SenderAddressMissing
| SenderAddressIncorrect
| SenderPublicKeyIncorrect
| ReceiverAddressMissing
| ReceiverAddressIncorrect
| OutOfBoundsTimestamp (timestamp now : Z)
| OutOfBounds (value low high : string)
| TxnAmountIncorrect
| TxnSignatureIncorrect
| TxnSignatureTresholdIncorrect
| NotFound
| AccountNotFound (address : string).

#[export] Instance TxnValidatorError_eq_dec : EqDecision TxnValidatorError.
Proof. solve_decision. Defined.

Section txn_validator.
Context `{!Profile, !Hashing, !Secp256k1, !ValidatorKeys, !StrDebug}.
Context `{!ToJson Address, !ToJson PublicKey, !ToJson Token, !ToJson Z, !ToJson string}.
(** [Debug] of a signature. *)
Context (sig_debug : Signature -> string).

Definition validate_signature (txn : TransactionKind) : result TxnValidatorError unit :=
  if negb (bool_decide (sig_to_string (txn_signature txn) = EmptyString)) then
    map_err (fun _ => TxnSignatureIncorrect)
      (verify_ecdsa_sign (sig_debug (txn_signature txn)) (str_bytes (txn_build_payload txn))
         (str_bytes (pk_to_string (txn_sender_public_key txn))))
  else Err TxnSignatureIncorrect.

Definition validate_public_key (txn : TransactionKind) : result TxnValidatorError unit :=
  if negb (bool_decide (pk_to_string (txn_sender_public_key txn) = EmptyString)) then Ok tt
  else Err SenderPublicKeyIncorrect.

(** The condition both address checks test. *)
Definition address_accepted (a : Address) : bool :=
  negb (bool_decide (Address_to_string a = EmptyString))
  && String.prefix ADDRESS_PREFIX (Address_to_string a)
  && (10 <? Z.of_nat (String.length (Address_to_string a)))%Z.

Definition validate_sender_address (txn : TransactionKind) : result TxnValidatorError unit :=
  if address_accepted (txn_sender_address txn) then Ok tt else Err SenderAddressMissing.

Definition validate_receiver_address (txn : TransactionKind) : result TxnValidatorError unit :=
  if address_accepted (txn_receiver_address txn) then Ok tt else Err ReceiverAddressMissing.

(** A time strictly between the epoch and now. *)
Definition validate_timestamp (now : Z) (txn : TransactionKind)
    : result TxnValidatorError unit :=
  if (0 <? txn_timestamp txn)%Z && (txn_timestamp txn <? now)%Z then Ok tt
  else Err (OutOfBoundsTimestamp (txn_timestamp txn) now).

(** The account is looked up with [unwrap]; the balance is an unchecked
    subtraction. *)
Definition validate_amount (account_state : gmap Address Account) (txn : TransactionKind)
    : result TxnValidatorError unit :=
  match pk_from_str (Address_to_string (txn_sender_address txn)) with
  | Some address =>
      match account_state !! Address_new address with
      | Some account =>
          balance ← arith U128 (a_credits account - a_debits account);
          if in_range U128 (balance - txn_amount txn) then Ok tt else Err TxnAmountIncorrect
      | None => Panic
      end
  | None => Err SenderAddressIncorrect
  end.

Definition validate_structure (now : Z) (account_state : gmap Address Account)
    (txn : TransactionKind) : result TxnValidatorError unit :=
  _ ← validate_amount account_state txn;
  _ ← validate_public_key txn;
  _ ← validate_sender_address txn;
  _ ← validate_receiver_address txn;
  _ ← validate_signature txn;
  validate_timestamp now txn.

Definition validate_txn (now : Z) (account_state : gmap Address Account)
    (txn : TransactionKind) : result TxnValidatorError unit :=
  validate_structure now account_state txn.

(** [Core::process_transactions]: the pairs it collects, in the order of the
    batch; one panic ends the batch. *)
Fixpoint process_transactions (now : Z) (account_state : gmap Address Account)
    (batch : list TransactionKind)
    : result TxnValidatorError (list (TransactionKind * result TxnValidatorError unit)) :=
  match batch with
  | [] => Ok []
  | txn :: batch' =>
      match validate_txn now account_state txn with
      | Panic => Panic
      | verdict =>
          rest ← process_transactions now account_state batch';
          Ok ((txn, verdict) :: rest)
      end
  end.

Context `{!Secp256k1Laws}.

(** An address prints as a compressed key, which starts with 02 or 03. *)
Lemma address_never_accepted a : address_accepted a = false.
Proof.
  unfold address_accepted, Address_to_string.
  destruct (pk_to_string_prefix (address_pk a)) as [s [Hp|Hp]]; rewrite Hp;
    by rewrite !andb_false_r || rewrite !andb_false_r, ?andb_false_l.
Qed.

Lemma public_key_present txn : validate_public_key txn = Ok tt.
Proof.
  unfold validate_public_key. rewrite bool_decide_eq_false_2; [done|].
  intros He. pose proof (pk_to_string_length (txn_sender_public_key txn)) as Hl.
  by rewrite He in Hl.
Qed.

(** After the amount check, only the sender's address decides. *)
Lemma validate_structure_amount now st txn :
  validate_txn now st txn =
  match validate_amount st txn with
  | Ok _ => Err SenderAddressMissing
  | r => r
  end.
Proof.
  unfold validate_txn, validate_structure, validate_sender_address.
  rewrite public_key_present, address_never_accepted.
  by destruct (validate_amount st txn) as [[]|e|].
Qed.

(** C40. The transaction validator accepts nothing. A sender without an account
    makes it panic; a sender with a well-formed account is told that the amount
    is too high when the balance does not cover it, and that the sender's
    address is missing when it does, since no address prints with the prefix the
    validator asks for. *)
Theorem txn_validator_rejects_all (now : Z) (st : gmap Address Account)
    (txn : TransactionKind) :
  (forall account, st !! txn_sender_address txn = Some account -> account_wf account) ->
  (0 <= txn_amount txn)%Z ->
  validate_txn now st txn =
  match st !! txn_sender_address txn with
  | None => Panic
  | Some account =>
      if (txn_amount txn <=? a_credits account - a_debits account)%Z
      then Err SenderAddressMissing else Err TxnAmountIncorrect
  end.
Proof.
  intros Hwf Hamt. rewrite validate_structure_amount. unfold validate_amount, Address_to_string.
  rewrite pk_from_str_to_string. unfold Address_new.
  assert (Ha : mk_Address (address_pk (txn_sender_address txn)) = txn_sender_address txn)
    by (by destruct (txn_sender_address txn)).
  rewrite Ha. destruct (st !! _) as [account|] eqn:Hl; [|done].
  destruct (Hwf account eq_refl) as (_ & Hd & Hc).
  rewrite arith_ok by range_lia. generalize dependent (txn_amount txn). intros amt Hamt. simpl.
  destruct (in_range U128 _) eqn:Hr;
    destruct (Z.leb_spec amt (a_credits account - a_debits account));
    try done; [exfalso; range_lia|].
  by rewrite (proj2 (in_range_spec _ _)) in Hr by range_lia.
Qed.
End txn_validator.

(** ** Claims: [claim_validator.rs] *)

Inductive ClaimValidatorError :=
| NotEligibleClaim
| NotEnoughStake (role : string)
| InvalidStakeTxn
| NonCertifiedStake
| StakeOutOfBoundsTimestamp (timestamp now : Z)
| StakeOutOfBounds (value low high : string)
| QuorumKeyMissing
| InvalidQuorumKey
| InvalidStakeCertificate
| Jailed.

Class CertificateKeys := {
  CertKey : Type;
  CertSignature : Type;
  (* [from_bytes] of a 48-byte key and of a 96-byte signature *)
  cert_key_from_bytes : bytes -> option CertKey;
  cert_sig_from_bytes : bytes -> option CertSignature;
  cert_verify : CertKey -> CertSignature -> bytes -> bool;
}.

Definition Eligibility_to_string (e : Eligibility) : string :=
  match e with
  | EligHarvester => "Harvester"
  | EligFarmer => "Farmer"
  | EligMiner => "Miner"
  | EligNone => "None"
  end.

Section claim_validator.
Context `{!Profile, !Hashing, !Secp256k1, !ValidatorKeys, !SocketAddrs, !CertificateKeys}.
Context `{!ToJson PublicKey, !ToJson Address, !ToJson (option Address),
          !ToJson StakeUpdate, !ToJson Z}.

Definition validate_stake_timestamp (now : Z) (s : Stake) : result ClaimValidatorError unit :=
  if (0 <? st_timestamp s)%Z && (st_timestamp s <? now)%Z then Ok tt
  else Err (StakeOutOfBoundsTimestamp (st_timestamp s) now).

Definition validate_certificate (quorum_key : bytes) (certificate : bytes * bytes)
    : result ClaimValidatorError unit :=
  if bool_decide (quorum_key = []) then Err QuorumKeyMissing
  else if negb (bool_decide (length quorum_key = 48)) then Err InvalidQuorumKey
  else
    public_key ← ok_or (cert_key_from_bytes quorum_key) InvalidQuorumKey;
    if negb (bool_decide (length certificate.1 = 96)) then Err InvalidStakeCertificate
    else
      signature ← ok_or (cert_sig_from_bytes certificate.1) InvalidStakeCertificate;
      if negb (cert_verify public_key signature certificate.2) then Err InvalidStakeCertificate
      else Ok tt.

(** The closure run on every stake transaction. *)
Definition validate_stake (now : Z) (s : Stake) : result ClaimValidatorError unit :=
  _ ← map_err (fun _ => InvalidStakeTxn) (stake_verify s);
  _ ← validate_stake_timestamp now s;
  match st_certificate s with
  | None => Err NonCertifiedStake
  | Some certificate => validate_certificate (st_validator_quorum_key s) certificate
  end.

(** The role and the stake it needs. *)
Definition validate_role (c : Claim) : result ClaimValidatorError unit :=
  match c_eligibility c with
  | EligNone => Err NotEligibleClaim
  | EligHarvester =>
      if (c_stake c <? MIN_STAKE_VALIDATOR)%Z
      then Err (NotEnoughStake (Eligibility_to_string (c_eligibility c))) else Ok tt
  | EligMiner => Ok tt
  | EligFarmer =>
      if (c_stake c <? MIN_STAKE_FARMER)%Z
      then Err (NotEnoughStake (Eligibility_to_string (c_eligibility c))) else Ok tt
  end.

(** A node is jailed while its last stake transaction is a slash. *)
Definition jailed (stakes : list Stake) : bool :=
  match last stakes with
  | Some s => match st_amount s with Slash amount => (0 <? amount)%Z | _ => false end
  | None => false
  end.

Definition err_of {E A} (r : result E A) : option E :=
  match r with Err e => Some e | _ => None end.

(** The stakes are checked in parallel: when several fail, [pick] is the one
    whose error is returned. *)
Definition validate_stakes (pick : ClaimValidatorError -> list ClaimValidatorError ->
    ClaimValidatorError) (now : Z) (stakes : list Stake) : result ClaimValidatorError unit :=
  match omap (fun s => err_of (validate_stake now s)) stakes with
  | [] => Ok tt
  | e :: es => Err (pick e es)
  end.

Definition validate_claim (pick : ClaimValidatorError -> list ClaimValidatorError ->
    ClaimValidatorError) (now : Z) (c : Claim) : result ClaimValidatorError unit :=
  _ ← validate_role c;
  if jailed (c_stake_txns c) then Err Jailed
  else validate_stakes pick now (c_stake_txns c).

(** [Core::process_claims], as the pairs it collects. *)
Definition process_claims (pick : ClaimValidatorError -> list ClaimValidatorError ->
    ClaimValidatorError) (now : Z) (batch : list Claim)
    : list (Claim * result ClaimValidatorError unit) :=
  (fun c => (c, validate_claim pick now c)) <$> batch.

(** ** What the API can build *)

(** A stake transaction made by [Stake::new] and certified any number of times. *)
Inductive stake_made : Stake -> Prop :=
| made_new now amount sk pk from to s :
    Stake_new now amount sk pk from to = Some s -> stake_made s
| made_certified cert s s' r :
    stake_made s -> certify cert s = (s', r) -> stake_made s'.

Definition set_eligibility (e : Eligibility) (c : Claim) : Claim :=
  {| c_public_key := c_public_key c; c_address := c_address c; c_hash := c_hash c;
     c_eligibility := e; c_ip_address := c_ip_address c; c_signature := c_signature c;
     c_node_id := c_node_id c; c_stake := c_stake c; c_stake_txns := c_stake_txns c |}.

(** A claim made by [Claim::new], its public field set at will, and offered
    such transactions. *)
Inductive claim_made : Claim -> Prop :=
| claim_created pk addr ip sig node c :
    Claim_new pk addr ip sig node = Ok c -> claim_made c
| claim_role e c : claim_made c -> claim_made (set_eligibility e c)
| claim_staked s c c' r :
    claim_made c -> stake_made s -> update_stake s c = (c', r) -> claim_made c'.

Lemma stake_made_no_key s : stake_made s -> st_validator_quorum_key s = [].
Proof.
  induction 1 as [now amount sk pk from to s Hn|cert s s' r _ IH Hc].
  - unfold Stake_new in Hn. destruct (message_from_slice _); by simplify_eq/=.
  - unfold certify in Hc. case_bool_decide; by simplify_eq/=.
Qed.

Definition stakes_keyless (c : Claim) : Prop :=
  Forall (fun s => st_validator_quorum_key s = []) (c_stake_txns c) /\
  (c_stake_txns c = [] -> c_stake c = 0%Z).

Lemma update_stake_keyless s c c' r :
  st_validator_quorum_key s = [] -> stakes_keyless c -> update_stake s c = (c', r) ->
  stakes_keyless c'.
Proof.
  intros Hs [Hk Hz]. unfold update_stake, stakes_keyless.
  destruct (negb _); [by intros [= <- <-]|].
  destruct (st_certificate s); [|by intros [= <- <-]].
  assert (Ha : Forall (fun s => st_validator_quorum_key s = []) (c_stake_txns c ++ [s]))
    by (apply Forall_app; auto).
  assert (Hne : c_stake_txns c ++ [s] <> []) by (by destruct (c_stake_txns c)).
  destruct (check_stake_utxo _) as [stake|e|]; [|intros [= <- <-]; by simpl..].
  destruct (Z.eqb_spec stake (c_stake c)) as [->|_]; intros [= <- <-]; by simpl.
Qed.

Lemma claim_made_keyless c : claim_made c -> stakes_keyless c.
Proof.
  induction 1 as [pk addr ip sig node c Hn|e c _ IH|s c c' r _ IH Hs Hu].
  - unfold Claim_new in Hn. destruct (is_valid_claim _ _ _); by simplify_eq/=.
  - done.
  - eapply update_stake_keyless; [by apply stake_made_no_key|done|done].
Qed.

Lemma keyless_stake_fails now s :
  st_validator_quorum_key s = [] -> exists e, validate_stake now s = Err e.
Proof.
  intros Hk. unfold validate_stake, validate_certificate, validate_stake_timestamp, stake_verify.
  rewrite Hk, bool_decide_eq_true_2 by done.
  destruct (message_from_slice _); [|by eexists].
  destruct (verify_message _ _ _); [|by eexists].
  destruct ((_ <? _)%Z && _); [|by eexists]. simpl.
  destruct (st_certificate s); by eexists.
Qed.

(** The claim validator never accepts a claim the API can build except an
    unstaked miner's: a stake transaction leaves [Stake::new] without a quorum
    key and nothing sets one, so every claim that has the stake a harvester or a
    farmer needs, and every miner's claim that took a stake, is refused. *)
Lemma staked_claim_never_validates pick (now : Z) (c : Claim) :
  claim_made c ->
  (validate_claim pick now c = Ok tt <->
   c_eligibility c = EligMiner /\ c_stake_txns c = []).
Proof.
  intros [Hk Hz]%claim_made_keyless. unfold validate_claim.
  destruct (c_stake_txns c) as [|s l] eqn:Htx.
  - unfold validate_role. rewrite (Hz eq_refl).
    destruct (c_eligibility c); simpl; naive_solver.
  - split; [|naive_solver]. intros Hv.
    destruct (validate_role c); [|done..]. simpl in Hv.
    destruct (jailed _); [done|]. unfold validate_stakes in Hv. simpl in Hv.
    inversion Hk as [|? ? Hs _]; subst.
    destruct (keyless_stake_fails now s Hs) as [e He]. by rewrite He in Hv.
Qed.
End claim_validator.

Section witnesses.
Import Toy Sample.
#[local] Existing Instance release.
#[local] Existing Instance toy_addrs.

(** A toy scheme: a key and a signature are their bytes. *)
#[local] Instance toy_cert_keys : CertificateKeys := {|
  CertKey := bytes;
  CertSignature := bytes;
  cert_key_from_bytes := Some;
  cert_sig_from_bytes := Some;
  cert_verify := fun k s m => bool_decide (s = k ++ k);
|}.

Definition alice_funded : gmap Address Account := {[ alice := funded ]}.

Lemma txn_validator_rejects_all_witness :
  validate_txn sig_to_string 1700000005 alice_funded (TransferKind transfer)
    = Err SenderAddressMissing /\
  validate_txn sig_to_string 1700000005 alice_funded
    (TransferKind (transfer_of alice bob 5000 1)) = Err TxnAmountIncorrect /\
  validate_txn sig_to_string 1700000005 alice_funded
    (TransferKind (transfer_of bob alice 1 1)) = Panic.
Proof.
  assert (Hwf : forall a account, alice_funded !! a = Some account -> account_wf account).
  { intros a account Hl. unfold alice_funded in Hl.
    apply lookup_singleton_Some in Hl as [_ <-]. apply funded_wf. }
  split_and!.
  - rewrite (txn_validator_rejects_all sig_to_string 1700000005 alice_funded
               (TransferKind transfer)); [by vm_compute|apply Hwf|by vm_compute].
  - rewrite (txn_validator_rejects_all sig_to_string 1700000005 alice_funded
               (TransferKind (transfer_of alice bob 5000 1)));
      [by vm_compute|apply Hwf|by vm_compute].
  - rewrite (txn_validator_rejects_all sig_to_string 1700000005 alice_funded
               (TransferKind (transfer_of bob alice 1 1)));
      [by vm_compute|apply Hwf|by vm_compute].
Defined.

Definition farmer_stake : Stake :=
  default (certified_stake alice None (Add 0))
    (Stake_new 1700000000 (Add 20000) alice_sk (pk_of_sk alice_sk) alice None).

Definition farmer_claim : Claim :=
  set_eligibility EligFarmer
    (update_stake (certify (replicate 96 x00, []) farmer_stake).1 alice_claim).1.

Lemma farmer_stake_made : stake_made farmer_stake.
Proof.
  unfold farmer_stake, Stake_new, stake_payload. rewrite message_of_hash.
  eapply made_new. unfold Stake_new, stake_payload. by rewrite message_of_hash.
Defined.

Lemma claim_of_made sk addr ip node : claim_made (claim_of sk addr ip node).
Proof.
  eapply (claim_created (pk_of_sk sk) addr ip _ node). unfold Claim_new.
  rewrite claim_signature_valid; [reflexivity|].
  unfold signature_for_valid_claim, ecdsa_sign. by rewrite sk_from_slice_bytes.
Defined.

End witnesses.
